(** * Review lifecycle of the GitHub pull-request code-review agent

    A shallow embedding of the review record (models/Review), the Gemini
    service (generateReview, parseReviewResponse, generateSummaryComment),
    the duplicate check of the GitHub service (hasAlreadyReviewed) and the
    webhook controller (handlePullRequest, processReviewAsync, retryReview),
    followed by the properties of the lifecycle.  Around it, the status
    endpoint (getReviewStatus), the validators of the webhook route
    (validateGitHubWebhook, verifySignature, webhookRateLimit,
    validateWebhookPayload), the position of a line in a patch
    (getLinePosition) and the database connection (utils/database), each
    with its properties.

    Conventions of the embedding:
    - a JavaScript string is the list of its UTF-16 code units;
    - a thrown exception is the [Throw] result of a state-and-exception
      monad whose state survives the throw, as the heap does in JavaScript;
    - everything outside the process (GitHub, Gemini, the wall clock,
      [Math.random]) answers through an [Env] of oracles that see the
      history of effects so far; every effect is appended to a trace;
    - the database answers every query: [find] does not raise, and
      [save] raises only when the validation of the document against
      the schema refuses it; index errors are not modelled;
    - a webhook payload carries the pull request and the repository
      with the fields that the handler reads, and the route parameter
      [prId] is one that [parseInt] reads as a number: a payload without
      them, and a parameter read as [NaN], are outside the embedding;
    - a call of a method of the GitHub service is one effect, whatever
      requests the method sends;
    - logging is not modelled. *)

From Stdlib Require Import String Ascii DecimalString.
From Stdlib Require Import List ZArith QArith Qround Qpower Lia Lqa Bool Arith Floats.
Import ListNotations.

#[local] Set Warnings "-register-all".
Local Open Scope nat_scope.

(** ** JavaScript values, strings and errors *)

Module Js.

Definition jsstring : Type := list N.

(** A string literal of the source, as code units (ASCII literals only). *)
Definition js (s : string) : jsstring :=
  map N_of_ascii (list_ascii_of_string s).

Fixpoint eqb_str (a b : jsstring) : bool :=
  match a, b with
  | [], [] => true
  | x :: a', y :: b' => N.eqb x y && eqb_str a' b'
  | _, _ => false
  end.

(** [s.startsWith(prefix)] *)
Fixpoint startsWith (s prefix : jsstring) : bool :=
  match prefix, s with
  | [], _ => true
  | p :: ps, c :: cs => N.eqb p c && startsWith cs ps
  | _ :: _, [] => false
  end.

(** [s.includes(sub)] *)
Fixpoint includes (s sub : jsstring) : bool :=
  startsWith s sub ||
  match s with
  | [] => false
  | _ :: t => includes t sub
  end.

(** [s.indexOf(c)] for a one-unit string [c]; [None] is -1. *)
Fixpoint indexOf (s : jsstring) (c : N) : option nat :=
  match s with
  | [] => None
  | x :: t => if N.eqb x c then Some 0 else option_map S (indexOf t c)
  end.

(** [s.lastIndexOf(c)] for a one-unit string [c]; [None] is -1. *)
Fixpoint lastIndexOf (s : jsstring) (c : N) : option nat :=
  match s with
  | [] => None
  | x :: t =>
      match lastIndexOf t c with
      | Some i => Some (S i)
      | None => if N.eqb x c then Some 0 else None
      end
  end.

(** [s.substring(a, b)]: both indices are clamped to the length and
    swapped when out of order. *)
Definition substring (s : jsstring) (a b : nat) : jsstring :=
  let a' := Nat.min a (length s) in
  let b' := Nat.min b (length s) in
  firstn (Nat.max a' b' - Nat.min a' b') (skipn (Nat.min a' b') s).

(** The class [\s] of regular expressions, which is also what [trim]
    removes: white space and line terminators. *)
Definition is_space (c : N) : bool :=
  ((9 <=? c) && (c <=? 13) || (c =? 32) || (c =? 160) || (c =? 5760)
   || (8192 <=? c) && (c <=? 8202) || (c =? 8232) || (c =? 8233)
   || (c =? 8239) || (c =? 8287) || (c =? 12288) || (c =? 65279))%N.

Fixpoint trimStart (s : jsstring) : jsstring :=
  match s with
  | [] => []
  | c :: t => if is_space c then trimStart t else s
  end.

Definition trim (s : jsstring) : jsstring :=
  rev (trimStart (rev (trimStart s))).

(** [s.replace(/pat\s*/g, '')] for a literal, non-empty [pat]: scanning
    from the left, every occurrence of [pat] is removed together with the
    white space that follows it.  [fuel] bounds the scan; the length of
    the string plus one is enough. *)
Fixpoint remove_with_space (fuel : nat) (pat s : jsstring) : jsstring :=
  match fuel with
  | 0 => s
  | S fuel' =>
      if startsWith s pat
      then remove_with_space fuel' pat (trimStart (skipn (length pat) s))
      else match s with
           | [] => []
           | c :: t => c :: remove_with_space fuel' pat t
           end
  end.

(** Index of the first occurrence of [sub] in [s]. *)
Fixpoint search (s sub : jsstring) : option nat :=
  if startsWith s sub then Some 0
  else match s with
       | [] => None
       | _ :: t => option_map S (search t sub)
       end.

(** [s.replace(/pat[\s\S]*?pat/g, '')] for a literal, non-empty [pat]:
    a block opened by [pat] is removed up to and including the nearest
    closing [pat]. *)
Fixpoint remove_blocks (fuel : nat) (pat s : jsstring) : jsstring :=
  match fuel with
  | 0 => s
  | S fuel' =>
      let step :=
        match s with
        | [] => []
        | c :: t => c :: remove_blocks fuel' pat t
        end in
      if startsWith s pat
      then match search (skipn (length pat) s) pat with
           | Some i => remove_blocks fuel' pat (skipn (length pat + i + length pat) s)
           | None => step
           end
      else step
  end.

(** [s.match(/\[[\s\S]*\]/)]: the leftmost opening bracket that has a
    closing bracket after it, up to the last closing bracket. *)
Definition match_array (s : jsstring) : option jsstring :=
  match indexOf s 91%N, lastIndexOf s 93%N with
  | Some i, Some j => if i <? j then Some (substring s i (j + 1)) else None
  | _, _ => None
  end.

(** Arithmetic on numbers rounds to binary64.  A finite number is the
    rational it stands for; [round64] is the rounding of an exact result
    to the nearest number, ties to the even significand, subnormal
    numbers included.  Overflow is not modelled: the magnitudes here
    stay far below [2^1024]. *)

(** The nearest integer, ties to even. *)
Definition nearest_even (t : Q) : Z :=
  let f := Qfloor t in
  match Qcompare (t - inject_Z f) (1 # 2) with
  | Lt => f
  | Gt => (f + 1)%Z
  | Eq => if Z.even f then f else (f + 1)%Z
  end.

(** The integer part of the binary logarithm of a positive rational. *)
Definition ilog2 (x : Q) : Z :=
  let d := (Z.log2 (Qnum x) - Z.log2 (Zpos (Qden x)))%Z in
  if Qle_bool (2 ^ d) x then d else (d - 1)%Z.

(** The exponent of the unit in the last place: 53 significant bits,
    and no exponent below that of the subnormal numbers. *)
Definition ulp_exponent (x : Q) : Z := Z.max (ilog2 x - 52) (-1074).

Definition round_pos (x : Q) : Q :=
  let e := ulp_exponent x in
  (inject_Z (nearest_even (x / 2 ^ e)) * 2 ^ e)%Q.

Definition round64 (x : Q) : Q :=
  match Qcompare x 0 with
  | Eq => 0%Q
  | Gt => round_pos x
  | Lt => (- round_pos (- x))%Q
  end.

(** The rationals that are numbers of the language. *)
Definition representable (x : Q) : Prop := (round64 x == x)%Q.

(** Thrown values: [Error] objects with a name, a message and, for the
    application's [AppError], a status code. *)
Record JsError : Type := mkJsError {
  err_name : jsstring;
  err_message : jsstring;
  err_statusCode : option Z
}.

Definition Error_ (msg : jsstring) : JsError :=
  mkJsError (js "Error") msg None.

Definition TypeError (msg : jsstring) : JsError :=
  mkJsError (js "TypeError") msg None.

(** [new AppError(message, statusCode)] of middleware/errorHandler.js *)
Definition AppError (msg : jsstring) (statusCode : Z) : JsError :=
  mkJsError (js "AppError") msg (Some statusCode).

(** Values as [JSON.parse] produces them, and [undefined].  An object is
    the list of its own properties. *)
Inductive Value : Type :=
| VUndefined
| VNull
| VBool (b : bool)
| VNum (d : float)
| VStr (s : jsstring)
| VArr (items : list Value)
| VObj (props : list (jsstring * Value)).

(** Two lists are the same, element by element. *)
Fixpoint list_eqb {A : Type} (eqb : A -> A -> bool) (a b : list A) : bool :=
  match a, b with
  | [], [] => true
  | x :: a', y :: b' => eqb x y && list_eqb eqb a' b'
  | _, _ => false
  end.

(** Two values are the same value. *)
Fixpoint Value_eqb (a b : Value) : bool :=
  match a, b with
  | VUndefined, VUndefined | VNull, VNull => true
  | VBool x, VBool y => Bool.eqb x y
  | VNum x, VNum y => PrimFloat.Leibniz.eqb x y
  | VStr x, VStr y => eqb_str x y
  | VArr xs, VArr ys =>
      (fix items (xs ys : list Value) : bool :=
         match xs, ys with
         | [], [] => true
         | x :: xs', y :: ys' => Value_eqb x y && items xs' ys'
         | _, _ => false
         end) xs ys
  | VObj ps, VObj qs =>
      (fix props (ps qs : list (jsstring * Value)) : bool :=
         match ps, qs with
         | [], [] => true
         | (k, x) :: ps', (l, y) :: qs' => eqb_str k l && Value_eqb x y && props ps' qs'
         | _, _ => false
         end) ps qs
  | _, _ => false
  end.

(** ToBoolean *)
Definition truthy (v : Value) : bool :=
  match v with
  | VUndefined | VNull => false
  | VBool b => b
  | VNum d => negb (PrimFloat.eqb d 0%float || PrimFloat.is_nan d)
  | VStr s => negb (Nat.eqb (length s) 0)
  | VArr _ | VObj _ => true
  end.

(** [a || b] on values *)
Definition or_else (a b : Value) : Value :=
  if truthy a then a else b.

Inductive Result (A : Type) : Type :=
| Ok (a : A)
| Throw (e : JsError).

Arguments Ok {A} a.
Arguments Throw {A} e.

(** [v.key] for the property names the parser reads (file, line,
    severity, category, comment, suggestion), none of which lives on a
    prototype: reading a property of [null] or [undefined] throws, a
    primitive or an array has none of them. *)
Definition get_field (v : Value) (key : jsstring) : Result Value :=
  match v with
  | VUndefined | VNull =>
      Throw (TypeError (js "Cannot read properties of null or undefined"))
  | VObj props =>
      match find (fun kv => eqb_str (fst kv) key) props with
      | Some kv => Ok (snd kv)
      | None => Ok VUndefined
      end
  | _ => Ok VUndefined
  end.

End Js.

Import Js.

(** ** A state monad with exceptions

    [M S A] runs on a state [S] and either returns or throws; the state
    reached is kept in both cases. *)

Definition M (S A : Type) : Type := S -> Result A * S.

Definition ret {S A : Type} (a : A) : M S A :=
  fun s => (Ok a, s).

Definition throw {S A : Type} (e : JsError) : M S A :=
  fun s => (Throw e, s).

Definition bind {S A B : Type} (c : M S A) (k : A -> M S B) : M S B :=
  fun s =>
    match c s with
    | (Ok a, s') => k a s'
    | (Throw e, s') => (Throw e, s')
    end.

(** [try { body } catch (e) { handler }] *)
Definition try_catch {S A : Type} (body : M S A) (handler : JsError -> M S A) : M S A :=
  fun s =>
    match body s with
    | (Ok a, s') => (Ok a, s')
    | (Throw e, s') => handler e s'
    end.

Definition gets {S A : Type} (f : S -> A) : M S A :=
  fun s => (Ok (f s), s).

Definition modify {S : Type} (f : S -> S) : M S unit :=
  fun s => (Ok tt, f s).

(** A pure computation that may throw, run inside [M]. *)
Definition lift_result {S A : Type} (r : Result A) : M S A :=
  fun s => (r, s).

Declare Scope js_scope.
Delimit Scope js_scope with js.

Notation "x <- c1 ;; c2" := (bind c1 (fun x => c2))
  (at level 61, c1 at next level, right associativity) : js_scope.
Notation "c1 ;; c2" := (bind c1 (fun _ => c2))
  (at level 61, right associativity) : js_scope.

Local Open Scope js_scope.

(** ** The data model (models/Review.js and the payloads exchanged) *)

(** A review comment as [parseReviewResponse] builds it.  [file],
    [category], [comment] and [suggestion] are copied from the parsed
    response without conversion, so they hold values. *)
Module Comment.
Record t : Type := mk {
  file : Value;
  line : float;
  severity : jsstring;
  category : Value;
  comment : Value;
  suggestion : Value
}.

Definition eqb (a b : t) : bool :=
  Value_eqb (file a) (file b)
  && PrimFloat.Leibniz.eqb (line a) (line b)
  && eqb_str (severity a) (severity b)
  && Value_eqb (category a) (category b)
  && Value_eqb (comment a) (comment b)
  && Value_eqb (suggestion a) (suggestion b).
End Comment.

(** An entry of [prData.diff_files] (services/githubService.js). *)
Module DiffFile.
Record t : Type := mk {
  file_path : jsstring;
  status : jsstring;
  additions : Z;
  deletions : Z;
  changes : Z;
  diff : jsstring
}.
End DiffFile.

Module FileReviewed.
Record t : Type := mk {
  filePath : jsstring;
  status : jsstring;
  additions : Z;
  deletions : Z;
  changes : Z
}.
End FileReviewed.

Module PrData.
Record t : Type := mk {
  pull_request_id : Z;
  repository : jsstring;
  diff_files : list DiffFile.t
}.
End PrData.

Module PrInfo.
Record t : Type := mk {
  title : jsstring;
  description : option jsstring;
  author : jsstring;
  baseBranch : jsstring;
  headBranch : jsstring;
  commitSha : jsstring
}.
Definition set_commitSha (sha : jsstring) (p : t) : t :=
  mk (title p) (description p) (author p) (baseBranch p) (headBranch p) sha.
End PrInfo.

Inductive Status : Type :=
| pending
| in_progress
| completed
| failed
| skipped.

Definition Status_eqb (a b : Status) : bool :=
  match a, b with
  | pending, pending | in_progress, in_progress | completed, completed
  | failed, failed | skipped, skipped => true
  | _, _ => false
  end.

(** The review document.  Dates are milliseconds since the epoch;
    [retryCount] is a natural number ([Number] in the schema);
    [createdAt], [updatedAt] and [reviewCriteria] are left out. *)
Module Review.
Record t : Type := mk {
  _id : nat;
  pullRequestId : Z;
  repository : jsstring;
  owner : jsstring;
  repo : jsstring;
  prInfo : PrInfo.t;
  comments : list Comment.t;
  summaryComment : option jsstring;
  status : Status;
  githubReviewId : option Z;
  reviewStartedAt : option Z;
  reviewCompletedAt : option Z;
  errorMessage : option jsstring;
  retryCount : N;
  filesReviewed : list FileReviewed.t
}.

Definition set_prInfo (x : PrInfo.t) (r : t) : t :=
  mk (_id r) (pullRequestId r) (repository r) (owner r) (repo r) x
     (comments r) (summaryComment r) (status r) (githubReviewId r)
     (reviewStartedAt r) (reviewCompletedAt r) (errorMessage r)
     (retryCount r) (filesReviewed r).

Definition set_comments (x : list Comment.t) (r : t) : t :=
  mk (_id r) (pullRequestId r) (repository r) (owner r) (repo r) (prInfo r)
     x (summaryComment r) (status r) (githubReviewId r)
     (reviewStartedAt r) (reviewCompletedAt r) (errorMessage r)
     (retryCount r) (filesReviewed r).

Definition set_summaryComment (x : option jsstring) (r : t) : t :=
  mk (_id r) (pullRequestId r) (repository r) (owner r) (repo r) (prInfo r)
     (comments r) x (status r) (githubReviewId r)
     (reviewStartedAt r) (reviewCompletedAt r) (errorMessage r)
     (retryCount r) (filesReviewed r).

Definition set_status (x : Status) (r : t) : t :=
  mk (_id r) (pullRequestId r) (repository r) (owner r) (repo r) (prInfo r)
     (comments r) (summaryComment r) x (githubReviewId r)
     (reviewStartedAt r) (reviewCompletedAt r) (errorMessage r)
     (retryCount r) (filesReviewed r).

Definition set_githubReviewId (x : option Z) (r : t) : t :=
  mk (_id r) (pullRequestId r) (repository r) (owner r) (repo r) (prInfo r)
     (comments r) (summaryComment r) (status r) x
     (reviewStartedAt r) (reviewCompletedAt r) (errorMessage r)
     (retryCount r) (filesReviewed r).

Definition set_reviewStartedAt (x : option Z) (r : t) : t :=
  mk (_id r) (pullRequestId r) (repository r) (owner r) (repo r) (prInfo r)
     (comments r) (summaryComment r) (status r) (githubReviewId r)
     x (reviewCompletedAt r) (errorMessage r)
     (retryCount r) (filesReviewed r).

Definition set_reviewCompletedAt (x : option Z) (r : t) : t :=
  mk (_id r) (pullRequestId r) (repository r) (owner r) (repo r) (prInfo r)
     (comments r) (summaryComment r) (status r) (githubReviewId r)
     (reviewStartedAt r) x (errorMessage r)
     (retryCount r) (filesReviewed r).

Definition set_errorMessage (x : option jsstring) (r : t) : t :=
  mk (_id r) (pullRequestId r) (repository r) (owner r) (repo r) (prInfo r)
     (comments r) (summaryComment r) (status r) (githubReviewId r)
     (reviewStartedAt r) (reviewCompletedAt r) x
     (retryCount r) (filesReviewed r).

Definition set_retryCount (x : N) (r : t) : t :=
  mk (_id r) (pullRequestId r) (repository r) (owner r) (repo r) (prInfo r)
     (comments r) (summaryComment r) (status r) (githubReviewId r)
     (reviewStartedAt r) (reviewCompletedAt r) (errorMessage r)
     x (filesReviewed r).

Definition set_filesReviewed (x : list FileReviewed.t) (r : t) : t :=
  mk (_id r) (pullRequestId r) (repository r) (owner r) (repo r) (prInfo r)
     (comments r) (summaryComment r) (status r) (githubReviewId r)
     (reviewStartedAt r) (reviewCompletedAt r) (errorMessage r)
     (retryCount r) x.
End Review.

(** What the schema of models/Review.js asks of a document beyond the
    types of its paths, which the record above has. *)
Module Schema.

Definition severities : list jsstring :=
  [js "error"; js "warning"; js "suggestion"].

Definition categories : list jsstring :=
  [js "security"; js "performance"; js "readability"; js "best-practices";
   js "testing"; js "documentation"; js "bug"; js "maintainability"].

(** The [enum] validators of [reviewCommentSchema]: the severity of a
    comment and, when it is a string, its category are among the values
    listed.  The category "general", which is the default of the schema
    and of the parser, is not among them. *)
Definition enums_hold (c : Comment.t) : bool :=
  existsb (eqb_str (Comment.severity c)) severities
  && match Comment.category c with
     | VStr s => existsb (eqb_str s) categories
     | _ => true
     end.

(** The [required] validators of [reviewSchema] on its strings: none of
    them is empty.  [pullRequestId], a number, is there by its type. *)
Definition required_present (doc : Review.t) : bool :=
  negb (Nat.eqb (length (Review.repository doc)) 0)
  && negb (Nat.eqb (length (Review.owner doc)) 0)
  && negb (Nat.eqb (length (Review.repo doc)) 0).

End Schema.

(** What the GitHub API returns, as far as the code reads it. *)
Module GhUser.
Record t : Type := mk { login : jsstring }.
End GhUser.

(** An entry of [pulls.listReviews]; [user] is [null] for a deleted
    account. *)
Module GhReview.
Record t : Type := mk { id : Z; user : option GhUser.t }.
End GhReview.

(** ** Effects, environment and world *)

(** The effects the code performs, in the order performed. *)
Inductive Event : Type :=
| EvSave (doc : Review.t)
| EvListReviews (owner repo : jsstring) (pullNumber : Z)
| EvGetAuthenticated
| EvGetPullRequestData (owner repo : jsstring) (pullNumber : Z)
| EvGenerateContent
| EvSleep (ms : Q)
| EvPostReview (owner repo : jsstring) (pullNumber : Z)
               (comments : list Comment.t) (summaryComment : jsstring)
| EvPostFallback (owner repo : jsstring) (pullNumber : Z)
| EvStartReview (owner repo : jsstring) (pullNumber : Z) (reviewId : nat).

(** Calls that leave the process for GitHub or Gemini. *)
Definition is_external_call (e : Event) : bool :=
  match e with
  | EvListReviews _ _ _ | EvGetAuthenticated | EvGetPullRequestData _ _ _
  | EvGenerateContent | EvPostReview _ _ _ _ _ | EvPostFallback _ _ _ => true
  | EvSave _ | EvSleep _ | EvStartReview _ _ _ _ => false
  end.

(** The environment of a run.  The remote oracles receive the trace of
    effects so far, so their answers may change over time.
    - [clock k] is the [k]-th reading of the wall clock, [random k] the
      [k]-th value of [Math.random()], a number of the language;
    - [comment_accepted] is what the validation of a document by the
      database library says of a comment further to the [enum]
      validators of the schema: whether the values of [file],
      [category], [comment] and [suggestion], which the parser copies as
      they are, can be cast to the types of their paths and whether the
      required ones are there; [validation_error] is the error that it
      builds for a document that it refuses;
    - [JSON_parse] and [parseInt] are the built-ins of the language;
    - [category_lines] stands for the block of category lines of the
      summary, that is for the first [reduce] of
      [generateSummaryComment], [Object.entries] on its result and
      [getCategoryEmoji]: how a value becomes a property name, in which
      order an object lists its names and what the emoji table answers
      along its prototype chain are left to the language;
    - [fetch_pull_request] and [create_review] stand for the Octokit
      conversations inside [getPullRequestData] and [postReviewComments],
      [generateContent] for prompt, model call and [response.text()]. *)
Record Env : Type := mkEnv {
  clock : nat -> Z;
  random : nat -> Q;
  JSON_parse : jsstring -> Result Value;
  parseInt : Value -> float;
  category_lines : list Comment.t -> Result jsstring;
  pulls_listReviews : list Event -> jsstring -> jsstring -> Z -> Result (list GhReview.t);
  users_getAuthenticated : list Event -> Result GhUser.t;
  fetch_pull_request : list Event -> jsstring -> jsstring -> Z -> Result PrData.t;
  generateContent : list Event -> PrData.t -> Result jsstring;
  create_review : list Event -> jsstring -> jsstring -> Z -> list Comment.t -> jsstring -> Result GhReview.t;
  issues_createComment : list Event -> jsstring -> jsstring -> Z -> Result unit;
  comment_accepted : Comment.t -> bool;
  validation_error : Review.t -> JsError
}.

(** The state of the process and of its database: the collection of
    review documents in insertion order, the trace, the number of clock
    readings and of random draws, the cached bot identity of the GitHub
    service and the next document id. *)
Record World : Type := mkWorld {
  reviews : list Review.t;
  trace : list Event;
  ticks : nat;
  draws : nat;
  botUser : option GhUser.t;
  nextId : nat
}.

Definition emit (e : Event) : M World unit :=
  modify (fun w => mkWorld (reviews w) (trace w ++ [e]) (ticks w) (draws w)
                           (botUser w) (nextId w)).

Definition set_botUser (u : option GhUser.t) : M World unit :=
  modify (fun w => mkWorld (reviews w) (trace w) (ticks w) (draws w) u (nextId w)).

(** Replace the document that has the id of [doc], or insert [doc]. *)
Definition upsert (doc : Review.t) (l : list Review.t) : list Review.t :=
  if existsb (fun r => Review._id r =? Review._id doc) l
  then map (fun r => if Review._id r =? Review._id doc then doc else r) l
  else l ++ [doc].

Section WithEnv.

Variable E : Env.

(** [new Date()] / [Date.now()] *)
Definition now : M World Z :=
  fun w => (Ok (clock E (ticks w)),
            mkWorld (reviews w) (trace w) (S (ticks w)) (draws w) (botUser w) (nextId w)).

(** [Math.random()] *)
Definition Math_random : M World Q :=
  fun w => (Ok (random E (draws w)),
            mkWorld (reviews w) (trace w) (ticks w) (S (draws w)) (botUser w) (nextId w)).

(** [setTimeout] awaited: the run is suspended for [ms] milliseconds. *)
Definition sleep (ms : Q) : M World unit := emit (EvSleep ms).

(** *** models/Review.js *)

(** The write of a document to the collection. *)
Definition write (doc : Review.t) : M World Review.t :=
  modify (fun w => mkWorld (upsert doc (reviews w)) (trace w) (ticks w) (draws w)
                           (botUser w) (nextId w)) ;;
  emit (EvSave doc) ;;
  ret doc.

(** The collection holds a document with the id of [doc]. *)
Definition is_stored (doc : Review.t) (l : list Review.t) : bool :=
  existsb (fun r => Review._id r =? Review._id doc) l.

(** The comments of [doc] are those that the collection holds for it:
    they have not been assigned since the document was loaded or
    written. *)
Definition comments_stored (doc : Review.t) (l : list Review.t) : bool :=
  existsb (fun r => (Review._id r =? Review._id doc)
                    && list_eqb Comment.eqb (Review.comments r) (Review.comments doc)) l.

(** The validation of the comments of a document. *)
Definition comments_valid (comments : list Comment.t) : bool :=
  forallb (fun c => Schema.enums_hold c && comment_accepted E c) comments.

(** Whether the validation that precedes a write refuses [doc].  What
    the collection holds was validated when it was written, and the
    paths that the handlers assign afterwards hold values of their
    types, but for the comments; so the required strings are looked at
    for a new document, and the comments when they are not the stored
    ones. *)
Definition refused (doc : Review.t) (l : list Review.t) : bool :=
  negb (is_stored doc l) && negb (Schema.required_present doc)
  || negb (comments_stored doc l) && negb (comments_valid (Review.comments doc)).

(** [doc.save()]: the document is validated against the schema and then
    written; a document that is refused is not written, and the error
    of the validation is thrown. *)
Definition save (doc : Review.t) : M World Review.t :=
  fun w =>
    if refused doc (reviews w)
    then (Throw (validation_error E doc), w)
    else write doc w.

Definition markInProgress (this : Review.t) : M World Review.t :=
  let this := Review.set_status in_progress this in
  d <- now ;;
  let this := Review.set_reviewStartedAt (Some d) this in
  save this.

(** [githubReviewId] is [None] when the argument is absent; an id of 0 is
    falsy and is not stored either. *)
Definition markCompleted (githubReviewId : option Z) (this : Review.t) : M World Review.t :=
  let this := Review.set_status completed this in
  d <- now ;;
  let this := Review.set_reviewCompletedAt (Some d) this in
  let this :=
    match githubReviewId with
    | Some i => if (i =? 0)%Z then this else Review.set_githubReviewId (Some i) this
    | None => this
    end in
  save this.

Definition markFailed (errorMessage : jsstring) (this : Review.t) : M World Review.t :=
  let this := Review.set_status failed this in
  let this := Review.set_errorMessage (Some errorMessage) this in
  d <- now ;;
  let this := Review.set_reviewCompletedAt (Some d) this in
  save this.

Definition incrementRetry (this : Review.t) : M World Review.t :=
  let this := Review.set_retryCount (Review.retryCount this + 1)%N this in
  let this := Review.set_status pending this in
  let this := Review.set_errorMessage None this in
  save this.

(** [Review.findByPR]: the first document of the collection with this
    owner, repo and pull-request number. *)
Definition findByPR (owner repo : jsstring) (pullRequestId : Z) : M World (option Review.t) :=
  gets (fun w => find (fun r => eqb_str (Review.owner r) owner
                                && eqb_str (Review.repo r) repo
                                && (Review.pullRequestId r =? pullRequestId)%Z)
                      (reviews w)).

Definition findById (reviewId : nat) : M World (option Review.t) :=
  gets (fun w => find (fun r => Review._id r =? reviewId) (reviews w)).

End WithEnv.

(** ** Exceptions without state, for the pure parts *)

Definition and_then {A B : Type} (r : Result A) (k : A -> Result B) : Result B :=
  match r with
  | Ok a => k a
  | Throw e => Throw e
  end.

Definition catch_r {A : Type} (body : Result A) (handler : JsError -> Result A) : Result A :=
  match body with
  | Ok a => Ok a
  | Throw e => handler e
  end.

Notation "x <~ c1 ;; c2" := (and_then c1 (fun x => c2))
  (at level 61, c1 at next level, right associativity) : js_scope.

(** [l.filter(p)] and [l.map(f)] for callbacks that may throw: the
    elements are visited in order and the first throw ends the call. *)
Fixpoint filter_r {A : Type} (p : A -> Result bool) (l : list A) : Result (list A) :=
  match l with
  | [] => Ok []
  | x :: t =>
      keep <~ p x ;;
      rest <~ filter_r p t ;;
      Ok (if keep then x :: rest else rest)
  end.

Fixpoint map_r {A B : Type} (f : A -> Result B) (l : list A) : Result (list B) :=
  match l with
  | [] => Ok []
  | x :: t =>
      y <~ f x ;;
      rest <~ map_r f t ;;
      Ok (y :: rest)
  end.

(** An external call: the oracle answers from the history, and the call
    is appended to the trace. *)
Definition call {A : Type} (ev : Event) (oracle : list Event -> Result A) : M World A :=
  fun w => (oracle (trace w),
            mkWorld (reviews w) (trace w ++ [ev]) (ticks w) (draws w) (botUser w) (nextId w)).

(** [String(n)] for a natural number *)
Definition toString (n : nat) : jsstring :=
  js (DecimalString.NilZero.string_of_uint (Nat.to_uint n)).

(** ** services/geminiService.js *)

Module Gemini.
Section WithEnv.

Variable E : Env.

Definition allowedSeverities : list jsstring :=
  [js "error"; js "warning"; js "suggestion"].

Definition normalizeSeverity (severity : Value) : jsstring :=
  match severity with
  | VStr s => if existsb (eqb_str s) allowedSeverities then s else js "error"
  | _ => js "error"
  end.

(** The filter callback of both parses: [comment.file && comment.comment]
    is truthy ([!comment.file || !comment.comment] is false). *)
Definition has_file_and_comment (comment : Value) : Result bool :=
  f <~ get_field comment (js "file") ;;
  if truthy f
  then c <~ get_field comment (js "comment") ;; Ok (truthy c)
  else Ok false.

(** The map callback of both parses. *)
Definition to_comment (comment : Value) : Result Comment.t :=
  file <~ get_field comment (js "file") ;;
  line <~ get_field comment (js "line") ;;
  severity <~ get_field comment (js "severity") ;;
  category <~ get_field comment (js "category") ;;
  text <~ get_field comment (js "comment") ;;
  suggestion <~ get_field comment (js "suggestion") ;;
  Ok (Comment.mk file
        (let n := parseInt E line in if truthy (VNum n) then n else 1%float)
        (normalizeSeverity severity)
        (or_else category (VStr (js "general")))
        text
        (or_else suggestion VNull)).

Definition fence : jsstring := js "```".

(** The three [replace] calls and the [trim] that open the [try]. *)
Definition strip_markdown (responseText : jsstring) : jsstring :=
  let s1 := remove_with_space (S (length responseText)) (js "```json") responseText in
  let s2 := remove_with_space (S (length s1)) fence s1 in
  let s3 := remove_blocks (S (length s2)) fence s2 in
  trim s3.

(** The body of the outer [try] of [parseReviewResponse]. *)
Definition primary_parse (responseText : jsstring) : Result (list Comment.t) :=
  let cleanedResponse := strip_markdown responseText in
  let cleanedResponse :=
    match match_array cleanedResponse with
    | Some jsonMatch => jsonMatch
    | None => cleanedResponse
    end in
  let cleanedResponse :=
    match lastIndexOf cleanedResponse 93%N with
    | Some jsonEndIndex => substring cleanedResponse 0 (jsonEndIndex + 1)
    | None => cleanedResponse
    end in
  parsed <~ JSON_parse E cleanedResponse ;;
  match parsed with
  | VArr items =>
      kept <~ filter_r has_file_and_comment items ;;
      map_r to_comment kept
  | _ => Ok []
  end.

(** The body of the inner [try]: the text between the first opening
    bracket and the last closing bracket of the raw response.  [None]
    means that the [try] ended without a [return]. *)
Definition fallback_parse (responseText : jsstring) : Result (option (list Comment.t)) :=
  let arrayStart := indexOf responseText 91%N in
  let arrayEnd := lastIndexOf responseText 93%N in
  match arrayStart, arrayEnd with
  | Some arrayStart, Some arrayEnd =>
      if arrayStart <? arrayEnd
      then
        let jsonPart := substring responseText arrayStart (arrayEnd + 1) in
        parsed <~ JSON_parse E jsonPart ;;
        match parsed with
        | VArr items =>
            kept <~ filter_r has_file_and_comment items ;;
            cs <~ map_r to_comment kept ;;
            Ok (Some cs)
        | _ => Ok None
        end
      else Ok None
  | _, _ => Ok None
  end.

Definition parseReviewResponse (responseText : jsstring) : Result (list Comment.t) :=
  catch_r (primary_parse responseText)
    (fun error =>
       r <~ catch_r (fallback_parse responseText) (fun fallbackError => Ok None) ;;
       match r with
       | Some cs => Ok cs
       | None => Ok []
       end).

Definition maxRetries : nat := 5.

(** The test of the [catch] block of [generateReview]. *)
Definition is_overloaded (error : JsError) : bool :=
  includes (err_message error) (js "503") || includes (err_message error) (js "overloaded").

(** [Math.pow(2, attempt) * 1000], in milliseconds: a power of two and
    its product by 1000 are integers far below [2^53], which binary64
    holds exactly. *)
Definition baseWaitTime (attempt : nat) : Z := (2 ^ Z.of_nat attempt * 1000)%Z.

(** The [throw] that follows the loop. *)
Definition throw_after_loop (lastError : option JsError) : M World (list Comment.t) :=
  match lastError with
  | Some e =>
      throw (Error_ (js "Failed to generate code review after " ++ toString maxRetries
                     ++ js " attempts: " ++ err_message e))
  | None => throw (TypeError (js "Cannot read properties of undefined (reading 'message')"))
  end.

(** The loop [for (attempt = 1; attempt <= maxRetries; attempt++)], with
    [remaining] the number of iterations left: [attempt + remaining] is
    [maxRetries + 1] throughout.  [continue] is the recursive call,
    [break] goes to the [throw] after the loop. *)
Fixpoint attempts (remaining attempt : nat) (lastError : option JsError)
    (prData : PrData.t) : M World (list Comment.t) :=
  match remaining with
  | 0 => throw_after_loop lastError
  | S remaining' =>
      try_catch
        (reviewText <- call EvGenerateContent (fun tr => generateContent E tr prData) ;;
         parsedReview <- lift_result (parseReviewResponse reviewText) ;;
         ret parsedReview)
        (fun error =>
           let lastError := Some error in
           if is_overloaded error
           then
             r <- Math_random E ;;
             let jitter := round64 (r * 1000) in
             let waitTime := round64 (inject_Z (baseWaitTime attempt) + jitter) in
             if attempt <? maxRetries
             then sleep waitTime ;; attempts remaining' (S attempt) lastError prData
             else throw_after_loop lastError
           else throw_after_loop lastError)
  end.

Definition generateReview (prData : PrData.t) : M World (list Comment.t) :=
  attempts maxRetries 1 None prData.

(** Party popper and robot face, as surrogate pairs. *)
Definition emoji_tada : jsstring := [55356; 57225]%N.
Definition emoji_robot : jsstring := [55358; 56598]%N.

Definition no_issues_summary : jsstring :=
  emoji_tada ++ js " **Code Review Complete**" ++ [10; 10]%N
  ++ js "This pull request looks good! No issues found during the automated review.".

Definition default_summary : jsstring :=
  emoji_robot ++ js " **Automated Code Review Complete**" ++ [10; 10]%N
  ++ js "Review completed. Please check inline comments for feedback.".

(** Red circle, yellow circle and light bulb. *)
Definition emoji_error : jsstring := [55357; 56628]%N.
Definition emoji_warning : jsstring := [55357; 57313]%N.
Definition emoji_suggestion : jsstring := [55357; 56481]%N.

(** [severityCounts[severity]]: the severities are strings, and none of
    the three that are read is a name of the prototype. *)
Definition severityCount (severity : jsstring) (comments : list Comment.t) : nat :=
  length (filter (fun comment => eqb_str (Comment.severity comment) severity) comments).

(** A line of the severity breakdown, written when the count is not 0. *)
Definition severity_line (emoji : jsstring) (count : nat) (label : jsstring) : jsstring :=
  if count =? 0 then []
  else emoji ++ js " **" ++ toString count ++ js " " ++ label ++ js "**" ++ [10]%N.

Definition summary_header : jsstring :=
  emoji_robot ++ js " **Automated Code Review Summary**" ++ [10; 10]%N.

Definition generateSummaryComment (comments : list Comment.t) (prData : PrData.t)
  : M World jsstring :=
  try_catch
    (if length comments =? 0
     then ret no_issues_summary
     else
       categories <- lift_result (category_lines E comments) ;;
       let summary := summary_header in
       let summary :=
         summary ++ js "Found " ++ toString (length comments) ++ js " item(s) to review:"
                 ++ [10; 10]%N in
       let summary :=
         summary ++ severity_line emoji_error (severityCount (js "error") comments)
                      (js "Error(s)") in
       let summary :=
         summary ++ severity_line emoji_warning (severityCount (js "warning") comments)
                      (js "Warning(s)") in
       let summary :=
         summary ++ severity_line emoji_suggestion (severityCount (js "suggestion") comments)
                      (js "Suggestion(s)") in
       let summary := summary ++ [10]%N ++ js "**Categories:**" ++ [10]%N in
       let summary := summary ++ categories in
       let summary :=
         summary ++ [10]%N ++ js "Please review the inline comments for detailed feedback." in
       ret summary)
    (fun error => ret default_summary).

End WithEnv.
End Gemini.

(** ** services/githubService.js *)

Module GitHub.
Section WithEnv.

Variable E : Env.

Definition getBotUser : M World GhUser.t :=
  cached <- gets botUser ;;
  match cached with
  | Some user => ret user
  | None =>
      user <- call EvGetAuthenticated (users_getAuthenticated E) ;;
      set_botUser (Some user) ;;
      ret user
  end.

(** The filter callback [review.user.login === botUser.login]. *)
Definition is_bot_review (botUser : GhUser.t) (review : GhReview.t) : Result bool :=
  match GhReview.user review with
  | Some user => Ok (eqb_str (GhUser.login user) (GhUser.login botUser))
  | None => Throw (TypeError (js "Cannot read properties of null (reading 'login')"))
  end.

Definition hasAlreadyReviewed (owner repo : jsstring) (pullNumber : Z) : M World bool :=
  try_catch
    (reviews <- call (EvListReviews owner repo pullNumber)
                     (fun tr => pulls_listReviews E tr owner repo pullNumber) ;;
     botUser <- getBotUser ;;
     botReviews <- lift_result (filter_r (is_bot_review botUser) reviews) ;;
     ret (0 <? length botReviews))
    (fun error => ret false).

Definition getPullRequestData (owner repo : jsstring) (pullNumber : Z) : M World PrData.t :=
  try_catch
    (call (EvGetPullRequestData owner repo pullNumber)
          (fun tr => fetch_pull_request E tr owner repo pullNumber))
    (fun error => throw (Error_ (js "Failed to fetch PR data: " ++ err_message error))).

Definition postReviewComments (owner repo : jsstring) (pullNumber : Z)
    (comments : list Comment.t) (summaryComment : jsstring) : M World GhReview.t :=
  try_catch
    (call (EvPostReview owner repo pullNumber comments summaryComment)
          (fun tr => create_review E tr owner repo pullNumber comments summaryComment))
    (fun error => throw (Error_ (js "Failed to post review: " ++ err_message error))).

Definition postFallbackComment (owner repo : jsstring) (pullNumber : Z) : M World unit :=
  try_catch
    (call (EvPostFallback owner repo pullNumber)
          (fun tr => issues_createComment E tr owner repo pullNumber))
    (fun error => throw error).

End WithEnv.
End GitHub.

(** ** controllers/githubWebhookController.js *)

(** The fields of a [pull_request] webhook payload that the controller
    reads. *)
Module Payload.
Record t : Type := mk {
  action : jsstring;
  number : Z;
  title : jsstring;
  body : option jsstring;
  user_login : jsstring;
  base_ref : jsstring;
  head_ref : jsstring;
  head_sha : jsstring;
  draft : bool;
  owner_login : jsstring;
  name : jsstring;
  full_name : jsstring
}.
End Payload.

(** What a handler sends with [res.status(..).json(..)]. *)
Module Response.
Record t : Type := mk {
  statusCode : Z;
  message : jsstring;
  reviewId : option nat;
  retryCount : option N
}.
End Response.

Module Controller.
Section WithEnv.

Variable E : Env.

(** The frame of a handler: its local variable [review] ([None] while
    it is [undefined]) and the world. *)
Definition Frame : Type := (option Review.t * World)%type.

Definition world {A : Type} (c : M World A) : M Frame A :=
  fun s =>
    match c (snd s) with
    | (r, w') => (r, (fst s, w'))
    end.

Definition get_review : M Frame (option Review.t) :=
  gets fst.

Definition set_review (r : option Review.t) : M Frame unit :=
  modify (fun s => (r, snd s)).

(** [review.field = value] *)
Definition assign (f : Review.t -> Review.t) : M Frame unit :=
  fun s =>
    match fst s with
    | Some this => (Ok tt, (Some (f this), snd s))
    | None => (Throw (TypeError (js "Cannot set properties of undefined")), s)
    end.

(** [await review.m(..)] for a method [m] of the model: the method runs
    on the document held by [review], which carries its updates
    afterwards. *)
Definition method (m : Review.t -> M World Review.t) : M Frame unit :=
  fun s =>
    match fst s with
    | Some this =>
        match m this (snd s) with
        | (Ok this', w') => (Ok tt, (Some this', w'))
        | (Throw e, w') => (Throw e, (Some this, w'))
        end
    | None => (Throw (TypeError (js "Cannot read properties of undefined")), s)
    end.

(** Run a handler body with its local [review] declared. *)
Definition with_review {A : Type} (init : option Review.t) (c : M Frame A) : M World A :=
  fun w =>
    match c (init, w) with
    | (r, s') => (r, snd s')
    end.

Definition relevantActions : list jsstring :=
  [js "opened"; js "synchronize"; js "reopened"].

(** [new Review({...})] in [handlePullRequest]: the schema defaults give
    status pending, retryCount 0 and [reviewStartedAt = Date.now()]. *)
Definition new_Review (p : Payload.t) : M World Review.t :=
  d <- now E ;;
  fun w =>
    (Ok (Review.mk (nextId w) (Payload.number p) (Payload.full_name p)
           (Payload.owner_login p) (Payload.name p)
           (PrInfo.mk (Payload.title p) (Payload.body p) (Payload.user_login p)
                      (Payload.base_ref p) (Payload.head_ref p) (Payload.head_sha p))
           [] None pending None (Some d) None None 0%N []),
     mkWorld (reviews w) (trace w) (ticks w) (draws w) (botUser w) (S (nextId w))).

(** [this.processReviewAsync(...).catch(...)] without [await]: the run is
    started and the handler goes on; the trace records the start. *)
Definition start_processReviewAsync (owner repo : jsstring) (pullNumber : Z)
    (reviewId : nat) : M World unit :=
  emit (EvStartReview owner repo pullNumber reviewId).

Definition handlePullRequest (p : Payload.t) : M World Response.t :=
  let action := Payload.action p in
  if negb (existsb (eqb_str action) relevantActions)
  then ret (Response.mk 200 (js "Action not processed") None None)
  else
    let owner := Payload.owner_login p in
    let repo := Payload.name p in
    let pullNumber := Payload.number p in
    try_catch
      (existingReview <- findByPR owner repo pullNumber ;;
       if match existingReview with
          | Some r => Status_eqb (Review.status r) completed
                      && negb (eqb_str action (js "synchronize"))
          | None => false
          end
       then ret (Response.mk 200 (js "PR already reviewed")
                   (option_map Review._id existingReview) None)
       else if Payload.draft p
       then ret (Response.mk 200 (js "Draft PR skipped") None None)
       else
         review <- match existingReview with
                   | None =>
                       review <- new_Review p ;;
                       save E review
                   | Some review =>
                       let review :=
                         Review.set_prInfo
                           (PrInfo.set_commitSha (Payload.head_sha p) (Review.prInfo review))
                           review in
                       let review := Review.set_status pending review in
                       let review := Review.set_errorMessage None review in
                       save E review
                   end ;;
         start_processReviewAsync owner repo pullNumber (Review._id review) ;;
         ret (Response.mk 200 (js "PR review started") (Some (Review._id review)) None))
      (fun error =>
         throw (AppError (js "Failed to process PR webhook: " ++ err_message error) 500)).

Definition to_filesReviewed (file : DiffFile.t) : FileReviewed.t :=
  FileReviewed.mk (DiffFile.file_path file) (DiffFile.status file)
    (DiffFile.additions file) (DiffFile.deletions file) (DiffFile.changes file).

(** The [try] block of [processReviewAsync]. *)
Definition processReview_try (owner repo : jsstring) (pullNumber : Z) (reviewId : nat)
  : M Frame unit :=
  found <- world (findById reviewId) ;;
  set_review found ;;
  match found with
  | None => throw (Error_ (js "Review record not found"))
  | Some _ =>
      method (markInProgress E) ;;
      alreadyReviewed <- world (GitHub.hasAlreadyReviewed E owner repo pullNumber) ;;
      if alreadyReviewed
      then method (markCompleted E None)
      else
        prData <- world (GitHub.getPullRequestData E owner repo pullNumber) ;;
        assign (Review.set_filesReviewed (map to_filesReviewed (PrData.diff_files prData))) ;;
        method (save E) ;;
        if length (PrData.diff_files prData) =? 0
        then method (markCompleted E None)
        else
          comments <- world (Gemini.generateReview E prData) ;;
          summaryComment <- world (Gemini.generateSummaryComment E comments prData) ;;
          assign (Review.set_comments comments) ;;
          assign (Review.set_summaryComment (Some summaryComment)) ;;
          method (save E) ;;
          githubReview <- world (GitHub.postReviewComments E owner repo pullNumber
                                   comments summaryComment) ;;
          method (markCompleted E (Some (GhReview.id githubReview)))
  end.

(** The [catch] block of [processReviewAsync]. *)
Definition processReview_catch (owner repo : jsstring) (pullNumber : Z) (error : JsError)
  : M Frame unit :=
  (if includes (err_message error) (js "503") || includes (err_message error) (js "overloaded")
   then try_catch (world (GitHub.postFallbackComment E owner repo pullNumber))
                  (fun fallbackError => ret tt)
   else ret tt) ;;
  review <- get_review ;;
  match review with
  | Some _ => method (markFailed E (err_message error))
  | None => ret tt
  end ;;
  throw error.

Definition processReviewAsync (owner repo : jsstring) (pullNumber : Z) (reviewId : nat)
  : M World unit :=
  with_review None
    (try_catch (processReview_try owner repo pullNumber reviewId)
               (processReview_catch owner repo pullNumber)).

(** [!x] for a query parameter: missing or empty. *)
Definition missing (x : option jsstring) : bool :=
  match x with
  | Some s => Nat.eqb (length s) 0
  | None => true
  end.

(** [retryReview]; [prId] is [parseInt(req.params.prId)] when that is
    a number, [owner] and [repo] are the query parameters. *)
Definition retryReview (prId : Z) (owner repo : option jsstring) : M World Response.t :=
  if missing owner || missing repo
  then throw (AppError (js "Owner and repo query parameters are required") 400)
  else
    let owner := match owner with Some s => s | None => [] end in
    let repo := match repo with Some s => s | None => [] end in
    review <- findByPR owner repo prId ;;
    match review with
    | None => throw (AppError (js "Review not found") 404)
    | Some review =>
        if Status_eqb (Review.status review) completed
        then throw (AppError (js "Review already completed") 400)
        else if Status_eqb (Review.status review) in_progress
        then throw (AppError (js "Review already in progress") 400)
        else
          review <- incrementRetry E review ;;
          start_processReviewAsync owner repo prId (Review._id review) ;;
          ret (Response.mk 200 (js "Review retry initiated")
                 (Some (Review._id review)) (Some (Review.retryCount review)))
    end.

End WithEnv.
End Controller.

(** ** A concrete environment, for running the model *)

Module Sample.

Definition bot : GhUser.t := GhUser.mk (js "review-bot").

Definition prData : PrData.t :=
  PrData.mk 7 (js "octo/demo")
    [DiffFile.mk (js "src/app.js") (js "modified") 3 1 4 (js "@@ -1 +1 @@")].

(** Speech balloon. *)
Definition emoji_general : jsstring := [55357; 56492]%N.

(** The category lines of comments that all have the category
    "general", as those of the samples have. *)
Definition general_lines (comments : list Comment.t) : Result jsstring :=
  Ok (emoji_general ++ js " general: " ++ toString (length comments) ++ [10]%N).

(** A database library that accepts the comments whose file and text
    are strings that are not empty and whose category and suggestion
    are strings or absent, and that reports the repository as missing
    for a document without its required strings and a category outside
    the [enum] for any other document that it refuses. *)
Definition plain_comment (c : Comment.t) : bool :=
  match Comment.file c, Comment.comment c with
  | VStr f, VStr t =>
      negb (Nat.eqb (length f) 0) && negb (Nat.eqb (length t) 0)
      && match Comment.category c with VStr _ => true | _ => false end
      && match Comment.suggestion c with VStr _ | VNull => true | _ => false end
  | _, _ => false
  end.

Definition refusal (doc : Review.t) : JsError :=
  mkJsError (js "ValidationError")
    (if Schema.required_present doc
     then js "Review validation failed: comments.0.category: `general` is not a valid enum value for path `category`."
     else js "Review validation failed: repository: Path `repository` is required.")
    None.

(** A parser that accepts the empty array only. *)
Definition parse_empty_array_only (s : jsstring) : Result Value :=
  if eqb_str s (js "[]") then Ok (VArr [])
  else Throw (mkJsError (js "SyntaxError") (js "Unexpected token") None).

(** GitHub answers every call, the bot has not reviewed anything yet,
    the clock advances by one second per reading, and Gemini answers as
    [gemini] says. *)
Definition env (gemini : list Event -> PrData.t -> Result jsstring) : Env :=
  mkEnv (fun k => 1700000000000 + 1000 * Z.of_nat k)%Z
        (fun _ => 1 # 2)
        parse_empty_array_only
        (fun _ => 1%float)
        general_lines
        (fun _ _ _ _ => Ok [])
        (fun _ => Ok bot)
        (fun _ _ _ _ => Ok prData)
        gemini
        (fun _ _ _ _ _ _ => Ok (GhReview.mk 77 (Some bot)))
        (fun _ _ _ _ => Ok tt)
        plain_comment refusal.

Definition gemini_empty : list Event -> PrData.t -> Result jsstring :=
  fun _ _ => Ok (js "[]").

Definition gemini_prose : list Event -> PrData.t -> Result jsstring :=
  fun _ _ => Ok (js "The changes look fine to me.").

Definition gemini_overloaded : list Event -> PrData.t -> Result jsstring :=
  fun _ _ => Throw (Error_ (js "[503 Service Unavailable] The model is overloaded."))
.

Definition gemini_bad_key : list Event -> PrData.t -> Result jsstring :=
  fun _ _ => Throw (Error_ (js "API key not valid. Please pass a valid API key.")).

Definition world0 : World := mkWorld [] [] 0 0 None 1.

Definition opened : Payload.t :=
  Payload.mk (js "opened") 7 (js "Add feature") None (js "alice")
    (js "main") (js "feature") (js "aaa111") false
    (js "octo") (js "demo") (js "octo/demo").

(** The same event without the full name of the repository. *)
Definition unnamed : Payload.t :=
  Payload.mk (js "opened") 7 (js "Add feature") None (js "alice")
    (js "main") (js "feature") (js "aaa111") false
    (js "octo") (js "demo") [].

Definition with_action (a : jsstring) (sha : jsstring) (draft : bool) (p : Payload.t)
  : Payload.t :=
  Payload.mk a (Payload.number p) (Payload.title p) (Payload.body p)
    (Payload.user_login p) (Payload.base_ref p) (Payload.head_ref p) sha draft
    (Payload.owner_login p) (Payload.name p) (Payload.full_name p).

(** A record whose review was completed at commit aaa111, and the world
    that holds it. *)
Definition completed_record : Review.t :=
  Review.mk 1 7 (js "octo/demo") (js "octo") (js "demo")
    (PrInfo.mk (js "Add feature") None (js "alice") (js "main") (js "feature") (js "aaa111"))
    [] (Some Gemini.no_issues_summary) completed (Some 77%Z)
    (Some 1700000001000%Z) (Some 1700000002000%Z) None 0%N
    [FileReviewed.mk (js "src/app.js") (js "modified") 3 1 4].

Definition failed_record : Review.t :=
  Review.set_errorMessage (Some (js "Failed to fetch PR data: timeout"))
    (Review.set_status failed (Review.set_githubReviewId None completed_record)).

Definition running_record : Review.t :=
  Review.set_reviewCompletedAt None
    (Review.set_status in_progress (Review.set_githubReviewId None completed_record)).

Definition pending_record : Review.t :=
  Review.set_reviewCompletedAt None
    (Review.set_summaryComment None
       (Review.set_filesReviewed []
          (Review.set_status pending (Review.set_githubReviewId None completed_record)))).

Definition world_with (r : Review.t) : World :=
  mkWorld [r] [] 3 0 (Some bot) 2.

(** The same environment with a GitHub API that rejects the token. *)
Definition github_down : Env :=
  mkEnv (clock (env gemini_empty)) (random (env gemini_empty))
        parse_empty_array_only (fun _ => 1%float) general_lines
        (fun _ _ _ _ => Throw (Error_ (js "Bad credentials")))
        (fun _ => Throw (Error_ (js "Bad credentials")))
        (fun _ _ _ _ => Throw (Error_ (js "Bad credentials")))
        gemini_empty
        (fun _ _ _ _ _ _ => Throw (Error_ (js "Bad credentials")))
        (fun _ _ _ _ => Throw (Error_ (js "Bad credentials")))
        plain_comment refusal.

(** The same environment with a model that stays overloaded and a
    [Math.random()] that keeps returning the number just below one. *)
Definition late_draws : Env :=
  mkEnv (clock (env gemini_overloaded)) (fun _ => (1 - (1 # 2 ^ 52))%Q)
        parse_empty_array_only (fun _ => 1%float) general_lines
        (fun _ _ _ _ => Ok [])
        (fun _ => Ok bot)
        (fun _ _ _ _ => Ok prData)
        gemini_overloaded
        (fun _ _ _ _ _ _ => Ok (GhReview.mk 77 (Some bot)))
        (fun _ _ _ _ => Ok tt)
        plain_comment refusal.

Definition draft_opened : Payload.t := with_action (js "opened") (js "aaa111") true opened.

Definition draft_synchronize : Payload.t :=
  with_action (js "synchronize") (js "bbb222") true opened.

Definition synchronize : Payload.t :=
  with_action (js "synchronize") (js "bbb222") false opened.

End Sample.

(** ** Observations on responses and traces *)

(** The three answers of [handlePullRequest] to a relevant action. *)
Definition already_reviewed (r : Review.t) : Response.t :=
  Response.mk 200 (js "PR already reviewed") (Some (Review._id r)) None.

Definition draft_skipped : Response.t :=
  Response.mk 200 (js "Draft PR skipped") None None.

Definition review_started (r : Review.t) : Response.t :=
  Response.mk 200 (js "PR review started") (Some (Review._id r)) None.

(** The documents written, in order. *)
Definition saved (evs : list Event) : list Review.t :=
  flat_map (fun e => match e with EvSave d => [d] | _ => [] end) evs.

(** The waits, in order. *)
Definition sleeps (evs : list Event) : list Q :=
  flat_map (fun e => match e with EvSleep ms => [ms] | _ => [] end) evs.

(** The number of calls to the model. *)
Definition generate_calls (evs : list Event) : nat :=
  length (filter (fun e => match e with EvGenerateContent => true | _ => false end) evs).

(** The jitter of a retry: the product of the number drawn and 1000,
    in milliseconds. *)
Definition jitter_of (E : Env) (draw : nat) : Q :=
  round64 (random E draw * 1000).

(** The wait before a retry: two to the power of the number of the
    failed attempt, in seconds, plus the jitter drawn for it, the sum
    being a number too. *)
Definition wait_before_retry (E : Env) (draw attempt : nat) : Q :=
  round64 (inject_Z (2 ^ Z.of_nat attempt * 1000) + jitter_of E draw).

(** The effects of [n] overloaded attempts that are each followed by a
    wait, the first of them being attempt number [attempt] and using
    the random draw number [draw]. *)
Fixpoint backoff_schedule (E : Env) (draw attempt n : nat) : list Event :=
  match n with
  | 0 => []
  | S n' =>
      EvGenerateContent :: EvSleep (wait_before_retry E draw attempt)
        :: backoff_schedule E (S draw) (S attempt) n'
  end.

(** [w'] is reached from [w] without writing a document or reading the
    clock: only events other than saves were appended to the trace. *)
Definition quiet (w w' : World) : Prop :=
  reviews w' = reviews w
  /\ ticks w' = ticks w
  /\ exists evs, trace w' = trace w ++ evs /\ saved evs = [].

(** A run on the record [id], started in world [w0], is under way: the
    local [review] and the stored record are in progress since the clock
    reading [t1], which is past, and every document written since [w0]
    is this record in status in_progress. *)
Definition running (E : Env) (id : nat) (t1 : Z) (w0 : World)
    (s : option Review.t * World) : Prop :=
  exists (this : Review.t) (evs : list Event) (k : nat),
    fst s = Some this
    /\ Review._id this = id
    /\ Review.status this = in_progress
    /\ Review.reviewStartedAt this = Some t1
    /\ (exists r, find (fun x => Review._id x =? id) (reviews (snd s)) = Some r
                  /\ Review.status r = in_progress
                  /\ Review.reviewStartedAt r = Some t1)
    /\ trace (snd s) = trace w0 ++ evs
    /\ map Review.status (saved evs) = repeat in_progress (S k)
    /\ Forall (fun d => Review._id d = id) (saved evs)
    /\ (exists i, i < ticks (snd s) /\ t1 = clock E i).

(** The run has put the record in the terminal status [t]: the writes
    since [w0] are one or more in status in_progress and a last one in
    status [t], which is the stored document, and its two timestamps
    are in order. *)
Definition finished (id : nat) (w0 : World) (t : Status)
    (s : option Review.t * World) : Prop :=
  exists (final : Review.t) (evs : list Event) (k : nat) (t1 t2 : Z),
    fst s = Some final
    /\ Review.status final = t
    /\ find (fun x => Review._id x =? id) (reviews (snd s)) = Some final
    /\ trace (snd s) = trace w0 ++ evs
    /\ map Review.status (saved evs) = repeat in_progress (S k) ++ [t]
    /\ Forall (fun d => Review._id d = id) (saved evs)
    /\ Review.reviewStartedAt final = Some t1
    /\ Review.reviewCompletedAt final = Some t2
    /\ (t1 <= t2)%Z.

(** The comments of the local [review] are the stored ones: a save
    writes it. *)
Definition settled (s : option Review.t * World) : Prop :=
  exists this, fst s = Some this /\ comments_stored this (reviews (snd s)) = true.

(** The store refuses the local [review]. *)
Definition unsaved (E : Env) (s : option Review.t * World) : Prop :=
  exists this, fst s = Some this /\ refused E this (reviews (snd s)) = true.

Definition terminal (s : Status) : bool :=
  match s with
  | completed | failed => true
  | _ => false
  end.

(** ** Further observations *)

(** The time spent waiting, in milliseconds. *)
Definition total_wait (evs : list Event) : Q :=
  fold_right Qplus 0%Q (sleeps evs).

(** What every comment returned by [parseReviewResponse] satisfies. *)
Definition well_formed_comment (c : Comment.t) : Prop :=
  In (Comment.severity c) Gemini.allowedSeverities
  /\ truthy (Comment.file c) = true
  /\ truthy (Comment.comment c) = true
  /\ truthy (Comment.category c) = true
  /\ truthy (VNum (Comment.line c)) = true
  /\ (Comment.suggestion c = VNull \/ truthy (Comment.suggestion c) = true).

(** A review written by the account [login]. *)
Definition by_login (login : jsstring) (review : GhReview.t) : bool :=
  match GhReview.user review with
  | Some user => eqb_str (GhUser.login user) login
  | None => false
  end.

(** More of the sample environment: a model that is overloaded twice and
    then answers, and a list of reviews that holds one by the bot. *)
Module Sample2.

Definition gemini_flaky : list Event -> PrData.t -> Result jsstring :=
  fun tr _ =>
    if generate_calls tr <? 2
    then Throw (Error_ (js "[503 Service Unavailable] The model is overloaded."))
    else Ok (js "[]").

Definition reviews_with_bot : list GhReview.t :=
  [GhReview.mk 11 (Some (GhUser.mk (js "alice")));
   GhReview.mk 12 (Some Sample.bot)].

Definition reviews_with_ghost : list GhReview.t :=
  [GhReview.mk 12 (Some Sample.bot); GhReview.mk 13 None].

(** The sample environment with a given list of reviews on the pull
    request. *)
Definition env_reviews (rs : list GhReview.t) : Env :=
  mkEnv (clock (Sample.env Sample.gemini_empty)) (random (Sample.env Sample.gemini_empty))
        Sample.parse_empty_array_only (fun _ => 1%float) Sample.general_lines
        (fun _ _ _ _ => Ok rs)
        (fun _ => Ok Sample.bot)
        (fun _ _ _ _ => Ok Sample.prData)
        Sample.gemini_empty
        (fun _ _ _ _ _ _ => Ok (GhReview.mk 77 (Some Sample.bot)))
        (fun _ _ _ _ => Ok tt)
        Sample.plain_comment Sample.refusal.

End Sample2.

(** ** A run, case by case *)

(** The documents that the methods of the model write: [this] as
    [markInProgress], [markCompleted] and [markFailed] leave it when the
    clock reads [d]. *)
Definition started_at (d : Z) (this : Review.t) : Review.t :=
  Review.set_reviewStartedAt (Some d) (Review.set_status in_progress this).

Definition completed_at (d : Z) (githubReviewId : option Z) (this : Review.t) : Review.t :=
  let this := Review.set_reviewCompletedAt (Some d) (Review.set_status completed this) in
  match githubReviewId with
  | Some i => if (i =? 0)%Z then this else Review.set_githubReviewId (Some i) this
  | None => this
  end.

Definition failed_at (d : Z) (errorMessage : jsstring) (this : Review.t) : Review.t :=
  Review.set_reviewCompletedAt (Some d)
    (Review.set_errorMessage (Some errorMessage) (Review.set_status failed this)).

(** How a run that found its record ends: [run_completes] is the result
    of the [markCompleted] calls of the [try] block on a document that
    the store accepts, [run_fails] that of the [catch] block entered
    with [error] while [review] holds [this]: the error is thrown again
    when [markFailed] returns, and the error of [markFailed] when it
    throws. *)
Definition run_completes (E : Env) (githubReviewId : option Z) (this : Review.t)
    (w : World) : Result unit * World :=
  (Ok tt, snd (markCompleted E githubReviewId this w)).

Definition run_fails (E : Env) (owner repo : jsstring) (pullNumber : Z)
    (error : JsError) (this : Review.t) (w : World) : Result unit * World :=
  let w1 :=
    if includes (err_message error) (js "503")
       || includes (err_message error) (js "overloaded")
    then snd (GitHub.postFallbackComment E owner repo pullNumber w)
    else w in
  match markFailed E (err_message error) this w1 with
  | (Ok _, w2) => (Throw error, w2)
  | (Throw e, w2) => (Throw e, w2)
  end.

(** The fallback notice that opens the [catch] block, as an effect. *)
Definition notice (owner repo : jsstring) (pullNumber : Z) (error : JsError) : list Event :=
  if includes (err_message error) (js "503") || includes (err_message error) (js "overloaded")
  then [EvPostFallback owner repo pullNumber]
  else [].

(** The kinds of effect that a trace records. *)
Inductive Kind : Type :=
| KSave (s : Status)
| KListReviews
| KGetAuthenticated
| KFetch
| KGenerate
| KSleep
| KPost
| KFallback
| KStart.

Definition kind (e : Event) : Kind :=
  match e with
  | EvSave doc => KSave (Review.status doc)
  | EvListReviews _ _ _ => KListReviews
  | EvGetAuthenticated => KGetAuthenticated
  | EvGetPullRequestData _ _ _ => KFetch
  | EvGenerateContent => KGenerate
  | EvSleep _ => KSleep
  | EvPostReview _ _ _ _ _ => KPost
  | EvPostFallback _ _ _ => KFallback
  | EvStartReview _ _ _ _ => KStart
  end.

Definition Kind_eqb (a b : Kind) : bool :=
  match a, b with
  | KSave s, KSave t => Status_eqb s t
  | KListReviews, KListReviews | KGetAuthenticated, KGetAuthenticated
  | KFetch, KFetch | KGenerate, KGenerate | KSleep, KSleep | KPost, KPost
  | KFallback, KFallback | KStart, KStart => true
  | _, _ => false
  end.

Definition count_kind (k : Kind) (ks : list Kind) : nat :=
  length (filter (Kind_eqb k) ks).

(** [n] attempts that are each followed by a wait, then a last one. *)
Fixpoint generation_kinds (n : nat) : list Kind :=
  match n with
  | 0 => [KGenerate]
  | S n' => KGenerate :: KSleep :: generation_kinds n'
  end.

(** The sequences of effects of a run that found its record: the
    record is marked in progress and the reviews are listed (with the
    bot identity asked for when it is not cached); then the run ends in
    one of seven ways, the last of which is that of comments that the
    store refuses.  [KPost] is a call of [postReviewComments], whose
    own requests to GitHub are not told apart. *)
Definition run_shape (ks : list Kind) : Prop :=
  exists dup fb gen,
    (dup = [KListReviews] \/ dup = [KListReviews; KGetAuthenticated])
    /\ (fb = [] \/ fb = [KFallback])
    /\ (exists n, n <= 4 /\ gen = generation_kinds n)
    /\ let start := KSave in_progress :: dup in
       (ks = start ++ [KSave completed]
        \/ ks = start ++ [KFetch] ++ fb ++ [KSave failed]
        \/ ks = start ++ [KFetch; KSave in_progress; KSave completed]
        \/ ks = start ++ [KFetch; KSave in_progress] ++ gen ++ fb ++ [KSave failed]
        \/ ks = start ++ [KFetch; KSave in_progress] ++ gen
                ++ [KSave in_progress; KPost] ++ fb ++ [KSave failed]
        \/ ks = start ++ [KFetch; KSave in_progress] ++ gen
                ++ [KSave in_progress; KPost; KSave completed]
        \/ ks = start ++ [KFetch; KSave in_progress] ++ gen ++ fb).

(** The fields of a record that identify it and its pull request, and
    its retry counter. *)
Definition identity (r : Review.t)
  : nat * Z * jsstring * jsstring * jsstring * PrInfo.t * N :=
  (Review._id r, Review.pullRequestId r, Review.repository r, Review.owner r,
   Review.repo r, Review.prInfo r, Review.retryCount r).

(** The key of a record: owner, repo and pull-request number. *)
Definition key (r : Review.t) : jsstring * jsstring * Z :=
  (Review.owner r, Review.repo r, Review.pullRequestId r).

(** A store in which ids are unique and below the next id, and no two
    records have the same key. *)
Definition unique_records (w : World) : Prop :=
  NoDup (map Review._id (reviews w))
  /\ NoDup (map key (reviews w))
  /\ Forall (fun r => Review._id r < nextId w) (reviews w).

(** [w'] is reached from [w] by the effects [evs]: the trace grew by
    them, the store is the old one with the documents written saved in
    order, no id was handed out and the clock did not go back. *)
Definition effects (w w' : World) (evs : list Event) : Prop :=
  trace w' = trace w ++ evs
  /\ reviews w' = fold_left (fun l d => upsert d l) (saved evs) (reviews w)
  /\ nextId w' = nextId w
  /\ ticks w <= ticks w'.

(** More of the sample environment: a response that holds one comment
    with a severity the schema does not know, and a pull request
    without reviewable files. *)
Module Sample3.

Definition quote : jsstring := [34%N].

Definition one_comment_text : jsstring :=
  js "[{" ++ quote ++ js "file" ++ quote ++ js ":" ++ quote ++ js "src/app.js" ++ quote
  ++ js "," ++ quote ++ js "severity" ++ quote ++ js ":" ++ quote ++ js "critical" ++ quote
  ++ js "," ++ quote ++ js "comment" ++ quote ++ js ":" ++ quote ++ js "Unused variable"
  ++ quote ++ js "}]".

Definition one_comment_value : Value :=
  VArr [VObj [(js "file", VStr (js "src/app.js"));
              (js "severity", VStr (js "critical"));
              (js "comment", VStr (js "Unused variable"))]].

Definition parse_one_comment (s : jsstring) : Result Value :=
  if eqb_str s one_comment_text then Ok one_comment_value
  else Sample.parse_empty_array_only s.

Definition env_one_comment : Env :=
  mkEnv (clock (Sample.env Sample.gemini_empty)) (random (Sample.env Sample.gemini_empty))
        parse_one_comment (fun _ => PrimFloat.nan) Sample.general_lines
        (fun _ _ _ _ => Ok [])
        (fun _ => Ok Sample.bot)
        (fun _ _ _ _ => Ok Sample.prData)
        (fun _ _ => Ok one_comment_text)
        (fun _ _ _ _ _ _ => Ok (GhReview.mk 77 (Some Sample.bot)))
        (fun _ _ _ _ => Ok tt)
        Sample.plain_comment Sample.refusal.

(** A response with one comment of the category "security", which the
    schema lists; the category line of the summary has the lock. *)
Definition security_comment_text : jsstring :=
  js "[{" ++ quote ++ js "file" ++ quote ++ js ":" ++ quote ++ js "src/app.js" ++ quote
  ++ js "," ++ quote ++ js "severity" ++ quote ++ js ":" ++ quote ++ js "error" ++ quote
  ++ js "," ++ quote ++ js "category" ++ quote ++ js ":" ++ quote ++ js "security" ++ quote
  ++ js "," ++ quote ++ js "comment" ++ quote ++ js ":" ++ quote ++ js "Unchecked input"
  ++ quote ++ js "}]".

Definition security_comment_value : Value :=
  VArr [VObj [(js "file", VStr (js "src/app.js"));
              (js "severity", VStr (js "error"));
              (js "category", VStr (js "security"));
              (js "comment", VStr (js "Unchecked input"))]].

Definition parse_security_comment (s : jsstring) : Result Value :=
  if eqb_str s security_comment_text then Ok security_comment_value
  else Sample.parse_empty_array_only s.

Definition emoji_security : jsstring := [55357; 56594]%N.

Definition security_lines (comments : list Comment.t) : Result jsstring :=
  Ok (emoji_security ++ js " security: " ++ toString (length comments) ++ [10]%N).

Definition env_security_comment : Env :=
  mkEnv (clock (Sample.env Sample.gemini_empty)) (random (Sample.env Sample.gemini_empty))
        parse_security_comment (fun _ => PrimFloat.nan) security_lines
        (fun _ _ _ _ => Ok [])
        (fun _ => Ok Sample.bot)
        (fun _ _ _ _ => Ok Sample.prData)
        (fun _ _ => Ok security_comment_text)
        (fun _ _ _ _ _ _ => Ok (GhReview.mk 77 (Some Sample.bot)))
        (fun _ _ _ _ => Ok tt)
        Sample.plain_comment Sample.refusal.

(** A response whose comment holds a code fence, and a parser that
    reads this one text only: the primary parse, which takes the fences
    out before it parses, does not get through with it, and the
    secondary extraction, which parses the text as it came, does. *)
Definition fenced_comment_text : jsstring :=
  js "[{" ++ quote ++ js "file" ++ quote ++ js ":" ++ quote ++ js "src/app.js" ++ quote
  ++ js "," ++ quote ++ js "severity" ++ quote ++ js ":" ++ quote ++ js "error" ++ quote
  ++ js "," ++ quote ++ js "category" ++ quote ++ js ":" ++ quote ++ js "security" ++ quote
  ++ js "," ++ quote ++ js "comment" ++ quote ++ js ":" ++ quote
  ++ js "Unchecked ```input```" ++ quote ++ js "}]".

Definition fenced_comment_value : Value :=
  VArr [VObj [(js "file", VStr (js "src/app.js"));
              (js "severity", VStr (js "error"));
              (js "category", VStr (js "security"));
              (js "comment", VStr (js "Unchecked ```input```"))]].

Definition parse_fenced_comment (s : jsstring) : Result Value :=
  if eqb_str s fenced_comment_text then Ok fenced_comment_value
  else Sample.parse_empty_array_only s.

Definition env_fenced_comment : Env :=
  mkEnv (clock (Sample.env Sample.gemini_empty)) (random (Sample.env Sample.gemini_empty))
        parse_fenced_comment (fun _ => PrimFloat.nan) security_lines
        (fun _ _ _ _ => Ok [])
        (fun _ => Ok Sample.bot)
        (fun _ _ _ _ => Ok Sample.prData)
        (fun _ _ => Ok fenced_comment_text)
        (fun _ _ _ _ _ _ => Ok (GhReview.mk 77 (Some Sample.bot)))
        (fun _ _ _ _ => Ok tt)
        Sample.plain_comment Sample.refusal.

Definition env_no_files : Env :=
  mkEnv (clock (Sample.env Sample.gemini_empty)) (random (Sample.env Sample.gemini_empty))
        Sample.parse_empty_array_only (fun _ => 1%float) Sample.general_lines
        (fun _ _ _ _ => Ok [])
        (fun _ => Ok Sample.bot)
        (fun _ _ _ _ => Ok (PrData.mk 7 (js "octo/demo") []))
        Sample.gemini_empty
        (fun _ _ _ _ _ _ => Ok (GhReview.mk 77 (Some Sample.bot)))
        (fun _ _ _ _ => Ok tt)
        Sample.plain_comment Sample.refusal.

End Sample3.

(** ** The status endpoint (controllers/githubWebhookController.js) *)

(** The body that [getReviewStatus] sends with [res.json]. *)
Module StatusReport.
Record t : Type := mk {
  reviewId : nat;
  pullRequest_id : Z;
  pullRequest_repository : jsstring;
  pullRequest_title : jsstring;
  pullRequest_author : jsstring;
  status : Status;
  comments : list Comment.t;
  summaryComment : option jsstring;
  filesReviewed : list FileReviewed.t;
  reviewStartedAt : option Z;
  reviewCompletedAt : option Z;
  retryCount : N;
  errorMessage : option jsstring;
  githubReviewId : option Z
}.
End StatusReport.

Module Endpoints.

(** [getReviewStatus]; [prId] is [parseInt(req.params.prId)] when that
    is a number, [owner] and [repo] are the query parameters. *)
Definition getReviewStatus (prId : Z) (owner repo : option jsstring)
  : M World StatusReport.t :=
  if Controller.missing owner || Controller.missing repo
  then throw (AppError (js "Owner and repo query parameters are required") 400)
  else
    let owner := match owner with Some s => s | None => [] end in
    let repo := match repo with Some s => s | None => [] end in
    review <- findByPR owner repo prId ;;
    match review with
    | None => throw (AppError (js "Review not found") 404)
    | Some review =>
        ret (StatusReport.mk (Review._id review)
               (Review.pullRequestId review) (Review.repository review)
               (PrInfo.title (Review.prInfo review)) (PrInfo.author (Review.prInfo review))
               (Review.status review) (Review.comments review)
               (Review.summaryComment review) (Review.filesReviewed review)
               (Review.reviewStartedAt review) (Review.reviewCompletedAt review)
               (Review.retryCount review) (Review.errorMessage review)
               (Review.githubReviewId review))
    end.

End Endpoints.

(** The query of [findByPR]. *)
Definition has_key (owner repo : jsstring) (pullRequestId : Z) (r : Review.t) : bool :=
  eqb_str (Review.owner r) owner && eqb_str (Review.repo r) repo
  && (Review.pullRequestId r =? pullRequestId)%Z.

(** The answer of [handlePullRequest] to an action it does not handle. *)
Definition not_processed : Response.t :=
  Response.mk 200 (js "Action not processed") None None.

(** ** middleware/webhookValidator.js: the rate limit *)

Module RateLimit.

Definition windowMs : Z := 60 * 1000.
Definition maxRequests : nat := 100.

(** The [Map] held in [webhookRateLimit.requests]: its entries in
    insertion order, from the client key to the times of its admitted
    requests.  The map that does not exist yet is the empty one. *)
Definition Table : Type := list (jsstring * list Z).

(** [requests.get(key)] *)
Fixpoint get (key : jsstring) (requests : Table) : option (list Z) :=
  match requests with
  | [] => None
  | (k, v) :: rest => if eqb_str k key then Some v else get key rest
  end.

(** [requests.set(key, v)]: an existing key keeps its place. *)
Fixpoint set (key : jsstring) (v : list Z) (requests : Table) : Table :=
  match requests with
  | [] => [(key, v)]
  | (k, v0) :: rest =>
      if eqb_str k key then (k, v) :: rest else (k, v0) :: set key v rest
  end.

(** [v.length === 0 || now - v[v.length - 1] > windowMs * 2] *)
Definition expired (now : Z) (v : list Z) : bool :=
  match v with
  | [] => true
  | _ :: _ => (windowMs * 2 <? now - last v 0)%Z
  end.

(** The loop that deletes the expired entries of a map of more than
    1000 entries. *)
Definition cleanup (now : Z) (requests : Table) : Table :=
  if 1000 <? length requests
  then filter (fun kv => negb (expired now (snd kv))) requests
  else requests.

Inductive Decision : Type :=
| Next
| TooManyRequests.

(** [req.ip || 'unknown'] *)
Definition client (ip : option jsstring) : jsstring :=
  if Controller.missing ip then js "unknown"
  else match ip with Some s => s | None => [] end.

(** [webhookRateLimit]: [delivery] is [req.webhook?.delivery], [now] the
    reading of [Date.now()]; [TooManyRequests] is the answer 429. *)
Definition webhookRateLimit (delivery ip : option jsstring) (now : Z) (requests : Table)
  : Decision * Table :=
  if Controller.missing delivery then (Next, requests)
  else
    let key := client ip in
    let userRequests := match get key requests with Some v => v | None => [] end in
    let validRequests :=
      filter (fun timestamp => (now - timestamp <? windowMs)%Z) userRequests in
    if maxRequests <=? length validRequests
    then (TooManyRequests, requests)
    else
      let validRequests := validRequests ++ [now] in
      let requests := set key validRequests requests in
      (Next, cleanup now requests).

(** A request as the limiter sees it, and the limiter run on a series
    of requests. *)
Record Hit : Type := mkHit {
  delivery : option jsstring;
  ip : option jsstring;
  at_ : Z
}.

Fixpoint serve (hits : list Hit) (requests : Table) : list (Hit * Decision) :=
  match hits with
  | [] => []
  | h :: rest =>
      (h, fst (webhookRateLimit (delivery h) (ip h) (at_ h) requests))
        :: serve rest (snd (webhookRateLimit (delivery h) (ip h) (at_ h) requests))
  end.

(** The requests that were counted: those with a delivery id that were
    let through, as client and time. *)
Definition counted (served : list (Hit * Decision)) : list (jsstring * Z) :=
  flat_map (fun hd =>
              match snd hd with
              | Next =>
                  if Controller.missing (delivery (fst hd)) then []
                  else [(client (ip (fst hd)), at_ (fst hd))]
              | TooManyRequests => []
              end) served.

(** The number of counted requests of [key] in the window that ends at
    [now]. *)
Definition in_window (key : jsstring) (now : Z) (log : list (jsstring * Z)) : nat :=
  length (filter (fun e => eqb_str (fst e) key && (now - snd e <? windowMs)%Z) log).

(** Clock readings that never go back, from the reading [from] on. *)
Fixpoint nondecreasing (from : Z) (l : list Z) : Prop :=
  match l with
  | [] => True
  | x :: t => (from <= x)%Z /\ nondecreasing x t
  end.

(** [requests.get(key) || []] *)
Definition lookup (key : jsstring) (requests : Table) : list Z :=
  match get key requests with Some v => v | None => [] end.

(** The times of [l] that are in the window that ends at [now]. *)
Definition recent (now : Z) (l : list Z) : list Z :=
  filter (fun timestamp => (now - timestamp <? windowMs)%Z) l.

(** The times at which the requests of [key] were counted. *)
Definition times (key : jsstring) (log : list (jsstring * Z)) : list Z :=
  map snd (filter (fun e => eqb_str (fst e) key) log).

(** What the table holds of the log of counted requests: keys are
    distinct, no time is later than the last clock reading, the last
    time of a client is its latest, and to any later clock reading the
    times of a client in the table and in the log are the same within
    the window. *)
Definition reflects (lastNow : Z) (log : list (jsstring * Z)) (t : Table) : Prop :=
  NoDup (map fst t)
  /\ (forall key ts, In ts (lookup key t) -> (ts <= lastNow)%Z)
  /\ (forall key ts, In ts (lookup key t) -> (ts <= last (lookup key t) 0)%Z)
  /\ (forall key now, (lastNow <= now)%Z ->
        recent now (times key log) = recent now (lookup key t)).

End RateLimit.

(** ** middleware/webhookValidator.js: signature and payload *)

(** [req.body] when the validators run: the raw [Buffer] that
    [express.raw] read, as bytes, or what was there otherwise. *)
Inductive Body : Type :=
| BodyBuffer (bytes : list N)
| BodyOther (v : Value).

(** The built-ins that the validators call:
    - [createHmac secret payload] is
      [crypto.createHmac('sha256', secret).update(payload).digest('hex')],
      which throws for a payload that [update] refuses;
    - [toString bytes] is [buffer.toString()];
    - [JSON_parse] is [JSON.parse]. *)
Module Runtime.
Record t : Type := mk {
  createHmac : jsstring -> Body -> Result jsstring;
  toString : list N -> jsstring;
  JSON_parse : jsstring -> Result Value
}.
End Runtime.

(** The request, as far as the validators read it: the three headers
    ([req.get] returns [undefined] for a header that is absent), the
    client address and the body. *)
Module Request.
Record t : Type := mk {
  signature : option jsstring;
  event : option jsstring;
  delivery : option jsstring;
  ip : option jsstring;
  body : Body
}.
End Request.

(** [req.webhook] as [validateGitHubWebhook] sets it. *)
Module WebhookInfo.
Record t : Type := mk {
  event : jsstring;
  delivery : jsstring;
  signature : option jsstring
}.
End WebhookInfo.

(** What a middleware does: it calls [next()], here with what it adds
    to the request, or it answers with a status and an error text. *)
Inductive Outcome (A : Type) : Type :=
| Continue (a : A)
| Reply (statusCode : Z) (error : jsstring).

Arguments Continue {A} a.
Arguments Reply {A} statusCode error.

Module Validator.

(** The value of a hexadecimal digit, given as a byte. *)
Definition hex_digit (c : N) : option N :=
  if ((48 <=? c) && (c <=? 57))%N then Some (c - 48)%N
  else if ((97 <=? c) && (c <=? 102))%N then Some (c - 87)%N
  else if ((65 <=? c) && (c <=? 70))%N then Some (c - 55)%N
  else None.

(** What the hexadecimal decoder of the runtime reads in a character of
    a string: of the UTF-16 code unit it looks at the low byte only, so
    a character above 255 counts as the digit that its low byte
    spells. *)
Definition unhex (c : N) : option N := hex_digit (c mod 256)%N.

(** [Buffer.from(s, 'hex')]: the bytes of the pairs of hexadecimal
    digits of [s], up to the first pair that is not one; a last single
    character is dropped. *)
Fixpoint Buffer_from_hex (s : jsstring) : list N :=
  match s with
  | a :: b :: rest =>
      match unhex a, unhex b with
      | Some x, Some y => (16 * x + y)%N :: Buffer_from_hex rest
      | _, _ => []
      end
  | _ => []
  end.

Definition sigHashPrefix : jsstring := js "sha256=".

Section WithRuntime.

Variable R : Runtime.t.

(** [verifySignature]; [crypto.timingSafeEqual] compares two buffers of
    the same length byte by byte. *)
Definition verifySignature (payload : Body) (signature secret : jsstring) : bool :=
  match
    (if negb (startsWith signature sigHashPrefix)
     then Ok false
     else
       let receivedHash := skipn (length sigHashPrefix) signature in
       expectedHash <~ Runtime.createHmac R secret payload ;;
       let receivedBuffer := Buffer_from_hex receivedHash in
       let expectedBuffer := Buffer_from_hex expectedHash in
       if negb (length receivedBuffer =? length expectedBuffer)
       then Ok false
       else Ok (eqb_str receivedBuffer expectedBuffer))
  with
  | Ok b => b
  | Throw error => false
  end.

(** The text of a header or setting that is present. *)
Definition text (x : option jsstring) : jsstring :=
  match x with Some s => s | None => [] end.

(** [validateGitHubWebhook]; [secret] is [config.GITHUB_WEBHOOK_SECRET].
    Nothing in its [try] block throws ([verifySignature] catches its
    own errors), so the answer 500 of its [catch] does not occur. *)
Definition validateGitHubWebhook (secret : option jsstring) (req : Request.t)
  : Outcome WebhookInfo.t :=
  let signature := Request.signature req in
  let event := Request.event req in
  let delivery := Request.delivery req in
  if Controller.missing event
  then Reply 400 (js "Missing X-GitHub-Event header")
  else if Controller.missing delivery
  then Reply 400 (js "Missing X-GitHub-Delivery header")
  else if negb (Controller.missing secret)
  then
    if Controller.missing signature
    then Reply 401 (js "Missing webhook signature")
    else if negb (verifySignature (Request.body req) (text signature) (text secret))
    then Reply 401 (js "Invalid webhook signature")
    else Continue (WebhookInfo.mk (text event) (text delivery) signature)
  else Continue (WebhookInfo.mk (text event) (text delivery) signature).

(** [!payload.key] *)
Definition lacks (payload : Value) (key : jsstring) : Result bool :=
  v <~ get_field payload key ;;
  Ok (negb (truthy v)).

(** [a || b] on tests that may throw *)
Definition or_r (a b : Result bool) : Result bool :=
  x <~ a ;;
  if x then Ok true else b.

(** The checks of [validateWebhookPayload] on the parsed payload. *)
Definition check_payload (info : WebhookInfo.t) (payload : Value)
  : Result (Outcome Value) :=
  let event := WebhookInfo.event info in
  if negb (truthy payload)
  then Ok (Reply 400 (js "Empty payload"))
  else if eqb_str event (js "pull_request")
  then
    bad <~ or_r (lacks payload (js "pull_request"))
                (lacks payload (js "repository")) ;;
    if bad then Ok (Reply 400 (js "Invalid pull_request payload"))
    else Ok (Continue payload)
  else if eqb_str event (js "pull_request_review")
  then
    bad <~ or_r (lacks payload (js "review"))
                (or_r (lacks payload (js "pull_request"))
                      (lacks payload (js "repository"))) ;;
    if bad then Ok (Reply 400 (js "Invalid pull_request_review payload"))
    else Ok (Continue payload)
  else Ok (Continue payload).

(** [validateWebhookPayload]: a raw body is parsed first; the answer is
    the payload, which the middleware stores in [req.webhook.payload]. *)
Definition validateWebhookPayload (info : WebhookInfo.t) (body : Body) : Outcome Value :=
  match
    match body with
    | BodyBuffer bytes =>
        match Runtime.JSON_parse R (Runtime.toString R bytes) with
        | Ok payload => check_payload info payload
        | Throw error => Ok (Reply 400 (js "Invalid JSON payload"))
        end
    | BodyOther payload => check_payload info payload
    end
  with
  | Ok outcome => outcome
  | Throw error => Reply 500 (js "Internal server error")
  end.

(** The three middlewares in the order in which the route installs
    them; [now] is the reading of the clock by the rate limit. *)
Definition webhookValidator (secret : option jsstring) (now : Z)
    (requests : RateLimit.Table) (req : Request.t)
  : Outcome (WebhookInfo.t * Value) * RateLimit.Table :=
  match validateGitHubWebhook secret req with
  | Reply statusCode error => (Reply statusCode error, requests)
  | Continue info =>
      match RateLimit.webhookRateLimit (Some (WebhookInfo.delivery info))
              (Request.ip req) now requests with
      | (RateLimit.TooManyRequests, requests') =>
          (Reply 429 (js "Rate limit exceeded"), requests')
      | (RateLimit.Next, requests') =>
          (match validateWebhookPayload info (Request.body req) with
           | Continue payload => Continue (info, payload)
           | Reply statusCode error => Reply statusCode error
           end, requests')
      end
  end.

End WithRuntime.

(** The characters of a well-formed digest: hexadecimal digits, in
    pairs. *)
Fixpoint hex_pairs (s : jsstring) : bool :=
  match s with
  | [] => true
  | a :: b :: rest =>
      match hex_digit a, hex_digit b with
      | Some _, Some _ => hex_pairs rest
      | _, _ => false
      end
  | _ => false
  end.

End Validator.

(** A sample of the webhook route: a client that sends 101 requests
    within a second, a runtime whose digest is a fixed text, and a
    request signed with it. *)
Module Sample4.

Definition hit : RateLimit.Hit :=
  RateLimit.mkHit (Some (js "72d3162e-cc78-11e3-81ab-4c9367dc0958")) (Some (js "203.0.113.7"))
    1000.

Definition burst : list RateLimit.Hit := repeat hit 101.

Definition runtime : Runtime.t :=
  Runtime.mk
    (fun secret body =>
       match body with
       | BodyBuffer _ => Ok (js "00c0ffee")
       | BodyOther _ => Throw (TypeError (js "The data argument must be a Buffer"))
       end)
    (fun bytes => bytes)
    Sample3.parse_one_comment.

Definition request (signature : jsstring) : Request.t :=
  Request.mk (Some signature) (Some (js "pull_request"))
    (Some (js "72d3162e-cc78-11e3-81ab-4c9367dc0958")) (Some (js "203.0.113.7"))
    (BodyBuffer Sample3.one_comment_text).

End Sample4.

(** ** services/githubService.js: the position of a line in a patch *)

(** An entry of [pulls.listFiles], as far as [getLinePosition] reads
    it; [patch] is absent for a binary file. *)
Module PullFile.
Record t : Type := mk {
  filename : jsstring;
  patch : option jsstring
}.
End PullFile.

Module Patch.

(** [s.split('\n')] *)
Fixpoint split_lines (s : jsstring) : list jsstring :=
  match s with
  | [] => [[]]
  | c :: t =>
      if (c =? 10)%N then [] :: split_lines t
      else match split_lines t with
           | line :: rest => (c :: line) :: rest
           | [] => [[c]]
           end
  end.

(** The class [\d]. *)
Definition is_digit (c : N) : bool := ((48 <=? c) && (c <=? 57))%N.

(** The longest run of digits that opens [s], and what follows it. *)
Fixpoint digits (s : jsstring) : jsstring * jsstring :=
  match s with
  | [] => ([], [])
  | c :: t =>
      if is_digit c
      then let (d, rest) := digits t in (c :: d, rest)
      else ([], s)
  end.

(** [\d+(?:,\d+)?] at the start of [s]: the digits of the first
    number, and what follows the match.  The match of the expression
    that contains it is decided by the longest one: what follows a
    shorter one is a digit or a comma, where the expression goes on
    with a space. *)
Definition number_and_count (s : jsstring) : option (jsstring * jsstring) :=
  let (d, rest) := digits s in
  match d with
  | [] => None
  | _ :: _ =>
      match rest with
      | c :: rest' =>
          if (c =? 44)%N
          then let (d2, rest2) := digits rest' in
               match d2 with
               | [] => Some (d, rest)
               | _ :: _ => Some (d, rest2)
               end
          else Some (d, rest)
      | [] => Some (d, rest)
      end
  end.

(** [/@@ -\d+(?:,\d+)? \+(\d+)(?:,\d+)? @@/] at the start of [s]: the
    text of the group. *)
Definition match_hunk_at (s : jsstring) : option jsstring :=
  if startsWith s (js "@@ -")
  then
    match number_and_count (skipn 4 s) with
    | Some (_, r1) =>
        if startsWith r1 (js " +")
        then
          match number_and_count (skipn 2 r1) with
          | Some (newStart, r2) =>
              if startsWith r2 (js " @@") then Some newStart else None
          | None => None
          end
        else None
    | None => None
    end
  else None.

(** [line.match(...)]: the leftmost match; the answer is [match[1]]. *)
Fixpoint match_hunk (line : jsstring) : option jsstring :=
  match match_hunk_at line with
  | Some m => Some m
  | None =>
      match line with
      | [] => None
      | _ :: t => match_hunk t
      end
  end.

Section WithParseInt.

(** [parseInt] on the digits of a hunk header. *)
Variable parseInt : jsstring -> float.

(** The loop of [getLinePosition] over the lines that are left. *)
Fixpoint scan (patchLines : list jsstring) (lineNumber : float) (position : nat)
    (currentLine : float) (inHunk : bool) : option nat :=
  match patchLines with
  | [] => None
  | line :: rest =>
      if startsWith line (js "@@")
      then
        match match_hunk line with
        | Some m => scan rest lineNumber (S position) (parseInt m - 1)%float true
        | None => scan rest lineNumber (S position) currentLine inHunk
        end
      else if negb inHunk
      then scan rest lineNumber (S position) currentLine inHunk
      else if startsWith line (js "+")
      then
        let currentLine := (currentLine + 1)%float in
        if PrimFloat.eqb currentLine lineNumber
        then Some position
        else scan rest lineNumber (S position) currentLine inHunk
      else if startsWith line (js " ")
      then scan rest lineNumber (S position) (currentLine + 1)%float inHunk
      else scan rest lineNumber (S position) currentLine inHunk
  end.

(** [f.filename === filePath] *)
Definition is_file (filePath : Value) (f : PullFile.t) : bool :=
  match filePath with
  | VStr s => eqb_str (PullFile.filename f) s
  | _ => false
  end.

(** [getLinePosition]; [listFiles] is the answer of [pulls.listFiles],
    [None] is [null]. *)
Definition getLinePosition (listFiles : Result (list PullFile.t)) (filePath : Value)
    (lineNumber : float) : option nat :=
  match listFiles with
  | Throw error => None
  | Ok files =>
      match find (is_file filePath) files with
      | None => None
      | Some file =>
          if Controller.missing (PullFile.patch file) then None
          else
            let patch := match PullFile.patch file with Some s => s | None => [] end in
            scan (split_lines patch) lineNumber 0 0%float false
      end
  end.

End WithParseInt.

End Patch.

(** A patch of two hunks, and the listing that holds it. *)
Module Sample5.

Definition patch : jsstring :=
  js "@@ -1,3 +1,4 @@" ++ [10%N] ++ js " const a = 1;" ++ [10%N]
  ++ js "+const b = 2;" ++ [10%N] ++ js " module.exports = a;" ++ [10%N]
  ++ js "@@ -10,2 +11,2 @@" ++ [10%N] ++ js "-old();" ++ [10%N] ++ js "+renewed();".

Definition files : list PullFile.t :=
  [PullFile.mk (js "logo.png") None; PullFile.mk (js "src/app.js") (Some patch)].

(** [parseInt] on the numbers of the sample. *)
Definition parseInt (s : jsstring) : float :=
  if eqb_str s (js "1") then 1%float
  else if eqb_str s (js "11") then 11%float
  else PrimFloat.nan.

End Sample5.

(** ** utils/database.js: the connection and its retries *)

Module Database.

Definition maxRetries : nat := 5.

(** The two callbacks that the class hands to [setTimeout], both with
    the delay [retryDelay]: the one of [connect] calls [this.connect()]
    and lets its failure go, the one of [handleReconnect] awaits it in
    a [try] and logs the failure. *)
Inductive Timer : Type :=
| RetryConnect
| Reconnect.

(** The connection object: its two fields that change, the number of
    times the three listeners of [mongoose.connection] were registered
    (once per successful [connect], never removed) and the timers that
    are pending, in the order in which they were set.  A call runs to
    its end before the next event is handled. *)
Record t : Type := mk {
  isConnected : bool;
  retryCount : nat;
  listeners : nat;
  timers : list Timer
}.

(** The object after its constructor. *)
Definition initial : t := mk false 0 0 [].

Definition gave_up : JsError :=
  Error_ (js "Database connection failed after maximum retries").

(** [connect]; [answer] is what [mongoose.connect] answers when it is
    called. *)
Definition connect (answer : Result unit) (db : t) : Result unit * t :=
  if isConnected db then (Ok tt, db)
  else
    match answer with
    | Ok _ => (Ok tt, mk true 0 (S (listeners db)) (timers db))
    | Throw error =>
        if retryCount db <? maxRetries
        then (Ok tt, mk false (S (retryCount db)) (listeners db)
                       (timers db ++ [RetryConnect]))
        else (Throw gave_up, mk false (retryCount db) (listeners db) (timers db))
    end.

Definition handleReconnect (db : t) : t :=
  if maxRetries <=? retryCount db then db
  else mk (isConnected db) (S (retryCount db)) (listeners db) (timers db ++ [Reconnect]).

(** The events of [mongoose.connection]; every registered listener
    runs. *)
Definition on_error (db : t) : t :=
  Nat.iter (listeners db)
    (fun d => mk false (retryCount d) (listeners d) (timers d)) db.

Definition on_disconnected (db : t) : t :=
  Nat.iter (listeners db)
    (fun d => handleReconnect (mk false (retryCount d) (listeners d) (timers d))) db.

Definition on_reconnected (db : t) : t :=
  Nat.iter (listeners db)
    (fun d => mk true 0 (listeners d) (timers d)) db.

(** The timer that was set first fires.  The result is what its
    callback lets go: the failure of [connect] for [RetryConnect],
    nothing for [Reconnect]. *)
Definition fire (answer : Result unit) (db : t) : Result unit * t :=
  match timers db with
  | [] => (Ok tt, db)
  | RetryConnect :: rest =>
      connect answer (mk (isConnected db) (retryCount db) (listeners db) rest)
  | Reconnect :: rest =>
      (Ok tt, snd (connect answer (mk (isConnected db) (retryCount db) (listeners db) rest)))
  end.

(** What happens to the object, and a series of it. *)
Inductive Action : Type :=
| CallConnect (answer : Result unit)
| TimerFires (answer : Result unit)
| ErrorEvent
| DisconnectedEvent
| ReconnectedEvent.

Definition act (a : Action) (db : t) : Result unit * t :=
  match a with
  | CallConnect answer => connect answer db
  | TimerFires answer => fire answer db
  | ErrorEvent => (Ok tt, on_error db)
  | DisconnectedEvent => (Ok tt, on_disconnected db)
  | ReconnectedEvent => (Ok tt, on_reconnected db)
  end.

Fixpoint run (actions : list Action) (db : t) : list (Result unit) * t :=
  match actions with
  | [] => ([], db)
  | a :: rest =>
      let (results, db') := run rest (snd (act a db)) in
      (fst (act a db) :: results, db')
  end.

(** The timers fire, each attempt failing with one of [errors]. *)
Definition failing (errors : list JsError) : list Action :=
  map (fun e => TimerFires (Throw e)) errors.

End Database.

(** ** scripts: the signature that the test sender computes *)

Module TestWebhook.
Section WithRuntime.

Variable R : Runtime.t.

(** [generateSignature]; [payload] is the payload string as the bytes
    of its UTF-8 encoding, which is what [hmac.update(payload, 'utf8')]
    digests and what is sent as the body. *)
Definition generateSignature (payload : list N) (secret : jsstring) : Result jsstring :=
  digest <~ Runtime.createHmac R secret (BodyBuffer payload) ;;
  Ok (js "sha256=" ++ digest).

End WithRuntime.
End TestWebhook.

(** ** The service as a whole *)

(** What the service does to its store, step by step: a pull-request
    event is handled, a retry is requested, a review run is carried
    out, the status is asked for.  A run is a step of its own: the
    handlers start it and do not wait for it. *)
Inductive Op : Type :=
| OpEvent (p : Payload.t)
| OpRetry (prId : Z) (owner repo : option jsstring)
| OpRun (owner repo : jsstring) (pullNumber : Z) (reviewId : nat)
| OpStatus (prId : Z) (owner repo : option jsstring).

Definition step (E : Env) (op : Op) (w : World) : World :=
  match op with
  | OpEvent p => snd (Controller.handlePullRequest E p w)
  | OpRetry prId owner repo => snd (Controller.retryReview E prId owner repo w)
  | OpRun owner repo pullNumber reviewId =>
      snd (Controller.processReviewAsync E owner repo pullNumber reviewId w)
  | OpStatus prId owner repo => snd (Endpoints.getReviewStatus prId owner repo w)
  end.

Fixpoint steps (E : Env) (ops : list Op) (w : World) : World :=
  match ops with
  | [] => w
  | op :: rest => steps E rest (step E op w)
  end.

(** The record [r'] continues the record [r]: same id, same key, and a
    retry counter that is not lower. *)
Definition continues (r r' : Review.t) : Prop :=
  Review._id r' = Review._id r
  /\ key r' = key r
  /\ (Review.retryCount r <= Review.retryCount r')%N.

(** * Properties *)

(** ** Numbers *)

Section Numbers.

Local Open Scope Q_scope.

Lemma nearest_even_bounds (t : Q) :
  (Qfloor t <= nearest_even t <= Qfloor t + 1)%Z.
Proof.
  unfold nearest_even.
  destruct (Qcompare (t - inject_Z (Qfloor t)) (1 # 2)); [destruct (Z.even (Qfloor t))| |]; lia.
Qed.

Lemma nearest_even_Z (n : Z) : nearest_even (inject_Z n) = n.
Proof.
  unfold nearest_even. rewrite Qfloor_Z.
  assert (H : Qcompare (inject_Z n - inject_Z n) (1 # 2) = Lt).
  { rewrite <- Qlt_alt. lra. }
  now rewrite H.
Qed.

Lemma nearest_even_le (t u : Q) : t <= u -> (nearest_even t <= nearest_even u)%Z.
Proof.
  intros Htu.
  pose proof (Qfloor_resp_le t u Htu) as Hf.
  pose proof (nearest_even_bounds t) as Ht.
  pose proof (nearest_even_bounds u) as Hu.
  destruct (Z.eq_dec (Qfloor t) (Qfloor u)) as [Heq|Hne]; [|lia].
  unfold nearest_even. rewrite <- Heq.
  destruct (Qcompare (t - inject_Z (Qfloor t)) (1 # 2)) eqn:Ct;
    destruct (Qcompare (u - inject_Z (Qfloor t)) (1 # 2)) eqn:Cu;
    try (destruct (Z.even (Qfloor t))); try lia;
    try (rewrite <- Qeq_alt in Ct); try (rewrite <- Qlt_alt in Ct); try (rewrite <- Qgt_alt in Ct);
    try (rewrite <- Qeq_alt in Cu); try (rewrite <- Qlt_alt in Cu); try (rewrite <- Qgt_alt in Cu);
    exfalso; lra.
Qed.

Lemma two_power_pos (e : Z) : 0 < 2 ^ e.
Proof. apply Qpower_0_lt. lra. Qed.

Lemma two_power_succ (e : Z) : 2 ^ (e + 1) == 2 * 2 ^ e.
Proof. rewrite Qpower_plus by lra. change (2 ^ 1) with (2 * 1). lra. Qed.

Lemma two_power_le (a b : Z) : (a <= b)%Z -> 2 ^ a <= 2 ^ b.
Proof. intros H. apply Qpower_le_compat_l; [exact H | lra]. Qed.

Lemma ilog2_spec (x : Q) : 0 < x -> 2 ^ ilog2 x <= x /\ x < 2 ^ (ilog2 x + 1).
Proof.
  intros Hx. destruct x as [p q].
  assert (Hp : (0 < p)%Z).
  { unfold Qlt in Hx. cbn in Hx. lia. }
  unfold ilog2. cbn [Qnum Qden].
  set (lp := Z.log2 p). set (lq := Z.log2 (Z.pos q)).
  assert (Hlp : (0 <= lp)%Z) by apply Z.log2_nonneg.
  assert (Hlq : (0 <= lq)%Z) by apply Z.log2_nonneg.
  destruct (Z.log2_spec p Hp) as [Hp1 Hp2]. fold lp in Hp1, Hp2.
  destruct (Z.log2_spec (Z.pos q) (Pos2Z.is_pos q)) as [Hq1 Hq2]. fold lq in Hq1, Hq2.
  assert (HP1 : 2 ^ lp <= inject_Z p).
  { rewrite <- (Zpower_Qpower 2 lp Hlp). rewrite <- Zle_Qle. exact Hp1. }
  assert (HP2 : inject_Z p < 2 ^ (lp + 1)).
  { replace (lp + 1)%Z with (Z.succ lp) by lia.
    rewrite <- (Zpower_Qpower 2 (Z.succ lp)) by lia. rewrite <- Zlt_Qlt. exact Hp2. }
  assert (HQ1 : 2 ^ lq <= inject_Z (Z.pos q)).
  { rewrite <- (Zpower_Qpower 2 lq Hlq). rewrite <- Zle_Qle. exact Hq1. }
  assert (HQ2 : inject_Z (Z.pos q) < 2 ^ (lq + 1)).
  { replace (lq + 1)%Z with (Z.succ lq) by lia.
    rewrite <- (Zpower_Qpower 2 (Z.succ lq)) by lia. rewrite <- Zlt_Qlt. exact Hq2. }
  assert (Hx' : (p # q) * inject_Z (Z.pos q) == inject_Z p).
  { rewrite (Qmake_Qdiv p q). field. discriminate. }
  assert (Hq0 : 0 < inject_Z (Z.pos q)).
  { change 0 with (inject_Z 0). rewrite <- Zlt_Qlt. lia. }
  assert (Hup : p # q < 2 ^ (lp - lq + 1)).
  { assert (H : 2 ^ (lp + 1) == 2 ^ (lp - lq + 1) * 2 ^ lq).
    { rewrite <- Qpower_plus by lra. replace (lp - lq + 1 + lq)%Z with (lp + 1)%Z by lia. reflexivity. }
    pose proof (two_power_pos (lp - lq + 1)) as H0.
    apply Qnot_le_lt. intros Hc.
    assert (2 ^ (lp - lq + 1) * 2 ^ lq <= (p # q) * inject_Z (Z.pos q)).
    { apply Qmult_le_compat_nonneg; split; try lra.
      - apply Qlt_le_weak, two_power_pos. }
    lra. }
  assert (Hlow : 2 ^ (lp - lq - 1) <= p # q).
  { assert (H : 2 ^ lp == 2 ^ (lp - lq - 1) * 2 ^ (lq + 1)).
    { rewrite <- Qpower_plus by lra. replace (lp - lq - 1 + (lq + 1))%Z with lp by lia. reflexivity. }
    pose proof (two_power_pos (lp - lq - 1)) as H0.
    apply Qnot_lt_le. intros Hc.
    assert ((p # q) * inject_Z (Z.pos q) < 2 ^ (lp - lq - 1) * 2 ^ (lq + 1)).
    { apply Qle_lt_trans with (2 ^ (lp - lq - 1) * inject_Z (Z.pos q)).
      - apply Qmult_le_compat_r; lra.
      - apply Qmult_lt_l; lra. }
    lra. }
  destruct (Qle_bool (2 ^ (lp - lq)) (p # q)) eqn:Hb.
  - apply Qle_bool_iff in Hb. split; assumption.
  - split; [exact Hlow|].
    replace (lp - lq - 1 + 1)%Z with (lp - lq)%Z by lia.
    apply Qnot_le_lt. intros Hc. apply Qle_bool_iff in Hc. congruence.
Qed.

Lemma ilog2_le (x y : Q) : 0 < x -> x <= y -> (ilog2 x <= ilog2 y)%Z.
Proof.
  intros Hx Hxy.
  destruct (ilog2_spec x Hx) as [Hx1 _].
  destruct (ilog2_spec y) as [_ Hy2]; [lra|].
  destruct (Z_le_gt_dec (ilog2 x) (ilog2 y)) as [H|H]; [exact H|exfalso].
  pose proof (two_power_le (ilog2 y + 1) (ilog2 x) ltac:(lia)) as Hp. lra.
Qed.

Lemma two_power_Z (n : Z) : (0 <= n)%Z -> inject_Z (2 ^ n) == 2 ^ n.
Proof. intros H. rewrite (Zpower_Qpower 2 n H). reflexivity. Qed.

Lemma two_power_shift (n e : Z) : (0 <= n)%Z -> inject_Z (2 ^ n) * 2 ^ e == 2 ^ (n + e).
Proof. intros H. rewrite (two_power_Z n H). rewrite Qpower_plus by lra. reflexivity. Qed.

Lemma ulp_exponent_le (x y : Q) : 0 < x -> x <= y -> (ulp_exponent x <= ulp_exponent y)%Z.
Proof.
  intros Hx Hxy. unfold ulp_exponent. pose proof (ilog2_le x y Hx Hxy). lia.
Qed.

Lemma scaled_lt (x : Q) : 0 < x -> x / 2 ^ ulp_exponent x < inject_Z (2 ^ 53).
Proof.
  intros Hx. destruct (ilog2_spec x Hx) as [_ H2].
  pose proof (two_power_pos (ulp_exponent x)) as He.
  apply Qlt_shift_div_r; [exact He|].
  rewrite two_power_shift by lia.
  eapply Qlt_le_trans; [exact H2|]. apply two_power_le. unfold ulp_exponent. lia.
Qed.

Lemma scaled_ge (x : Q) :
  0 < x -> (-1074 < ulp_exponent x)%Z -> inject_Z (2 ^ 52) <= x / 2 ^ ulp_exponent x.
Proof.
  intros Hx Hn. destruct (ilog2_spec x Hx) as [H1 _].
  pose proof (two_power_pos (ulp_exponent x)) as He.
  apply Qle_shift_div_l; [exact He|].
  rewrite two_power_shift by lia.
  eapply Qle_trans; [|exact H1]. apply two_power_le. unfold ulp_exponent in *. lia.
Qed.

Lemma round_pos_le (x y : Q) : 0 < x -> x <= y -> round_pos x <= round_pos y.
Proof.
  intros Hx Hxy.
  assert (Hy : 0 < y) by lra.
  pose proof (ulp_exponent_le x y Hx Hxy) as He.
  unfold round_pos.
  pose proof (two_power_pos (ulp_exponent x)) as Hpx.
  pose proof (two_power_pos (ulp_exponent y)) as Hpy.
  destruct (Z.eq_dec (ulp_exponent x) (ulp_exponent y)) as [Heq|Hne].
  - rewrite Heq in *. apply Qmult_le_compat_r; [|lra].
    rewrite <- Zle_Qle. apply nearest_even_le.
    apply Qmult_le_compat_r; [exact Hxy|]. apply Qlt_le_weak, Qinv_lt_0_compat, Hpy.
  - assert (Hlt : (ulp_exponent x + 1 <= ulp_exponent y)%Z) by lia.
    assert (Hnx : (nearest_even (x / 2 ^ ulp_exponent x) <= 2 ^ 53)%Z).
    { rewrite <- (nearest_even_Z (2 ^ 53)). apply nearest_even_le.
      apply Qlt_le_weak, scaled_lt, Hx. }
    assert (Hny : (2 ^ 52 <= nearest_even (y / 2 ^ ulp_exponent y))%Z).
    { rewrite <- (nearest_even_Z (2 ^ 52)). apply nearest_even_le.
      apply scaled_ge; [exact Hy|]. unfold ulp_exponent in *. lia. }
    apply Qle_trans with (inject_Z (2 ^ 53) * 2 ^ ulp_exponent x).
    { apply Qmult_le_compat_r; [|lra]. rewrite <- Zle_Qle. exact Hnx. }
    apply Qle_trans with (inject_Z (2 ^ 52) * 2 ^ ulp_exponent y).
    2:{ apply Qmult_le_compat_r; [|lra]. rewrite <- Zle_Qle. exact Hny. }
    rewrite !two_power_shift by lia. apply two_power_le. lia.
Qed.

Lemma round_pos_nonneg (x : Q) : 0 < x -> 0 <= round_pos x.
Proof.
  intros Hx. unfold round_pos.
  pose proof (two_power_pos (ulp_exponent x)) as Hp.
  apply Qmult_le_0_compat; [|lra].
  change 0 with (inject_Z 0). rewrite <- Zle_Qle.
  rewrite <- (nearest_even_Z 0). apply nearest_even_le.
  apply Qlt_le_weak. apply Qlt_shift_div_l; [exact Hp|].
  change (inject_Z 0) with 0. lra.
Qed.

Lemma round64_le (x y : Q) : 0 <= x -> x <= y -> round64 x <= round64 y.
Proof.
  intros Hx Hxy. unfold round64.
  destruct (Qcompare x 0) eqn:Cx.
  - destruct (Qcompare y 0) eqn:Cy.
    + lra.
    + rewrite <- Qlt_alt in Cy. rewrite <- Qeq_alt in Cx. lra.
    + apply round_pos_nonneg. now rewrite Qgt_alt.
  - rewrite <- Qlt_alt in Cx. lra.
  - rewrite <- Qgt_alt in Cx.
    assert (Cy : Qcompare y 0 = Gt) by (rewrite <- Qgt_alt; lra).
    rewrite Cy. apply round_pos_le; lra.
Qed.

Lemma round64_nonneg (x : Q) : 0 <= x -> 0 <= round64 x.
Proof. intros Hx. change 0 with (round64 0) at 1. apply round64_le; lra. Qed.

(** A number below one is at most the largest number below one. *)
Lemma below_one (x : Q) : representable x -> 0 <= x -> x < 1 -> x <= 1 - (1 # 2 ^ 53).
Proof.
  intros Hr H0 H1. unfold representable, round64 in Hr.
  destruct (Qcompare x 0) eqn:Cx.
  - rewrite <- Qeq_alt in Cx. rewrite Cx. vm_compute. discriminate.
  - rewrite <- Qlt_alt in Cx. lra.
  - rewrite <- Qgt_alt in Cx.
    destruct (ilog2_spec x Cx) as [Hl1 Hl2].
    assert (Hlog : (ilog2 x <= -1)%Z).
    { destruct (Z_le_gt_dec (ilog2 x) (-1)) as [H|H]; [exact H|exfalso].
      pose proof (two_power_le 0 (ilog2 x) ltac:(lia)) as Hp. change (2 ^ 0) with 1 in Hp. lra. }
    destruct (Z_le_gt_dec (ilog2 x) (-2)) as [Hsmall|Hbig].
    + pose proof (two_power_le (ilog2 x + 1) (-1) ltac:(lia)) as Hp.
      assert (Hhalf : 2 ^ (-1) == 1 # 2) by reflexivity.
      assert ((1 # 2) <= 1 - (1 # 2 ^ 53)) by (vm_compute; discriminate).
      lra.
    + assert (He : ulp_exponent x = (-53)%Z) by (unfold ulp_exponent; lia).
      unfold round_pos in Hr. rewrite He in Hr.
      set (n := nearest_even (x / 2 ^ (-53))) in *.
      assert (Hn : (n < 2 ^ 53)%Z).
      { rewrite Zlt_Qlt.
        assert (Hx : inject_Z n == x * inject_Z (2 ^ 53)).
        { rewrite <- Hr. rewrite <- Qmult_assoc.
          assert (Hone : 2 ^ (-53) * inject_Z (2 ^ 53) == 1) by reflexivity.
          rewrite Hone. ring. }
        rewrite Hx.
        assert (H53 : 0 < inject_Z (2 ^ 53)) by reflexivity.
        set (c := inject_Z (2 ^ 53)) in *.
        apply Qlt_le_trans with (1 * c); [|lra].
        apply Qmult_lt_compat_r; assumption. }
      rewrite <- Hr.
      assert (Hle : inject_Z n <= inject_Z (2 ^ 53 - 1)) by (rewrite <- Zle_Qle; lia).
      apply Qle_trans with (inject_Z (2 ^ 53 - 1) * 2 ^ (-53)).
      * apply Qmult_le_compat_r; [exact Hle|]. apply Qlt_le_weak, two_power_pos.
      * vm_compute. discriminate.
Qed.

(** The jitter is a number between 0 and 1000 milliseconds. *)
Lemma jitter_bounds (r : Q) : 0 <= r -> r < 1 -> 0 <= round64 (r * 1000) <= 1000.
Proof.
  intros H0 H1. split.
  - apply round64_nonneg. lra.
  - apply Qle_trans with (round64 1000); [apply round64_le; lra|].
    vm_compute. discriminate.
Qed.

Lemma jitter_below_second (r : Q) :
  representable r -> 0 <= r -> r < 1 -> round64 (r * 1000) < 1000.
Proof.
  intros Hr H0 H1. pose proof (below_one r Hr H0 H1) as Hb.
  apply Qle_lt_trans with (round64 ((1 - (1 # 2 ^ 53)) * 1000)).
  - apply round64_le; lra.
  - reflexivity.
Qed.

(** The sum of a base wait and a jitter, rounded, stays between the
    base and the base plus one second. *)
Lemma wait_bounds (attempt : nat) (jitter : Q) :
  (1 <= attempt <= 4)%nat -> 0 <= jitter -> jitter <= 1000 ->
  inject_Z (2 ^ Z.of_nat attempt * 1000)
    <= round64 (inject_Z (2 ^ Z.of_nat attempt * 1000) + jitter)
  /\ round64 (inject_Z (2 ^ Z.of_nat attempt * 1000) + jitter)
     <= inject_Z (2 ^ Z.of_nat attempt * 1000) + 1000.
Proof.
  intros Ha H0 H1.
  assert (Hcases : attempt = 1%nat \/ attempt = 2%nat \/ attempt = 3%nat \/ attempt = 4%nat)
    by lia.
  assert (Hexact : forall base : Z,
             round64 (inject_Z base) == inject_Z base ->
             round64 (inject_Z base + 1000) == inject_Z base + 1000 ->
             0 <= inject_Z base ->
             inject_Z base <= round64 (inject_Z base + jitter)
             /\ round64 (inject_Z base + jitter) <= inject_Z base + 1000).
  { intros base Hb Hb' Hpos. split.
    - apply Qle_trans with (round64 (inject_Z base)); [rewrite Hb; lra|].
      apply round64_le; lra.
    - apply Qle_trans with (round64 (inject_Z base + 1000)); [|rewrite Hb'; lra].
      apply round64_le; lra. }
  destruct Hcases as [-> | [-> | [-> | ->]]]; apply Hexact; reflexivity || discriminate.
Qed.

End Numbers.

(** ** Strings and the store *)

Lemma eqb_str_eq (a b : jsstring) : eqb_str a b = true <-> a = b.
Proof.
  revert b. induction a as [|x a IH]; intros [|y b]; cbn; split; intros H;
    try reflexivity; try discriminate.
  - apply andb_prop in H as [Hx Hab]. apply N.eqb_eq in Hx.
    apply IH in Hab. congruence.
  - injection H as -> ->. rewrite N.eqb_refl. cbn. now apply IH.
Qed.

Lemma eqb_str_refl (a : jsstring) : eqb_str a a = true.
Proof. now apply eqb_str_eq. Qed.

Lemma startsWith_length (s pat : jsstring) :
  startsWith s pat = true -> length pat <= length s.
Proof.
  revert s. induction pat as [|p pat IH]; intros s H; cbn; [lia|].
  destruct s as [|c s]; cbn in *; [discriminate|].
  apply andb_prop in H as [_ H]. apply IH in H. lia.
Qed.

Lemma trimStart_length (s : jsstring) : length (trimStart s) <= length s.
Proof.
  induction s as [|c s IH]; cbn; [lia|].
  destruct (is_space c); cbn; lia.
Qed.

(** The scans of [strip_markdown] are given enough fuel: with more than
    the length of the string, any further fuel changes nothing. *)
Lemma remove_with_space_fuel (pat : jsstring) (fuel extra : nat) (s : jsstring) :
  pat <> [] -> length s < fuel ->
  remove_with_space (fuel + extra) pat s = remove_with_space fuel pat s.
Proof.
  intros Hpat. revert s.
  induction fuel as [|fuel IH]; intros s Hlen; [lia|].
  cbn [Nat.add remove_with_space].
  destruct (startsWith s pat) eqn:Hstart.
  - apply IH. apply startsWith_length in Hstart.
    pose proof (trimStart_length (skipn (length pat) s)) as Htrim.
    rewrite length_skipn in Htrim.
    destruct pat as [|p pat]; [congruence|]. cbn [length] in *. lia.
  - destruct s as [|c s]; [reflexivity|]. f_equal. apply IH. cbn in Hlen. lia.
Qed.

Lemma remove_blocks_fuel (pat : jsstring) (fuel extra : nat) (s : jsstring) :
  pat <> [] -> length s < fuel ->
  remove_blocks (fuel + extra) pat s = remove_blocks fuel pat s.
Proof.
  intros Hpat. revert s.
  induction fuel as [|fuel IH]; intros s Hlen; [lia|].
  cbn [Nat.add remove_blocks].
  assert (Hstep : match s with
                  | [] => []
                  | c :: t => c :: remove_blocks (fuel + extra) pat t
                  end
                  = match s with
                    | [] => []
                    | c :: t => c :: remove_blocks fuel pat t
                    end).
  { destruct s as [|c s]; [reflexivity|]. f_equal. apply IH. cbn in Hlen. lia. }
  rewrite Hstep.
  destruct (startsWith s pat) eqn:Hstart; [|reflexivity].
  destruct (search (skipn (length pat) s) pat) as [i|]; [|reflexivity].
  apply IH. rewrite length_skipn. apply startsWith_length in Hstart.
  destruct pat as [|p pat]; [congruence|]. cbn [length] in *. lia.
Qed.

(** A document found by id has that id. *)
Lemma find_by_id_some (l : list Review.t) (i : nat) (r : Review.t) :
  find (fun x => Review._id x =? i) l = Some r -> Review._id r = i /\ In r l.
Proof.
  intros H. apply find_some in H as [Hin Hid]. apply Nat.eqb_eq in Hid. now split.
Qed.

(** After [doc] is saved over an existing document, a lookup by the id
    of [doc] returns [doc]. *)
Lemma find_upsert_same (l : list Review.t) (doc r : Review.t) :
  find (fun x => Review._id x =? Review._id doc) l = Some r ->
  find (fun x => Review._id x =? Review._id doc) (upsert doc l) = Some doc.
Proof.
  intros H. unfold upsert.
  assert (Hex : existsb (fun x => Review._id x =? Review._id doc) l = true).
  { apply existsb_exists. exists r. apply find_some in H. exact H. }
  rewrite Hex. clear Hex.
  induction l as [|x l IH]; cbn in *; [discriminate|].
  destruct (Review._id x =? Review._id doc) eqn:Hx; cbn.
  - now rewrite Nat.eqb_refl.
  - rewrite Hx. now apply IH.
Qed.

(** A document of the store has its id found in the store. *)
Lemma find_some_first_by_id (l : list Review.t) (r : Review.t) :
  In r l -> exists r0, find (fun x => Review._id x =? Review._id r) l = Some r0.
Proof.
  intros Hin. destruct (find _ l) eqn:Hf; [eauto|].
  exfalso. apply (find_none _ _ Hf) in Hin. now rewrite Nat.eqb_refl in Hin.
Qed.

(** Every document of the store after a save is [doc] or was there. *)
Lemma in_upsert (l : list Review.t) (doc x : Review.t) :
  In x (upsert doc l) -> x = doc \/ In x l.
Proof.
  unfold upsert. destruct (existsb _ l).
  - intros H. apply in_map_iff in H as [y [Hy Hin]].
    destruct (Review._id y =? Review._id doc); subst; auto.
  - intros H. apply in_app_or in H as [H|[H|[]]]; auto.
Qed.

(** A document is in the store once it is written. *)
Lemma in_upsert_self (l : list Review.t) (doc : Review.t) : In doc (upsert doc l).
Proof.
  unfold upsert. destruct (existsb _ l) eqn:Hex.
  - apply existsb_exists in Hex as (r & Hin & Hid).
    apply in_map_iff. exists r. rewrite Hid. now split.
  - apply in_or_app. right. now left.
Qed.

(** *** The validation that precedes a write *)

Lemma Value_eqb_refl : forall v : Value, Value_eqb v v = true.
Proof.
  fix IH 1. intros [| |b|d|str|items|props]; cbn.
  - reflexivity.
  - reflexivity.
  - now destruct b.
  - now apply FloatAxioms.Leibniz.eqb_spec.
  - apply eqb_str_refl.
  - induction items as [|x items IHitems]; [reflexivity|].
    rewrite (IH x). exact IHitems.
  - induction props as [|[k x] props IHprops]; [reflexivity|].
    rewrite eqb_str_refl, (IH x). exact IHprops.
Qed.

Lemma Comment_eqb_refl (c : Comment.t) : Comment.eqb c c = true.
Proof.
  unfold Comment.eqb. rewrite !Value_eqb_refl, eqb_str_refl.
  now rewrite (proj2 (FloatAxioms.Leibniz.eqb_spec _ _) eq_refl).
Qed.

Lemma comments_eqb_refl (cs : list Comment.t) : list_eqb Comment.eqb cs cs = true.
Proof.
  induction cs as [|c cs IH]; [reflexivity|]. cbn. now rewrite Comment_eqb_refl.
Qed.

(** The comments of a document of the store are stored. *)
Lemma comments_stored_in (doc r : Review.t) (l : list Review.t) :
  In r l -> Review._id r = Review._id doc -> Review.comments r = Review.comments doc ->
  comments_stored doc l = true.
Proof.
  intros Hin Hid Hcs. apply existsb_exists. exists r. split; [exact Hin|].
  rewrite Hid, Hcs, Nat.eqb_refl. apply comments_eqb_refl.
Qed.

Lemma comments_stored_is_stored (doc : Review.t) (l : list Review.t) :
  comments_stored doc l = true -> is_stored doc l = true.
Proof.
  intros H. apply existsb_exists in H as (r & Hin & H).
  apply andb_prop in H as [Hid _]. apply existsb_exists. now exists r.
Qed.

(** The validation looks at the id, the required strings and the
    comments of a document only. *)
Lemma refused_ext (E : Env) (doc doc' : Review.t) (l : list Review.t) :
  Review._id doc' = Review._id doc ->
  Review.repository doc' = Review.repository doc ->
  Review.owner doc' = Review.owner doc ->
  Review.repo doc' = Review.repo doc ->
  Review.comments doc' = Review.comments doc ->
  refused E doc' l = refused E doc l.
Proof.
  intros Hid Hr Ho Hn Hc.
  unfold refused, is_stored, comments_stored, Schema.required_present.
  now rewrite Hid, Hr, Ho, Hn, Hc.
Qed.

(** A document whose comments are the stored ones is written. *)
Lemma save_stored (E : Env) (doc : Review.t) (w : World) :
  comments_stored doc (reviews w) = true -> save E doc w = write doc w.
Proof.
  intros H. unfold save, refused.
  now rewrite (comments_stored_is_stored _ _ H), H.
Qed.

Lemma save_loaded (E : Env) (doc r : Review.t) (w : World) :
  In r (reviews w) -> Review._id r = Review._id doc ->
  Review.comments r = Review.comments doc ->
  save E doc w = write doc w.
Proof.
  intros Hin Hid Hcs. apply save_stored. now apply (comments_stored_in doc r).
Qed.

(** A stored document whose comments pass the validation is written. *)
Lemma save_valid (E : Env) (doc r : Review.t) (w : World) :
  In r (reviews w) -> Review._id r = Review._id doc ->
  comments_valid E (Review.comments doc) = true ->
  save E doc w = write doc w.
Proof.
  intros Hin Hid Hv. unfold save, refused. rewrite Hv.
  assert (Hs : is_stored doc (reviews w) = true).
  { apply existsb_exists. exists r. split; [exact Hin|]. now apply Nat.eqb_eq. }
  rewrite Hs. cbn [negb andb orb]. now rewrite andb_false_r.
Qed.

(** What [write] does. *)
Lemma write_run (doc : Review.t) (w : World) :
  write doc w =
    (Ok doc, mkWorld (upsert doc (reviews w)) (trace w ++ [EvSave doc]) (ticks w) (draws w)
               (botUser w) (nextId w)).
Proof. reflexivity. Qed.

(** A save either writes the document or throws and changes nothing. *)
Lemma save_cases (E : Env) (doc : Review.t) (w : World) :
  (refused E doc (reviews w) = false /\ save E doc w = write doc w)
  \/ (refused E doc (reviews w) = true
      /\ save E doc w = (Throw (validation_error E doc), w)).
Proof.
  unfold save. destruct (refused E doc (reviews w)); [right|left]; now split.
Qed.

(** After a write the comments of the document are the stored ones. *)
Lemma comments_stored_written (doc doc' : Review.t) (l : list Review.t) :
  Review._id doc' = Review._id doc -> Review.comments doc' = Review.comments doc ->
  comments_stored doc' (upsert doc l) = true.
Proof.
  intros Hid Hcs. apply (comments_stored_in doc' doc); auto. apply in_upsert_self.
Qed.

(** *** The first and the last occurrence of a character *)

Lemma indexOf_app (c : N) (pre rest : jsstring) :
  ~ In c pre -> indexOf (pre ++ c :: rest) c = Some (length pre).
Proof.
  induction pre as [|x pre IH]; intros Hin; cbn.
  - now rewrite N.eqb_refl.
  - destruct (N.eqb x c) eqn:Hx.
    + apply N.eqb_eq in Hx. subst x. exfalso. apply Hin. now left.
    + rewrite IH; [reflexivity|]. intros H. apply Hin. now right.
Qed.

Lemma lastIndexOf_none (c : N) (s : jsstring) : ~ In c s -> lastIndexOf s c = None.
Proof.
  induction s as [|x s IH]; intros Hin; cbn; [reflexivity|].
  rewrite IH by (intros H; apply Hin; now right).
  destruct (N.eqb x c) eqn:Hx; [|reflexivity].
  apply N.eqb_eq in Hx. subst x. exfalso. apply Hin. now left.
Qed.

Lemma lastIndexOf_app (c : N) (front post : jsstring) :
  ~ In c post -> lastIndexOf (front ++ c :: post) c = Some (length front).
Proof.
  intros Hin. induction front as [|x front IH]; cbn.
  - now rewrite (lastIndexOf_none c post Hin), N.eqb_refl.
  - now rewrite IH.
Qed.

Lemma indexOf_some (c : N) (s : jsstring) (i : nat) :
  indexOf s c = Some i ->
  exists pre rest, s = pre ++ c :: rest /\ length pre = i /\ ~ In c pre.
Proof.
  revert i. induction s as [|x s IH]; intros i H; cbn in H; [discriminate|].
  destruct (N.eqb x c) eqn:Hx.
  - apply N.eqb_eq in Hx. subst x. injection H as <-.
    exists [], s. repeat split. intros [].
  - destruct (indexOf s c) as [k|]; [|discriminate]. injection H as <-.
    destruct (IH k eq_refl) as (pre & rest & -> & Hlen & Hin).
    exists (x :: pre), rest. repeat split; [cbn; now rewrite Hlen|].
    intros [H|H]; [|now apply Hin]. subst x. now rewrite N.eqb_refl in Hx.
Qed.

Lemma lastIndexOf_some (c : N) (s : jsstring) (j : nat) :
  lastIndexOf s c = Some j ->
  exists front post, s = front ++ c :: post /\ length front = j /\ ~ In c post.
Proof.
  revert j. induction s as [|x s IH]; intros j H; cbn in H; [discriminate|].
  destruct (lastIndexOf s c) as [k|] eqn:Hs.
  - injection H as <-.
    destruct (IH k eq_refl) as (front & post & -> & Hlen & Hin).
    exists (x :: front), post. repeat split; [cbn; now rewrite Hlen|exact Hin].
  - destruct (N.eqb x c) eqn:Hx; [|discriminate]. injection H as <-.
    apply N.eqb_eq in Hx. subst x.
    exists [], s. repeat split. intros Hin.
    clear IH. induction s as [|y s IHs]; [destruct Hin|].
    cbn in Hs. destruct (lastIndexOf s c) as [k|]; [discriminate|].
    destruct (N.eqb y c) eqn:Hy; [discriminate|].
    destruct Hin as [Hin|Hin]; [subst y; now rewrite N.eqb_refl in Hy|].
    now apply IHs.
Qed.

Lemma substring_middle (pre m post : jsstring) :
  substring (pre ++ m ++ post) (length pre) (length pre + length m) = m.
Proof.
  unfold substring. rewrite !length_app.
  set (n := length pre). set (k := length m). set (total := n + (k + length post)).
  replace (Nat.min n total) with n by lia.
  replace (Nat.min (n + k) total) with (n + k) by lia.
  replace (Nat.max n (n + k) - Nat.min n (n + k)) with k by lia.
  replace (Nat.min n (n + k)) with n by lia.
  subst n k.
  rewrite skipn_app, skipn_all, Nat.sub_diag. cbn [skipn app].
  rewrite firstn_app, firstn_all, Nat.sub_diag. cbn [firstn]. apply app_nil_r.
Qed.

(** A text with an opening bracket and, after it, a closing bracket:
    where [indexOf] and [lastIndexOf] find them and what lies between. *)
Lemma outermost_brackets (pre mid post : jsstring) :
  ~ In 91%N pre -> ~ In 93%N post ->
  let text := pre ++ 91%N :: mid ++ 93%N :: post in
  indexOf text 91%N = Some (length pre)
  /\ lastIndexOf text 93%N = Some (length pre + S (length mid))
  /\ substring text (length pre) (length pre + S (length mid) + 1) = 91%N :: mid ++ [93%N].
Proof.
  intros Hpre Hpost text. unfold text. split; [now apply indexOf_app|]. split.
  - change (pre ++ 91%N :: mid ++ 93%N :: post)
      with (pre ++ (91%N :: mid) ++ 93%N :: post).
    rewrite app_assoc, (lastIndexOf_app 93%N _ post Hpost), length_app. reflexivity.
  - replace (pre ++ 91%N :: mid ++ 93%N :: post)
      with (pre ++ (91%N :: mid ++ [93%N]) ++ post)
      by (cbn [app]; rewrite <- app_assoc; reflexivity).
    replace (length pre + S (length mid) + 1) with (length pre + length (91%N :: mid ++ [93%N]))
      by (cbn [length]; rewrite length_app; cbn [length]; lia).
    apply substring_middle.
Qed.

(** Conversely, when the first opening bracket comes before the last
    closing one, the text is made of these pieces. *)
Lemma brackets_found (text : jsstring) (i j : nat) :
  indexOf text 91%N = Some i -> lastIndexOf text 93%N = Some j -> i < j ->
  exists pre mid post,
    text = pre ++ 91%N :: mid ++ 93%N :: post /\ ~ In 91%N pre /\ ~ In 93%N post.
Proof.
  intros Hi Hj Hij.
  destruct (indexOf_some _ _ _ Hi) as (pre & rest & Htext & Hlen & Hpre).
  destruct (lastIndexOf_some _ _ _ Hj) as (front & post & Htext' & Hlen' & Hpost).
  rewrite Htext in Htext'.
  destruct (app_eq_app _ _ _ _ Htext') as [l [[Hp Hr]|[Hf Hr]]].
  - (* pre = front ++ l: the opening bracket would come later *)
    exfalso. subst pre. rewrite length_app in Hlen. lia.
  - subst front. destruct l as [|x l].
    + rewrite app_nil_r in Hlen'. lia.
    + cbn [app] in Hr. injection Hr as <- Hrest.
      exists pre, l, post. subst rest. now repeat split.
Qed.

(** ** The trigger gate *)

Section TriggerGate.

Variable E : Env.

(** C6. A pull-request event with action "opened" whose key has a
    completed record is answered with "PR already reviewed", and the
    world is left as it was: the trace gains no call to GitHub or Gemini,
    no document is written, and no review run is started. *)
Theorem opened_on_completed_record_is_skipped (p : Payload.t) (w : World) (r : Review.t) :
  Payload.action p = js "opened" ->
  fst (findByPR (Payload.owner_login p) (Payload.name p) (Payload.number p) w) = Ok (Some r) ->
  Review.status r = completed ->
  Controller.handlePullRequest E p w = (Ok (already_reviewed r), w).
Proof.
  intros Hact Hfind Hst.
  unfold Controller.handlePullRequest. rewrite Hact.
  change (negb (existsb (eqb_str (js "opened")) Controller.relevantActions)) with false.
  cbv beta iota.
  unfold try_catch, bind. unfold findByPR, gets in *. cbn [fst] in Hfind.
  injection Hfind as Hfind. rewrite Hfind, Hst.
  reflexivity.
Qed.

(** C7, as the code has it.  A relevant event for a draft pull request
    is always skipped and leaves the world as it was, so no record is
    created or changed; the answer is "Draft PR skipped" unless the key
    has a completed record and the action is not "synchronize", in which
    case the completed-record check, which comes first, answers
    "PR already reviewed". *)
Theorem draft_event_is_skipped (p : Payload.t) (w : World) :
  existsb (eqb_str (Payload.action p)) Controller.relevantActions = true ->
  Payload.draft p = true ->
  Controller.handlePullRequest E p w =
    (Ok match fst (findByPR (Payload.owner_login p) (Payload.name p) (Payload.number p) w) with
        | Ok (Some r) =>
            if Status_eqb (Review.status r) completed
               && negb (eqb_str (Payload.action p) (js "synchronize"))
            then already_reviewed r
            else draft_skipped
        | _ => draft_skipped
        end,
     w).
Proof.
  intros Hact Hdraft.
  unfold Controller.handlePullRequest. rewrite Hact, Hdraft. cbv beta iota zeta. cbn [negb].
  unfold try_catch, bind, findByPR, gets. cbn [fst].
  destruct (find _ (reviews w)) as [r|]; [|reflexivity].
  destruct (Status_eqb (Review.status r) completed
            && negb (eqb_str (Payload.action p) (js "synchronize"))); reflexivity.
Qed.

(** C5, for a pull request that is not a draft.  A "synchronize" event
    on a key whose record is completed rewrites the record with the head
    commit of the event, status pending and no error message, saves it,
    and only then starts a review run on it. *)
Theorem synchronize_refreshes_completed_record (p : Payload.t) (w : World) (r : Review.t) :
  Payload.action p = js "synchronize" ->
  Payload.draft p = false ->
  fst (findByPR (Payload.owner_login p) (Payload.name p) (Payload.number p) w) = Ok (Some r) ->
  Review.status r = completed ->
  exists (r' : Review.t) (w' : World),
    Controller.handlePullRequest E p w = (Ok (review_started r), w')
    /\ r' = Review.set_errorMessage None
              (Review.set_status pending
                 (Review.set_prInfo
                    (PrInfo.set_commitSha (Payload.head_sha p) (Review.prInfo r)) r))
    /\ PrInfo.commitSha (Review.prInfo r') = Payload.head_sha p
    /\ Review.status r' = pending
    /\ Review.errorMessage r' = None
    /\ fst (findById (Review._id r) w') = Ok (Some r')
    /\ trace w' = trace w ++ [EvSave r';
                              EvStartReview (Payload.owner_login p) (Payload.name p)
                                (Payload.number p) (Review._id r)].
Proof.
  intros Hact Hdraft Hfind Hst.
  unfold findByPR, gets in Hfind. cbn [fst] in Hfind. injection Hfind as Hfind.
  assert (Hin : In r (reviews w)) by (apply find_some in Hfind; tauto).
  destruct (find_some_first_by_id _ _ Hin) as [r0 Hr0].
  eexists. eexists. split; [|split; [reflexivity|]].
  - unfold Controller.handlePullRequest. rewrite Hact, Hdraft.
    change (negb (existsb (eqb_str (js "synchronize")) Controller.relevantActions)) with false.
    cbv beta iota zeta.
    unfold try_catch, bind, findByPR, gets. rewrite Hfind, Hst.
    rewrite eqb_str_refl. cbn [Status_eqb andb negb].
    erewrite save_loaded; [|exact Hin|reflexivity|reflexivity].
    rewrite write_run. cbn. reflexivity.
  - cbn. repeat split.
    + f_equal.
      match goal with
      | |- _ = Some ?d => apply (find_upsert_same (reviews w) d r0)
      end.
      exact Hr0.
    + now rewrite <- app_assoc.
Qed.

End TriggerGate.

(** ** Retry requests *)

Section RetryRequest.

Variable E : Env.

(** C4. A retry request for a record in failed status is accepted: the
    record is saved with status pending, retryCount one higher and no
    error message, and a run is started.  For a record in completed or
    in_progress status the request is refused with an [AppError] of
    status 400 and the world is left as it was.  Whatever the outcome,
    a document of the store after the request either was there before
    or carries the incremented, hence non-zero, retryCount. *)
Theorem retry_request_gate (prId : Z) (owner repo : jsstring) (w : World) (r : Review.t) :
  owner <> [] ->
  repo <> [] ->
  fst (findByPR owner repo prId w) = Ok (Some r) ->
  (Review.status r = failed ->
   exists (r' : Review.t) (w' : World),
     Controller.retryReview E prId (Some owner) (Some repo) w =
       (Ok (Response.mk 200 (js "Review retry initiated") (Some (Review._id r))
              (Some (Review.retryCount r + 1)%N)), w')
     /\ Review.status r' = pending
     /\ Review.retryCount r' = (Review.retryCount r + 1)%N
     /\ Review.errorMessage r' = None
     /\ fst (findById (Review._id r) w') = Ok (Some r')
     /\ trace w' = trace w ++ [EvSave r'; EvStartReview owner repo prId (Review._id r)])
  /\ (Review.status r = completed ->
      Controller.retryReview E prId (Some owner) (Some repo) w =
        (Throw (AppError (js "Review already completed") 400), w))
  /\ (Review.status r = in_progress ->
      Controller.retryReview E prId (Some owner) (Some repo) w =
        (Throw (AppError (js "Review already in progress") 400), w))
  /\ (forall x : Review.t,
        In x (reviews (snd (Controller.retryReview E prId (Some owner) (Some repo) w))) ->
        In x (reviews w)
        \/ (Review.retryCount x = (Review.retryCount r + 1)%N /\ Review.retryCount x <> 0%N)).
Proof.
  intros Howner Hrepo Hfind.
  unfold findByPR, gets in Hfind. cbn [fst] in Hfind. injection Hfind as Hfind.
  assert (Hin : In r (reviews w)) by (apply find_some in Hfind; tauto).
  destruct (find_some_first_by_id _ _ Hin) as [r0 Hr0].
  assert (Hm : (Controller.missing (Some owner) || Controller.missing (Some repo)) = false).
  { destruct owner; [congruence|]. destruct repo; [congruence|]. reflexivity. }
  set (r' := Review.set_errorMessage None
               (Review.set_status pending
                  (Review.set_retryCount (Review.retryCount r + 1)%N r))).
  assert (Hrun : Controller.retryReview E prId (Some owner) (Some repo) w =
                 if Status_eqb (Review.status r) completed
                 then (Throw (AppError (js "Review already completed") 400), w)
                 else if Status_eqb (Review.status r) in_progress
                 then (Throw (AppError (js "Review already in progress") 400), w)
                 else (Ok (Response.mk 200 (js "Review retry initiated")
                             (Some (Review._id r)) (Some (Review.retryCount r + 1)%N)),
                       mkWorld (upsert r' (reviews w))
                         ((trace w ++ [EvSave r'])
                          ++ [EvStartReview owner repo prId (Review._id r)])
                         (ticks w) (draws w) (botUser w) (nextId w))).
  { unfold Controller.retryReview. rewrite Hm.
    unfold bind at 1. unfold findByPR, gets. rewrite Hfind.
    destruct (Status_eqb (Review.status r) completed); [reflexivity|].
    destruct (Status_eqb (Review.status r) in_progress); [reflexivity|].
    unfold bind at 1, incrementRetry. fold r'.
    rewrite (save_loaded E r' r w Hin eq_refl eq_refl), write_run. reflexivity. }
  rewrite Hrun. clear Hrun.
  split; [|split; [|split]].
  - intros Hst. rewrite Hst. cbn [Status_eqb].
    exists r'. eexists. split; [reflexivity|]. cbn.
    repeat split.
    + f_equal. apply (find_upsert_same (reviews w) r' r0). exact Hr0.
    + now rewrite <- app_assoc.
  - intros Hst. now rewrite Hst.
  - intros Hst. now rewrite Hst.
  - intros x.
    destruct (Status_eqb (Review.status r) completed); [auto|].
    destruct (Status_eqb (Review.status r) in_progress); [auto|].
    cbn. intros Hx. apply in_upsert in Hx as [->|Hx]; auto.
    right. cbn. split; [reflexivity|lia].
Qed.

End RetryRequest.

(** ** The orchestrator *)

Section Orchestrator.

Variable E : Env.

(** C9. A run whose lookup by id finds no record throws
    "Review record not found" to its caller and leaves the world as it
    was: nothing is retried, no call is made, and no document is
    written ([markFailed] is not reached, the local [review] being
    [undefined]). *)
Theorem missing_record_aborts_run (owner repo : jsstring) (pullNumber : Z)
    (reviewId : nat) (w : World) :
  fst (findById reviewId w) = Ok None ->
  Controller.processReviewAsync E owner repo pullNumber reviewId w =
    (Throw (Error_ (js "Review record not found")), w).
Proof.
  intros Hfind. unfold findById, gets in Hfind. cbn [fst] in Hfind.
  injection Hfind as Hfind.
  unfold Controller.processReviewAsync, Controller.with_review, try_catch,
    Controller.processReview_try.
  unfold bind at 1. unfold Controller.world, findById, gets. cbn [snd fst].
  rewrite Hfind. reflexivity.
Qed.

End Orchestrator.

(** ** The duplicate check *)

Section DuplicateCheck.

Variable E : Env.

(** What a call of [hasAlreadyReviewed] does: it returns a boolean and
    changes the world by the calls it appends to the trace and by the
    cached bot identity only. *)
Lemma hasAlreadyReviewed_run (owner repo : jsstring) (pullNumber : Z) (w : World) :
  exists (b : bool) (evs : list Event) (bot' : option GhUser.t),
    GitHub.hasAlreadyReviewed E owner repo pullNumber w =
      (Ok b, mkWorld (reviews w) (trace w ++ evs) (ticks w) (draws w) bot' (nextId w))
    /\ saved evs = []
    /\ (forall e, pulls_listReviews E (trace w) owner repo pullNumber = Throw e -> b = false)
    /\ (forall e, botUser w = None ->
          users_getAuthenticated E (trace w ++ [EvListReviews owner repo pullNumber]) = Throw e ->
          b = false).
Proof.
  unfold GitHub.hasAlreadyReviewed, try_catch, GitHub.getBotUser.
  unfold bind, call, gets, set_botUser, modify, lift_result, ret.
  destruct (pulls_listReviews E (trace w) owner repo pullNumber) as [rs|e0] eqn:Hlist;
    cbn [botUser trace reviews fst snd].
  - destruct (botUser w) as [u|] eqn:Hbot.
    + exists (match filter_r (GitHub.is_bot_review u) rs with
              | Ok l => 0 <? length l
              | Throw _ => false
              end), [EvListReviews owner repo pullNumber], (Some u).
      rewrite <- Hbot.
      destruct (filter_r (GitHub.is_bot_review u) rs) as [l|e1];
        (split; [reflexivity|split; [reflexivity|split; [discriminate|]]]);
        intros e Hnone _; congruence.
    + cbn [botUser trace reviews fst snd ticks draws nextId].
      destruct (users_getAuthenticated E (trace w ++ [EvListReviews owner repo pullNumber]))
        as [u|e1] eqn:Hauth; cbn [botUser trace reviews fst snd ticks draws nextId].
      * exists (match filter_r (GitHub.is_bot_review u) rs with
                | Ok l => 0 <? length l
                | Throw _ => false
                end), [EvListReviews owner repo pullNumber; EvGetAuthenticated], (Some u).
        rewrite <- app_assoc.
        destruct (filter_r (GitHub.is_bot_review u) rs) as [l|e2];
          (split; [reflexivity|split; [reflexivity|split; [discriminate|]]]);
          intros e _ Habs; discriminate.
      * exists false, [EvListReviews owner repo pullNumber; EvGetAuthenticated], None.
        rewrite <- app_assoc.
        split; [reflexivity|split; [reflexivity|split; [discriminate|reflexivity]]].
  - exists false, [EvListReviews owner repo pullNumber], (botUser w).
    split; [reflexivity|split; [reflexivity|split; reflexivity]].
Qed.

(** C10. [hasAlreadyReviewed] never throws.  When listing the reviews
    fails, or when the bot identity is not cached and asking for it
    fails, the answer is [false]; the store is not touched. *)
Theorem hasAlreadyReviewed_fails_open (owner repo : jsstring) (pullNumber : Z) (w : World) :
  (exists (b : bool) (w' : World),
     GitHub.hasAlreadyReviewed E owner repo pullNumber w = (Ok b, w'))
  /\ (forall e,
        pulls_listReviews E (trace w) owner repo pullNumber = Throw e ->
        fst (GitHub.hasAlreadyReviewed E owner repo pullNumber w) = Ok false)
  /\ (forall e,
        botUser w = None ->
        users_getAuthenticated E (trace w ++ [EvListReviews owner repo pullNumber]) = Throw e ->
        fst (GitHub.hasAlreadyReviewed E owner repo pullNumber w) = Ok false)
  /\ reviews (snd (GitHub.hasAlreadyReviewed E owner repo pullNumber w)) = reviews w.
Proof.
  destruct (hasAlreadyReviewed_run owner repo pullNumber w)
    as (b & evs & bot' & Hrun & _ & Hlist & Hauth).
  rewrite Hrun. cbn [fst snd reviews].
  split; [eauto|]. split; [|split; [|reflexivity]].
  - intros e He. now rewrite (Hlist e He).
  - intros e Hbot He. now rewrite (Hauth e Hbot He).
Qed.

End DuplicateCheck.

(** ** The retry controller and the parser *)

Section Generation.

Variable E : Env.

Lemma parseReviewResponse_total (text : jsstring) :
  exists cs, Gemini.parseReviewResponse E text = Ok cs.
Proof.
  unfold Gemini.parseReviewResponse, catch_r, and_then.
  destruct (Gemini.primary_parse E text) as [cs|e]; [eauto|].
  destruct (Gemini.fallback_parse E text) as [[cs|]|e']; eauto.
Qed.

(** One iteration of the loop of [generateReview], on the result of the
    model call. *)
Lemma attempts_step (k attempt : nat) (lastError : option JsError) (prData : PrData.t)
    (w : World) :
  Gemini.attempts E (S k) attempt lastError prData w =
    let w1 := mkWorld (reviews w) (trace w ++ [EvGenerateContent]) (ticks w) (draws w)
                      (botUser w) (nextId w) in
    let w2 := mkWorld (reviews w) (trace w ++ [EvGenerateContent]) (ticks w) (S (draws w))
                      (botUser w) (nextId w) in
    match and_then (generateContent E (trace w) prData) (Gemini.parseReviewResponse E) with
    | Ok cs => (Ok cs, w1)
    | Throw error =>
        if Gemini.is_overloaded error
        then if attempt <? Gemini.maxRetries
             then Gemini.attempts E k (S attempt) (Some error) prData
                    (mkWorld (reviews w)
                       ((trace w ++ [EvGenerateContent])
                        ++ [EvSleep (wait_before_retry E (draws w) attempt)])
                       (ticks w) (S (draws w)) (botUser w) (nextId w))
             else Gemini.throw_after_loop (Some error) w2
        else Gemini.throw_after_loop (Some error) w1
    end.
Proof.
  cbn [Gemini.attempts]. unfold try_catch, bind at 1. unfold call at 1.
  destruct (generateContent E (trace w) prData) as [text|e]; cbn [and_then].
  - unfold bind, lift_result, ret.
    destruct (Gemini.parseReviewResponse E text) as [cs|e]; [reflexivity|].
    destruct (Gemini.is_overloaded e); [|reflexivity].
    unfold bind, Math_random, sleep, emit, modify. cbn [draws trace reviews ticks botUser nextId].
    destruct (attempt <? Gemini.maxRetries); reflexivity.
  - destruct (Gemini.is_overloaded e); [|reflexivity].
    unfold bind, Math_random, sleep, emit, modify. cbn [draws trace reviews ticks botUser nextId].
    destruct (attempt <? Gemini.maxRetries); reflexivity.
Qed.

(** The loop only appends to the trace: some overloaded attempts, each
    followed by its wait, and then a last attempt.  As long as the model
    keeps answering with an overload and attempts remain, the loop goes
    on to the next retry. *)
Lemma attempts_run (k attempt : nat) (lastError : option JsError) (prData : PrData.t)
    (w : World) :
  attempt + k = Gemini.maxRetries ->
  exists (n : nat) (res : Result (list Comment.t)) (d' : nat),
    n <= k
    /\ Gemini.attempts E (S k) attempt lastError prData w =
         (res, mkWorld (reviews w)
                 (trace w ++ backoff_schedule E (draws w) attempt n ++ [EvGenerateContent])
                 (ticks w) d' (botUser w) (nextId w))
    /\ forall N, N <= k ->
         (forall i, i < N ->
            exists e,
              generateContent E (trace w ++ backoff_schedule E (draws w) attempt i) prData
                = Throw e
              /\ Gemini.is_overloaded e = true) ->
         N <= n.
Proof.
  revert attempt lastError w.
  induction k as [|k IH]; intros attempt lastError w Hsum; rewrite attempts_step; cbv zeta.
  - destruct (and_then _ _) as [cs|error].
    + exists 0. eexists. eexists. split; [lia|]. split; [reflexivity|]. intros; lia.
    + assert (Hlt : (attempt <? Gemini.maxRetries) = false)
        by (apply Nat.ltb_ge; lia).
      rewrite Hlt.
      destruct (Gemini.is_overloaded error);
        (exists 0; eexists; eexists; split; [lia|]; split; [reflexivity|]; intros; lia).
  - assert (Hstop : forall N,
               (forall e, generateContent E (trace w) prData = Throw e ->
                          Gemini.is_overloaded e = false) ->
               (forall i, i < N ->
                  exists e,
                    generateContent E (trace w ++ backoff_schedule E (draws w) attempt i) prData
                      = Throw e
                    /\ Gemini.is_overloaded e = true) ->
               N <= 0).
    { intros N Hno Hall. destruct N as [|N]; [lia|].
      destruct (Hall 0) as (e & He & Hov); [lia|].
      cbn [backoff_schedule] in He. rewrite app_nil_r in He.
      rewrite (Hno e He) in Hov. discriminate. }
    destruct (generateContent E (trace w) prData) as [text|error] eqn:Hgen; cbn [and_then].
    + destruct (parseReviewResponse_total text) as [cs Hcs]. rewrite Hcs.
      exists 0. eexists. eexists. split; [lia|]. split; [reflexivity|].
      intros N _ Hall. apply Hstop; [|exact Hall]. intros e He. discriminate.
    + assert (Hlt : (attempt <? Gemini.maxRetries) = true)
        by (apply Nat.ltb_lt; lia).
      rewrite Hlt.
      destruct (Gemini.is_overloaded error) eqn:Hov.
      * match goal with
        | |- context [Gemini.attempts E (S k) (S attempt) ?le prData ?w1] =>
            destruct (IH (S attempt) le w1) as (n & res & d' & Hn & Hrun & Hlive); [lia|]
        end.
        rewrite Hrun. cbn [reviews trace ticks draws botUser nextId] in *.
        exists (S n), res, d'. split; [lia|]. split.
        -- cbn [backoff_schedule]. do 2 f_equal.
           rewrite <- !app_assoc. reflexivity.
        -- intros N HN Hall. destruct N as [|N]; [lia|].
           apply le_n_S. apply Hlive; [lia|].
           intros i Hi. destruct (Hall (S i)) as (e & He & Hove); [lia|].
           exists e. split; [|exact Hove].
           rewrite <- He. f_equal. cbn [backoff_schedule].
           rewrite <- !app_assoc. reflexivity.
      * exists 0. eexists. eexists. split; [lia|]. split; [reflexivity|].
        intros N _ Hall. apply Hstop; [|exact Hall].
        intros e He. injection He as <-. exact Hov.
Qed.

Lemma generate_calls_schedule (d a n : nat) :
  generate_calls (backoff_schedule E d a n ++ [EvGenerateContent]) = S n.
Proof.
  revert d a. induction n as [|n IH]; intros d a; [reflexivity|].
  unfold generate_calls in *. cbn. now rewrite IH.
Qed.

Lemma sleeps_schedule (d a n N : nat) :
  N < n ->
  nth_error (sleeps (backoff_schedule E d a n ++ [EvGenerateContent])) N =
    Some (wait_before_retry E (d + N) (a + N)).
Proof.
  revert d a N. induction n as [|n IH]; intros d a N HN; [lia|].
  destruct N as [|N]; cbn.
  - now rewrite !Nat.add_0_r.
  - change (nth_error (sleeps (backoff_schedule E (S d) (S a) n ++ [EvGenerateContent])) N =
            Some (wait_before_retry E (d + S N) (a + S N))).
    rewrite IH by lia. do 2 f_equal; lia.
Qed.

Lemma length_sleeps_schedule (d a n : nat) :
  length (sleeps (backoff_schedule E d a n ++ [EvGenerateContent])) = n.
Proof.
  revert d a. induction n as [|n IH]; intros d a; [reflexivity|].
  cbn. change (S (length (sleeps (backoff_schedule E (S d) (S a) n ++ [EvGenerateContent]))) = S n).
  now rewrite IH.
Qed.

(** C2, as the arithmetic of the language has it.  Whatever the model
    answers, [generateReview] calls it at most five times.  Its effects
    are [n] overloaded attempts, [n] below five, each followed by a
    wait, and a last attempt.  The wait before the Nth retry is the
    sum, rounded as every sum of two numbers is, of the base of [2^N]
    seconds and of a jitter that lies in [0, 1) second when
    [Math.random()] returns a number in [0, 1); the wait lies between
    [2^N] and [2^N + 1] seconds, both included.  When the first [N]
    attempts, [N] at most four, all fail with an overload, the Nth
    retry is made.  Times are in milliseconds. *)
Theorem retry_backoff_schedule (prData : PrData.t) (w : World) :
  (forall k, (0 <= random E k)%Q /\ (random E k < 1)%Q /\ representable (random E k)) ->
  exists (n : nat) (evs : list Event),
    trace (snd (Gemini.generateReview E prData w)) = trace w ++ evs
    /\ evs = backoff_schedule E (draws w) 1 n ++ [EvGenerateContent]
    /\ generate_calls evs = S n
    /\ generate_calls evs <= 5
    /\ length (sleeps evs) = n
    /\ (forall N, 1 <= N <= n ->
         exists jitter : Q,
           (0 <= jitter)%Q /\ (jitter < 1000)%Q
           /\ nth_error (sleeps evs) (N - 1) =
                Some (round64 (inject_Z (2 ^ Z.of_nat N * 1000) + jitter))
           /\ (inject_Z (2 ^ Z.of_nat N * 1000)
               <= round64 (inject_Z (2 ^ Z.of_nat N * 1000) + jitter))%Q
           /\ (round64 (inject_Z (2 ^ Z.of_nat N * 1000) + jitter)
               <= inject_Z (2 ^ Z.of_nat N * 1000) + 1000)%Q)
    /\ (forall N, N <= 4 ->
         (forall i, i < N ->
            exists e,
              generateContent E (trace w ++ backoff_schedule E (draws w) 1 i) prData = Throw e
              /\ Gemini.is_overloaded e = true) ->
         N <= n).
Proof.
  intros Hrandom.
  destruct (attempts_run 4 1 None prData w eq_refl) as (n & res & d' & Hn & Hrun & Hlive).
  unfold Gemini.generateReview. change Gemini.maxRetries with 5. rewrite Hrun.
  cbn [snd trace].
  exists n, (backoff_schedule E (draws w) 1 n ++ [EvGenerateContent]).
  split; [reflexivity|]. split; [reflexivity|].
  rewrite generate_calls_schedule, length_sleeps_schedule.
  split; [reflexivity|]. split; [lia|]. split; [reflexivity|].
  split; [|exact Hlive].
  intros N HN.
  exists (jitter_of E (draws w + (N - 1))).
  rewrite sleeps_schedule by lia.
  replace (1 + (N - 1)) with N by lia.
  destruct (Hrandom (draws w + (N - 1))) as (H0 & H1 & Hr).
  destruct (jitter_bounds _ H0 H1) as [Hj0 Hj1].
  pose proof (jitter_below_second _ Hr H0 H1) as Hj2.
  unfold jitter_of.
  split; [exact Hj0|]. split; [exact Hj2|]. split; [reflexivity|].
  apply wait_bounds; [lia|exact Hj0|exact Hj1].
Qed.

(** A failure that is not an overload ends [generateReview] at once, and
    the error thrown names [maxRetries] as the number of attempts. *)
Lemma generateReview_fatal_error (prData : PrData.t) (w : World) (e : JsError) :
  generateContent E (trace w) prData = Throw e ->
  Gemini.is_overloaded e = false ->
  Gemini.generateReview E prData w =
    (Throw (Error_ (js "Failed to generate code review after " ++ toString Gemini.maxRetries
                    ++ js " attempts: " ++ err_message e)),
     mkWorld (reviews w) (trace w ++ [EvGenerateContent]) (ticks w) (draws w)
             (botUser w) (nextId w)).
Proof.
  intros Hgen Hfatal.
  unfold Gemini.generateReview. change Gemini.maxRetries with 5 at 1.
  rewrite attempts_step. cbv zeta. rewrite Hgen. cbn [and_then]. rewrite Hfatal.
  reflexivity.
Qed.

(** [generateSummaryComment] returns without touching the world; its
    summary is the one for no issues exactly when there is no comment. *)
Lemma generateSummaryComment_total (comments : list Comment.t) (prData : PrData.t)
    (w : World) :
  exists summary,
    Gemini.generateSummaryComment E comments prData w = (Ok summary, w)
    /\ (summary = Gemini.no_issues_summary <-> comments = []).
Proof.
  unfold Gemini.generateSummaryComment, try_catch, bind, lift_result, ret.
  destruct comments as [|c comments].
  - eexists. split; [reflexivity|]. now split.
  - cbn [length Nat.eqb].
    destruct (category_lines E (c :: comments)) as [lines|e];
      (eexists; split; [reflexivity|]; split; intros H; discriminate H).
Qed.

(** What the fallback parse makes of a text that has an opening bracket
    before its last closing bracket: it parses the text from the first
    opening bracket to the last closing bracket, both included. *)
Lemma fallback_parse_brackets (pre mid post : jsstring) :
  ~ In 91%N pre -> ~ In 93%N post ->
  Gemini.fallback_parse E (pre ++ 91%N :: mid ++ 93%N :: post) =
    (parsed <~ JSON_parse E (91%N :: mid ++ [93%N]) ;;
     match parsed with
     | VArr items =>
         kept <~ filter_r Gemini.has_file_and_comment items ;;
         cs <~ map_r (Gemini.to_comment E) kept ;;
         Ok (Some cs)
     | _ => Ok None
     end).
Proof.
  intros Hpre Hpost.
  destruct (outermost_brackets pre mid post Hpre Hpost) as (Hi & Hj & Hsub).
  unfold Gemini.fallback_parse. rewrite Hi, Hj.
  assert (Hlt : (length pre <? length pre + S (length mid)) = true)
    by (apply Nat.ltb_lt; lia).
  rewrite Hlt, Hsub. reflexivity.
Qed.

(** Without an opening bracket that has a closing bracket after it,
    the fallback parse finds nothing. *)
Lemma fallback_parse_no_brackets (text : jsstring) :
  (forall pre mid post, text <> pre ++ 91%N :: mid ++ 93%N :: post) ->
  Gemini.fallback_parse E text = Ok None.
Proof.
  intros Hno. unfold Gemini.fallback_parse.
  destruct (indexOf text 91%N) as [i|] eqn:Hi; [|reflexivity].
  destruct (lastIndexOf text 93%N) as [j|] eqn:Hj; [|reflexivity].
  destruct (i <? j) eqn:Hij; [|reflexivity].
  apply Nat.ltb_lt in Hij.
  destruct (brackets_found text i j Hi Hj Hij) as (pre & mid & post & Htext & _).
  exfalso. exact (Hno pre mid post Htext).
Qed.

(** C3. [parseReviewResponse] never throws.  When the primary parse
    throws, the secondary extraction is made: of a text that has an
    opening bracket and a closing bracket after it, the part from the
    first opening bracket to the last closing bracket is parsed, and
    the comments are those of the array found there; the result is the
    empty list when that part does not parse, is not an array or holds
    an item that cannot be read, and when the text has no such
    brackets.  A response parsed to the empty list makes
    [generateReview] return the empty list instead of throwing, and for
    the empty list [generateSummaryComment] returns the "No issues
    found" summary.  [generateSummaryComment] never throws, and it
    returns that summary for the empty list only. *)
Theorem parse_failure_degrades_to_no_comments (text : jsstring) :
  (exists cs, Gemini.parseReviewResponse E text = Ok cs)
  /\ (forall e pre mid post,
        Gemini.primary_parse E text = Throw e ->
        text = pre ++ 91%N :: mid ++ 93%N :: post ->
        ~ In 91%N pre -> ~ In 93%N post ->
        Gemini.parseReviewResponse E text =
          Ok match JSON_parse E (91%N :: mid ++ [93%N]) with
             | Ok (VArr items) =>
                 match (kept <~ filter_r Gemini.has_file_and_comment items ;;
                        map_r (Gemini.to_comment E) kept) with
                 | Ok cs => cs
                 | Throw _ => []
                 end
             | _ => []
             end)
  /\ (forall e,
        Gemini.primary_parse E text = Throw e ->
        (forall pre mid post, text <> pre ++ 91%N :: mid ++ 93%N :: post) ->
        Gemini.parseReviewResponse E text = Ok [])
  /\ (Gemini.parseReviewResponse E text = Ok [] ->
      forall prData w,
        generateContent E (trace w) prData = Ok text ->
        exists w',
          Gemini.generateReview E prData w = (Ok [], w')
          /\ Gemini.generateSummaryComment E [] prData w' =
               (Ok Gemini.no_issues_summary, w'))
  /\ (forall cs prData w,
        exists summary,
          Gemini.generateSummaryComment E cs prData w = (Ok summary, w)
          /\ (summary = Gemini.no_issues_summary <-> cs = [])).
Proof.
  split; [apply parseReviewResponse_total|]. split; [|split; [|split]].
  - intros e pre mid post He Htext Hpre Hpost.
    unfold Gemini.parseReviewResponse, catch_r. rewrite He. cbv beta.
    rewrite Htext, (fallback_parse_brackets pre mid post Hpre Hpost).
    unfold and_then.
    destruct (JSON_parse E (91%N :: mid ++ [93%N])) as [parsed|e1]; [|reflexivity].
    destruct parsed as [| |b|d|str|items|props]; try reflexivity.
    destruct (filter_r Gemini.has_file_and_comment items) as [kept|e2]; [|reflexivity].
    destruct (map_r (Gemini.to_comment E) kept) as [cs|e3]; reflexivity.
  - intros e He Hno.
    unfold Gemini.parseReviewResponse, catch_r. rewrite He. cbv beta.
    rewrite (fallback_parse_no_brackets text Hno). reflexivity.
  - intros Hparse prData w Hgen. eexists. split; [|reflexivity].
    unfold Gemini.generateReview. change Gemini.maxRetries with 5 at 1.
    rewrite attempts_step. cbv zeta. rewrite Hgen. cbn [and_then]. rewrite Hparse.
    reflexivity.
  - apply generateSummaryComment_total.
Qed.

End Generation.

(** ** A run of the orchestrator *)

Section ReviewRun.

Variable E : Env.

Lemma saved_app (a b : list Event) : saved (a ++ b) = saved a ++ saved b.
Proof. unfold saved. apply flat_map_app. Qed.

Lemma saved_schedule (d a n : nat) : saved (backoff_schedule E d a n) = [].
Proof.
  revert d a. induction n as [|n IH]; intros d a; [reflexivity|].
  cbn. apply IH.
Qed.

Lemma quiet_refl (w : World) : quiet w w.
Proof.
  repeat split. exists []. now rewrite app_nil_r.
Qed.

Lemma quiet_trans (w1 w2 w3 : World) : quiet w1 w2 -> quiet w2 w3 -> quiet w1 w3.
Proof.
  intros (Hr1 & Ht1 & evs1 & He1 & Hs1) (Hr2 & Ht2 & evs2 & He2 & Hs2).
  repeat split; try congruence.
  exists (evs1 ++ evs2). rewrite He2, He1, <- app_assoc, saved_app, Hs1, Hs2.
  now split.
Qed.

(** The calls of the run that leave the store and the clock alone. *)

Lemma quiet_hasAlreadyReviewed (owner repo : jsstring) (pullNumber : Z) (w : World) :
  exists (b : bool) (w' : World),
    GitHub.hasAlreadyReviewed E owner repo pullNumber w = (Ok b, w') /\ quiet w w'.
Proof.
  destruct (hasAlreadyReviewed_run E owner repo pullNumber w)
    as (b & evs & bot' & Hrun & Hsaved & _).
  exists b. eexists. split; [exact Hrun|].
  repeat split. exists evs. now split.
Qed.

Lemma quiet_getPullRequestData (owner repo : jsstring) (pullNumber : Z) (w : World) :
  quiet w (snd (GitHub.getPullRequestData E owner repo pullNumber w)).
Proof.
  unfold GitHub.getPullRequestData, try_catch, call, throw.
  destruct (fetch_pull_request E (trace w) owner repo pullNumber); cbn;
    (repeat split; eexists; split; [reflexivity|reflexivity]).
Qed.

Lemma quiet_postReviewComments (owner repo : jsstring) (pullNumber : Z)
    (comments : list Comment.t) (summaryComment : jsstring) (w : World) :
  quiet w (snd (GitHub.postReviewComments E owner repo pullNumber comments summaryComment w)).
Proof.
  unfold GitHub.postReviewComments, try_catch, call, throw.
  destruct (create_review E (trace w) owner repo pullNumber comments summaryComment); cbn;
    (repeat split; eexists; split; [reflexivity|reflexivity]).
Qed.

Lemma quiet_postFallbackComment (owner repo : jsstring) (pullNumber : Z) (w : World) :
  quiet w (snd (GitHub.postFallbackComment E owner repo pullNumber w)).
Proof.
  unfold GitHub.postFallbackComment, try_catch, call, throw.
  destruct (issues_createComment E (trace w) owner repo pullNumber); cbn;
    (repeat split; eexists; split; [reflexivity|reflexivity]).
Qed.

Lemma quiet_generateReview (prData : PrData.t) (w : World) :
  quiet w (snd (Gemini.generateReview E prData w)).
Proof.
  destruct (attempts_run E 4 1 None prData w eq_refl) as (n & res & d' & _ & Hrun & _).
  unfold Gemini.generateReview. change Gemini.maxRetries with 5. rewrite Hrun.
  repeat split. cbn. eexists. split; [reflexivity|].
  now rewrite saved_app, saved_schedule.
Qed.

Lemma quiet_generateSummaryComment (comments : list Comment.t) (prData : PrData.t)
    (w : World) :
  exists summary, Gemini.generateSummaryComment E comments prData w = (Ok summary, w).
Proof.
  destruct (generateSummaryComment_total E comments prData w) as (summary & H & _).
  eauto.
Qed.

(** Steps of the frame monad. *)

Lemma bind_ok {S A B : Type} (c : M S A) (k : A -> M S B) (s s' : S) (a : A) :
  c s = (Ok a, s') -> bind c k s = k a s'.
Proof. intros H. unfold bind. now rewrite H. Qed.

Lemma bind_throw {S A B : Type} (c : M S A) (k : A -> M S B) (s s' : S) (e : JsError) :
  c s = (Throw e, s') -> bind c k s = (Throw e, s').
Proof. intros H. unfold bind. now rewrite H. Qed.

Lemma world_run {A : Type} (c : M World A) (rv : option Review.t) (w : World) :
  Controller.world c (rv, w) = (fst (c w), (rv, snd (c w))).
Proof. unfold Controller.world. cbn [fst snd]. now destruct (c w). Qed.

Lemma running_quiet (id : nat) (t1 : Z) (w0 w w' : World) (rv : option Review.t) :
  running E id t1 w0 (rv, w) -> quiet w w' -> running E id t1 w0 (rv, w').
Proof.
  intros (this & evs & k & Hthis & Hid & Hst & Hstart & Hstore & Htr & Hsaved & Hall & i & Hi & Ht1)
         (Hrev & Hticks & evs' & Htr' & Hsaved').
  cbn [fst snd] in *.
  exists this, (evs ++ evs'), k. cbn [fst snd].
  rewrite Hrev, Hticks, Htr', Htr, <- app_assoc, saved_app, Hsaved', app_nil_r.
  repeat split; eauto.
Qed.

Lemma settled_quiet (w w' : World) (rv : option Review.t) :
  settled (rv, w) -> quiet w w' -> settled (rv, w').
Proof.
  intros (this & Hthis & Hcs) (Hrev & _). exists this. cbn [fst snd] in *.
  now rewrite Hrev.
Qed.

Lemma unsaved_quiet (w w' : World) (rv : option Review.t) :
  unsaved E (rv, w) -> quiet w w' -> unsaved E (rv, w').
Proof.
  intros (this & Hthis & Hcs) (Hrev & _). exists this. cbn [fst snd] in *.
  now rewrite Hrev.
Qed.

Lemma running_assign (id : nat) (t1 : Z) (w0 w : World) (rv : option Review.t)
    (f : Review.t -> Review.t) :
  (forall r, Review._id (f r) = Review._id r
             /\ Review.status (f r) = Review.status r
             /\ Review.reviewStartedAt (f r) = Review.reviewStartedAt r) ->
  running E id t1 w0 (rv, w) ->
  exists this,
    rv = Some this
    /\ Controller.assign f (rv, w) = (Ok tt, (Some (f this), w))
    /\ running E id t1 w0 (Some (f this), w).
Proof.
  intros Hf (this & evs & k & Hthis & Hid & Hst & Hstart & Hstore & Htr & Hsaved & Hall & Hclock).
  cbn [fst snd] in *. subst rv.
  exists this. split; [reflexivity|]. split; [reflexivity|].
  destruct (Hf this) as (Hfid & Hfst & Hfstart).
  exists (f this), evs, k. cbn [fst snd].
  repeat split; try congruence; auto.
Qed.

(** An assignment to a path other than the comments leaves the document
    settled. *)
Lemma settled_assign (w : World) (this : Review.t) (f : Review.t -> Review.t) :
  Review._id (f this) = Review._id this ->
  Review.comments (f this) = Review.comments this ->
  settled (Some this, w) -> settled (Some (f this), w).
Proof.
  intros Hid Hcs (this' & Hthis & Hst). cbn [fst snd] in *. injection Hthis as <-.
  exists (f this). split; [reflexivity|]. cbn [snd].
  unfold comments_stored in *. now rewrite Hid, Hcs.
Qed.

Lemma repeat_snoc {A : Type} (x : A) (n : nat) : repeat x n ++ [x] = repeat x (S n).
Proof. induction n as [|n IH]; [reflexivity|]. cbn. now rewrite IH. Qed.

(** A save while the run is under way: the document is written, and is
    settled then, or it is refused and nothing changes. *)
Lemma running_save (id : nat) (t1 : Z) (w0 w : World) (rv : option Review.t) :
  running E id t1 w0 (rv, w) ->
  (exists w',
     Controller.method (save E) (rv, w) = (Ok tt, (rv, w'))
     /\ running E id t1 w0 (rv, w') /\ settled (rv, w'))
  \/ (exists e,
        Controller.method (save E) (rv, w) = (Throw e, (rv, w))
        /\ unsaved E (rv, w)).
Proof.
  intros (this & evs & k & Hthis & Hid & Hst & Hstart & (r & Hstore & _) & Htr & Hsaved & Hall
          & i & Hi & Ht1).
  cbn [fst snd] in *. subst rv.
  unfold Controller.method. cbn [fst snd].
  destruct (save_cases E this w) as [[Hok ->]|[Hno ->]].
  - left. rewrite write_run. eexists. split; [reflexivity|]. split.
    + exists this, (evs ++ [EvSave this]), (S k). cbn [fst snd reviews trace ticks].
      repeat split; auto.
      * exists this. subst id. split; [|now split].
        apply (find_upsert_same _ this r). exact Hstore.
      * now rewrite Htr, <- app_assoc.
      * rewrite saved_app, map_app, Hsaved. cbn [saved flat_map map app]. rewrite Hst.
        apply (repeat_snoc in_progress (S k)).
      * rewrite saved_app. apply Forall_app. split; [exact Hall|]. now repeat constructor.
      * eauto.
    + exists this. split; [reflexivity|]. cbn [snd reviews].
      now apply comments_stored_written.
  - right. eexists. split; [reflexivity|]. exists this. now split.
Qed.

(** A settled document is written. *)
Lemma settled_save (id : nat) (t1 : Z) (w0 w : World) (rv : option Review.t) :
  running E id t1 w0 (rv, w) -> settled (rv, w) ->
  exists w',
    Controller.method (save E) (rv, w) = (Ok tt, (rv, w'))
    /\ running E id t1 w0 (rv, w') /\ settled (rv, w').
Proof.
  intros Hrun (this & Hthis & Hcs).
  destruct (running_save id t1 w0 w rv Hrun) as [H|(e & Hsave & _)]; [exact H|exfalso].
  cbn [fst snd] in *. subst rv. unfold Controller.method in Hsave. cbn [fst snd] in Hsave.
  rewrite (save_stored E this w Hcs), write_run in Hsave. discriminate.
Qed.

Hypothesis clock_monotone : forall i j, i <= j -> (clock E i <= clock E j)%Z.

Lemma start_run (id : nat) (w : World) (r0 : Review.t) :
  find (fun x => Review._id x =? id) (reviews w) = Some r0 ->
  exists s',
    Controller.method (markInProgress E) (Some r0, w) = (Ok tt, s')
    /\ running E id (clock E (ticks w)) w s'
    /\ settled s'.
Proof.
  intros Hfind. destruct (find_by_id_some _ _ _ Hfind) as [Hid Hin].
  set (r1 := Review.set_reviewStartedAt (Some (clock E (ticks w)))
               (Review.set_status in_progress r0)).
  assert (Hm : markInProgress E r0 w =
               (Ok r1, mkWorld (upsert r1 (reviews w)) (trace w ++ [EvSave r1])
                         (S (ticks w)) (draws w) (botUser w) (nextId w))).
  { unfold markInProgress, bind, now. fold r1.
    rewrite (save_loaded E r1 r0
               (mkWorld (reviews w) (trace w) (S (ticks w)) (draws w) (botUser w) (nextId w))
               Hin eq_refl eq_refl), write_run.
    reflexivity. }
  unfold Controller.method. cbn [fst snd]. rewrite Hm.
  eexists. split; [reflexivity|]. split.
  - exists r1, [EvSave r1], 0. cbn [fst snd reviews trace ticks].
    repeat split; auto.
    + exists r1. subst id. split; [|now split].
      apply (find_upsert_same (reviews w) r1 r0). exact Hfind.
    + repeat constructor. exact Hid.
    + exists (ticks w). split; [lia|reflexivity].
  - exists r1. split; [reflexivity|]. cbn [snd reviews].
    now apply comments_stored_written.
Qed.

Lemma finish_completed (id : nat) (t1 : Z) (w0 w : World) (rv : option Review.t)
    (githubReviewId : option Z) :
  running E id t1 w0 (rv, w) -> settled (rv, w) ->
  exists s',
    Controller.method (markCompleted E githubReviewId) (rv, w) = (Ok tt, s')
    /\ finished id w0 completed s'.
Proof.
  intros (this & evs & k & Hthis & Hid & Hst & Hstart & (r & Hstore & _) & Htr & Hsaved & Hall
          & i & Hi & Ht1) (this' & Hthis' & Hcs).
  cbn [fst snd] in *. subst rv. injection Hthis' as <-.
  set (base := Review.set_reviewCompletedAt (Some (clock E (ticks w)))
                 (Review.set_status completed this)).
  set (final := match githubReviewId with
                | Some j => if (j =? 0)%Z then base
                            else Review.set_githubReviewId (Some j) base
                | None => base
                end).
  assert (Hfinal : Review._id final = id /\ Review.status final = completed
                   /\ Review.reviewStartedAt final = Some t1
                   /\ Review.reviewCompletedAt final = Some (clock E (ticks w))
                   /\ Review._id final = Review._id this
                   /\ Review.comments final = Review.comments this).
  { unfold final. destruct githubReviewId as [j|]; [destruct (j =? 0)%Z|]; cbn; auto 10. }
  destruct Hfinal as (Hfid & Hfst & Hfstart & Hfdone & Hfid' & Hfcs).
  assert (Hm : markCompleted E githubReviewId this w =
               (Ok final, mkWorld (upsert final (reviews w)) (trace w ++ [EvSave final])
                            (S (ticks w)) (draws w) (botUser w) (nextId w))).
  { unfold markCompleted, bind, now. fold base. fold final.
    rewrite save_stored, write_run; [reflexivity|]. cbn [reviews].
    unfold comments_stored in *. now rewrite Hfid', Hfcs. }
  unfold Controller.method. cbn [fst snd]. rewrite Hm.
  eexists. split; [reflexivity|].
  exists final, (evs ++ [EvSave final]), k, t1, (clock E (ticks w)).
  cbn [fst snd reviews trace ticks].
  repeat split; auto.
  - rewrite <- Hfid in Hstore |- *. apply (find_upsert_same _ final r). exact Hstore.
  - now rewrite Htr, <- app_assoc.
  - rewrite saved_app, map_app, Hsaved. cbn [saved flat_map map app]. now rewrite Hfst.
  - rewrite saved_app. apply Forall_app. split; [exact Hall|]. now repeat constructor.
  - subst t1. apply clock_monotone. lia.
Qed.

Lemma finish_failed (id : nat) (t1 : Z) (w0 w : World) (rv : option Review.t)
    (errorMessage : jsstring) :
  running E id t1 w0 (rv, w) -> settled (rv, w) ->
  exists s',
    Controller.method (markFailed E errorMessage) (rv, w) = (Ok tt, s')
    /\ finished id w0 failed s'.
Proof.
  intros (this & evs & k & Hthis & Hid & Hst & Hstart & (r & Hstore & _) & Htr & Hsaved & Hall
          & i & Hi & Ht1) (this' & Hthis' & Hcs).
  cbn [fst snd] in *. subst rv. injection Hthis' as <-.
  set (final := Review.set_reviewCompletedAt (Some (clock E (ticks w)))
                  (Review.set_errorMessage (Some errorMessage)
                     (Review.set_status failed this))).
  assert (Hm : markFailed E errorMessage this w =
               (Ok final, mkWorld (upsert final (reviews w)) (trace w ++ [EvSave final])
                            (S (ticks w)) (draws w) (botUser w) (nextId w))).
  { unfold markFailed, bind, now. fold final.
    rewrite save_stored, write_run; [reflexivity|]. exact Hcs. }
  unfold Controller.method. cbn [fst snd]. rewrite Hm.
  eexists. split; [reflexivity|].
  exists final, (evs ++ [EvSave final]), k, t1, (clock E (ticks w)).
  cbn [fst snd reviews trace ticks].
  repeat split; auto.
  - subst id. apply (find_upsert_same _ final r). exact Hstore.
  - now rewrite Htr, <- app_assoc.
  - rewrite saved_app, map_app, Hsaved. reflexivity.
  - rewrite saved_app. apply Forall_app. split; [exact Hall|]. now repeat constructor.
  - subst t1. apply clock_monotone. lia.
Qed.

(** When the store refuses the document, it refuses it marked failed
    as well: [markFailed] reads the clock, throws the error of the
    validation and writes nothing. *)
Lemma fail_refused (id : nat) (t1 : Z) (w0 w : World) (rv : option Review.t)
    (errorMessage : jsstring) :
  running E id t1 w0 (rv, w) -> unsaved E (rv, w) ->
  exists doc s',
    Controller.method (markFailed E errorMessage) (rv, w)
      = (Throw (validation_error E doc), s')
    /\ Review._id doc = id
    /\ Review.status doc = failed
    /\ comments_valid E (Review.comments doc) = false
    /\ running E id t1 w0 s' /\ unsaved E s'.
Proof.
  intros (this & evs & k & Hthis & Hid & Hst & Hstart & (r & Hstore & Hr) & Htr & Hsaved & Hall
          & i & Hi & Ht1) (this' & Hthis' & Href).
  cbn [fst snd] in *. subst rv. injection Hthis' as <-.
  set (doc := Review.set_reviewCompletedAt (Some (clock E (ticks w)))
                (Review.set_errorMessage (Some errorMessage)
                   (Review.set_status failed this))).
  set (w1 := mkWorld (reviews w) (trace w) (S (ticks w)) (draws w) (botUser w) (nextId w)).
  assert (Href' : refused E doc (reviews w1) = true).
  { cbn [reviews w1]. rewrite <- Href. now apply refused_ext. }
  assert (Hm : markFailed E errorMessage this w = (Throw (validation_error E doc), w1)).
  { unfold markFailed, bind, now. fold doc. fold w1. unfold save. now rewrite Href'. }
  unfold Controller.method. cbn [fst snd]. rewrite Hm.
  exists doc. eexists. split; [reflexivity|].
  split; [exact Hid|]. split; [reflexivity|]. split.
  { unfold refused in Href.
    assert (Hin : is_stored this (reviews w) = true).
    { apply existsb_exists. exists r. apply find_some in Hstore as [Hin Hr0].
      split; [exact Hin|]. now rewrite Hid. }
    rewrite Hin in Href. cbn [negb andb orb] in Href.
    apply andb_prop in Href as [_ Hv]. change (Review.comments doc) with (Review.comments this).
    now destruct (comments_valid E (Review.comments this)). }
  split.
  - exists this, evs, k. cbn [fst snd reviews trace ticks w1].
    repeat split; auto.
    + exists r. now split.
    + exists i. split; [lia|exact Ht1].
  - exists this. now split.
Qed.

(** The [try] block, from a world that holds the record: either it
    returns with the record completed, or it throws while the record is
    in progress, the document being settled or refused by the store. *)
Lemma try_outcome (owner repo : jsstring) (pullNumber : Z) (id : nat) (w : World)
    (r0 : Review.t) :
  fst (findById id w) = Ok (Some r0) ->
  exists res s',
    Controller.processReview_try E owner repo pullNumber id (None, w) = (res, s')
    /\ ((res = Ok tt /\ finished id w completed s')
        \/ (exists e t1, res = Throw e /\ running E id t1 w s'
                         /\ (settled s' \/ unsaved E s'))).
Proof.
  intros Hfind. unfold findById, gets in Hfind. cbn [fst] in Hfind.
  injection Hfind as Hfind.
  unfold Controller.processReview_try.
  assert (H0 : Controller.world (findById id) (None, w) = (Ok (Some r0), (None, w))).
  { rewrite world_run. unfold findById, gets. cbn [fst snd]. now rewrite Hfind. }
  rewrite (bind_ok _ _ _ _ _ H0). clear H0.
  unfold bind at 1, Controller.set_review, modify. cbn [snd].
  destruct (start_run id w r0 Hfind) as ([rv1 w1] & H1 & Hrun & Hset).
  rewrite (bind_ok _ _ _ _ _ H1). clear H1.
  (* the duplicate check *)
  destruct (quiet_hasAlreadyReviewed owner repo pullNumber w1) as (b & w2 & H2 & Hq2).
  assert (H2' : Controller.world (GitHub.hasAlreadyReviewed E owner repo pullNumber) (rv1, w1)
                = (Ok b, (rv1, w2))) by (rewrite world_run, H2; reflexivity).
  rewrite (bind_ok _ _ _ _ _ H2'). clear H2 H2'.
  apply (running_quiet _ _ _ _ w2) in Hrun; [|exact Hq2].
  apply (settled_quiet _ w2) in Hset; [|exact Hq2]. clear Hq2 w1.
  destruct b.
  { destruct (finish_completed id (clock E (ticks w)) w w2 rv1 None Hrun Hset)
      as (s3 & H3 & Hfin).
    exists (Ok tt), s3. split; [exact H3|]. left. now split. }
  (* the fetch *)
  pose proof (quiet_getPullRequestData owner repo pullNumber w2) as Hq3.
  pose proof (world_run (GitHub.getPullRequestData E owner repo pullNumber) rv1 w2) as H3.
  destruct (GitHub.getPullRequestData E owner repo pullNumber w2) as [[prData|e] w3].
  2:{ cbn [fst snd] in *. rewrite (bind_throw _ _ _ _ _ H3).
      eexists. eexists. split; [reflexivity|]. right. eexists. eexists.
      split; [reflexivity|]. split; [apply (running_quiet _ _ _ w2); eassumption|].
      left. apply (settled_quiet w2); assumption. }
  cbn [fst snd] in *. rewrite (bind_ok _ _ _ _ _ H3). clear H3.
  apply (running_quiet _ _ _ _ w3) in Hrun; [|exact Hq3].
  apply (settled_quiet _ w3) in Hset; [|exact Hq3]. clear Hq3 w2.
  set (f := Review.set_filesReviewed
              (map Controller.to_filesReviewed (PrData.diff_files prData))).
  destruct (running_assign id (clock E (ticks w)) w w3 rv1 f)
    as (this1 & Hrv1 & H4 & Hrun4); [intros r; cbn; auto|exact Hrun|].
  subst rv1.
  apply (settled_assign w3 this1 f eq_refl eq_refl) in Hset.
  rewrite (bind_ok _ _ _ _ _ H4). clear H4 Hrun.
  destruct (settled_save id (clock E (ticks w)) w w3 _ Hrun4 Hset)
    as (w5 & H5 & Hrun5 & Hset5).
  rewrite (bind_ok _ _ _ _ _ H5). clear H5 Hrun4 Hset w3.
  destruct (length (PrData.diff_files prData) =? 0).
  { destruct (finish_completed id (clock E (ticks w)) w w5 _ None Hrun5 Hset5)
      as (s6 & H6 & Hfin).
    exists (Ok tt), s6. split; [exact H6|]. left. now split. }
  (* the generation *)
  pose proof (quiet_generateReview prData w5) as Hq6.
  pose proof (world_run (Gemini.generateReview E prData) (Some (f this1)) w5) as H6.
  destruct (Gemini.generateReview E prData w5) as [[comments|e] w6].
  2:{ cbn [fst snd] in *. rewrite (bind_throw _ _ _ _ _ H6).
      eexists. eexists. split; [reflexivity|]. right. eexists. eexists.
      split; [reflexivity|]. split; [apply (running_quiet _ _ _ w5); eassumption|].
      left. apply (settled_quiet w5); assumption. }
  cbn [fst snd] in *. rewrite (bind_ok _ _ _ _ _ H6). clear H6.
  apply (running_quiet _ _ _ _ w6) in Hrun5; [|exact Hq6]. clear Hq6 Hset5 w5.
  destruct (quiet_generateSummaryComment comments prData w6) as (summaryComment & H7).
  assert (H7' : Controller.world (Gemini.generateSummaryComment E comments prData)
                  (Some (f this1), w6)
                = (Ok summaryComment, (Some (f this1), w6)))
    by (rewrite world_run, H7; reflexivity).
  rewrite (bind_ok _ _ _ _ _ H7'). clear H7 H7'.
  destruct (running_assign id (clock E (ticks w)) w w6 (Some (f this1))
              (Review.set_comments comments))
    as (this8 & Heq8 & H8 & Hrun8); [intros r; cbn; auto|exact Hrun5|].
  injection Heq8 as <-.
  rewrite (bind_ok _ _ _ _ _ H8). clear H8 Hrun5.
  destruct (running_assign id (clock E (ticks w)) w w6
              (Some (Review.set_comments comments (f this1)))
              (Review.set_summaryComment (Some summaryComment)))
    as (this9 & Heq9 & H9 & Hrun9); [intros r; cbn; auto|exact Hrun8|].
  injection Heq9 as <-.
  rewrite (bind_ok _ _ _ _ _ H9). clear H9 Hrun8.
  set (r3 := Review.set_summaryComment (Some summaryComment)
               (Review.set_comments comments (f this1))) in *.
  destruct (running_save id (clock E (ticks w)) w w6 _ Hrun9)
    as [(w10 & H10 & Hrun10 & Hset10)|(e & H10 & Hun)].
  2:{ rewrite (bind_throw _ _ _ _ _ H10).
      eexists. eexists. split; [reflexivity|]. right. exists e. eexists.
      split; [reflexivity|]. split; [exact Hrun9|]. now right. }
  rewrite (bind_ok _ _ _ _ _ H10). clear H10 Hrun9 w6.
  (* the posting *)
  pose proof (quiet_postReviewComments owner repo pullNumber comments summaryComment w10)
    as Hq11.
  pose proof (world_run (GitHub.postReviewComments E owner repo pullNumber comments
                           summaryComment) (Some r3) w10) as H11.
  destruct (GitHub.postReviewComments E owner repo pullNumber comments summaryComment w10)
    as [[githubReview|e] w11].
  2:{ cbn [fst snd] in *. rewrite (bind_throw _ _ _ _ _ H11).
      eexists. eexists. split; [reflexivity|]. right. eexists. eexists.
      split; [reflexivity|]. split; [apply (running_quiet _ _ _ w10); eassumption|].
      left. apply (settled_quiet w10); assumption. }
  cbn [fst snd] in *. rewrite (bind_ok _ _ _ _ _ H11). clear H11.
  apply (running_quiet _ _ _ _ w11) in Hrun10; [|exact Hq11].
  apply (settled_quiet _ w11) in Hset10; [|exact Hq11].
  destruct (finish_completed id (clock E (ticks w)) w w11 _
              (Some (GhReview.id githubReview)) Hrun10 Hset10)
    as (s12 & H12 & Hfin).
  exists (Ok tt), s12. split; [exact H12|]. left. now split.
Qed.

(** The fallback notice of the [catch] block. *)
Lemma catch_notice (owner repo : jsstring) (pullNumber : Z) (error : JsError)
    (rv : option Review.t) (w : World) :
  exists w1,
    (if includes (err_message error) (js "503")
        || includes (err_message error) (js "overloaded")
     then try_catch (Controller.world (GitHub.postFallbackComment E owner repo pullNumber))
                    (fun _ => ret tt)
     else ret tt) (rv, w) = (Ok tt, (rv, w1))
    /\ quiet w w1.
Proof.
  destruct (_ || _).
  - unfold try_catch. rewrite world_run.
    pose proof (quiet_postFallbackComment owner repo pullNumber w) as Hq.
    destruct (GitHub.postFallbackComment E owner repo pullNumber w) as [[[]|e] w1];
      cbn [fst snd] in *; exists w1; split; auto.
  - exists w. split; [reflexivity|apply quiet_refl].
Qed.

(** The [catch] block, entered while the record is in progress and its
    document settled: the record is marked failed and the error is
    thrown again. *)
Lemma catch_outcome (owner repo : jsstring) (pullNumber : Z) (id : nat) (t1 : Z)
    (w0 : World) (s : option Review.t * World) (error : JsError) :
  running E id t1 w0 s -> settled s ->
  exists s',
    Controller.processReview_catch E owner repo pullNumber error s = (Throw error, s')
    /\ finished id w0 failed s'.
Proof.
  destruct s as [rv w]. intros Hrun Hset.
  unfold Controller.processReview_catch.
  destruct (catch_notice owner repo pullNumber error rv w) as (w1 & Hfb & Hq).
  rewrite (bind_ok _ _ _ _ _ Hfb). clear Hfb.
  apply (running_quiet _ _ _ _ w1) in Hrun; [|exact Hq].
  apply (settled_quiet _ w1) in Hset; [|exact Hq].
  unfold bind at 1, Controller.get_review, gets. cbn [fst].
  destruct (finish_failed id t1 w0 w1 rv (err_message error) Hrun Hset) as (s2 & H2 & Hfin).
  destruct Hrun as (this & _ & _ & Hthis & _). cbn [fst] in Hthis. subst rv.
  rewrite (bind_ok _ _ _ _ _ H2).
  exists s2. split; [reflexivity|exact Hfin].
Qed.

(** The [catch] block, entered with a document that the store refuses:
    marking the record failed is refused as well, the error of that
    validation is the one thrown, and the record stays in progress. *)
Lemma catch_refused (owner repo : jsstring) (pullNumber : Z) (id : nat) (t1 : Z)
    (w0 : World) (s : option Review.t * World) (error : JsError) :
  running E id t1 w0 s -> unsaved E s ->
  exists doc s',
    Controller.processReview_catch E owner repo pullNumber error s
      = (Throw (validation_error E doc), s')
    /\ Review._id doc = id
    /\ Review.status doc = failed
    /\ comments_valid E (Review.comments doc) = false
    /\ running E id t1 w0 s'.
Proof.
  destruct s as [rv w]. intros Hrun Hun.
  unfold Controller.processReview_catch.
  destruct (catch_notice owner repo pullNumber error rv w) as (w1 & Hfb & Hq).
  rewrite (bind_ok _ _ _ _ _ Hfb). clear Hfb.
  apply (running_quiet _ _ _ _ w1) in Hrun; [|exact Hq].
  apply (unsaved_quiet _ w1) in Hun; [|exact Hq].
  unfold bind at 1, Controller.get_review, gets. cbn [fst].
  destruct (fail_refused id t1 w0 w1 rv (err_message error) Hrun Hun)
    as (doc & s2 & H2 & Hid & Hst & Hcs & Hrun2 & _).
  destruct Hrun as (this & _ & _ & Hthis & _). cbn [fst] in Hthis. subst rv.
  rewrite (bind_throw _ _ _ _ _ H2).
  exists doc, s2. repeat split; assumption.
Qed.

(** C1, as the code has it.  A run of the orchestrator on a record that
    exists writes that record and nothing else, one or more times in
    status in_progress and then at most once in a terminal status.
    When it writes a terminal status, that write is the last one: the
    status is completed when the run returns and failed when it throws,
    and the document written, which is the stored one then, has
    reviewStartedAt no later than reviewCompletedAt.  Otherwise the
    store has refused the comments of the run: the run throws the error
    of the validation and the record stays in_progress.  The clock is
    taken to be monotone. *)
Theorem run_passes_through_in_progress (owner repo : jsstring) (pullNumber : Z)
    (reviewId : nat) (w : World) (r0 : Review.t) :
  fst (findById reviewId w) = Ok (Some r0) ->
  exists (evs : list Event) (k : nat),
    trace (snd (Controller.processReviewAsync E owner repo pullNumber reviewId w))
      = trace w ++ evs
    /\ Forall (fun d => Review._id d = reviewId) (saved evs)
    /\ ((exists (t : Status) (final : Review.t) (t1 t2 : Z),
           map Review.status (saved evs) = repeat in_progress (S k) ++ [t]
           /\ t = match fst (Controller.processReviewAsync E owner repo pullNumber
                               reviewId w) with
                  | Ok _ => completed
                  | Throw _ => failed
                  end
           /\ fst (findById reviewId
                     (snd (Controller.processReviewAsync E owner repo pullNumber reviewId w)))
               = Ok (Some final)
           /\ Review.status final = t
           /\ Review.reviewStartedAt final = Some t1
           /\ Review.reviewCompletedAt final = Some t2
           /\ (t1 <= t2)%Z)
        \/ (exists (doc stored : Review.t) (t1 : Z),
              map Review.status (saved evs) = repeat in_progress (S k)
              /\ fst (Controller.processReviewAsync E owner repo pullNumber reviewId w)
                 = Throw (validation_error E doc)
              /\ Review._id doc = reviewId
              /\ comments_valid E (Review.comments doc) = false
              /\ fst (findById reviewId
                        (snd (Controller.processReviewAsync E owner repo pullNumber
                                reviewId w)))
                  = Ok (Some stored)
              /\ Review.status stored = in_progress
              /\ Review.reviewStartedAt stored = Some t1)).
Proof.
  intros Hfind.
  unfold Controller.processReviewAsync, Controller.with_review, try_catch.
  destruct (try_outcome owner repo pullNumber reviewId w r0 Hfind)
    as (res & s' & Htry & [[Hres Hfin]|(e & t1 & Hres & Hrun & [Hset|Hun])]);
    rewrite Htry; subst res.
  - destruct Hfin as (final & evs & k & t1 & t2 & Hthis & Hst & Hstore & Htr & Hsaved & Hall
                      & Hstart & Hdone & Hle).
    exists evs, k. cbn [fst snd]. split; [exact Htr|]. split; [exact Hall|]. left.
    exists completed, final, t1, t2.
    unfold findById, gets. cbn [fst]. rewrite Hstore.
    repeat split; auto.
  - destruct (catch_outcome owner repo pullNumber reviewId t1 w s' e Hrun Hset)
      as (s'' & Hcatch & Hfin).
    rewrite Hcatch.
    destruct Hfin as (final & evs & k & t1' & t2 & Hthis & Hst & Hstore & Htr & Hsaved & Hall
                      & Hstart & Hdone & Hle).
    exists evs, k. cbn [fst snd]. split; [exact Htr|]. split; [exact Hall|]. left.
    exists failed, final, t1', t2.
    unfold findById, gets. cbn [fst]. rewrite Hstore.
    repeat split; auto.
  - destruct (catch_refused owner repo pullNumber reviewId t1 w s' e Hrun Hun)
      as (doc & s'' & Hcatch & Hid & _ & Hcs & Hrun').
    rewrite Hcatch.
    destruct Hrun' as (this & evs & k & _ & _ & _ & _ & (r & Hstore & Hrst & Hrstart) & Htr
                       & Hsaved & Hall & _).
    exists evs, k. cbn [fst snd]. split; [exact Htr|]. split; [exact Hall|]. right.
    exists doc, r, t1.
    unfold findById, gets. cbn [fst]. rewrite Hstore.
    repeat split; auto.
Qed.

End ReviewRun.

(** ** A response without structured content, followed through a run *)

Section GracefulRun.

Variable E : Env.

Lemma no_reviews_not_reviewed (owner repo : jsstring) (pullNumber : Z) (w : World) :
  (forall tr, pulls_listReviews E tr owner repo pullNumber = Ok []) ->
  exists w',
    GitHub.hasAlreadyReviewed E owner repo pullNumber w = (Ok false, w')
    /\ reviews w' = reviews w /\ ticks w' = ticks w.
Proof.
  intros Hlist.
  unfold GitHub.hasAlreadyReviewed, try_catch, GitHub.getBotUser.
  unfold bind, call, gets, set_botUser, modify, lift_result, ret.
  rewrite Hlist. cbn [botUser trace reviews fst snd ticks draws nextId].
  destruct (botUser w) as [u|].
  - cbn. eauto.
  - destruct (users_getAuthenticated E _) as [u|e]; cbn; eauto.
Qed.

(** When nobody has reviewed the pull request, the fetch returns files,
    the model answers with a text that neither parse can read, and the
    posting succeeds, the run returns normally: the record is completed
    with no comments and the "No issues found" summary. *)
Lemma unreadable_response_completes_run (owner repo : jsstring) (pullNumber : Z)
    (reviewId : nat) (w : World) (r0 : Review.t) (prData : PrData.t) (text : jsstring)
    (e : JsError) (githubReview : GhReview.t) :
  fst (findById reviewId w) = Ok (Some r0) ->
  (forall tr, pulls_listReviews E tr owner repo pullNumber = Ok []) ->
  (forall tr, fetch_pull_request E tr owner repo pullNumber = Ok prData) ->
  PrData.diff_files prData <> [] ->
  (forall tr, generateContent E tr prData = Ok text) ->
  Gemini.primary_parse E text = Throw e ->
  (Gemini.fallback_parse E text = Ok None
   \/ exists e', Gemini.fallback_parse E text = Throw e') ->
  (forall tr comments summaryComment,
     create_review E tr owner repo pullNumber comments summaryComment = Ok githubReview) ->
  exists final,
    fst (Controller.processReviewAsync E owner repo pullNumber reviewId w) = Ok tt
    /\ fst (findById reviewId
              (snd (Controller.processReviewAsync E owner repo pullNumber reviewId w)))
       = Ok (Some final)
    /\ Review.status final = completed
    /\ Review.comments final = []
    /\ Review.summaryComment final = Some Gemini.no_issues_summary.
Proof.
  intros Hfind Hlist Hfetch Hfiles Hgen Hprimary Hfallback Hpost.
  unfold findById, gets in Hfind. cbn [fst] in Hfind. injection Hfind as Hfind.
  destruct (find_by_id_some _ _ _ Hfind) as [Hid Hin0].
  assert (Hparse : Gemini.parseReviewResponse E text = Ok []).
  { unfold Gemini.parseReviewResponse, catch_r, and_then. rewrite Hprimary.
    destruct Hfallback as [->|[e' ->]]; reflexivity. }
  (* markInProgress *)
  set (r1 := Review.set_reviewStartedAt (Some (clock E (ticks w)))
               (Review.set_status in_progress r0)).
  assert (Hs1 : find (fun x => Review._id x =? reviewId) (upsert r1 (reviews w)) = Some r1).
  { subst reviewId. apply (find_upsert_same (reviews w) r1 r0). exact Hfind. }
  (* the duplicate check *)
  destruct (no_reviews_not_reviewed owner repo pullNumber
              (mkWorld (upsert r1 (reviews w)) (trace w ++ [EvSave r1]) (S (ticks w))
                       (draws w) (botUser w) (nextId w)) Hlist)
    as (w2 & Hhas & Hrev2 & Hticks2).
  cbn [reviews ticks] in Hrev2, Hticks2.
  (* the files are saved *)
  set (r2 := Review.set_filesReviewed
               (map Controller.to_filesReviewed (PrData.diff_files prData)) r1).
  assert (Hs2 : find (fun x => Review._id x =? reviewId) (upsert r2 (reviews w2)) = Some r2).
  { rewrite Hrev2. subst reviewId. apply (find_upsert_same _ r2 r1). exact Hs1. }
  (* comments and summary are saved *)
  set (r3 := Review.set_summaryComment (Some Gemini.no_issues_summary)
               (Review.set_comments [] r2)).
  assert (Hs3 : find (fun x => Review._id x =? reviewId)
                  (upsert r3 (upsert r2 (reviews w2))) = Some r3).
  { subst reviewId. apply (find_upsert_same _ r3 r2). exact Hs2. }
  set (r4 := Review.set_reviewCompletedAt (Some (clock E (ticks w2)))
               (Review.set_status completed r3)).
  set (final := if (GhReview.id githubReview =? 0)%Z then r4
                else Review.set_githubReviewId (Some (GhReview.id githubReview)) r4).
  assert (Hfinal : Review._id final = Review._id r3 /\ Review.status final = completed
                   /\ Review.comments final = []
                   /\ Review.summaryComment final = Some Gemini.no_issues_summary).
  { unfold final. destruct (GhReview.id githubReview =? 0)%Z; cbn; auto. }
  destruct Hfinal as (Hfid & Hfst & Hfcomments & Hfsummary).
  assert (Hs4 : find (fun x => Review._id x =? reviewId)
                  (upsert final (upsert r3 (upsert r2 (reviews w2)))) = Some final).
  { subst reviewId. change (Review._id r0) with (Review._id r3) in *. rewrite <- Hfid in *.
    apply (find_upsert_same _ final r3). exact Hs3. }
  exists final.
  assert (Hlen : (length (PrData.diff_files prData) =? 0) = false).
  { destruct (PrData.diff_files prData); [congruence|reflexivity]. }
  assert (Hrun : exists w',
             Controller.processReviewAsync E owner repo pullNumber reviewId w = (Ok tt, w')
             /\ reviews w' = upsert final (upsert r3 (upsert r2 (reviews w2)))).
  { unfold Controller.processReviewAsync, Controller.with_review, try_catch,
      Controller.processReview_try.
    assert (H0 : Controller.world (findById reviewId) (None, w) = (Ok (Some r0), (None, w))).
    { rewrite world_run. unfold findById, gets. cbn [fst snd]. now rewrite Hfind. }
    rewrite (bind_ok _ _ _ _ _ H0). clear H0.
    unfold bind at 1, Controller.set_review, modify. cbn [snd].
    set (w1 := mkWorld (upsert r1 (reviews w)) (trace w ++ [EvSave r1]) (S (ticks w))
                       (draws w) (botUser w) (nextId w)) in *.
    assert (H1 : Controller.method (markInProgress E) (Some r0, w) = (Ok tt, (Some r1, w1))).
    { unfold Controller.method, markInProgress, bind, now. cbn [fst snd]. fold r1.
      rewrite (save_loaded E r1 r0
                 (mkWorld (reviews w) (trace w) (S (ticks w)) (draws w) (botUser w) (nextId w))
                 Hin0 eq_refl eq_refl), write_run.
      reflexivity. }
    rewrite (bind_ok _ _ _ _ _ H1). clear H1.
    assert (H2 : Controller.world (GitHub.hasAlreadyReviewed E owner repo pullNumber)
                   (Some r1, w1) = (Ok false, (Some r1, w2)))
      by (rewrite world_run, Hhas; reflexivity).
    rewrite (bind_ok _ _ _ _ _ H2). clear H2. cbv iota.
    set (w3 := mkWorld (reviews w2) (trace w2 ++ [EvGetPullRequestData owner repo pullNumber])
                       (ticks w2) (draws w2) (botUser w2) (nextId w2)).
    assert (H3 : Controller.world (GitHub.getPullRequestData E owner repo pullNumber)
                   (Some r1, w2) = (Ok prData, (Some r1, w3))).
    { rewrite world_run. unfold GitHub.getPullRequestData, try_catch, call.
      rewrite Hfetch. reflexivity. }
    rewrite (bind_ok _ _ _ _ _ H3). clear H3.
    assert (H4 : Controller.assign
                   (Review.set_filesReviewed
                      (map Controller.to_filesReviewed (PrData.diff_files prData)))
                   (Some r1, w3) = (Ok tt, (Some r2, w3))) by reflexivity.
    rewrite (bind_ok _ _ _ _ _ H4). clear H4.
    set (w4 := mkWorld (upsert r2 (reviews w3)) (trace w3 ++ [EvSave r2]) (ticks w3)
                       (draws w3) (botUser w3) (nextId w3)).
    assert (Hin1 : In r1 (reviews w3)).
    { cbn [reviews w3]. rewrite Hrev2. apply in_upsert_self. }
    assert (H5 : Controller.method (save E) (Some r2, w3) = (Ok tt, (Some r2, w4))).
    { unfold Controller.method. cbn [fst snd].
      rewrite (save_loaded E r2 r1 w3 Hin1 eq_refl eq_refl), write_run. reflexivity. }
    rewrite (bind_ok _ _ _ _ _ H5). clear H5. rewrite Hlen.
    set (w5 := mkWorld (reviews w4) (trace w4 ++ [EvGenerateContent]) (ticks w4)
                       (draws w4) (botUser w4) (nextId w4)).
    assert (H6 : Controller.world (Gemini.generateReview E prData) (Some r2, w4)
                 = (Ok [], (Some r2, w5))).
    { rewrite world_run. unfold Gemini.generateReview.
      change Gemini.maxRetries with 5. rewrite attempts_step. cbv zeta.
      rewrite Hgen. cbn [and_then]. rewrite Hparse. reflexivity. }
    rewrite (bind_ok _ _ _ _ _ H6). clear H6.
    assert (H7 : Controller.world (Gemini.generateSummaryComment E [] prData) (Some r2, w5)
                 = (Ok Gemini.no_issues_summary, (Some r2, w5))) by reflexivity.
    rewrite (bind_ok _ _ _ _ _ H7). clear H7.
    assert (H8 : Controller.assign (Review.set_comments []) (Some r2, w5)
                 = (Ok tt, (Some (Review.set_comments [] r2), w5))) by reflexivity.
    rewrite (bind_ok _ _ _ _ _ H8). clear H8.
    assert (H9 : Controller.assign (Review.set_summaryComment (Some Gemini.no_issues_summary))
                   (Some (Review.set_comments [] r2), w5)
                 = (Ok tt, (Some r3, w5))) by reflexivity.
    rewrite (bind_ok _ _ _ _ _ H9). clear H9.
    set (w6 := mkWorld (upsert r3 (reviews w5)) (trace w5 ++ [EvSave r3]) (ticks w5)
                       (draws w5) (botUser w5) (nextId w5)).
    assert (Hin2 : In r2 (reviews w5)) by apply in_upsert_self.
    assert (H10 : Controller.method (save E) (Some r3, w5) = (Ok tt, (Some r3, w6))).
    { unfold Controller.method. cbn [fst snd].
      rewrite (save_valid E r3 r2 w5 Hin2 eq_refl eq_refl), write_run. reflexivity. }
    rewrite (bind_ok _ _ _ _ _ H10). clear H10.
    set (w7 := mkWorld (reviews w6)
                 (trace w6 ++ [EvPostReview owner repo pullNumber [] Gemini.no_issues_summary])
                 (ticks w6) (draws w6) (botUser w6) (nextId w6)).
    assert (H11 : Controller.world
                    (GitHub.postReviewComments E owner repo pullNumber []
                       Gemini.no_issues_summary) (Some r3, w6)
                  = (Ok githubReview, (Some r3, w7))).
    { rewrite world_run. unfold GitHub.postReviewComments, try_catch, call.
      rewrite Hpost. reflexivity. }
    rewrite (bind_ok _ _ _ _ _ H11). clear H11.
    exists (mkWorld (upsert final (reviews w7)) (trace w7 ++ [EvSave final]) (S (ticks w7))
                    (draws w7) (botUser w7) (nextId w7)).
    split; [|reflexivity].
    assert (Hin3 : In r3 (reviews w7)) by apply in_upsert_self.
    unfold Controller.method, markCompleted, bind, now. cbn [fst snd].
    match goal with
    | |- context [save E ?d ?wx] =>
        change d with final;
        rewrite (save_loaded E final r3 wx Hin3 (eq_sym Hfid)), write_run;
        [reflexivity|now rewrite Hfcomments]
    end. }
  destruct Hrun as (w' & Hrun & Hrev).
  rewrite Hrun. cbn [fst snd]. unfold findById, gets. cbn [fst]. rewrite Hrev, Hs4.
  repeat split; assumption.
Qed.

End GracefulRun.

(** ** The properties on the sample environment *)

Lemma opened_on_completed_record_is_skipped_sample :
  Controller.handlePullRequest (Sample.env Sample.gemini_empty) Sample.opened
    (Sample.world_with Sample.completed_record)
  = (Ok (already_reviewed Sample.completed_record),
     Sample.world_with Sample.completed_record).
Proof.
  apply opened_on_completed_record_is_skipped; reflexivity.
Defined.

(** C7 as stated fails: for a draft pull request with action "opened"
    whose key has a completed record, the answer is
    "PR already reviewed", not "Draft PR skipped": the completed-record
    check runs before the draft check. *)
Lemma draft_opened_on_completed_record_is_not_draft_skipped :
  existsb (eqb_str (Payload.action Sample.draft_opened)) Controller.relevantActions = true
  /\ Payload.draft Sample.draft_opened = true
  /\ fst (Controller.handlePullRequest (Sample.env Sample.gemini_empty) Sample.draft_opened
            (Sample.world_with Sample.completed_record))
     = Ok (already_reviewed Sample.completed_record)
  /\ fst (Controller.handlePullRequest (Sample.env Sample.gemini_empty) Sample.draft_opened
            (Sample.world_with Sample.completed_record))
     <> Ok draft_skipped.
Proof.
  repeat split; try reflexivity.
  vm_compute. intros H. discriminate H.
Qed.

Lemma draft_event_is_skipped_sample :
  Controller.handlePullRequest (Sample.env Sample.gemini_empty) Sample.draft_opened
    Sample.world0
  = (Ok draft_skipped, Sample.world0).
Proof.
  exact (draft_event_is_skipped (Sample.env Sample.gemini_empty) Sample.draft_opened
           Sample.world0 eq_refl eq_refl).
Defined.

(** C5 as stated fails: a "synchronize" event for a draft pull request
    whose record is completed at commit aaa111, the pull request now
    being at bbb222, is answered with "Draft PR skipped"; the world is
    left as it was, so the record keeps its commit and its status and
    no run is started. *)
Lemma draft_synchronize_on_completed_record_is_not_refreshed :
  Payload.action Sample.draft_synchronize = js "synchronize"
  /\ fst (findByPR (Payload.owner_login Sample.draft_synchronize)
            (Payload.name Sample.draft_synchronize)
            (Payload.number Sample.draft_synchronize)
            (Sample.world_with Sample.completed_record))
     = Ok (Some Sample.completed_record)
  /\ Review.status Sample.completed_record = completed
  /\ PrInfo.commitSha (Review.prInfo Sample.completed_record)
     <> Payload.head_sha Sample.draft_synchronize
  /\ Controller.handlePullRequest (Sample.env Sample.gemini_empty) Sample.draft_synchronize
       (Sample.world_with Sample.completed_record)
     = (Ok draft_skipped, Sample.world_with Sample.completed_record).
Proof.
  repeat split; try reflexivity.
  vm_compute. intros H. discriminate H.
Qed.

Lemma synchronize_refreshes_completed_record_sample :
  exists (r' : Review.t) (w' : World),
    Controller.handlePullRequest (Sample.env Sample.gemini_empty) Sample.synchronize
      (Sample.world_with Sample.completed_record)
    = (Ok (review_started Sample.completed_record), w')
    /\ PrInfo.commitSha (Review.prInfo r') = js "bbb222"
    /\ Review.status r' = pending
    /\ fst (findById 1 w') = Ok (Some r').
Proof.
  destruct (synchronize_refreshes_completed_record (Sample.env Sample.gemini_empty)
              Sample.synchronize (Sample.world_with Sample.completed_record)
              Sample.completed_record eq_refl eq_refl eq_refl eq_refl)
    as (r' & w' & Hrun & _ & Hsha & Hst & _ & Hfind & _).
  exists r', w'. repeat split; assumption.
Defined.

Lemma retry_request_gate_sample :
  exists (r' : Review.t) (w' : World),
    Controller.retryReview (Sample.env Sample.gemini_empty) 7 (Some (js "octo")) (Some (js "demo"))
      (Sample.world_with Sample.failed_record)
    = (Ok (Response.mk 200 (js "Review retry initiated") (Some 1) (Some 1%N)), w')
    /\ Review.status r' = pending
    /\ Review.retryCount r' = 1%N
    /\ Review.errorMessage r' = None
    /\ fst (findById 1 w') = Ok (Some r').
Proof.
  destruct (proj1 (retry_request_gate (Sample.env Sample.gemini_empty) 7 (js "octo") (js "demo")
                     (Sample.world_with Sample.failed_record) Sample.failed_record
                     ltac:(discriminate) ltac:(discriminate) eq_refl) eq_refl)
    as (r' & w' & Hrun & Hst & Hcount & Hmsg & Hfind & _).
  exists r', w'. repeat split; assumption.
Defined.

Lemma missing_record_aborts_run_sample :
  Controller.processReviewAsync (Sample.env Sample.gemini_empty) (js "octo") (js "demo") 7 42
    Sample.world0
  = (Throw (Error_ (js "Review record not found")), Sample.world0).
Proof.
  apply missing_record_aborts_run. reflexivity.
Defined.

Lemma hasAlreadyReviewed_fails_open_sample :
  fst (GitHub.hasAlreadyReviewed Sample.github_down (js "octo") (js "demo") 7 Sample.world0)
  = Ok false.
Proof.
  apply (proj1 (proj2 (hasAlreadyReviewed_fails_open Sample.github_down (js "octo")
                         (js "demo") 7 Sample.world0))
           (Error_ (js "Bad credentials"))).
  reflexivity.
Defined.

Lemma retry_backoff_schedule_sample :
  exists (n : nat) (evs : list Event),
    trace (snd (Gemini.generateReview (Sample.env Sample.gemini_overloaded) Sample.prData
                  Sample.world0))
    = trace Sample.world0 ++ evs
    /\ generate_calls evs <= 5
    /\ length (sleeps evs) = n.
Proof.
  destruct (retry_backoff_schedule (Sample.env Sample.gemini_overloaded) Sample.prData
              Sample.world0)
    as (n & evs & Htr & _ & _ & Hcalls & Hlen & _).
  - intros k. split; [|split]; vm_compute; [discriminate|reflexivity|reflexivity].
  - exists n, evs. repeat split; assumption.
Defined.

(** C2 as stated fails: the wait is not always the base plus a jitter
    below one second.  With a model that stays overloaded and
    [Math.random()] returning the number just below one, the jitter of
    the first retry is below 1000 milliseconds, but its sum with the
    base of 2000 rounds to 3000: the wait is the base plus a full
    second. *)
Lemma wait_reaches_base_plus_one_second :
  (forall k, (0 <= random Sample.late_draws k)%Q /\ (random Sample.late_draws k < 1)%Q
             /\ representable (random Sample.late_draws k))
  /\ (jitter_of Sample.late_draws 0 < 1000)%Q
  /\ exists wait : Q,
       nth_error (sleeps (trace (snd (Gemini.generateReview Sample.late_draws Sample.prData
                                        Sample.world0)))) 0 = Some wait
       /\ wait = wait_before_retry Sample.late_draws 0 1
       /\ (wait == 2000 + 1000)%Q
       /\ ~ (exists jitter : Q,
               (0 <= jitter)%Q /\ (jitter < 1000)%Q /\ (wait == 2000 + jitter)%Q).
Proof.
  split.
  { intros k. split; [|split]; vm_compute; [discriminate|reflexivity|reflexivity]. }
  split; [reflexivity|].
  eexists. split; [vm_compute; reflexivity|].
  split; [vm_compute; reflexivity|].
  split; [vm_compute; reflexivity|].
  intros (jitter & H0 & H1 & Hw).
  assert (H : (3000 == 2000 + jitter)%Q).
  { rewrite <- Hw. vm_compute. reflexivity. }
  lra.
Qed.

Lemma parse_failure_degrades_to_no_comments_sample :
  Gemini.parseReviewResponse (Sample.env Sample.gemini_prose)
    (js "Nothing to report [no comments] for this change.")
  = Ok []
  /\ Gemini.parseReviewResponse (Sample.env Sample.gemini_prose)
       (js "The changes look fine to me.")
     = Ok []
  /\ exists c : Comment.t,
       Gemini.parseReviewResponse Sample3.env_fenced_comment
         (js "Review: " ++ Sample3.fenced_comment_text ++ js " Thanks.")
       = Ok [c]
       /\ Comment.category c = VStr (js "security")
       /\ Comment.comment c = VStr (js "Unchecked ```input```").
Proof.
  split; [|split].
  3:{ eexists. split.
      - rewrite (proj1 (proj2 (parse_failure_degrades_to_no_comments
                                 Sample3.env_fenced_comment
                                 (js "Review: " ++ Sample3.fenced_comment_text
                                  ++ js " Thanks.")))
                   (mkJsError (js "SyntaxError") (js "Unexpected token") None)
                   (js "Review: ") (removelast (tl Sample3.fenced_comment_text))
                   (js " Thanks.") eq_refl eq_refl).
        + vm_compute. reflexivity.
        + vm_compute. intuition discriminate.
        + vm_compute. intuition discriminate.
      - split; reflexivity. }
  - apply (proj1 (proj2 (parse_failure_degrades_to_no_comments
                            (Sample.env Sample.gemini_prose)
                            (js "Nothing to report [no comments] for this change.")))
             (mkJsError (js "SyntaxError") (js "Unexpected token") None)
             (js "Nothing to report ") (js "no comments") (js " for this change.")
             eq_refl eq_refl).
    + vm_compute. intuition discriminate.
    + vm_compute. intuition discriminate.
  - apply (proj1 (proj2 (proj2 (parse_failure_degrades_to_no_comments
                                   (Sample.env Sample.gemini_prose)
                                   (js "The changes look fine to me."))))
             (mkJsError (js "SyntaxError") (js "Unexpected token") None) eq_refl).
    intros pre mid post H.
    assert (Hin : In 91%N (js "The changes look fine to me."))
      by (rewrite H; apply in_or_app; right; now left).
    vm_compute in Hin. intuition discriminate.
Defined.

Lemma run_passes_through_in_progress_sample :
  exists (evs : list Event) (k : nat) (t : Status),
    trace (snd (Controller.processReviewAsync (Sample.env Sample.gemini_empty)
                  (js "octo") (js "demo") 7 1 (Sample.world_with Sample.pending_record)))
    = trace (Sample.world_with Sample.pending_record) ++ evs
    /\ map Review.status (saved evs) = repeat in_progress (S k) ++ [t]
    /\ terminal t = true.
Proof.
  destruct (run_passes_through_in_progress (Sample.env Sample.gemini_empty))
    with (owner := js "octo") (repo := js "demo") (pullNumber := 7%Z) (reviewId := 1)
         (w := Sample.world_with Sample.pending_record) (r0 := Sample.pending_record)
    as (evs & k & Htr & _ & [(t & final & t1 & t2 & Hst & Ht & _)
                            |(doc & stored & t1 & _ & Hthrow & _)]).
  - intros i j Hij. unfold Sample.env. cbn [clock]. lia.
  - reflexivity.
  - exists evs, k, t. repeat split; try assumption.
    rewrite Ht. now destruct (fst _).
  - exfalso. vm_compute in Hthrow. discriminate Hthrow.
Defined.

(** C1 as stated fails: a record can hold both timestamps with
    reviewStartedAt later than reviewCompletedAt.  A record that failed
    is taken up again by a retry request; the run writes it in progress
    with its new reviewStartedAt while the reviewCompletedAt of the
    earlier run is still there, and then goes on to complete it. *)
Lemma restarted_record_starts_after_its_completion :
  exists (doc final : Review.t) (t1 t2 : Z),
    In (EvSave doc)
       (trace (snd (Controller.processReviewAsync (Sample.env Sample.gemini_empty)
                      (js "octo") (js "demo") 7 1
                      (snd (Controller.retryReview (Sample.env Sample.gemini_empty) 7
                              (Some (js "octo")) (Some (js "demo"))
                              (Sample.world_with Sample.failed_record))))))
    /\ Review.status doc = in_progress
    /\ Review.reviewStartedAt doc = Some t1
    /\ Review.reviewCompletedAt doc = Some t2
    /\ (t2 < t1)%Z
    /\ fst (findById 1
              (snd (Controller.processReviewAsync (Sample.env Sample.gemini_empty)
                      (js "octo") (js "demo") 7 1
                      (snd (Controller.retryReview (Sample.env Sample.gemini_empty) 7
                              (Some (js "octo")) (Some (js "demo"))
                              (Sample.world_with Sample.failed_record))))))
       = Ok (Some final)
    /\ Review.status final = completed.
Proof.
  eexists. eexists. exists 1700000003000%Z, 1700000002000%Z.
  split; [vm_compute; right; right; left; reflexivity|].
  split; [reflexivity|]. split; [reflexivity|]. split; [reflexivity|].
  split; [reflexivity|]. split; [vm_compute; reflexivity|reflexivity].
Qed.

(** A run whose comments the schema refuses.  The response holds one
    comment without category, to which the parser gives the category
    "general"; the store refuses the document that carries it, and
    refuses it again when the run marks it failed: the run throws the
    error of the validation and the record stays in progress, without
    comments and without error message. *)
Lemma refused_comments_leave_record_in_progress :
  exists (doc stored : Review.t),
    fst (Controller.processReviewAsync Sample3.env_one_comment (js "octo") (js "demo") 7 1
           (Sample.world_with Sample.pending_record))
    = Throw (Sample.refusal doc)
    /\ fst (findById 1
              (snd (Controller.processReviewAsync Sample3.env_one_comment (js "octo")
                      (js "demo") 7 1 (Sample.world_with Sample.pending_record))))
       = Ok (Some stored)
    /\ Review.status stored = in_progress
    /\ Review.comments stored = []
    /\ Review.errorMessage stored = None
    /\ Review.reviewCompletedAt stored = None.
Proof.
  exists Sample.pending_record. eexists.
  split; [vm_compute; reflexivity|].
  split; [vm_compute; reflexivity|]. repeat split.
Qed.

(** A run whose comments the schema accepts: the comment of the
    response has a category of the [enum]; it is saved and posted, and
    the record is completed with it. *)
Lemma accepted_comments_complete_record :
  exists (final : Review.t) (c : Comment.t),
    fst (Controller.processReviewAsync Sample3.env_security_comment (js "octo") (js "demo")
           7 1 (Sample.world_with Sample.pending_record))
    = Ok tt
    /\ fst (findById 1
              (snd (Controller.processReviewAsync Sample3.env_security_comment (js "octo")
                      (js "demo") 7 1 (Sample.world_with Sample.pending_record))))
       = Ok (Some final)
    /\ Review.status final = completed
    /\ Review.comments final = [c]
    /\ Comment.category c = VStr (js "security")
    /\ Review.githubReviewId final = Some 77%Z
    /\ count_kind KPost
         (map kind
            (trace (snd (Controller.processReviewAsync Sample3.env_security_comment
                           (js "octo") (js "demo") 7 1
                           (Sample.world_with Sample.pending_record)))))
       = 1.
Proof.
  eexists. eexists.
  split; [vm_compute; reflexivity|].
  split; [vm_compute; reflexivity|]. repeat split.
Qed.

Lemma unreadable_response_completes_run_sample :
  exists final,
    fst (Controller.processReviewAsync (Sample.env Sample.gemini_prose)
           (js "octo") (js "demo") 7 1 (Sample.world_with Sample.pending_record)) = Ok tt
    /\ Review.status final = completed
    /\ Review.comments final = []
    /\ Review.summaryComment final = Some Gemini.no_issues_summary.
Proof.
  destruct (unreadable_response_completes_run (Sample.env Sample.gemini_prose)
              (js "octo") (js "demo") 7 1 (Sample.world_with Sample.pending_record)
              Sample.pending_record Sample.prData (js "The changes look fine to me.")
              (mkJsError (js "SyntaxError") (js "Unexpected token") None)
              (GhReview.mk 77 (Some Sample.bot)))
    as (final & Hres & _ & Hst & Hcomments & Hsummary);
    try reflexivity.
  - discriminate.
  - left. reflexivity.
  - exists final. repeat split; assumption.
Defined.

(** C8.  The claim asks for the number of attempts made; the code
    reports [maxRetries].  Here the model rejects the API key on the
    first attempt: one call is made, and the error says "after 5
    attempts". *)
Theorem fatal_first_attempt_is_reported_as_five_attempts :
  fst (Gemini.generateReview (Sample.env Sample.gemini_bad_key) Sample.prData Sample.world0)
  = Throw (Error_ (js "Failed to generate code review after 5 attempts: API key not valid. Please pass a valid API key."))
  /\ generate_calls (trace (snd (Gemini.generateReview (Sample.env Sample.gemini_bad_key)
                                   Sample.prData Sample.world0))) = 1.
Proof.
  split; reflexivity.
Qed.

(** * Further properties *)

(** ** The retry loop *)

Section RetryLoop.

Variable E : Env.

(** The error handed to an iteration of the loop is not read: each
    iteration sets its own. *)
Lemma attempts_lastError_irrelevant (k attempt : nat) (le1 le2 : option JsError)
    (prData : PrData.t) (w : World) :
  Gemini.attempts E (S k) attempt le1 prData w = Gemini.attempts E (S k) attempt le2 prData w.
Proof. now rewrite !attempts_step. Qed.

(** After [n] overloaded attempts the loop stands at attempt
    [attempt + n], with the waits of the schedule behind it. *)
Lemma attempts_after_overloads (n : nat) :
  forall (k attempt : nat) (le le' : option JsError) (prData : PrData.t) (w : World),
    attempt + k = Gemini.maxRetries ->
    n <= k ->
    (forall i, i < n ->
       exists e,
         generateContent E (trace w ++ backoff_schedule E (draws w) attempt i) prData = Throw e
         /\ Gemini.is_overloaded e = true) ->
    Gemini.attempts E (S k) attempt le prData w =
      Gemini.attempts E (S (k - n)) (attempt + n) le' prData
        (mkWorld (reviews w) (trace w ++ backoff_schedule E (draws w) attempt n)
                 (ticks w) (draws w + n) (botUser w) (nextId w)).
Proof.
  induction n as [|n IH]; intros k attempt le le' prData w Hsum Hn Hall.
  - cbn [backoff_schedule]. rewrite app_nil_r, !Nat.add_0_r, Nat.sub_0_r.
    destruct w. apply attempts_lastError_irrelevant.
  - destruct k as [|k]; [lia|].
    destruct (Hall 0) as (e & He & Hov); [lia|].
    cbn [backoff_schedule] in He. rewrite app_nil_r in He.
    rewrite attempts_step. cbv zeta. rewrite He. cbn [and_then]. rewrite Hov.
    assert (Hlt : (attempt <? Gemini.maxRetries) = true) by (apply Nat.ltb_lt; lia).
    rewrite Hlt.
    rewrite (IH k (S attempt) (Some e) le'); [|lia|lia|].
    + cbn [reviews trace ticks draws botUser nextId backoff_schedule Nat.sub].
      f_equal; [lia|]. f_equal; [|lia].
      rewrite <- !app_assoc. reflexivity.
    + intros i Hi. cbn [trace draws].
      destruct (Hall (S i)) as (e' & He' & Hov'); [lia|].
      exists e'. split; [|exact Hov'].
      rewrite <- He'. f_equal. cbn [backoff_schedule]. rewrite <- !app_assoc. reflexivity.
Qed.

(** X1. When the model is overloaded on the first [n] attempts, [n] at
    most four, and then answers, [generateReview] returns the parse of
    that answer after [n + 1] calls and [n] waits: a transient overload
    is retried until the model answers. *)
Theorem generateReview_recovers_after_overloads (n : nat) (prData : PrData.t) (w : World)
    (text : jsstring) :
  n <= 4 ->
  (forall i, i < n ->
     exists e,
       generateContent E (trace w ++ backoff_schedule E (draws w) 1 i) prData = Throw e
       /\ Gemini.is_overloaded e = true) ->
  generateContent E (trace w ++ backoff_schedule E (draws w) 1 n) prData = Ok text ->
  Gemini.generateReview E prData w =
    (Gemini.parseReviewResponse E text,
     mkWorld (reviews w)
       (trace w ++ backoff_schedule E (draws w) 1 n ++ [EvGenerateContent])
       (ticks w) (draws w + n) (botUser w) (nextId w)).
Proof.
  intros Hn Hall Hok.
  unfold Gemini.generateReview. change Gemini.maxRetries with 5.
  rewrite (attempts_after_overloads n 4 1 None None prData w eq_refl Hn Hall).
  rewrite attempts_step. cbv zeta. cbn [reviews trace ticks draws botUser nextId].
  rewrite Hok. cbn [and_then].
  destruct (parseReviewResponse_total E text) as [cs Hcs]. rewrite Hcs.
  now rewrite <- app_assoc.
Qed.

(** X2. When the model is overloaded on the first [n] attempts and the
    next attempt fails with an error that ends the loop (any error that
    is not an overload, or the fifth overload), [generateReview] throws
    one error whose message ends with the message of that last failure;
    no wait follows the last attempt. *)
Theorem generateReview_reports_last_cause (n : nat) (prData : PrData.t) (w : World)
    (e : JsError) :
  n <= 4 ->
  (forall i, i < n ->
     exists e',
       generateContent E (trace w ++ backoff_schedule E (draws w) 1 i) prData = Throw e'
       /\ Gemini.is_overloaded e' = true) ->
  generateContent E (trace w ++ backoff_schedule E (draws w) 1 n) prData = Throw e ->
  Gemini.is_overloaded e = false \/ n = 4 ->
  fst (Gemini.generateReview E prData w) =
    Throw (Error_ (js "Failed to generate code review after 5 attempts: " ++ err_message e))
  /\ trace (snd (Gemini.generateReview E prData w)) =
       trace w ++ backoff_schedule E (draws w) 1 n ++ [EvGenerateContent]
  /\ reviews (snd (Gemini.generateReview E prData w)) = reviews w.
Proof.
  intros Hn Hall Hthrow Hlast.
  unfold Gemini.generateReview. change Gemini.maxRetries with 5.
  rewrite (attempts_after_overloads n 4 1 None None prData w eq_refl Hn Hall).
  rewrite attempts_step. cbv zeta. cbn [reviews trace ticks draws botUser nextId].
  rewrite Hthrow. cbn [and_then].
  destruct (Gemini.is_overloaded e) eqn:Hov.
  - destruct Hlast as [Hlast|Hlast]; [discriminate|]. subst n.
    change (1 + 4 <? Gemini.maxRetries) with false. cbv iota.
    unfold Gemini.throw_after_loop, throw. cbn [fst snd trace reviews].
    split; [reflexivity|]. split; [now rewrite <- app_assoc|reflexivity].
  - unfold Gemini.throw_after_loop, throw. cbn [fst snd trace reviews].
    split; [reflexivity|]. split; [now rewrite <- app_assoc|reflexivity].
Qed.

Lemma total_wait_schedule_bound (d a n : nat) :
  (forall k, (0 <= random E k)%Q /\ (random E k < 1)%Q) ->
  1 <= a -> a + n <= 5 ->
  (total_wait (backoff_schedule E d a n ++ [EvGenerateContent])
   <= inject_Z ((2 ^ Z.of_nat (a + n) - 2 ^ Z.of_nat a) * 1000) + inject_Z (Z.of_nat n * 1000))%Q.
Proof.
  intros Hrandom. revert d a.
  induction n as [|n IH]; intros d a Ha Han.
  - rewrite Nat.add_0_r, Z.sub_diag. cbn. discriminate.
  - change (total_wait (backoff_schedule E d a (S n) ++ [EvGenerateContent]))
      with (wait_before_retry E d a
            + total_wait (backoff_schedule E (S d) (S a) n ++ [EvGenerateContent]))%Q.
    specialize (IH (S d) (S a) ltac:(lia) ltac:(lia)).
    destruct (Hrandom d) as [H0 H1].
    destruct (jitter_bounds _ H0 H1) as [Hj0 Hj1].
    destruct (wait_bounds a (jitter_of E d)) as [_ Hw]; [lia|exact Hj0|exact Hj1|].
    fold (wait_before_retry E d a) in Hw.
    replace (a + S n) with (S a + n) by lia.
    assert (Hpow : (2 ^ Z.of_nat (S a) = 2 * 2 ^ Z.of_nat a)%Z).
    { rewrite Nat2Z.inj_succ, Z.pow_succ_r by lia. reflexivity. }
    rewrite Hpow in IH.
    set (P := (2 ^ Z.of_nat a)%Z) in *.
    set (R := (2 ^ Z.of_nat (S a + n))%Z) in *.
    replace (Z.of_nat (S n) * 1000)%Z with (Z.of_nat n * 1000 + 1000)%Z by lia.
    replace ((R - P) * 1000)%Z with ((R - 2 * P) * 1000 + P * 1000)%Z by lia.
    rewrite !inject_Z_plus.
    change (inject_Z 1000) with 1000%Q.
    lra.
Qed.

(** X3. Whatever the model answers, the waits of one call of
    [generateReview] add up to 34 seconds at most, as long as
    [Math.random()] lies in [0, 1): four waits, each of its base and at
    most one second more. *)
Theorem generateReview_total_wait_bounded (prData : PrData.t) (w : World) :
  (forall k, (0 <= random E k)%Q /\ (random E k < 1)%Q) ->
  exists evs,
    trace (snd (Gemini.generateReview E prData w)) = trace w ++ evs
    /\ (total_wait evs <= 34000)%Q.
Proof.
  intros Hrandom.
  destruct (attempts_run E 4 1 None prData w eq_refl) as (n & res & d' & Hn & Hrun & _).
  unfold Gemini.generateReview. change Gemini.maxRetries with 5. rewrite Hrun.
  cbn [snd trace]. eexists. split; [reflexivity|].
  pose proof (total_wait_schedule_bound (draws w) 1 n Hrandom ltac:(lia) ltac:(lia)) as Hb.
  assert (Hmono : ((2 ^ Z.of_nat (1 + n) - 2 ^ Z.of_nat 1) * 1000 + Z.of_nat n * 1000
                   <= 34000)%Z).
  { assert (Hp : (2 ^ Z.of_nat (1 + n) <= 2 ^ 5)%Z)
      by (apply Z.pow_le_mono_r; lia).
    change (2 ^ Z.of_nat 1)%Z with 2%Z. change (2 ^ 5)%Z with 32%Z in Hp. lia. }
  rewrite <- inject_Z_plus in Hb.
  rewrite Zle_Qle in Hmono.
  change (inject_Z 34000) with 34000%Q in Hmono.
  lra.
Qed.

End RetryLoop.

(** ** The comments that come out of the parser *)

Section ParsedComments.

Variable E : Env.

Lemma filter_r_kept {A : Type} (p : A -> Result bool) (l kept : list A) :
  filter_r p l = Ok kept -> Forall (fun x => p x = Ok true) kept.
Proof.
  revert kept. induction l as [|x l IH]; intros kept H; cbn in H.
  - injection H as <-. constructor.
  - unfold and_then in H. destruct (p x) as [keep|e] eqn:Hp; [|discriminate].
    destruct (filter_r p l) as [rest|e]; [|discriminate].
    injection H as <-. destruct keep; auto.
Qed.

Lemma map_r_Forall {A B : Type} (f : A -> Result B) (P : A -> Prop) (Q : B -> Prop)
    (l : list A) (ys : list B) :
  (forall x y, P x -> f x = Ok y -> Q y) ->
  Forall P l -> map_r f l = Ok ys -> Forall Q ys.
Proof.
  intros Hf. revert ys. induction l as [|x l IH]; intros ys HP H; cbn in H.
  - injection H as <-. constructor.
  - unfold and_then in H. destruct (f x) as [y|e] eqn:Hy; [|discriminate].
    destruct (map_r f l) as [rest|e]; [|discriminate].
    injection H as <-. inversion HP; subst. constructor; eauto.
Qed.

Lemma normalizeSeverity_allowed (v : Value) :
  In (Gemini.normalizeSeverity v) Gemini.allowedSeverities.
Proof.
  assert (Herror : In (js "error") Gemini.allowedSeverities) by (left; reflexivity).
  destruct v; try exact Herror.
  unfold Gemini.normalizeSeverity.
  destruct (existsb (eqb_str s) Gemini.allowedSeverities) eqn:Hex; [|exact Herror].
  apply existsb_exists in Hex as (x & Hin & Heq). apply eqb_str_eq in Heq. now subst.
Qed.

Lemma to_comment_well_formed (c : Value) (cm : Comment.t) :
  Gemini.has_file_and_comment c = Ok true ->
  Gemini.to_comment E c = Ok cm ->
  well_formed_comment cm.
Proof.
  unfold Gemini.has_file_and_comment, Gemini.to_comment, and_then.
  destruct (get_field c (js "file")) as [file|e]; [|discriminate].
  destruct (truthy file) eqn:Hfile; [|discriminate].
  destruct (get_field c (js "comment")) as [text|e]; [|discriminate].
  intros Htext. injection Htext as Htext.
  destruct (get_field c (js "line")) as [line|e]; [|discriminate].
  destruct (get_field c (js "severity")) as [severity|e]; [|discriminate].
  destruct (get_field c (js "category")) as [category|e]; [|discriminate].
  destruct (get_field c (js "suggestion")) as [suggestion|e]; [|discriminate].
  intros Hcm. injection Hcm as <-.
  unfold well_formed_comment. cbn [Comment.severity Comment.file Comment.comment
                                    Comment.category Comment.line Comment.suggestion].
  split; [apply normalizeSeverity_allowed|].
  split; [exact Hfile|]. split; [exact Htext|].
  split; [|split].
  - unfold or_else. destruct (truthy category) eqn:Hc; [exact Hc|reflexivity].
  - change (truthy (VNum (let n := parseInt E line in
                       if truthy (VNum n) then n else 1%float)) = true).
    cbv zeta. destruct (truthy (VNum (parseInt E line))) eqn:Hn; [exact Hn|reflexivity].
  - unfold or_else. destruct (truthy suggestion) eqn:Hs; [now right|now left].
Qed.

Lemma comments_of_items (items kept : list Value) (cs : list Comment.t) :
  filter_r Gemini.has_file_and_comment items = Ok kept ->
  map_r (Gemini.to_comment E) kept = Ok cs ->
  Forall well_formed_comment cs.
Proof.
  intros Hkept Hcs. apply filter_r_kept in Hkept.
  apply (map_r_Forall (Gemini.to_comment E)
           (fun x => Gemini.has_file_and_comment x = Ok true) well_formed_comment kept cs).
  - intros x y Hx Hy. exact (to_comment_well_formed x y Hx Hy).
  - exact Hkept.
  - exact Hcs.
Qed.

(** X4. Every comment returned by [parseReviewResponse] has a severity
    among error, warning and suggestion, a truthy file, comment and
    category, a line that is neither zero nor NaN, and a suggestion that
    is truthy or [null], whatever the response was. *)
Theorem parsed_comments_are_well_formed (text : jsstring) (cs : list Comment.t) :
  Gemini.parseReviewResponse E text = Ok cs ->
  Forall well_formed_comment cs.
Proof.
  unfold Gemini.parseReviewResponse, catch_r.
  destruct (Gemini.primary_parse E text) as [cs1|e] eqn:Hprimary.
  - intros H. injection H as <-.
    unfold Gemini.primary_parse, and_then in Hprimary.
    destruct (JSON_parse E _) as [parsed|e]; [|discriminate].
    destruct parsed; try (injection Hprimary as <-; constructor).
    destruct (filter_r Gemini.has_file_and_comment items) as [kept|e] eqn:Hkept;
      [|discriminate].
    eauto using comments_of_items.
  - unfold and_then.
    destruct (Gemini.fallback_parse E text) as [[cs2|]|e'] eqn:Hfallback;
      intros H; injection H as <-; try constructor.
    unfold Gemini.fallback_parse, and_then in Hfallback.
    destruct (indexOf text 91%N) as [arrayStart|]; [|discriminate].
    destruct (lastIndexOf text 93%N) as [arrayEnd|]; [|discriminate].
    destruct (arrayStart <? arrayEnd); [|discriminate].
    destruct (JSON_parse E _) as [parsed|e0]; [|discriminate].
    destruct parsed; try discriminate.
    destruct (filter_r Gemini.has_file_and_comment items) as [kept|e0] eqn:Hkept;
      [|discriminate].
    destruct (map_r (Gemini.to_comment E) kept) as [cs3|e0] eqn:Hcs; [|discriminate].
    injection Hfallback as <-.
    eauto using comments_of_items.
Qed.

End ParsedComments.

(** ** The duplicate check on a list of reviews *)

Section BotReviews.

Variable E : Env.

Lemma filter_r_pure {A : Type} (p : A -> Result bool) (q : A -> bool) (l : list A) :
  Forall (fun x => p x = Ok (q x)) l -> filter_r p l = Ok (filter q l).
Proof.
  induction 1 as [|x l Hx _ IH]; [reflexivity|].
  cbn. rewrite Hx, IH. cbn. reflexivity.
Qed.

Lemma some_kept {A : Type} (q : A -> bool) (l : list A) :
  (0 <? length (filter q l)) = existsb q l.
Proof.
  induction l as [|x l IH]; [reflexivity|].
  cbn. destruct (q x); [reflexivity|exact IH].
Qed.

Lemma filter_r_null_user (u : GhUser.t) (rs : list GhReview.t) :
  Exists (fun r => GhReview.user r = None) rs ->
  exists e, filter_r (GitHub.is_bot_review u) rs = Throw e.
Proof.
  induction 1 as [r rs Hr|r rs _ [e IH]]; cbn [filter_r]; unfold GitHub.is_bot_review at 1.
  - rewrite Hr. cbn [and_then]. eauto.
  - destruct (GhReview.user r); cbn [and_then]; [|eauto].
    rewrite IH. cbn [and_then]. eauto.
Qed.

(** X5. When the reviews are listed, each has an author and the bot
    identity is known (cached, or fetched without error), the check
    answers whether one of the reviews is by the bot, and the identity
    is cached afterwards; with a cached identity the only call made is
    the listing. *)
Theorem hasAlreadyReviewed_finds_bot_review (owner repo : jsstring) (pullNumber : Z)
    (w : World) (rs : list GhReview.t) (bot : GhUser.t) :
  pulls_listReviews E (trace w) owner repo pullNumber = Ok rs ->
  Forall (fun r => GhReview.user r <> None) rs ->
  match botUser w with
  | Some u => Ok u
  | None => users_getAuthenticated E (trace w ++ [EvListReviews owner repo pullNumber])
  end = Ok bot ->
  fst (GitHub.hasAlreadyReviewed E owner repo pullNumber w)
    = Ok (existsb (by_login (GhUser.login bot)) rs)
  /\ botUser (snd (GitHub.hasAlreadyReviewed E owner repo pullNumber w)) = Some bot
  /\ trace (snd (GitHub.hasAlreadyReviewed E owner repo pullNumber w))
     = trace w ++ EvListReviews owner repo pullNumber
                  :: match botUser w with
                     | Some _ => []
                     | None => [EvGetAuthenticated]
                     end.
Proof.
  intros Hlist Husers Hbot.
  assert (Hfilter : filter_r (GitHub.is_bot_review bot) rs
                    = Ok (filter (by_login (GhUser.login bot)) rs)).
  { apply filter_r_pure. eapply Forall_impl; [|exact Husers].
    intros r Hr. unfold GitHub.is_bot_review, by_login.
    destruct (GhReview.user r) eqn:Hu; [reflexivity|congruence]. }
  unfold GitHub.hasAlreadyReviewed, try_catch, GitHub.getBotUser.
  unfold bind, call, gets, set_botUser, modify, lift_result, ret.
  rewrite Hlist. cbn [botUser trace reviews fst snd ticks draws nextId].
  destruct (botUser w) as [u|].
  - injection Hbot as ->. rewrite Hfilter. cbn [fst snd botUser trace].
    rewrite some_kept. auto.
  - cbn [botUser trace reviews fst snd ticks draws nextId].
    rewrite Hbot. cbn [botUser trace reviews fst snd ticks draws nextId].
    rewrite Hfilter. cbn [fst snd botUser trace].
    rewrite some_kept, <- app_assoc. auto.
Qed.

(** X6. When one of the listed reviews has no author (a deleted
    account), the check answers [false], even if another review is by
    the bot: reading the login of the missing author throws, and the
    error is swallowed. *)
Theorem hasAlreadyReviewed_false_on_missing_author (owner repo : jsstring) (pullNumber : Z)
    (w : World) (rs : list GhReview.t) :
  pulls_listReviews E (trace w) owner repo pullNumber = Ok rs ->
  Exists (fun r => GhReview.user r = None) rs ->
  fst (GitHub.hasAlreadyReviewed E owner repo pullNumber w) = Ok false.
Proof.
  intros Hlist Hnull.
  unfold GitHub.hasAlreadyReviewed, try_catch, GitHub.getBotUser.
  unfold bind, call, gets, set_botUser, modify, lift_result, ret.
  rewrite Hlist. cbn [botUser trace reviews fst snd ticks draws nextId].
  destruct (botUser w) as [u|].
  - destruct (filter_r_null_user u rs Hnull) as [e ->]. reflexivity.
  - cbn [botUser trace reviews fst snd ticks draws nextId].
    destruct (users_getAuthenticated E _) as [u|e];
      cbn [botUser trace reviews fst snd ticks draws nextId]; [|reflexivity].
    destruct (filter_r_null_user u rs Hnull) as [e ->]. reflexivity.
Qed.

End BotReviews.

(** ** These properties on the sample environment *)

Lemma generateReview_recovers_after_overloads_sample :
  fst (Gemini.generateReview (Sample.env Sample2.gemini_flaky) Sample.prData Sample.world0)
  = Ok []
  /\ generate_calls (trace (snd (Gemini.generateReview (Sample.env Sample2.gemini_flaky)
                                   Sample.prData Sample.world0))) = 3.
Proof.
  rewrite (generateReview_recovers_after_overloads (Sample.env Sample2.gemini_flaky) 2
             Sample.prData Sample.world0 (js "[]")).
  - split; reflexivity.
  - lia.
  - intros i Hi. destruct i as [|[|i]]; [eexists; split; reflexivity ..|lia].
  - reflexivity.
Defined.

Lemma generateReview_reports_last_cause_sample :
  fst (Gemini.generateReview (Sample.env Sample.gemini_overloaded) Sample.prData
         Sample.world0)
  = Throw (Error_ (js "Failed to generate code review after 5 attempts: [503 Service Unavailable] The model is overloaded.")).
Proof.
  apply (generateReview_reports_last_cause (Sample.env Sample.gemini_overloaded) 4
           Sample.prData Sample.world0
           (Error_ (js "[503 Service Unavailable] The model is overloaded."))).
  - lia.
  - intros i Hi. destruct i as [|[|[|[|i]]]]; [eexists; split; reflexivity ..|lia].
  - reflexivity.
  - now right.
Defined.

Lemma generateReview_total_wait_bounded_sample :
  exists evs,
    trace (snd (Gemini.generateReview (Sample.env Sample.gemini_overloaded) Sample.prData
                  Sample.world0))
    = trace Sample.world0 ++ evs
    /\ (total_wait evs <= 34000)%Q.
Proof.
  apply generateReview_total_wait_bounded.
  intros k. split; vm_compute; [discriminate|reflexivity].
Defined.

Lemma parsed_comments_are_well_formed_sample :
  Forall well_formed_comment
    [Comment.mk (VStr (js "src/app.js")) 1%float (js "error") (VStr (js "general"))
       (VStr (js "Unused variable")) VNull].
Proof.
  apply (parsed_comments_are_well_formed Sample3.env_one_comment Sample3.one_comment_text).
  vm_compute. reflexivity.
Defined.

Lemma hasAlreadyReviewed_finds_bot_review_sample :
  fst (GitHub.hasAlreadyReviewed (Sample2.env_reviews Sample2.reviews_with_bot)
         (js "octo") (js "demo") 7 Sample.world0)
  = Ok true.
Proof.
  apply (hasAlreadyReviewed_finds_bot_review (Sample2.env_reviews Sample2.reviews_with_bot)
           (js "octo") (js "demo") 7 Sample.world0 Sample2.reviews_with_bot Sample.bot).
  - reflexivity.
  - repeat constructor; discriminate.
  - reflexivity.
Defined.

Lemma hasAlreadyReviewed_false_on_missing_author_sample :
  fst (GitHub.hasAlreadyReviewed (Sample2.env_reviews Sample2.reviews_with_ghost)
         (js "octo") (js "demo") 7 Sample.world0)
  = Ok false.
Proof.
  apply (hasAlreadyReviewed_false_on_missing_author
           (Sample2.env_reviews Sample2.reviews_with_ghost)
           (js "octo") (js "demo") 7 Sample.world0 Sample2.reviews_with_ghost).
  - reflexivity.
  - right. left. reflexivity.
Defined.

(** ** A run of the orchestrator, case by case *)

Section RunCases.

Variable E : Env.

Lemma method_run (m : Review.t -> M World Review.t) (this : Review.t) (w : World) :
  (exists this' w', m this w = (Ok this', w')) ->
  Controller.method m (Some this, w) = (Ok tt, (Some (match fst (m this w) with
                                                    | Ok this' => this'
                                                    | Throw _ => this
                                                    end), snd (m this w))).
Proof.
  intros (this' & w' & H). unfold Controller.method. cbn [fst snd]. now rewrite H.
Qed.

(** The methods of the model on a document whose comments are the
    stored ones: the document is written. *)
Lemma markInProgress_stored (this : Review.t) (w : World) :
  comments_stored this (reviews w) = true ->
  markInProgress E this w =
    (Ok (started_at (clock E (ticks w)) this),
     mkWorld (upsert (started_at (clock E (ticks w)) this) (reviews w))
       (trace w ++ [EvSave (started_at (clock E (ticks w)) this)])
       (S (ticks w)) (draws w) (botUser w) (nextId w)).
Proof.
  intros H. unfold markInProgress, bind, now.
  rewrite save_stored, write_run; [reflexivity|exact H].
Qed.

Lemma markCompleted_stored (x : option Z) (this : Review.t) (w : World) :
  comments_stored this (reviews w) = true ->
  markCompleted E x this w =
    (Ok (completed_at (clock E (ticks w)) x this),
     mkWorld (upsert (completed_at (clock E (ticks w)) x this) (reviews w))
       (trace w ++ [EvSave (completed_at (clock E (ticks w)) x this)])
       (S (ticks w)) (draws w) (botUser w) (nextId w)).
Proof.
  intros H. unfold markCompleted, bind, now.
  rewrite save_stored, write_run; [reflexivity|].
  cbn [reviews]. unfold comments_stored in *.
  destruct x as [i|]; [destruct (i =? 0)%Z|]; exact H.
Qed.

Lemma markFailed_stored (errorMessage : jsstring) (this : Review.t) (w : World) :
  comments_stored this (reviews w) = true ->
  markFailed E errorMessage this w =
    (Ok (failed_at (clock E (ticks w)) errorMessage this),
     mkWorld (upsert (failed_at (clock E (ticks w)) errorMessage this) (reviews w))
       (trace w ++ [EvSave (failed_at (clock E (ticks w)) errorMessage this)])
       (S (ticks w)) (draws w) (botUser w) (nextId w)).
Proof.
  intros H. unfold markFailed, bind, now.
  rewrite save_stored, write_run; [reflexivity|exact H].
Qed.

(** [markFailed] on a document that the store refuses: the clock is
    read, nothing is written and the error of the validation is
    thrown. *)
Lemma markFailed_refused (errorMessage : jsstring) (this : Review.t) (w : World) :
  refused E this (reviews w) = true ->
  markFailed E errorMessage this w =
    (Throw (validation_error E (failed_at (clock E (ticks w)) errorMessage this)),
     mkWorld (reviews w) (trace w) (S (ticks w)) (draws w) (botUser w) (nextId w)).
Proof.
  intros H. unfold markFailed, bind, now, save. cbn [reviews].
  assert (H' : refused E (failed_at (clock E (ticks w)) errorMessage this) (reviews w) = true)
    by (rewrite <- H; now apply refused_ext).
  unfold failed_at in H'. now rewrite H'.
Qed.

(** The [catch] block, entered while [review] holds a document. *)
Lemma catch_run (owner repo : jsstring) (pullNumber : Z) (error : JsError)
    (this : Review.t) (w : World) :
  exists this',
    Controller.processReview_catch E owner repo pullNumber error (Some this, w)
    = (fst (run_fails E owner repo pullNumber error this w),
       (Some this', snd (run_fails E owner repo pullNumber error this w))).
Proof.
  unfold Controller.processReview_catch, run_fails. cbv zeta.
  assert (Hmark : forall w1,
             exists this',
               (review <- Controller.get_review ;;
                match review with
                | Some _ => Controller.method (markFailed E (err_message error))
                | None => ret tt
                end ;;
                throw error) (Some this, w1)
               = (fst (match markFailed E (err_message error) this w1 with
                       | (Ok _, w2) => (Throw error, w2)
                       | (Throw e, w2) => (@Throw unit e, w2)
                       end),
                  (Some this',
                   snd (match markFailed E (err_message error) this w1 with
                        | (Ok _, w2) => (Throw error, w2)
                        | (Throw e, w2) => (@Throw unit e, w2)
                        end)))).
  { intros w1. unfold bind, Controller.get_review, gets, Controller.method, throw.
    cbn [fst snd].
    destruct (markFailed E (err_message error) this w1) as [[this'|e] w2];
      cbn [fst snd]; eexists; reflexivity. }
  destruct (includes (err_message error) (js "503")
            || includes (err_message error) (js "overloaded")).
  - unfold bind at 1, try_catch. rewrite world_run.
    destruct (GitHub.postFallbackComment E owner repo pullNumber w) as [[[]|e] w1];
      cbn [fst snd]; apply Hmark.
  - unfold bind at 1, ret. apply Hmark.
Qed.

(** A run that finds its record, in terms of what its calls return.
    The writes of the record in progress go through, the comments of
    the record being the stored ones; the document that carries the
    new comments is written unless the store refuses it. *)
Lemma processReviewAsync_found (owner repo : jsstring) (pullNumber : Z) (reviewId : nat)
    (w : World) (r0 : Review.t) :
  fst (findById reviewId w) = Ok (Some r0) ->
  Controller.processReviewAsync E owner repo pullNumber reviewId w =
    let r1 := started_at (clock E (ticks w)) r0 in
    let w1 := snd (markInProgress E r0 w) in
    match GitHub.hasAlreadyReviewed E owner repo pullNumber w1 with
    | (Throw e, w2) => run_fails E owner repo pullNumber e r1 w2
    | (Ok true, w2) => run_completes E None r1 w2
    | (Ok false, w2) =>
        match GitHub.getPullRequestData E owner repo pullNumber w2 with
        | (Throw e, w3) => run_fails E owner repo pullNumber e r1 w3
        | (Ok prData, w3) =>
            let r2 := Review.set_filesReviewed
                        (map Controller.to_filesReviewed (PrData.diff_files prData)) r1 in
            let w4 := snd (write r2 w3) in
            if length (PrData.diff_files prData) =? 0
            then run_completes E None r2 w4
            else
              match Gemini.generateReview E prData w4 with
              | (Throw e, w5) => run_fails E owner repo pullNumber e r2 w5
              | (Ok comments, w5) =>
                  match Gemini.generateSummaryComment E comments prData w5 with
                  | (Throw e, w6) => run_fails E owner repo pullNumber e r2 w6
                  | (Ok summaryComment, w6) =>
                      let r3 := Review.set_summaryComment (Some summaryComment)
                                  (Review.set_comments comments r2) in
                      if refused E r3 (reviews w6)
                      then run_fails E owner repo pullNumber (validation_error E r3) r3 w6
                      else
                        let w7 := snd (write r3 w6) in
                        match GitHub.postReviewComments E owner repo pullNumber comments
                                summaryComment w7 with
                        | (Throw e, w8) => run_fails E owner repo pullNumber e r3 w8
                        | (Ok githubReview, w8) =>
                            run_completes E (Some (GhReview.id githubReview)) r3 w8
                        end
                  end
              end
        end
    end.
Proof.
  intros Hfind. unfold findById, gets in Hfind. cbn [fst] in Hfind.
  injection Hfind as Hfind.
  destruct (find_by_id_some _ _ _ Hfind) as [Hid0 Hin0].
  unfold Controller.processReviewAsync, Controller.with_review, try_catch,
    Controller.processReview_try.
  assert (H0 : Controller.world (findById reviewId) (None, w) = (Ok (Some r0), (None, w))).
  { rewrite world_run. unfold findById, gets. cbn [fst snd]. now rewrite Hfind. }
  rewrite (bind_ok _ _ _ _ _ H0). clear H0.
  unfold bind at 1, Controller.set_review, modify. cbn [snd]. cbv zeta.
  set (r1 := started_at (clock E (ticks w)) r0).
  assert (Hm1 : markInProgress E r0 w =
                (Ok r1, mkWorld (upsert r1 (reviews w)) (trace w ++ [EvSave r1])
                          (S (ticks w)) (draws w) (botUser w) (nextId w))).
  { apply markInProgress_stored. now apply (comments_stored_in r0 r0). }
  rewrite Hm1. cbn [snd].
  set (w1 := mkWorld (upsert r1 (reviews w)) (trace w ++ [EvSave r1])
                     (S (ticks w)) (draws w) (botUser w) (nextId w)).
  assert (H1 : Controller.method (markInProgress E) (Some r0, w) = (Ok tt, (Some r1, w1))).
  { unfold Controller.method. cbn [fst snd]. now rewrite Hm1. }
  rewrite (bind_ok _ _ _ _ _ H1). clear H1.
  assert (Hst1 : forall this, Review._id this = Review._id r1 ->
                   Review.comments this = Review.comments r1 ->
                   comments_stored this (reviews w1) = true).
  { intros this Hi Hc. now apply comments_stored_written. }
  (* a success: markCompleted ends the run *)
  assert (Hdone : forall x this w',
             comments_stored this (reviews w') = true ->
             Controller.method (markCompleted E x) (Some this, w')
             = (Ok tt, (Some (completed_at (clock E (ticks w')) x this),
                        snd (markCompleted E x this w')))).
  { intros x this w' Hs. unfold Controller.method. cbn [fst snd].
    now rewrite (markCompleted_stored x this w' Hs). }
  destruct (quiet_hasAlreadyReviewed E owner repo pullNumber w1) as (b & w2 & Hhas & Hq2).
  rewrite Hhas.
  assert (H2 : Controller.world (GitHub.hasAlreadyReviewed E owner repo pullNumber)
                 (Some r1, w1) = (Ok b, (Some r1, w2)))
    by (rewrite world_run, Hhas; reflexivity).
  rewrite (bind_ok _ _ _ _ _ H2). clear H2.
  assert (Hst2 : forall this, Review._id this = Review._id r1 ->
                   Review.comments this = Review.comments r1 ->
                   comments_stored this (reviews w2) = true).
  { intros this Hi Hc. destruct Hq2 as (-> & _). now apply Hst1. }
  destruct b.
  { rewrite Hdone by (now apply Hst2). reflexivity. }
  pose proof (quiet_getPullRequestData E owner repo pullNumber w2) as Hq3.
  pose proof (world_run (GitHub.getPullRequestData E owner repo pullNumber) (Some r1) w2)
    as H3.
  destruct (GitHub.getPullRequestData E owner repo pullNumber w2) as [[prData|e] w3];
    cbn [fst snd] in H3, Hq3.
  2:{ rewrite (bind_throw _ _ _ _ _ H3). destruct (catch_run owner repo pullNumber e r1 w3)
        as [this' ->]. cbn [snd]. symmetry. apply surjective_pairing. }
  rewrite (bind_ok _ _ _ _ _ H3). clear H3.
  set (r2 := Review.set_filesReviewed
               (map Controller.to_filesReviewed (PrData.diff_files prData)) r1).
  assert (H4 : Controller.assign
                 (Review.set_filesReviewed
                    (map Controller.to_filesReviewed (PrData.diff_files prData)))
                 (Some r1, w3) = (Ok tt, (Some r2, w3))) by reflexivity.
  rewrite (bind_ok _ _ _ _ _ H4). clear H4.
  assert (Hs3 : comments_stored r2 (reviews w3) = true).
  { destruct Hq3 as (-> & _). now apply Hst2. }
  set (w4 := snd (write r2 w3)).
  assert (H5 : Controller.method (save E) (Some r2, w3) = (Ok tt, (Some r2, w4))).
  { unfold Controller.method. cbn [fst snd]. now rewrite (save_stored E r2 w3 Hs3). }
  rewrite (bind_ok _ _ _ _ _ H5). clear H5.
  assert (Hst4 : forall this, Review._id this = Review._id r2 ->
                   Review.comments this = Review.comments r2 ->
                   comments_stored this (reviews w4) = true).
  { intros this Hi Hc. now apply comments_stored_written. }
  destruct (length (PrData.diff_files prData) =? 0).
  { rewrite Hdone by (now apply Hst4). reflexivity. }
  pose proof (quiet_generateReview E prData w4) as Hq5.
  pose proof (world_run (Gemini.generateReview E prData) (Some r2) w4) as H6.
  destruct (Gemini.generateReview E prData w4) as [[comments|e] w5];
    cbn [fst snd] in H6, Hq5.
  2:{ rewrite (bind_throw _ _ _ _ _ H6). destruct (catch_run owner repo pullNumber e r2 w5)
        as [this' ->]. cbn [snd]. symmetry. apply surjective_pairing. }
  rewrite (bind_ok _ _ _ _ _ H6). clear H6.
  pose proof (world_run (Gemini.generateSummaryComment E comments prData) (Some r2) w5)
    as H7.
  destruct (Gemini.generateSummaryComment E comments prData w5) as [[summaryComment|e] w6];
    cbn [fst snd] in H7.
  2:{ rewrite (bind_throw _ _ _ _ _ H7). destruct (catch_run owner repo pullNumber e r2 w6)
        as [this' ->]. cbn [snd]. symmetry. apply surjective_pairing. }
  rewrite (bind_ok _ _ _ _ _ H7). clear H7.
  set (r3 := Review.set_summaryComment (Some summaryComment)
               (Review.set_comments comments r2)).
  assert (H8 : Controller.assign (Review.set_comments comments) (Some r2, w6)
               = (Ok tt, (Some (Review.set_comments comments r2), w6))) by reflexivity.
  rewrite (bind_ok _ _ _ _ _ H8). clear H8.
  assert (H9 : Controller.assign (Review.set_summaryComment (Some summaryComment))
                 (Some (Review.set_comments comments r2), w6)
               = (Ok tt, (Some r3, w6))) by reflexivity.
  rewrite (bind_ok _ _ _ _ _ H9). clear H9.
  destruct (refused E r3 (reviews w6)) eqn:Href.
  { assert (H10 : Controller.method (save E) (Some r3, w6)
                  = (Throw (validation_error E r3), (Some r3, w6))).
    { unfold Controller.method, save. cbn [fst snd]. now rewrite Href. }
    rewrite (bind_throw _ _ _ _ _ H10).
    destruct (catch_run owner repo pullNumber (validation_error E r3) r3 w6) as [this' ->].
    cbn [snd]. symmetry. apply surjective_pairing. }
  set (w7 := snd (write r3 w6)).
  assert (H10 : Controller.method (save E) (Some r3, w6) = (Ok tt, (Some r3, w7))).
  { unfold Controller.method, save. cbn [fst snd]. now rewrite Href. }
  rewrite (bind_ok _ _ _ _ _ H10). clear H10.
  pose proof (quiet_postReviewComments E owner repo pullNumber comments summaryComment w7)
    as Hq8.
  pose proof (world_run (GitHub.postReviewComments E owner repo pullNumber comments
                           summaryComment) (Some r3) w7) as H11.
  destruct (GitHub.postReviewComments E owner repo pullNumber comments summaryComment w7)
    as [[githubReview|e] w8]; cbn [fst snd] in H11, Hq8.
  2:{ rewrite (bind_throw _ _ _ _ _ H11). destruct (catch_run owner repo pullNumber e r3 w8)
        as [this' ->]. cbn [snd]. symmetry. apply surjective_pairing. }
  rewrite (bind_ok _ _ _ _ _ H11). clear H11.
  rewrite Hdone; [reflexivity|].
  destruct Hq8 as (-> & _). now apply comments_stored_written.
Qed.

End RunCases.

Section RunEffects.

Variable E : Env.

Lemma effects_refl (w : World) : effects w w [].
Proof. unfold effects. cbn. rewrite app_nil_r. auto. Qed.

Lemma effects_trans (w w1 w2 : World) (e1 e2 : list Event) :
  effects w w1 e1 -> effects w1 w2 e2 -> effects w w2 (e1 ++ e2).
Proof.
  intros (Ht1 & Hr1 & Hn1 & Hk1) (Ht2 & Hr2 & Hn2 & Hk2). unfold effects.
  rewrite Ht2, Ht1, Hr2, Hr1, saved_app, fold_left_app, <- app_assoc.
  repeat split; auto; lia.
Qed.

(** A call that writes no document and reads no clock. *)
Lemma effects_call (w w' : World) (evs : list Event) (d' : nat) (bot' : option GhUser.t) :
  w' = mkWorld (reviews w) (trace w ++ evs) (ticks w) d' bot' (nextId w) ->
  saved evs = [] ->
  effects w w' evs.
Proof.
  intros -> Hs. unfold effects. cbn. rewrite Hs. cbn. auto.
Qed.

Lemma effects_write (doc : Review.t) (w : World) :
  effects w (snd (write doc w)) [EvSave doc].
Proof. unfold effects. cbn. auto. Qed.

Lemma effects_markInProgress (this : Review.t) (w : World) :
  comments_stored this (reviews w) = true ->
  effects w (snd (markInProgress E this w)) [EvSave (started_at (clock E (ticks w)) this)].
Proof.
  intros H. rewrite (markInProgress_stored E this w H). unfold effects. cbn. auto.
Qed.

(** The effects leave in the store the last document written, and with
    it its comments. *)
Lemma effects_stored (w w' : World) (evs : list Event) (docs : list Review.t)
    (d this : Review.t) :
  effects w w' evs -> saved evs = docs ++ [d] ->
  Review._id this = Review._id d -> Review.comments this = Review.comments d ->
  comments_stored this (reviews w') = true.
Proof.
  intros (_ & Hrev & _) Hsaved Hid Hcs.
  rewrite Hrev, Hsaved, fold_left_app. cbn [fold_left].
  now apply comments_stored_written.
Qed.

Lemma hasAlreadyReviewed_effects (owner repo : jsstring) (pullNumber : Z) (w : World) :
  exists b w' evs,
    GitHub.hasAlreadyReviewed E owner repo pullNumber w = (Ok b, w')
    /\ effects w w' evs
    /\ saved evs = []
    /\ (map kind evs = [KListReviews] \/ map kind evs = [KListReviews; KGetAuthenticated]).
Proof.
  unfold GitHub.hasAlreadyReviewed, try_catch, GitHub.getBotUser.
  unfold bind, call, gets, set_botUser, modify, lift_result, ret.
  destruct (pulls_listReviews E (trace w) owner repo pullNumber) as [rs|e0];
    cbn [botUser trace reviews fst snd ticks draws nextId].
  - destruct (botUser w) as [u|] eqn:Hbot.
    + destruct (filter_r (GitHub.is_bot_review u) rs) as [l|e1];
        (eexists; eexists; exists [EvListReviews owner repo pullNumber];
         split; [reflexivity|]; split; [eapply effects_call; reflexivity|]; auto).
    + cbn [botUser trace reviews fst snd ticks draws nextId].
      destruct (users_getAuthenticated E _) as [u|e1];
        cbn [botUser trace reviews fst snd ticks draws nextId];
        [destruct (filter_r (GitHub.is_bot_review u) rs) as [l|e2]|];
        (eexists; eexists; exists [EvListReviews owner repo pullNumber; EvGetAuthenticated];
         split; [reflexivity|];
         split; [eapply effects_call; [rewrite <- app_assoc; reflexivity|reflexivity]|]; auto).
  - eexists. eexists. exists [EvListReviews owner repo pullNumber].
    split; [reflexivity|]. split; [eapply effects_call; reflexivity|]. auto.
Qed.

Lemma getPullRequestData_effects (owner repo : jsstring) (pullNumber : Z) (w : World) :
  effects w (snd (GitHub.getPullRequestData E owner repo pullNumber w))
    [EvGetPullRequestData owner repo pullNumber].
Proof.
  unfold GitHub.getPullRequestData, try_catch, call, throw.
  destruct (fetch_pull_request E (trace w) owner repo pullNumber); cbn [snd];
    (eapply effects_call; reflexivity).
Qed.

Lemma postReviewComments_effects (owner repo : jsstring) (pullNumber : Z)
    (comments : list Comment.t) (summaryComment : jsstring) (w : World) :
  effects w (snd (GitHub.postReviewComments E owner repo pullNumber comments summaryComment w))
    [EvPostReview owner repo pullNumber comments summaryComment].
Proof.
  unfold GitHub.postReviewComments, try_catch, call, throw.
  destruct (create_review E (trace w) owner repo pullNumber comments summaryComment);
    cbn [snd]; (eapply effects_call; reflexivity).
Qed.

Lemma postFallbackComment_effects (owner repo : jsstring) (pullNumber : Z) (w : World) :
  effects w (snd (GitHub.postFallbackComment E owner repo pullNumber w))
    [EvPostFallback owner repo pullNumber].
Proof.
  unfold GitHub.postFallbackComment, try_catch, call, throw.
  destruct (issues_createComment E (trace w) owner repo pullNumber); cbn [snd];
    (eapply effects_call; reflexivity).
Qed.

Lemma kinds_of_schedule (d a n : nat) :
  map kind (backoff_schedule E d a n ++ [EvGenerateContent]) = generation_kinds n.
Proof.
  revert d a. induction n as [|n IH]; intros d a; [reflexivity|].
  cbn. now rewrite IH.
Qed.

Lemma generateReview_effects (prData : PrData.t) (w : World) :
  exists evs n,
    effects w (snd (Gemini.generateReview E prData w)) evs
    /\ saved evs = []
    /\ n <= 4
    /\ map kind evs = generation_kinds n.
Proof.
  destruct (attempts_run E 4 1 None prData w eq_refl) as (n & res & d' & Hn & Hrun & _).
  unfold Gemini.generateReview. change Gemini.maxRetries with 5. rewrite Hrun.
  exists (backoff_schedule E (draws w) 1 n ++ [EvGenerateContent]), n.
  assert (Hs : saved (backoff_schedule E (draws w) 1 n ++ [EvGenerateContent]) = [])
    by now rewrite saved_app, saved_schedule.
  split; [eapply effects_call; [reflexivity|exact Hs]|].
  split; [exact Hs|]. split; [exact Hn|apply kinds_of_schedule].
Qed.

Lemma run_completes_effects (x : option Z) (this : Review.t) (w : World) :
  comments_stored this (reviews w) = true ->
  exists final,
    final = completed_at (clock E (ticks w)) x this
    /\ effects w (snd (run_completes E x this w)) [EvSave final]
    /\ Review.status final = completed
    /\ identity final = identity this
    /\ Review.errorMessage final = Review.errorMessage this
    /\ Review.comments final = Review.comments this
    /\ Review.reviewCompletedAt final = Some (clock E (ticks w)).
Proof.
  intros Hs. unfold run_completes. rewrite (markCompleted_stored E x this w Hs). cbn [snd].
  eexists. split; [reflexivity|].
  split; [unfold effects; cbn; split; [reflexivity|]; auto|].
  unfold completed_at. destruct x as [i|]; [destruct (i =? 0)%Z|]; cbn; auto.
Qed.

Lemma notice_effects (owner repo : jsstring) (pullNumber : Z) (error : JsError) (w : World) :
  effects w
    (if includes (err_message error) (js "503")
        || includes (err_message error) (js "overloaded")
     then snd (GitHub.postFallbackComment E owner repo pullNumber w)
     else w)
    (notice owner repo pullNumber error)
  /\ saved (notice owner repo pullNumber error) = [].
Proof.
  unfold notice. destruct (_ || _).
  - split; [apply postFallbackComment_effects|reflexivity].
  - split; [apply effects_refl|reflexivity].
Qed.

Lemma effects_reviews (w w' : World) (evs : list Event) :
  effects w w' evs -> saved evs = [] -> reviews w' = reviews w.
Proof. intros (_ & Hrev & _) Hs. now rewrite Hrev, Hs. Qed.

(** The [catch] block on a document whose comments are the stored ones:
    the record is written in status failed. *)
Lemma run_fails_effects (owner repo : jsstring) (pullNumber : Z) (error : JsError)
    (this : Review.t) (w : World) :
  comments_stored this (reviews w) = true ->
  exists fb final,
    effects w (snd (run_fails E owner repo pullNumber error this w)) (fb ++ [EvSave final])
    /\ fst (run_fails E owner repo pullNumber error this w) = Throw error
    /\ fb = notice owner repo pullNumber error
    /\ Review.status final = failed
    /\ identity final = identity this
    /\ Review.errorMessage final = Some (err_message error).
Proof.
  intros Hs. unfold run_fails. cbv zeta.
  destruct (notice_effects owner repo pullNumber error w) as [Hn Hsn].
  set (w1 := if includes (err_message error) (js "503")
                || includes (err_message error) (js "overloaded")
             then snd (GitHub.postFallbackComment E owner repo pullNumber w)
             else w) in *.
  assert (Hs1 : comments_stored this (reviews w1) = true)
    by (rewrite (effects_reviews _ _ _ Hn Hsn); exact Hs).
  rewrite (markFailed_stored E (err_message error) this w1 Hs1). cbn [fst snd].
  eexists. eexists. split.
  - eapply effects_trans; [exact Hn|]. unfold effects. cbn. split; [reflexivity|]. auto.
  - cbn. auto.
Qed.

(** The [catch] block on a document that the store refuses: nothing is
    written, and the error of the validation of the document marked
    failed is thrown. *)
Lemma run_fails_refused (owner repo : jsstring) (pullNumber : Z) (error : JsError)
    (this : Review.t) (w : World) :
  refused E this (reviews w) = true ->
  exists fb doc,
    effects w (snd (run_fails E owner repo pullNumber error this w)) fb
    /\ fst (run_fails E owner repo pullNumber error this w) = Throw (validation_error E doc)
    /\ fb = notice owner repo pullNumber error
    /\ Review.status doc = failed
    /\ identity doc = identity this
    /\ Review.comments doc = Review.comments this.
Proof.
  intros Href. unfold run_fails. cbv zeta.
  destruct (notice_effects owner repo pullNumber error w) as [Hn Hsn].
  set (w1 := if includes (err_message error) (js "503")
                || includes (err_message error) (js "overloaded")
             then snd (GitHub.postFallbackComment E owner repo pullNumber w)
             else w) in *.
  assert (Href1 : refused E this (reviews w1) = true)
    by (rewrite (effects_reviews _ _ _ Hn Hsn); exact Href).
  rewrite (markFailed_refused E (err_message error) this w1 Href1). cbn [fst snd].
  exists (notice owner repo pullNumber error). eexists. split.
  - rewrite <- (app_nil_r (notice owner repo pullNumber error)).
    eapply effects_trans; [exact Hn|]. unfold effects. cbn. rewrite app_nil_r. auto.
  - cbn. auto.
Qed.

End RunEffects.

Section RunOutcome.

Variable E : Env.

Lemma count_kind_app (k : Kind) (a b : list Kind) :
  count_kind k (a ++ b) = count_kind k a + count_kind k b.
Proof. unfold count_kind. now rewrite filter_app, length_app. Qed.

Lemma count_generation_kinds (n : nat) :
  count_kind KGenerate (generation_kinds n) = S n
  /\ count_kind KFallback (generation_kinds n) = 0
  /\ count_kind KPost (generation_kinds n) = 0
  /\ count_kind KFetch (generation_kinds n) = 0.
Proof.
  induction n as [|n (Hg & Hf & Hp & Hx)]; [repeat split|].
  unfold count_kind in *. cbn. rewrite Hg, Hf, Hp, Hx. auto.
Qed.

(** A record that was found is stored with the comments it has. *)
Lemma found_stored (reviewId : nat) (w : World) (r0 : Review.t) :
  fst (findById reviewId w) = Ok (Some r0) -> comments_stored r0 (reviews w) = true.
Proof.
  intros Hfind. unfold findById, gets in Hfind. cbn [fst] in Hfind. injection Hfind as Hfind.
  destruct (find_by_id_some _ _ _ Hfind) as [_ Hin]. now apply (comments_stored_in r0 r0).
Qed.

(** What a run that found its record does: its effects have one of the
    shapes of [run_shape]; every document it writes is the record with
    its identity and retry counter unchanged.  When the run returns,
    the last document written is completed.  When it throws, either the
    last document written is failed with the message of the error
    thrown, the fallback notice having been attempted exactly when that
    message mentions 503 or an overload; or the store has refused the
    comments of the run, the last document written is in progress and
    the error is that of the validation of the record marked failed. *)
Lemma run_effects (owner repo : jsstring) (pullNumber : Z) (reviewId : nat)
    (w : World) (r0 : Review.t) :
  fst (findById reviewId w) = Ok (Some r0) ->
  exists evs docs final,
    effects w (snd (Controller.processReviewAsync E owner repo pullNumber reviewId w)) evs
    /\ run_shape (map kind evs)
    /\ saved evs = docs ++ [final]
    /\ Forall (fun d => identity d = identity r0) (saved evs)
    /\ match fst (Controller.processReviewAsync E owner repo pullNumber reviewId w) with
       | Ok _ => Review.status final = completed
       | Throw e =>
           (Review.status final = failed
            /\ Review.errorMessage final = Some (err_message e)
            /\ count_kind KFallback (map kind evs)
               = (if includes (err_message e) (js "503")
                     || includes (err_message e) (js "overloaded")
                  then 1 else 0))
           \/ (Review.status final = in_progress
               /\ Review.errorMessage final = Review.errorMessage r0
               /\ Review.comments final = Review.comments r0
               /\ exists doc,
                    e = validation_error E doc
                    /\ Review.status doc = failed
                    /\ identity doc = identity r0
                    /\ comments_valid E (Review.comments doc) = false)
       end.
Proof.
  intros Hfind. rewrite (processReviewAsync_found E owner repo pullNumber reviewId w r0 Hfind).
  cbv zeta.
  pose proof (found_stored reviewId w r0 Hfind) as Hin0.
  set (r1 := started_at (clock E (ticks w)) r0).
  pose proof (effects_markInProgress E r0 w Hin0) as He1. fold r1 in He1.
  set (w1 := snd (markInProgress E r0 w)) in *.
  assert (Hid1 : identity r1 = identity r0) by reflexivity.
  destruct (hasAlreadyReviewed_effects E owner repo pullNumber w1)
    as (b & w2 & e2 & Hhas & He2 & Hs2 & Hk2).
  rewrite Hhas.
  pose proof (effects_trans _ _ _ _ _ He1 He2) as He12. clear He1 He2.
  assert (Hdup : count_kind KFallback (map kind e2) = 0)
    by (destruct Hk2 as [-> | ->]; reflexivity).
  (* how a run ends *)
  assert (Hcomplete : forall x this d w' evs docs,
             effects w w' evs ->
             saved evs = docs ++ [d] ->
             Forall (fun d => identity d = identity r0) (docs ++ [d]) ->
             identity this = identity r0 ->
             Review.comments this = Review.comments d ->
             exists final,
               effects w (snd (run_completes E x this w')) (evs ++ [EvSave final])
               /\ map kind (evs ++ [EvSave final]) = map kind evs ++ [KSave completed]
               /\ saved (evs ++ [EvSave final]) = (docs ++ [d]) ++ [final]
               /\ Forall (fun d => identity d = identity r0) (saved (evs ++ [EvSave final]))
               /\ Review.status final = completed).
  { intros x this d w' evs docs Hev Hsaved Hall Hthis Hcs.
    assert (Hidd : identity d = identity r0).
    { apply Forall_app in Hall as [_ Hd]. now inversion Hd. }
    assert (Hs : comments_stored this (reviews w') = true).
    { apply (effects_stored w w' evs docs d this Hev Hsaved); [|exact Hcs].
      unfold identity in *. congruence. }
    destruct (run_completes_effects E x this w' Hs) as (final & _ & Hef & Hst & Hidf & _).
    exists final. split; [exact (effects_trans _ _ _ _ _ Hev Hef)|].
    rewrite map_app, saved_app, Hsaved. cbn [map kind saved flat_map app]. rewrite Hst.
    repeat split; auto. apply Forall_app. split; [exact Hall|].
    constructor; [congruence|constructor]. }
  assert (Hfail : forall e this d w' evs docs,
             effects w w' evs ->
             saved evs = docs ++ [d] ->
             Forall (fun d => identity d = identity r0) (docs ++ [d]) ->
             identity this = identity r0 ->
             Review.comments this = Review.comments d ->
             count_kind KFallback (map kind evs) = 0 ->
             exists fb final,
               effects w (snd (run_fails E owner repo pullNumber e this w'))
                 (evs ++ fb ++ [EvSave final])
               /\ fst (run_fails E owner repo pullNumber e this w') = Throw e
               /\ (map kind fb = [] \/ map kind fb = [KFallback])
               /\ map kind (evs ++ fb ++ [EvSave final])
                  = map kind evs ++ map kind fb ++ [KSave failed]
               /\ saved (evs ++ fb ++ [EvSave final]) = (docs ++ [d]) ++ [final]
               /\ Forall (fun d => identity d = identity r0)
                    (saved (evs ++ fb ++ [EvSave final]))
               /\ Review.status final = failed
               /\ Review.errorMessage final = Some (err_message e)
               /\ count_kind KFallback (map kind (evs ++ fb ++ [EvSave final]))
                  = (if includes (err_message e) (js "503")
                        || includes (err_message e) (js "overloaded")
                     then 1 else 0)).
  { intros e this d w' evs docs Hev Hsaved Hall Hthis Hcs Hnofb.
    assert (Hs : comments_stored this (reviews w') = true).
    { apply (effects_stored w w' evs docs d this Hev Hsaved); [|exact Hcs].
      apply Forall_app in Hall as [_ Hd]. inversion Hd. unfold identity in *. congruence. }
    destruct (run_fails_effects E owner repo pullNumber e this w' Hs)
      as (fb & final & Hef & Hres & Hfb & Hst & Hidf & Hmsg).
    exists fb, final. split; [exact (effects_trans _ _ _ _ _ Hev Hef)|].
    split; [exact Hres|].
    assert (Hsfb : saved fb = []) by (rewrite Hfb; unfold notice; destruct (_ || _); reflexivity).
    rewrite !map_app, !saved_app, Hsaved, Hsfb, !count_kind_app, Hnofb.
    cbn [map kind saved flat_map app]. rewrite Hst.
    split; [rewrite Hfb; unfold notice; destruct (_ || _); auto|].
    repeat split; auto.
    - apply Forall_app. split; [exact Hall|]. constructor; [congruence|constructor].
    - rewrite Hfb. unfold notice. destruct (_ || _); reflexivity. }
  assert (Hs12 : saved ([EvSave r1] ++ e2) = [] ++ [r1])
    by (rewrite saved_app, Hs2; reflexivity).
  assert (Hall1 : Forall (fun d => identity d = identity r0) ([] ++ [r1]))
    by (constructor; [exact Hid1|constructor]).
  assert (Hk12 : map kind ([EvSave r1] ++ e2) = KSave in_progress :: map kind e2)
    by reflexivity.
  assert (Hf12 : count_kind KFallback (map kind ([EvSave r1] ++ e2)) = 0)
    by (rewrite Hk12; unfold count_kind in *; cbn; exact Hdup).
  destruct b.
  { (* the bot has reviewed already *)
    destruct (Hcomplete None r1 r1 w2 _ _ He12 Hs12 Hall1 Hid1 eq_refl)
      as (final & Hev & Hk & Hs & Hall & Hst).
    eexists. exists [r1], final. split; [exact Hev|]. rewrite Hk, Hk12.
    split; [|unfold run_completes; cbn [fst]; repeat split; auto].
    exists (map kind e2), [], (generation_kinds 0).
    split; [exact Hk2|]. split; [now left|]. split; [exists 0; split; [lia|reflexivity]|].
    cbv zeta. left. reflexivity. }
  (* the fetch *)
  pose proof (getPullRequestData_effects E owner repo pullNumber w2) as He3.
  destruct (GitHub.getPullRequestData E owner repo pullNumber w2) as [[prData|e] w3];
    cbn [snd] in He3.
  2:{ destruct (Hfail e r1 r1 w3 _ [] (effects_trans _ _ _ _ _ He12 He3))
        as (fb & final & Hev & Hres & Hfb & Hk & Hs & Hall & Hst & Hmsg & Hcount).
      - now rewrite saved_app, Hs12.
      - exact Hall1.
      - exact Hid1.
      - reflexivity.
      - rewrite map_app, count_kind_app, Hf12. reflexivity.
      - eexists. exists [r1], final. split; [exact Hev|]. rewrite Hres.
        split; [|split; [exact Hs|split; [exact Hall|left; auto]]].
        rewrite Hk, map_app, Hk12.
        exists (map kind e2), (map kind fb), (generation_kinds 0).
        split; [exact Hk2|]. split; [exact Hfb|].
        split; [exists 0; split; [lia|reflexivity]|].
        cbv zeta. right. left. cbn [map kind app]; repeat (rewrite <- app_assoc; cbn [app]); reflexivity. }
  set (r2 := Review.set_filesReviewed
               (map Controller.to_filesReviewed (PrData.diff_files prData)) r1).
  assert (Hid2 : identity r2 = identity r0) by reflexivity.
  pose proof (effects_write r2 w3) as He4.
  set (w4 := snd (write r2 w3)) in *.
  pose proof (effects_trans _ _ _ _ _ (effects_trans _ _ _ _ _ He12 He3) He4) as He14.
  clear He12 He3 He4.
  set (ev14 := (([EvSave r1] ++ e2) ++ [EvGetPullRequestData owner repo pullNumber])
               ++ [EvSave r2]) in *.
  assert (Hs14 : saved ev14 = [r1] ++ [r2])
    by (unfold ev14; rewrite !saved_app, Hs2; reflexivity).
  assert (Hall2 : Forall (fun d => identity d = identity r0) ([r1] ++ [r2]))
    by (repeat constructor; assumption).
  assert (Hk14 : map kind ev14
                 = KSave in_progress :: map kind e2 ++ [KFetch; KSave in_progress]).
  { unfold ev14. rewrite !map_app, <- !app_assoc. reflexivity. }
  assert (Hf14 : count_kind KFallback (map kind ev14) = 0).
  { rewrite Hk14. change (KSave in_progress :: map kind e2 ++ [KFetch; KSave in_progress])
      with ([KSave in_progress] ++ map kind e2 ++ [KFetch; KSave in_progress]).
    rewrite !count_kind_app, Hdup. reflexivity. }
  destruct (length (PrData.diff_files prData) =? 0).
  { (* nothing to review *)
    destruct (Hcomplete None r2 r2 w4 _ _ He14 Hs14 Hall2 Hid2 eq_refl)
      as (final & Hev & Hk & Hs & Hall & Hst).
    eexists. exists [r1; r2], final. split; [exact Hev|]. rewrite Hk, Hk14.
    split; [|unfold run_completes; cbn [fst]; repeat split; auto].
    exists (map kind e2), [], (generation_kinds 0).
    split; [exact Hk2|]. split; [now left|]. split; [exists 0; split; [lia|reflexivity]|].
    cbv zeta. right. right. left. cbn [app]; repeat (rewrite <- app_assoc; cbn [app]); reflexivity. }
  (* the generation *)
  destruct (generateReview_effects E prData w4) as (e5 & n & He5 & Hs5 & Hn & Hk5).
  destruct (count_generation_kinds n) as (_ & Hgf & _).
  destruct (Gemini.generateReview E prData w4) as [[comments|e] w5]; cbn [snd] in He5.
  2:{ destruct (Hfail e r2 r2 w5 _ [r1] (effects_trans _ _ _ _ _ He14 He5))
        as (fb & final & Hev & Hres & Hfb & Hk & Hs & Hall & Hst & Hmsg & Hcount).
      - now rewrite saved_app, Hs14, Hs5, app_nil_r.
      - exact Hall2.
      - exact Hid2.
      - reflexivity.
      - rewrite map_app, count_kind_app, Hf14, Hk5, Hgf. reflexivity.
      - eexists. exists [r1; r2], final. split; [exact Hev|]. rewrite Hres.
        split; [|split; [exact Hs|split; [exact Hall|left; auto]]].
        rewrite Hk, map_app, Hk14, Hk5.
        exists (map kind e2), (map kind fb), (generation_kinds n).
        split; [exact Hk2|]. split; [exact Hfb|].
        split; [exists n; split; [exact Hn|reflexivity]|].
        cbv zeta. right. right. right. left. cbn [app]; repeat (rewrite <- app_assoc; cbn [app]); reflexivity. }
  destruct (quiet_generateSummaryComment E comments prData w5) as (summaryComment & Hsum).
  rewrite Hsum.
  set (r3 := Review.set_summaryComment (Some summaryComment)
               (Review.set_comments comments r2)).
  assert (Hid3 : identity r3 = identity r0) by reflexivity.
  pose proof (effects_trans _ _ _ _ _ He14 He5) as He15.
  assert (Hs15 : saved (ev14 ++ e5) = [r1] ++ [r2])
    by (now rewrite saved_app, Hs14, Hs5, app_nil_r).
  assert (Hk15 : map kind (ev14 ++ e5)
                 = KSave in_progress :: map kind e2 ++ [KFetch; KSave in_progress]
                   ++ generation_kinds n).
  { rewrite map_app, Hk14, Hk5. cbn [app]; repeat (rewrite <- app_assoc; cbn [app]); reflexivity. }
  destruct (refused E r3 (reviews w5)) eqn:Href.
  { (* the store refuses the comments *)
    destruct (run_fails_refused E owner repo pullNumber (validation_error E r3) r3 w5 Href)
      as (fb & doc & Hef & Hres & Hfb & Hdst & Hdid & Hdcs).
    assert (Hsfb : saved fb = []) by (rewrite Hfb; unfold notice; destruct (_ || _); reflexivity).
    assert (Hkfb : map kind fb = [] \/ map kind fb = [KFallback])
      by (rewrite Hfb; unfold notice; destruct (_ || _); auto).
    exists ((ev14 ++ e5) ++ fb), [r1], r2.
    split; [exact (effects_trans _ _ _ _ _ He15 Hef)|].
    rewrite Hres. rewrite saved_app, Hs15, Hsfb, app_nil_r.
    split; [|split; [reflexivity|split; [exact Hall2|]]].
    - rewrite map_app, Hk15.
      exists (map kind e2), (map kind fb), (generation_kinds n).
      split; [exact Hk2|]. split; [exact Hkfb|].
      split; [exists n; split; [exact Hn|reflexivity]|].
      cbv zeta. do 6 right.
      cbn [app]; repeat (rewrite <- app_assoc; cbn [app]); reflexivity.
    - right. split; [reflexivity|]. split; [reflexivity|]. split; [reflexivity|].
      exists doc. split; [reflexivity|]. split; [exact Hdst|].
      split; [congruence|].
      rewrite Hdcs. unfold refused in Href.
      assert (His : is_stored r2 (reviews w5) = true).
      { apply comments_stored_is_stored.
        apply (effects_stored w w5 (ev14 ++ e5) [r1] r2 r2 He15 Hs15); reflexivity. }
      change (is_stored r3 (reviews w5)) with (is_stored r2 (reviews w5)) in Href.
      rewrite His in Href.
      cbn [negb andb orb] in Href. apply andb_prop in Href as [_ Hv].
      now destruct (comments_valid E (Review.comments r3)). }
  pose proof (effects_write r3 w5) as He7.
  set (w7 := snd (write r3 w5)) in *.
  pose proof (postReviewComments_effects E owner repo pullNumber comments summaryComment w7)
    as He8.
  pose proof (effects_trans _ _ _ _ _ (effects_trans _ _ _ _ _ He15 He7) He8)
    as He18.
  clear He14 He5 He7 He8 He15.
  set (ev18 := ((ev14 ++ e5) ++ [EvSave r3])
               ++ [EvPostReview owner repo pullNumber comments summaryComment]) in *.
  assert (Hs18 : saved ev18 = [r1; r2] ++ [r3])
    by (unfold ev18; rewrite !saved_app, Hs14, Hs5; reflexivity).
  assert (Hall3 : Forall (fun d => identity d = identity r0) ([r1; r2] ++ [r3]))
    by (repeat constructor; assumption).
  assert (Hk18 : map kind ev18
                 = KSave in_progress :: map kind e2 ++ [KFetch; KSave in_progress]
                   ++ generation_kinds n ++ [KSave in_progress; KPost]).
  { unfold ev18. rewrite !map_app, Hk14, Hk5. cbn [map kind app]; repeat (rewrite <- app_assoc; cbn [app]); reflexivity. }
  assert (Hf18 : count_kind KFallback (map kind ev18) = 0).
  { rewrite Hk18.
    change (KSave in_progress :: map kind e2 ++ [KFetch; KSave in_progress]
            ++ generation_kinds n ++ [KSave in_progress; KPost])
      with ([KSave in_progress] ++ map kind e2 ++ [KFetch; KSave in_progress]
            ++ generation_kinds n ++ [KSave in_progress; KPost]).
    rewrite !count_kind_app, Hdup, Hgf. reflexivity. }
  destruct (GitHub.postReviewComments E owner repo pullNumber comments summaryComment w7)
    as [[githubReview|e] w8]; cbn [snd] in He18.
  - destruct (Hcomplete (Some (GhReview.id githubReview)) r3 r3 w8 _ _ He18 Hs18 Hall3 Hid3
                eq_refl)
      as (final & Hev & Hk & Hs & Hall & Hst).
    eexists. exists [r1; r2; r3], final. split; [exact Hev|]. rewrite Hk, Hk18.
    split; [|unfold run_completes; cbn [fst]; repeat split; auto].
    exists (map kind e2), [], (generation_kinds n).
    split; [exact Hk2|]. split; [now left|].
    split; [exists n; split; [exact Hn|reflexivity]|].
    cbv zeta. do 5 right. left. cbn [app]; repeat (rewrite <- app_assoc; cbn [app]); reflexivity.
  - destruct (Hfail e r3 r3 w8 _ [r1; r2] He18 Hs18 Hall3 Hid3 eq_refl Hf18)
      as (fb & final & Hev & Hres & Hfb & Hk & Hs & Hall & Hst & Hmsg & Hcount).
    eexists. exists [r1; r2; r3], final. split; [exact Hev|]. rewrite Hres.
    split; [|split; [exact Hs|split; [exact Hall|left; auto]]].
    rewrite Hk, Hk18.
    exists (map kind e2), (map kind fb), (generation_kinds n).
    split; [exact Hk2|]. split; [exact Hfb|].
    split; [exists n; split; [exact Hn|reflexivity]|].
    cbv zeta. do 4 right. left. cbn [app]; repeat (rewrite <- app_assoc; cbn [app]); reflexivity.
Qed.

Lemma count_generation_other (k : Kind) (n : nat) :
  k <> KGenerate -> k <> KSleep -> count_kind k (generation_kinds n) = 0.
Proof.
  intros Hg Hs. unfold count_kind.
  induction n as [|n IH]; destruct k; try congruence; cbn; auto.
Qed.

(** What the shapes of a run say about the number of calls. *)
Lemma run_shape_counts (ks : list Kind) :
  run_shape ks ->
  count_kind KFetch ks <= 1
  /\ count_kind KGenerate ks <= 5
  /\ count_kind KPost ks <= 1
  /\ count_kind KFallback ks <= 1
  /\ count_kind KStart ks = 0
  /\ (count_kind KPost ks = 1 ->
      count_kind KFetch ks = 1 /\ 1 <= count_kind KGenerate ks).
Proof.
  intros (dup & fb & gen & Hdup & Hfb & (n & Hn & ->) & H). cbv zeta in H.
  destruct (count_generation_kinds n) as (Hgg & Hgf & Hgp & Hgx).
  assert (Hgs : count_kind KStart (generation_kinds n) = 0)
    by (apply count_generation_other; discriminate).
  destruct Hdup as [-> | ->]; destruct Hfb as [-> | ->];
    destruct H as [-> | [-> | [-> | [-> | [-> | [-> | ->]]]]]];
    rewrite ?count_kind_app, ?Hgg, ?Hgf, ?Hgp, ?Hgx, ?Hgs;
    unfold count_kind; cbn [filter Kind_eqb Status_eqb length app];
    repeat split; try lia.
Qed.

(** X7. The effects of a run that found its record come in one of the
    orders of [run_shape]: the record is written in progress before any
    call leaves the process, the reviews are listed, and the run ends
    with the write of the terminal status, after which nothing
    happens, unless the store refuses the comments of the run, in which
    case the run ends after the model was called, with at most a
    fallback notice and without a further write; the pull request is
    fetched before the model is called, the comments are saved before
    they are posted, and a fallback notice comes only after a failed
    call or a refused write. *)
Theorem run_trace_shape (owner repo : jsstring) (pullNumber : Z) (reviewId : nat)
    (w : World) (r0 : Review.t) :
  fst (findById reviewId w) = Ok (Some r0) ->
  exists evs,
    trace (snd (Controller.processReviewAsync E owner repo pullNumber reviewId w))
    = trace w ++ evs
    /\ run_shape (map kind evs).
Proof.
  intros Hfind.
  destruct (run_effects owner repo pullNumber reviewId w r0 Hfind)
    as (evs & docs & final & (Htr & _) & Hshape & _).
  exists evs. split; assumption.
Qed.

(** X8. A run that found its record calls [getPullRequestData] at
    most once, the model at most five times, [postReviewComments] at
    most once and [postFallbackComment] at most once, and starts no
    other run; [postReviewComments] is called only after
    [getPullRequestData] and the model were.  The calls counted are
    those of the methods of the services: the requests that one call of
    [getPullRequestData] or of [postReviewComments] sends to GitHub,
    among them the second read of the pull request inside
    [postReviewComments], are not counted. *)
Theorem run_calls_bounded (owner repo : jsstring) (pullNumber : Z) (reviewId : nat)
    (w : World) (r0 : Review.t) :
  fst (findById reviewId w) = Ok (Some r0) ->
  exists evs,
    trace (snd (Controller.processReviewAsync E owner repo pullNumber reviewId w))
    = trace w ++ evs
    /\ count_kind KFetch (map kind evs) <= 1
    /\ count_kind KGenerate (map kind evs) <= 5
    /\ count_kind KPost (map kind evs) <= 1
    /\ count_kind KFallback (map kind evs) <= 1
    /\ count_kind KStart (map kind evs) = 0
    /\ (count_kind KPost (map kind evs) = 1 ->
        count_kind KFetch (map kind evs) = 1 /\ 1 <= count_kind KGenerate (map kind evs)).
Proof.
  intros Hfind.
  destruct (run_effects owner repo pullNumber reviewId w r0 Hfind)
    as (evs & docs & final & (Htr & _) & Hshape & _).
  exists evs. split; [exact Htr|]. now apply run_shape_counts.
Qed.

(** *** The store *)

Lemma NoDup_map_eq {A B : Type} (f : A -> B) (l : list A) (x y : A) :
  NoDup (map f l) -> In x l -> In y l -> f x = f y -> x = y.
Proof.
  induction l as [|a l IH]; cbn; intros Hnd Hx Hy Hf; [contradiction|].
  inversion Hnd as [|? ? Hnotin Hnd']; subst.
  destruct Hx as [->|Hx], Hy as [->|Hy]; auto.
  - exfalso. apply Hnotin. rewrite Hf. now apply in_map.
  - exfalso. apply Hnotin. rewrite <- Hf. now apply in_map.
Qed.

(** Saving a document over the documents of its id that have its
    identity changes the identity of no document. *)
Lemma map_identity_upsert (l : list Review.t) (d : Review.t) :
  (forall r, In r l -> Review._id r = Review._id d -> identity r = identity d) ->
  (exists r, In r l /\ Review._id r = Review._id d) ->
  map identity (upsert d l) = map identity l.
Proof.
  intros Hsame (r & Hin & Hid). unfold upsert.
  assert (Hex : existsb (fun x => Review._id x =? Review._id d) l = true).
  { apply existsb_exists. exists r. split; [exact Hin|]. now apply Nat.eqb_eq. }
  rewrite Hex. clear r Hin Hid Hex.
  induction l as [|x l IH]; [reflexivity|]. cbn [map].
  rewrite IH by (intros r Hr; apply Hsame; now right). f_equal.
  destruct (Review._id x =? Review._id d) eqn:Hx; [|reflexivity].
  symmetry. apply Hsame; [now left|]. now apply Nat.eqb_eq.
Qed.

Lemma in_upsert_same (l : list Review.t) (d r : Review.t) :
  In r l -> Review._id r = Review._id d -> In d (upsert d l).
Proof.
  intros Hin Hid. destruct (find_some_first_by_id l r Hin) as [r1 Hr1].
  rewrite Hid in Hr1. apply find_upsert_same in Hr1. apply find_some in Hr1. tauto.
Qed.

Lemma fold_upsert_identity (r0 : Review.t) (docs : list Review.t) :
  forall l : list Review.t,
    (forall r, In r l -> Review._id r = Review._id r0 -> identity r = identity r0) ->
    (exists r, In r l /\ Review._id r = Review._id r0) ->
    Forall (fun d => identity d = identity r0) docs ->
    map identity (fold_left (fun l d => upsert d l) docs l) = map identity l.
Proof.
  induction docs as [|d docs IH]; intros l Hsame Hex Hall; [reflexivity|].
  inversion Hall as [|? ? Hd Hall']; subst. cbn [fold_left].
  assert (Hidd : Review._id d = Review._id r0) by (unfold identity in Hd; congruence).
  rewrite IH; [| | |exact Hall'].
  - apply map_identity_upsert.
    + intros r Hr Hid. rewrite Hd. apply Hsame; [exact Hr|congruence].
    + destruct Hex as (r & Hr & Hid). exists r. split; [exact Hr|congruence].
  - intros r Hr Hid. apply in_upsert in Hr as [->|Hr]; [exact Hd|]. now apply Hsame.
  - destruct Hex as (r & Hr & Hid). exists d. split; [|exact Hidd].
    apply (in_upsert_same l d r Hr). congruence.
Qed.

(** The store invariant is a property of the identities and of the
    next id. *)
Lemma unique_records_identity (w w' : World) :
  map identity (reviews w') = map identity (reviews w) ->
  nextId w' = nextId w ->
  unique_records w -> unique_records w'.
Proof.
  intros Hmap Hnext (Hids & Hkeys & Hlt). unfold unique_records.
  assert (Hi : forall l, map Review._id l
                         = map (fun i => fst (fst (fst (fst (fst (fst i)))))) (map identity l))
    by (intros l; rewrite map_map; reflexivity).
  assert (Hk : forall l, map key l
                         = map (fun i : nat * Z * jsstring * jsstring * jsstring * PrInfo.t * N =>
                                  let '(_, n, _, o, r, _, _) := i in (o, r, n))
                               (map identity l))
    by (intros l; rewrite map_map; reflexivity).
  rewrite (Hi (reviews w')), (Hk (reviews w')), Hmap, <- Hi, <- Hk, Hnext.
  split; [exact Hids|]. split; [exact Hkeys|].
  apply Forall_forall. intros r Hr.
  assert (Hin : In (Review._id r) (map Review._id (reviews w'))) by now apply in_map.
  rewrite (Hi (reviews w')), Hmap, <- Hi in Hin.
  apply in_map_iff in Hin as (r' & Hid & Hr'). rewrite <- Hid.
  rewrite Forall_forall in Hlt. now apply Hlt.
Qed.

Lemma processReviewAsync_missing (owner repo : jsstring) (pullNumber : Z)
    (reviewId : nat) (w : World) :
  fst (findById reviewId w) = Ok None ->
  snd (Controller.processReviewAsync E owner repo pullNumber reviewId w) = w.
Proof.
  intros Hfind. unfold findById, gets in Hfind. cbn [fst] in Hfind.
  injection Hfind as Hfind.
  unfold Controller.processReviewAsync, Controller.with_review, try_catch,
    Controller.processReview_try.
  unfold bind at 1. unfold Controller.world, findById, gets. cbn [snd fst].
  rewrite Hfind. reflexivity.
Qed.

(** The identities of the records after a run. *)
Lemma run_identities (owner repo : jsstring) (pullNumber : Z) (reviewId : nat)
    (w : World) :
  unique_records w ->
  map identity (reviews (snd (Controller.processReviewAsync E owner repo pullNumber reviewId w)))
  = map identity (reviews w)
  /\ nextId (snd (Controller.processReviewAsync E owner repo pullNumber reviewId w)) = nextId w.
Proof.
  intros Huniq.
  destruct (find (fun r => Review._id r =? reviewId) (reviews w)) as [r0|] eqn:Hfind.
  - assert (Hfind' : fst (findById reviewId w) = Ok (Some r0))
      by (unfold findById, gets; cbn [fst]; now rewrite Hfind).
    destruct (run_effects owner repo pullNumber reviewId w r0 Hfind')
      as (evs & docs & final & (_ & Hrev & Hnext & _) & _ & _ & Hall & _).
    split; [|exact Hnext]. rewrite Hrev.
    apply find_by_id_some in Hfind as [Hid Hin].
    apply (fold_upsert_identity r0); [| |exact Hall].
    + intros r Hr Hidr. f_equal.
      apply (NoDup_map_eq Review._id (reviews w)); [apply Huniq|exact Hr|exact Hin|exact Hidr].
    + exists r0. now split.
  - rewrite processReviewAsync_missing; [now split|].
    unfold findById, gets. cbn [fst]. now rewrite Hfind.
Qed.

(** X9. A run keeps the collection of records as it is but for the
    content of its own record: on a store in which ids and keys are
    unique, the records after the run are the same in number and order,
    each with its id, pull request, repository, pull-request info and
    retry counter unchanged, no id is handed out, and ids and keys are
    still unique. *)
Theorem run_preserves_records (owner repo : jsstring) (pullNumber : Z) (reviewId : nat)
    (w : World) :
  unique_records w ->
  map identity (reviews (snd (Controller.processReviewAsync E owner repo pullNumber reviewId w)))
  = map identity (reviews w)
  /\ nextId (snd (Controller.processReviewAsync E owner repo pullNumber reviewId w)) = nextId w
  /\ unique_records (snd (Controller.processReviewAsync E owner repo pullNumber reviewId w)).
Proof.
  intros Huniq.
  destruct (run_identities owner repo pullNumber reviewId w Huniq) as [Hmap Hnext].
  split; [exact Hmap|]. split; [exact Hnext|].
  now apply (unique_records_identity w).
Qed.

Lemma find_fold_upsert (i : nat) (docs : list Review.t) :
  forall l : list Review.t,
    (exists r, find (fun x => Review._id x =? i) l = Some r) ->
    Forall (fun d => Review._id d = i) docs ->
    exists r, find (fun x => Review._id x =? i) (fold_left (fun l d => upsert d l) docs l)
              = Some r.
Proof.
  induction docs as [|d docs IH]; intros l Hex Hall; [exact Hex|].
  inversion Hall as [|? ? Hd Hall']; subst. cbn [fold_left].
  apply IH; [|exact Hall']. exists d. destruct Hex as [r Hr].
  now apply (find_upsert_same l d r).
Qed.

(** The record of a run, as stored when the run is over, is the last
    document that the run wrote. *)
Lemma run_stores_final (reviewId : nat) (w w' : World) (r0 final : Review.t)
    (evs : list Event) (docs : list Review.t) :
  fst (findById reviewId w) = Ok (Some r0) ->
  effects w w' evs ->
  saved evs = docs ++ [final] ->
  Forall (fun d => identity d = identity r0) (saved evs) ->
  fst (findById reviewId w') = Ok (Some final) /\ identity final = identity r0.
Proof.
  intros Hfind (_ & Hrev & _) Hsaved Hall.
  unfold findById, gets in *. cbn [fst] in *. injection Hfind as Hfind.
  pose proof (find_by_id_some _ _ _ Hfind) as [Hid0 _].
  rewrite Hsaved in Hall. apply Forall_app in Hall as [Hdocs Hfinal].
  inversion Hfinal as [|? ? Hidf _]; subst.
  assert (Hidf' : Review._id final = Review._id r0) by (unfold identity in Hidf; congruence).
  split; [|exact Hidf].
  rewrite Hrev, Hsaved, fold_left_app. cbn [fold_left]. f_equal.
  destruct (find_fold_upsert (Review._id r0) docs (reviews w)) as [r Hr]; [eauto| |].
  - eapply Forall_impl; [|exact Hdocs]. intros d Hd. unfold identity in Hd. congruence.
  - rewrite <- Hidf' in *. now apply (find_upsert_same _ final r).
Qed.

(** X10. When a run that found its record throws, one of two things
    has happened.  Either the record is stored in status failed with
    the message of the thrown error as its error message, and the
    fallback notice was attempted once if that message mentions "503"
    or "overloaded", and not at all otherwise.  Or the store has
    refused the comments of the run: the error thrown is that of the
    validation of the record marked failed, whose comments are not
    valid, and the record is stored in progress, with the error message
    and the comments it had before the run. *)
Theorem failed_run_records_error (owner repo : jsstring) (pullNumber : Z) (reviewId : nat)
    (w : World) (r0 : Review.t) (e : JsError) :
  fst (findById reviewId w) = Ok (Some r0) ->
  fst (Controller.processReviewAsync E owner repo pullNumber reviewId w) = Throw e ->
  exists (final : Review.t) (evs : list Event),
    fst (findById reviewId
           (snd (Controller.processReviewAsync E owner repo pullNumber reviewId w)))
    = Ok (Some final)
    /\ identity final = identity r0
    /\ trace (snd (Controller.processReviewAsync E owner repo pullNumber reviewId w))
       = trace w ++ evs
    /\ ((Review.status final = failed
         /\ Review.errorMessage final = Some (err_message e)
         /\ count_kind KFallback (map kind evs)
            = (if includes (err_message e) (js "503")
                  || includes (err_message e) (js "overloaded")
               then 1 else 0))
        \/ (Review.status final = in_progress
            /\ Review.errorMessage final = Review.errorMessage r0
            /\ Review.comments final = Review.comments r0
            /\ exists doc,
                 e = validation_error E doc
                 /\ Review.status doc = failed
                 /\ identity doc = identity r0
                 /\ comments_valid E (Review.comments doc) = false)).
Proof.
  intros Hfind Hthrow.
  destruct (run_effects owner repo pullNumber reviewId w r0 Hfind)
    as (evs & docs & final & Heff & _ & Hsaved & Hall & Hend).
  rewrite Hthrow in Hend.
  destruct (run_stores_final reviewId w _ r0 final evs docs Hfind Heff Hsaved Hall)
    as [Hstored Hid].
  exists final, evs. destruct Heff as (Htr & _).
  split; [exact Hstored|]. split; [exact Hid|]. split; [exact Htr|exact Hend].
Qed.

(** X11. When the duplicate check finds a review by the bot, the run
    completes the record at once: the pull request is not fetched, the
    model is not called, nothing is posted, and the record keeps the
    comments and the GitHub review id it had. *)
Theorem already_reviewed_run_posts_nothing (owner repo : jsstring) (pullNumber : Z)
    (reviewId : nat) (w : World) (r0 : Review.t) :
  fst (findById reviewId w) = Ok (Some r0) ->
  fst (GitHub.hasAlreadyReviewed E owner repo pullNumber (snd (markInProgress E r0 w)))
  = Ok true ->
  exists (final : Review.t) (evs : list Event),
    fst (Controller.processReviewAsync E owner repo pullNumber reviewId w) = Ok tt
    /\ trace (snd (Controller.processReviewAsync E owner repo pullNumber reviewId w))
       = trace w ++ evs
    /\ count_kind KFetch (map kind evs) = 0
    /\ count_kind KGenerate (map kind evs) = 0
    /\ count_kind KPost (map kind evs) = 0
    /\ count_kind KFallback (map kind evs) = 0
    /\ fst (findById reviewId
              (snd (Controller.processReviewAsync E owner repo pullNumber reviewId w)))
       = Ok (Some final)
    /\ Review.status final = completed
    /\ Review.comments final = Review.comments r0
    /\ Review.githubReviewId final = Review.githubReviewId r0.
Proof.
  intros Hfind Hdup.
  rewrite (processReviewAsync_found E owner repo pullNumber reviewId w r0 Hfind). cbv zeta.
  set (r1 := started_at (clock E (ticks w)) r0).
  pose proof (effects_markInProgress E r0 w (found_stored reviewId w r0 Hfind)) as He1.
  fold r1 in He1.
  set (w1 := snd (markInProgress E r0 w)) in *.
  destruct (hasAlreadyReviewed_effects E owner repo pullNumber w1)
    as (b & w2 & e2 & Hhas & He2 & Hs2 & Hk2).
  rewrite Hhas in Hdup |- *. cbn [fst] in Hdup. injection Hdup as ->.
  pose proof (effects_trans _ _ _ _ _ He1 He2) as He12.
  assert (Hs12 : saved ([EvSave r1] ++ e2) = [] ++ [r1])
    by (rewrite saved_app, Hs2; reflexivity).
  destruct (run_completes_effects E None r1 w2
              (effects_stored w w2 _ [] r1 r1 He12 Hs12 eq_refl eq_refl))
    as (final & Hfinal & He3 & _).
  pose proof (effects_trans _ _ _ _ _ He12 He3) as Heff.
  exists final, (([EvSave r1] ++ e2) ++ [EvSave final]).
  assert (Hsaved : saved (([EvSave r1] ++ e2) ++ [EvSave final]) = [r1] ++ [final])
    by (rewrite !saved_app, Hs2; reflexivity).
  destruct (run_stores_final reviewId w _ r0 final _ [r1] Hfind Heff Hsaved) as [Hstored _].
  { rewrite Hsaved, Hfinal. repeat constructor. }
  split; [reflexivity|]. split; [apply Heff|].
  rewrite !map_app, !count_kind_app.
  destruct Hk2 as [-> | ->]; rewrite Hfinal in *;
    repeat split; try reflexivity; exact Hstored.
Qed.

(** X12. When the pull request has no file to review, the run records
    that and completes the record: the model is not called and nothing
    is posted. *)
Theorem run_without_files_posts_nothing (owner repo : jsstring) (pullNumber : Z)
    (reviewId : nat) (w : World) (r0 : Review.t) :
  fst (findById reviewId w) = Ok (Some r0) ->
  fst (GitHub.hasAlreadyReviewed E owner repo pullNumber (snd (markInProgress E r0 w)))
  = Ok false ->
  (forall tr, exists prData,
      fetch_pull_request E tr owner repo pullNumber = Ok prData
      /\ PrData.diff_files prData = []) ->
  exists (final : Review.t) (evs : list Event),
    fst (Controller.processReviewAsync E owner repo pullNumber reviewId w) = Ok tt
    /\ trace (snd (Controller.processReviewAsync E owner repo pullNumber reviewId w))
       = trace w ++ evs
    /\ count_kind KFetch (map kind evs) = 1
    /\ count_kind KGenerate (map kind evs) = 0
    /\ count_kind KPost (map kind evs) = 0
    /\ count_kind KFallback (map kind evs) = 0
    /\ fst (findById reviewId
              (snd (Controller.processReviewAsync E owner repo pullNumber reviewId w)))
       = Ok (Some final)
    /\ Review.status final = completed
    /\ Review.filesReviewed final = []
    /\ Review.comments final = Review.comments r0.
Proof.
  intros Hfind Hdup Hfetch.
  rewrite (processReviewAsync_found E owner repo pullNumber reviewId w r0 Hfind). cbv zeta.
  set (r1 := started_at (clock E (ticks w)) r0).
  pose proof (effects_markInProgress E r0 w (found_stored reviewId w r0 Hfind)) as He1.
  fold r1 in He1.
  set (w1 := snd (markInProgress E r0 w)) in *.
  destruct (hasAlreadyReviewed_effects E owner repo pullNumber w1)
    as (b & w2 & e2 & Hhas & He2 & Hs2 & Hk2).
  rewrite Hhas in Hdup |- *. cbn [fst] in Hdup. injection Hdup as ->.
  pose proof (getPullRequestData_effects E owner repo pullNumber w2) as He3.
  assert (Hget : exists prData w3,
             GitHub.getPullRequestData E owner repo pullNumber w2 = (Ok prData, w3)
             /\ PrData.diff_files prData = []).
  { unfold GitHub.getPullRequestData, try_catch, call.
    destruct (Hfetch (trace w2)) as (prData & -> & Hnil). eauto. }
  destruct Hget as (prData & w3 & Hget & Hnil). rewrite Hget in He3 |- *. cbn [snd] in He3.
  rewrite Hnil. cbn [length map Nat.eqb].
  set (r2 := Review.set_filesReviewed [] r1).
  pose proof (effects_write r2 w3) as He4.
  set (w4 := snd (write r2 w3)) in *.
  pose proof (effects_trans _ _ _ _ _
                (effects_trans _ _ _ _ _ (effects_trans _ _ _ _ _ He1 He2) He3) He4)
    as He14.
  assert (Hs14 : saved ((([EvSave r1] ++ e2) ++ [EvGetPullRequestData owner repo pullNumber])
                        ++ [EvSave r2]) = [r1] ++ [r2])
    by (rewrite !saved_app, Hs2; reflexivity).
  destruct (run_completes_effects E None r2 w4
              (effects_stored w w4 _ [r1] r2 r2 He14 Hs14 eq_refl eq_refl))
    as (final & Hfinal & He5 & _).
  pose proof (effects_trans _ _ _ _ _ He14 He5) as Heff.
  set (evs := ((([EvSave r1] ++ e2) ++ [EvGetPullRequestData owner repo pullNumber])
               ++ [EvSave r2]) ++ [EvSave final]) in *.
  exists final, evs.
  assert (Hsaved : saved evs = [r1; r2] ++ [final])
    by (unfold evs; rewrite !saved_app, Hs2; reflexivity).
  destruct (run_stores_final reviewId w _ r0 final _ [r1; r2] Hfind Heff Hsaved) as [Hstored _].
  { rewrite Hsaved, Hfinal. repeat constructor. }
  split; [reflexivity|]. split; [apply Heff|].
  unfold evs. rewrite !map_app, !count_kind_app.
  destruct Hk2 as [-> | ->]; rewrite Hfinal in *;
    repeat split; try reflexivity; exact Hstored.
Qed.

End RunOutcome.


(** ** The run-level properties on the sample environment *)

Lemma run_trace_shape_sample :
  exists evs,
    trace (snd (Controller.processReviewAsync (Sample.env Sample.gemini_overloaded)
                  (js "octo") (js "demo") 7 1 (Sample.world_with Sample.pending_record)))
    = trace (Sample.world_with Sample.pending_record) ++ evs
    /\ run_shape (map kind evs).
Proof.
  apply (run_trace_shape (Sample.env Sample.gemini_overloaded) (js "octo") (js "demo") 7 1
           (Sample.world_with Sample.pending_record) Sample.pending_record).
  reflexivity.
Defined.

Lemma run_calls_bounded_sample :
  exists evs,
    trace (snd (Controller.processReviewAsync (Sample.env Sample.gemini_empty)
                  (js "octo") (js "demo") 7 1 (Sample.world_with Sample.pending_record)))
    = trace (Sample.world_with Sample.pending_record) ++ evs
    /\ count_kind KFetch (map kind evs) <= 1
    /\ count_kind KGenerate (map kind evs) <= 5
    /\ count_kind KPost (map kind evs) <= 1
    /\ count_kind KFallback (map kind evs) <= 1
    /\ count_kind KStart (map kind evs) = 0
    /\ (count_kind KPost (map kind evs) = 1 ->
        count_kind KFetch (map kind evs) = 1 /\ 1 <= count_kind KGenerate (map kind evs)).
Proof.
  apply (run_calls_bounded (Sample.env Sample.gemini_empty) (js "octo") (js "demo") 7 1
           (Sample.world_with Sample.pending_record) Sample.pending_record).
  reflexivity.
Defined.

Lemma unique_records_sample : unique_records (Sample.world_with Sample.pending_record).
Proof.
  unfold unique_records. cbn [Sample.world_with reviews nextId map].
  split; [|split].
  - constructor; [intros []|constructor].
  - constructor; [intros []|constructor].
  - constructor; [cbn; lia|constructor].
Defined.

Lemma run_preserves_records_sample :
  map identity
    (reviews (snd (Controller.processReviewAsync (Sample.env Sample.gemini_bad_key)
                     (js "octo") (js "demo") 7 1 (Sample.world_with Sample.pending_record))))
  = map identity (reviews (Sample.world_with Sample.pending_record))
  /\ nextId (snd (Controller.processReviewAsync (Sample.env Sample.gemini_bad_key)
                    (js "octo") (js "demo") 7 1 (Sample.world_with Sample.pending_record)))
     = nextId (Sample.world_with Sample.pending_record)
  /\ unique_records
       (snd (Controller.processReviewAsync (Sample.env Sample.gemini_bad_key)
               (js "octo") (js "demo") 7 1 (Sample.world_with Sample.pending_record))).
Proof.
  apply (run_preserves_records (Sample.env Sample.gemini_bad_key) (js "octo") (js "demo") 7 1
           (Sample.world_with Sample.pending_record)).
  exact unique_records_sample.
Defined.

Lemma failed_run_records_error_sample :
  exists (final : Review.t) (evs : list Event),
    fst (findById 1
           (snd (Controller.processReviewAsync (Sample.env Sample.gemini_overloaded)
                   (js "octo") (js "demo") 7 1 (Sample.world_with Sample.pending_record))))
    = Ok (Some final)
    /\ identity final = identity Sample.pending_record
    /\ trace (snd (Controller.processReviewAsync (Sample.env Sample.gemini_overloaded)
                     (js "octo") (js "demo") 7 1 (Sample.world_with Sample.pending_record)))
       = trace (Sample.world_with Sample.pending_record) ++ evs
    /\ Review.status final = failed
    /\ Review.errorMessage final
       = Some (js "Failed to generate code review after 5 attempts: [503 Service Unavailable] The model is overloaded.")
    /\ count_kind KFallback (map kind evs) = 1.
Proof.
  destruct (failed_run_records_error (Sample.env Sample.gemini_overloaded)
              (js "octo") (js "demo") 7 1 (Sample.world_with Sample.pending_record)
              Sample.pending_record
              (Error_ (js "Failed to generate code review after 5 attempts: [503 Service Unavailable] The model is overloaded.")))
    as (final & evs & Hfind & Hid & Htr & [H | (_ & _ & _ & doc & Hdoc & _)]).
  - reflexivity.
  - vm_compute. reflexivity.
  - exists final, evs. repeat split; try assumption; apply H.
  - exfalso. vm_compute in Hdoc. discriminate Hdoc.
Defined.

Lemma already_reviewed_run_posts_nothing_sample :
  exists (final : Review.t) (evs : list Event),
    fst (Controller.processReviewAsync (Sample2.env_reviews Sample2.reviews_with_bot)
           (js "octo") (js "demo") 7 1 (Sample.world_with Sample.pending_record)) = Ok tt
    /\ trace (snd (Controller.processReviewAsync (Sample2.env_reviews Sample2.reviews_with_bot)
                     (js "octo") (js "demo") 7 1 (Sample.world_with Sample.pending_record)))
       = trace (Sample.world_with Sample.pending_record) ++ evs
    /\ count_kind KFetch (map kind evs) = 0
    /\ count_kind KGenerate (map kind evs) = 0
    /\ count_kind KPost (map kind evs) = 0
    /\ count_kind KFallback (map kind evs) = 0
    /\ fst (findById 1
              (snd (Controller.processReviewAsync (Sample2.env_reviews Sample2.reviews_with_bot)
                      (js "octo") (js "demo") 7 1 (Sample.world_with Sample.pending_record))))
       = Ok (Some final)
    /\ Review.status final = completed
    /\ Review.comments final = Review.comments Sample.pending_record
    /\ Review.githubReviewId final = Review.githubReviewId Sample.pending_record.
Proof.
  apply (already_reviewed_run_posts_nothing (Sample2.env_reviews Sample2.reviews_with_bot)
           (js "octo") (js "demo") 7 1 (Sample.world_with Sample.pending_record)
           Sample.pending_record).
  - reflexivity.
  - vm_compute. reflexivity.
Defined.

Lemma run_without_files_posts_nothing_sample :
  exists (final : Review.t) (evs : list Event),
    fst (Controller.processReviewAsync Sample3.env_no_files
           (js "octo") (js "demo") 7 1 (Sample.world_with Sample.pending_record)) = Ok tt
    /\ trace (snd (Controller.processReviewAsync Sample3.env_no_files
                     (js "octo") (js "demo") 7 1 (Sample.world_with Sample.pending_record)))
       = trace (Sample.world_with Sample.pending_record) ++ evs
    /\ count_kind KFetch (map kind evs) = 1
    /\ count_kind KGenerate (map kind evs) = 0
    /\ count_kind KPost (map kind evs) = 0
    /\ count_kind KFallback (map kind evs) = 0
    /\ fst (findById 1
              (snd (Controller.processReviewAsync Sample3.env_no_files
                      (js "octo") (js "demo") 7 1 (Sample.world_with Sample.pending_record))))
       = Ok (Some final)
    /\ Review.status final = completed
    /\ Review.filesReviewed final = []
    /\ Review.comments final = Review.comments Sample.pending_record.
Proof.
  apply (run_without_files_posts_nothing Sample3.env_no_files
           (js "octo") (js "demo") 7 1 (Sample.world_with Sample.pending_record)
           Sample.pending_record).
  - reflexivity.
  - vm_compute. reflexivity.
  - intros tr. eexists. split; reflexivity.
Defined.


(** ** The handlers and the store *)

Section Handlers.

Variable E : Env.

Lemma has_key_eq (owner repo : jsstring) (n : Z) (r : Review.t) :
  has_key owner repo n r = true <-> key r = (owner, repo, n).
Proof.
  unfold has_key, key. rewrite !andb_true_iff, !eqb_str_eq, Z.eqb_eq.
  split; [intros [[-> ->] ->]; reflexivity|intros H; injection H as -> -> ->; auto].
Qed.

(** After [doc] is saved, a lookup by its id returns it. *)
Lemma find_upsert (l : list Review.t) (doc : Review.t) :
  find (fun x => Review._id x =? Review._id doc) (upsert doc l) = Some doc.
Proof.
  destruct (find (fun x => Review._id x =? Review._id doc) l) as [r|] eqn:Hfind.
  - now apply (find_upsert_same l doc r).
  - unfold upsert.
    assert (Hex : existsb (fun x => Review._id x =? Review._id doc) l = false).
    { apply not_true_is_false. intros H. apply existsb_exists in H as (x & Hx & Hid).
      apply (find_none _ _ Hfind) in Hx. congruence. }
    rewrite Hex. clear Hex.
    induction l as [|x l IH]; cbn in *; [now rewrite Nat.eqb_refl|].
    destruct (Review._id x =? Review._id doc); [discriminate|]. now apply IH.
Qed.

(** After a document with the id and the key of the first document of
    its key is saved, a lookup by that key returns it. *)
Lemma find_key_upsert (owner repo : jsstring) (n : Z) (l : list Review.t)
    (r doc : Review.t) :
  find (has_key owner repo n) l = Some r ->
  Review._id doc = Review._id r ->
  has_key owner repo n doc = true ->
  find (has_key owner repo n) (upsert doc l) = Some doc.
Proof.
  intros Hfind Hid Hkey. unfold upsert.
  assert (Hex : existsb (fun x => Review._id x =? Review._id doc) l = true).
  { apply existsb_exists. exists r. apply find_some in Hfind as [Hin _].
    split; [exact Hin|]. apply Nat.eqb_eq. congruence. }
  rewrite Hex. clear Hex.
  induction l as [|x l IH]; cbn in *; [discriminate|].
  destruct (Review._id x =? Review._id doc) eqn:Hx.
  - now rewrite Hkey.
  - destruct (has_key owner repo n x) eqn:Hkx; [|now apply IH].
    injection Hfind as ->. rewrite Hid, Nat.eqb_refl in Hx. discriminate.
Qed.

(** After a document whose key no document has is saved, a lookup by
    that key returns it. *)
Lemma find_key_upsert_new (owner repo : jsstring) (n : Z) (l : list Review.t)
    (doc : Review.t) :
  find (has_key owner repo n) l = None ->
  has_key owner repo n doc = true ->
  find (has_key owner repo n) (upsert doc l) = Some doc.
Proof.
  intros Hfind Hkey. unfold upsert.
  destruct (existsb (fun x => Review._id x =? Review._id doc) l) eqn:Hex.
  - induction l as [|x l IH]; cbn in *; [discriminate|].
    destruct (has_key owner repo n x) eqn:Hkx; [discriminate|].
    destruct (Review._id x =? Review._id doc); [now rewrite Hkey|].
    rewrite Hkx. now apply IH.
  - clear Hex. induction l as [|x l IH]; cbn in *; [now rewrite Hkey|].
    destruct (has_key owner repo n x); [discriminate|]. now apply IH.
Qed.

(** Saving a document over the documents of its id that agree with it
    on [f] changes [f] on no document. *)
Lemma map_upsert_same {B : Type} (f : Review.t -> B) (l : list Review.t) (d : Review.t) :
  (forall r, In r l -> Review._id r = Review._id d -> f r = f d) ->
  (exists r, In r l /\ Review._id r = Review._id d) ->
  map f (upsert d l) = map f l.
Proof.
  intros Hsame (r & Hin & Hid). unfold upsert.
  assert (Hex : existsb (fun x => Review._id x =? Review._id d) l = true).
  { apply existsb_exists. exists r. split; [exact Hin|]. now apply Nat.eqb_eq. }
  rewrite Hex. clear r Hin Hid Hex.
  induction l as [|x l IH]; [reflexivity|]. cbn [map].
  rewrite IH by (intros r Hr; apply Hsame; now right). f_equal.
  destruct (Review._id x =? Review._id d) eqn:Hx; [|reflexivity].
  symmetry. apply Hsame; [now left|]. now apply Nat.eqb_eq.
Qed.

(** What [handlePullRequest] does: the record of the pull request, when
    there is one, is written again; a new record is written unless the
    store refuses it, and then the handler throws. *)
Lemma handlePullRequest_run (p : Payload.t) (w : World) :
  Controller.handlePullRequest E p w =
    if negb (existsb (eqb_str (Payload.action p)) Controller.relevantActions)
    then (Ok not_processed, w)
    else
      match find (has_key (Payload.owner_login p) (Payload.name p) (Payload.number p))
                 (reviews w) with
      | Some r =>
          if Status_eqb (Review.status r) completed
             && negb (eqb_str (Payload.action p) (js "synchronize"))
          then (Ok (already_reviewed r), w)
          else if Payload.draft p then (Ok draft_skipped, w)
          else
            let r' := Review.set_errorMessage None
                        (Review.set_status pending
                           (Review.set_prInfo
                              (PrInfo.set_commitSha (Payload.head_sha p) (Review.prInfo r))
                              r)) in
            (Ok (review_started r'),
             mkWorld (upsert r' (reviews w))
               (trace w ++ [EvSave r';
                            EvStartReview (Payload.owner_login p) (Payload.name p)
                              (Payload.number p) (Review._id r')])
               (ticks w) (draws w) (botUser w) (nextId w))
      | None =>
          if Payload.draft p then (Ok draft_skipped, w)
          else
            let r' := Review.mk (nextId w) (Payload.number p) (Payload.full_name p)
                        (Payload.owner_login p) (Payload.name p)
                        (PrInfo.mk (Payload.title p) (Payload.body p) (Payload.user_login p)
                           (Payload.base_ref p) (Payload.head_ref p) (Payload.head_sha p))
                        [] None pending None (Some (clock E (ticks w))) None None 0%N [] in
            if refused E r' (reviews w)
            then (Throw (AppError (js "Failed to process PR webhook: "
                                   ++ err_message (validation_error E r')) 500),
                  mkWorld (reviews w) (trace w) (S (ticks w)) (draws w) (botUser w)
                    (S (nextId w)))
            else
              (Ok (review_started r'),
               mkWorld (upsert r' (reviews w))
                 (trace w ++ [EvSave r';
                              EvStartReview (Payload.owner_login p) (Payload.name p)
                                (Payload.number p) (Review._id r')])
                 (S (ticks w)) (draws w) (botUser w) (S (nextId w)))
      end.
Proof.
  unfold Controller.handlePullRequest.
  destruct (negb (existsb (eqb_str (Payload.action p)) Controller.relevantActions));
    [reflexivity|].
  cbv zeta. unfold try_catch, bind at 1, findByPR, gets.
  change (fun r : Review.t =>
            eqb_str (Review.owner r) (Payload.owner_login p)
            && eqb_str (Review.repo r) (Payload.name p)
            && (Review.pullRequestId r =? Payload.number p)%Z)
    with (has_key (Payload.owner_login p) (Payload.name p) (Payload.number p)).
  destruct (find _ (reviews w)) as [r|] eqn:Hfind.
  - destruct (Status_eqb (Review.status r) completed
              && negb (eqb_str (Payload.action p) (js "synchronize"))); [reflexivity|].
    destruct (Payload.draft p); [reflexivity|].
    apply find_some in Hfind as [Hin _].
    cbv zeta. unfold bind at 1.
    erewrite save_loaded; [|exact Hin|reflexivity|reflexivity].
    cbn. rewrite <- app_assoc. reflexivity.
  - destruct (Payload.draft p); [reflexivity|].
    cbv zeta. unfold bind at 1. unfold bind at 1. unfold Controller.new_Review at 1.
    unfold bind at 1. unfold now at 1. cbn [fst snd ticks nextId].
    unfold save at 1. cbn [reviews].
    destruct (refused E _ (reviews w)); [reflexivity|].
    cbn. rewrite <- app_assoc. reflexivity.
Qed.


Lemma retryReview_run (prId : Z) (owner repo : option jsstring) (w : World) :
  Controller.retryReview E prId owner repo w =
    if Controller.missing owner || Controller.missing repo
    then (Throw (AppError (js "Owner and repo query parameters are required") 400), w)
    else
      let o := match owner with Some s => s | None => [] end in
      let n := match repo with Some s => s | None => [] end in
      match find (has_key o n prId) (reviews w) with
      | None => (Throw (AppError (js "Review not found") 404), w)
      | Some r =>
          if Status_eqb (Review.status r) completed
          then (Throw (AppError (js "Review already completed") 400), w)
          else if Status_eqb (Review.status r) in_progress
          then (Throw (AppError (js "Review already in progress") 400), w)
          else
            let r' := Review.set_errorMessage None
                        (Review.set_status pending
                           (Review.set_retryCount (Review.retryCount r + 1)%N r)) in
            (Ok (Response.mk 200 (js "Review retry initiated") (Some (Review._id r'))
                   (Some (Review.retryCount r'))),
             mkWorld (upsert r' (reviews w))
               (trace w ++ [EvSave r'; EvStartReview o n prId (Review._id r')])
               (ticks w) (draws w) (botUser w) (nextId w))
      end.
Proof.
  unfold Controller.retryReview.
  destruct (Controller.missing owner || Controller.missing repo); [reflexivity|].
  cbv zeta. unfold bind at 1, findByPR, gets.
  change (fun r : Review.t =>
            eqb_str (Review.owner r) match owner with Some s => s | None => [] end
            && eqb_str (Review.repo r) match repo with Some s => s | None => [] end
            && (Review.pullRequestId r =? prId)%Z)
    with (has_key match owner with Some s => s | None => [] end
                  match repo with Some s => s | None => [] end prId).
  destruct (find _ (reviews w)) as [r|] eqn:Hfind; [|reflexivity].
  destruct (Status_eqb (Review.status r) completed); [reflexivity|].
  destruct (Status_eqb (Review.status r) in_progress); [reflexivity|].
  apply find_some in Hfind as [Hin _].
  unfold bind at 1, incrementRetry. cbv zeta.
  erewrite save_loaded; [|exact Hin|reflexivity|reflexivity].
  cbn. rewrite <- app_assoc. reflexivity.
Qed.

(** X14. [retryReview], for a request whose [prId] parameter
    [parseInt] reads as a number and a database that answers.  A
    request that is refused changes nothing and is refused with an
    [AppError] of status 400 (a parameter is missing, or the record is
    completed or in progress) or 404 (no record for the pull request).
    A request that is accepted writes the record once with status
    pending, no error message and retryCount one higher, reports that
    count, and starts one run on the record.  Every request that names
    owner and repo and whose record is pending, failed or skipped is
    accepted. *)
Theorem retryReview_outcomes (prId : Z) (owner repo : option jsstring) (w : World) :
  match fst (Controller.retryReview E prId owner repo w) with
  | Throw e =>
      snd (Controller.retryReview E prId owner repo w) = w
      /\ err_name e = js "AppError"
      /\ (err_statusCode e = Some 400%Z \/ err_statusCode e = Some 404%Z)
  | Ok resp =>
      exists (o n : jsstring) (r r' : Review.t),
        owner = Some o /\ repo = Some n /\ o <> [] /\ n <> []
        /\ fst (findByPR o n prId w) = Ok (Some r)
        /\ Review.status r <> completed /\ Review.status r <> in_progress
        /\ fst (findByPR o n prId (snd (Controller.retryReview E prId owner repo w)))
           = Ok (Some r')
        /\ identity r' = (Review._id r, Review.pullRequestId r, Review.repository r,
                          Review.owner r, Review.repo r, Review.prInfo r,
                          (Review.retryCount r + 1)%N)
        /\ Review.status r' = pending
        /\ Review.errorMessage r' = None
        /\ resp = Response.mk 200 (js "Review retry initiated") (Some (Review._id r))
                    (Some (Review.retryCount r + 1)%N)
        /\ trace (snd (Controller.retryReview E prId owner repo w))
           = trace w ++ [EvSave r'; EvStartReview o n prId (Review._id r)]
  end
  /\ forall (o n : jsstring) (r : Review.t),
       owner = Some o -> repo = Some n -> o <> [] -> n <> [] ->
       fst (findByPR o n prId w) = Ok (Some r) ->
       In (Review.status r) [pending; failed; skipped] ->
       fst (Controller.retryReview E prId owner repo w)
       = Ok (Response.mk 200 (js "Review retry initiated") (Some (Review._id r))
               (Some (Review.retryCount r + 1)%N)).
Proof.
  rewrite retryReview_run. split.
  - destruct (Controller.missing owner || Controller.missing repo) eqn:Hmiss;
      [cbn; auto|].
    cbv zeta. apply orb_false_elim in Hmiss as [Ho Hn].
    destruct owner as [o|]; [|discriminate]. destruct repo as [n|]; [|discriminate].
    destruct (find (has_key o n prId) (reviews w)) as [r|] eqn:Hfind; [|cbn; auto].
    destruct (Status_eqb (Review.status r) completed) eqn:Hc; [cbn; auto|].
    destruct (Status_eqb (Review.status r) in_progress) eqn:Hp; [cbn; auto|].
    cbn [fst snd].
    set (r' := Review.set_errorMessage None
                 (Review.set_status pending
                    (Review.set_retryCount (Review.retryCount r + 1)%N r))).
    exists o, n, r, r'.
    split; [reflexivity|]. split; [reflexivity|].
    split; [intros ->; discriminate|]. split; [intros ->; discriminate|].
    split; [unfold findByPR, gets; cbn [fst]; f_equal; exact Hfind|].
    split; [intros Hst; rewrite Hst in Hc; discriminate|].
    split; [intros Hst; rewrite Hst in Hp; discriminate|].
    split.
    { unfold findByPR, gets. cbn [fst reviews]. f_equal.
      apply (find_key_upsert o n prId (reviews w) r r' Hfind); [reflexivity|].
      apply find_some in Hfind as [_ Hkey]. exact Hkey. }
    repeat split.
  - intros o n r -> -> Ho Hn Hfind Hst.
    assert (Hmiss : Controller.missing (Some o) || Controller.missing (Some n) = false).
    { unfold Controller.missing. destruct o; [contradiction|]. destruct n; [contradiction|].
      reflexivity. }
    rewrite Hmiss. cbv zeta.
    unfold findByPR, gets in Hfind. cbn [fst] in Hfind. injection Hfind as Hfind.
    change (fun r : Review.t =>
              eqb_str (Review.owner r) o && eqb_str (Review.repo r) n
              && (Review.pullRequestId r =? prId)%Z)
      with (has_key o n prId) in Hfind.
    rewrite Hfind.
    destruct Hst as [<- | [<- | [<- | []]]]; reflexivity.
Qed.

(** *** Uniqueness of ids and keys *)

Lemma unique_records_update (w w' : World) (r r' : Review.t) :
  unique_records w ->
  In r (reviews w) ->
  Review._id r' = Review._id r ->
  key r' = key r ->
  reviews w' = upsert r' (reviews w) ->
  nextId w' = nextId w ->
  unique_records w'.
Proof.
  intros (Hids & Hkeys & Hlt) Hin Hid Hkey Hrev Hnext. unfold unique_records.
  assert (Hex : exists x, In x (reviews w) /\ Review._id x = Review._id r')
    by (exists r; split; [exact Hin|congruence]).
  assert (Hone : forall x, In x (reviews w) -> Review._id x = Review._id r' -> x = r).
  { intros x Hx Hidx.
    apply (NoDup_map_eq Review._id (reviews w)); [exact Hids|exact Hx|exact Hin|congruence]. }
  assert (Hmi : map Review._id (upsert r' (reviews w)) = map Review._id (reviews w)).
  { apply map_upsert_same; [|exact Hex]. intros x _ Hx. exact Hx. }
  assert (Hmk : map key (upsert r' (reviews w)) = map key (reviews w)).
  { apply map_upsert_same; [|exact Hex]. intros x Hx Hidx.
    rewrite (Hone x Hx Hidx). now symmetry. }
  rewrite Hrev, Hmi, Hmk, Hnext. split; [exact Hids|]. split; [exact Hkeys|].
  apply Forall_forall. intros x Hx.
  assert (Hxi : In (Review._id x) (map Review._id (upsert r' (reviews w))))
    by now apply in_map.
  rewrite Hmi in Hxi. apply in_map_iff in Hxi as (y & Hy & Hyin). rewrite <- Hy.
  rewrite Forall_forall in Hlt. now apply Hlt.
Qed.

Lemma NoDup_snoc {A : Type} (l : list A) (a : A) :
  NoDup l -> ~ In a l -> NoDup (l ++ [a]).
Proof.
  induction l as [|x l IH]; cbn; intros Hnd Hnotin; [constructor; [intros []|constructor]|].
  inversion Hnd as [|? ? Hx Hnd']; subst.
  constructor.
  - intros Hin. apply in_app_or in Hin as [Hin|[->|[]]]; [contradiction|]. apply Hnotin. now left.
  - apply IH; [exact Hnd'|]. intros Hin. apply Hnotin. now right.
Qed.

Lemma unique_records_insert (w w' : World) (r' : Review.t) :
  unique_records w ->
  Review._id r' = nextId w ->
  ~ In (key r') (map key (reviews w)) ->
  reviews w' = upsert r' (reviews w) ->
  nextId w' = S (nextId w) ->
  unique_records w'.
Proof.
  intros (Hids & Hkeys & Hlt) Hid Hkey Hrev Hnext. unfold unique_records.
  rewrite Forall_forall in Hlt.
  assert (Hfresh : ~ In (Review._id r') (map Review._id (reviews w))).
  { intros Hin. apply in_map_iff in Hin as (x & Hx & Hxin). apply Hlt in Hxin. lia. }
  assert (Hup : upsert r' (reviews w) = reviews w ++ [r']).
  { unfold upsert.
    destruct (existsb (fun x => Review._id x =? Review._id r') (reviews w)) eqn:Hex;
      [|reflexivity].
    exfalso. apply existsb_exists in Hex as (x & Hx & Hidx). apply Nat.eqb_eq in Hidx.
    apply Hfresh. rewrite <- Hidx. now apply in_map. }
  rewrite Hrev, Hup, !map_app, Hnext. cbn [map].
  split; [now apply NoDup_snoc|]. split; [now apply NoDup_snoc|].
  apply Forall_forall. intros x Hx. apply in_app_or in Hx as [Hx|[<-|[]]].
  - apply Hlt in Hx. lia.
  - lia.
Qed.

(** The two handlers that write to the store keep ids and keys
    unique: [handlePullRequest] creates a record only for a pull request
    that has none, under an id that is not in use, and both handlers
    rewrite an existing record under its own id and key. *)
Lemma handlePullRequest_unique (p : Payload.t) (w : World) :
  unique_records w -> unique_records (snd (Controller.handlePullRequest E p w)).
Proof.
  intros Huniq. rewrite handlePullRequest_run.
  destruct (negb (existsb (eqb_str (Payload.action p)) Controller.relevantActions));
    [exact Huniq|].
  destruct (find _ (reviews w)) as [r|] eqn:Hfind.
  - destruct (Status_eqb (Review.status r) completed
              && negb (eqb_str (Payload.action p) (js "synchronize"))); [exact Huniq|].
    destruct (Payload.draft p); [exact Huniq|].
    cbv zeta. cbn [snd]. apply find_some in Hfind as [Hin _].
    match goal with
    | |- unique_records (mkWorld (upsert ?d _) _ _ _ _ _) =>
        apply (unique_records_update w _ r d); [exact Huniq|exact Hin| | | |]; reflexivity
    end.
  - destruct (Payload.draft p); [exact Huniq|].
    cbv zeta. destruct (refused E _ (reviews w)); cbn [snd].
    { destruct Huniq as (Hids & Hkeys & Hlt). unfold unique_records. cbn [reviews nextId].
      split; [exact Hids|]. split; [exact Hkeys|].
      eapply Forall_impl; [|exact Hlt]. intros x Hx. cbv beta in *. lia. }
    match goal with
    | |- unique_records (mkWorld (upsert ?d _) _ _ _ _ _) =>
        apply (unique_records_insert w _ d); [exact Huniq|reflexivity| |reflexivity|reflexivity]
    end.
    intros Hin. apply in_map_iff in Hin as (x & Hx & Hxin).
    apply (find_none _ _ Hfind) in Hxin.
    assert (Hk : has_key (Payload.owner_login p) (Payload.name p) (Payload.number p) x
                 = true) by (apply has_key_eq; rewrite Hx; reflexivity).
    congruence.
Qed.

Lemma retryReview_unique (prId : Z) (owner repo : option jsstring) (w : World) :
  unique_records w -> unique_records (snd (Controller.retryReview E prId owner repo w)).
Proof.
  intros Huniq. rewrite retryReview_run.
  destruct (Controller.missing owner || Controller.missing repo); [exact Huniq|].
  cbv zeta.
  destruct (find _ (reviews w)) as [r|] eqn:Hfind; [|exact Huniq].
  destruct (Status_eqb (Review.status r) completed); [exact Huniq|].
  destruct (Status_eqb (Review.status r) in_progress); [exact Huniq|].
  cbn [snd]. apply find_some in Hfind as [Hin _].
  match goal with
  | |- unique_records (mkWorld (upsert ?d _) _ _ _ _ _) =>
      apply (unique_records_update w _ r d); [exact Huniq|exact Hin| | | |]; reflexivity
  end.
Qed.

(** *** From the event to the status endpoint *)

Lemma find_key_fold_upsert (owner repo : jsstring) (n : Z) (docs : list Review.t) :
  forall (l : list Review.t) (r final : Review.t),
    find (has_key owner repo n) l = Some r ->
    Forall (fun d => Review._id d = Review._id r /\ has_key owner repo n d = true)
      (docs ++ [final]) ->
    find (has_key owner repo n) (fold_left (fun l d => upsert d l) (docs ++ [final]) l)
    = Some final.
Proof.
  induction docs as [|d docs IH]; intros l r final Hfind Hall.
  - cbn in *. inversion Hall as [|? ? [Hid Hkey] _]; subst.
    now apply (find_key_upsert owner repo n l r final).
  - cbn [app fold_left] in *. inversion Hall as [|? ? [Hid Hkey] Hall']; subst.
    apply (IH (upsert d l) d final).
    + now apply (find_key_upsert owner repo n l r d).
    + eapply Forall_impl; [|exact Hall']. intros x [Hx Hkx]. split; congruence.
Qed.

(** The record of a run, looked up by its key when the run is over. *)
Lemma run_outcome_by_key (owner repo : jsstring) (pullNumber : Z) (reviewId : nat)
    (o n : jsstring) (k : Z) (w : World) (r0 : Review.t) :
  fst (findById reviewId w) = Ok (Some r0) ->
  find (has_key o n k) (reviews w) = Some r0 ->
  exists final : Review.t,
    find (has_key o n k)
      (reviews (snd (Controller.processReviewAsync E owner repo pullNumber reviewId w)))
    = Some final
    /\ identity final = identity r0
    /\ match fst (Controller.processReviewAsync E owner repo pullNumber reviewId w) with
       | Ok _ => Review.status final = completed
       | Throw e =>
           (Review.status final = failed
            /\ Review.errorMessage final = Some (err_message e))
           \/ (Review.status final = in_progress
               /\ Review.errorMessage final = Review.errorMessage r0
               /\ exists doc,
                    e = validation_error E doc
                    /\ comments_valid E (Review.comments doc) = false)
       end.
Proof.
  intros Hid Hkey.
  destruct (run_effects E owner repo pullNumber reviewId w r0 Hid)
    as (evs & docs & final & (_ & Hrev & _) & _ & Hsaved & Hall & Hend).
  exists final. rewrite Hrev, Hsaved. rewrite Hsaved in Hall.
  pose proof (find_some _ _ Hkey) as [_ Hk0]. apply has_key_eq in Hk0.
  split; [|split].
  - apply (find_key_fold_upsert o n k docs (reviews w) r0 final Hkey).
    eapply Forall_impl; [|exact Hall]. intros d Hd. split.
    + unfold identity in Hd. congruence.
    + apply has_key_eq. rewrite <- Hk0. unfold key, identity in *. congruence.
  - apply Forall_app in Hall as [_ Hfinal]. now inversion Hfinal.
  - destruct (fst (Controller.processReviewAsync E owner repo pullNumber reviewId w));
      [exact Hend|].
    destruct Hend as [(Hst & Hmsg & _) | (Hst & Hmsg & _ & doc & He & _ & _ & Hv)];
      [left; now split|right].
    split; [exact Hst|]. split; [exact Hmsg|]. now exists doc.
Qed.

(** X15. From the event to the status endpoint.  When
    [handlePullRequest] answers "PR review started" and the run that it
    started is carried out on the store as the handler left it,
    [getReviewStatus], asked with the number of that pull request, then
    reports the record whose id the handler returned: in status
    completed if the run returned; if it threw, either in status failed
    with the message of the error, or, when the store has refused the
    comments of the run and the error is that of their validation, in
    status in progress without error message.  The endpoint itself
    changes nothing. *)
Theorem started_review_is_reported (p : Payload.t) (w : World) (resp : Response.t) :
  Payload.owner_login p <> [] ->
  Payload.name p <> [] ->
  fst (Controller.handlePullRequest E p w) = Ok resp ->
  Response.message resp = js "PR review started" ->
  exists (i : nat) (report : StatusReport.t),
    Response.reviewId resp = Some i
    /\ Endpoints.getReviewStatus (Payload.number p) (Some (Payload.owner_login p))
         (Some (Payload.name p))
         (snd (Controller.processReviewAsync E (Payload.owner_login p) (Payload.name p)
                 (Payload.number p) i (snd (Controller.handlePullRequest E p w))))
       = (Ok report,
          snd (Controller.processReviewAsync E (Payload.owner_login p) (Payload.name p)
                 (Payload.number p) i (snd (Controller.handlePullRequest E p w))))
    /\ StatusReport.reviewId report = i
    /\ StatusReport.pullRequest_id report = Payload.number p
    /\ match fst (Controller.processReviewAsync E (Payload.owner_login p) (Payload.name p)
                    (Payload.number p) i (snd (Controller.handlePullRequest E p w))) with
       | Ok _ => StatusReport.status report = completed
       | Throw e =>
           (StatusReport.status report = failed
            /\ StatusReport.errorMessage report = Some (err_message e))
           \/ (StatusReport.status report = in_progress
               /\ StatusReport.errorMessage report = None
               /\ exists doc,
                    e = validation_error E doc
                    /\ comments_valid E (Review.comments doc) = false)
       end.
Proof.
  intros Ho Hn Hresp Hmsg.
  assert (Hstarted : exists r : Review.t,
             resp = review_started r
             /\ Review.pullRequestId r = Payload.number p
             /\ Review.errorMessage r = None
             /\ fst (findById (Review._id r) (snd (Controller.handlePullRequest E p w)))
                = Ok (Some r)
             /\ find (has_key (Payload.owner_login p) (Payload.name p) (Payload.number p))
                  (reviews (snd (Controller.handlePullRequest E p w)))
                = Some r).
  { revert Hresp. rewrite handlePullRequest_run.
    destruct (negb (existsb (eqb_str (Payload.action p)) Controller.relevantActions));
      [intros H; injection H as <-; vm_compute in Hmsg; discriminate Hmsg|].
    destruct (find _ (reviews w)) as [r|] eqn:Hfind.
    - destruct (Status_eqb (Review.status r) completed
                && negb (eqb_str (Payload.action p) (js "synchronize")));
        [intros H; injection H as <-; vm_compute in Hmsg; discriminate Hmsg|].
      destruct (Payload.draft p);
        [intros H; injection H as <-; vm_compute in Hmsg; discriminate Hmsg|].
      cbv zeta. cbn [fst snd]. intros H. injection H as <-.
      pose proof (find_some _ _ Hfind) as [_ Hkey].
      eexists. split; [reflexivity|]. split.
      { apply has_key_eq in Hkey. unfold key in Hkey. cbn. congruence. }
      split; [reflexivity|].
      cbn [findById gets fst reviews]. split.
      + f_equal. match goal with |- _ = Some ?d => apply (find_upsert (reviews w) d) end.
      + match goal with
        | |- _ = Some ?d =>
            apply (find_key_upsert (Payload.owner_login p) (Payload.name p)
                     (Payload.number p) (reviews w) r d Hfind)
        end; [reflexivity|exact Hkey].
    - destruct (Payload.draft p);
        [intros H; injection H as <-; vm_compute in Hmsg; discriminate Hmsg|].
      cbv zeta. destruct (refused E _ (reviews w)); [discriminate|].
      cbn [fst snd]. intros H. injection H as <-.
      eexists. split; [reflexivity|]. split; [reflexivity|]. split; [reflexivity|].
      cbn [findById gets fst reviews]. split.
      + f_equal. match goal with |- _ = Some ?d => apply (find_upsert (reviews w) d) end.
      + match goal with
        | |- _ = Some ?d =>
            apply (find_key_upsert_new (Payload.owner_login p) (Payload.name p)
                     (Payload.number p) (reviews w) d Hfind)
        end.
        unfold has_key. cbn. now rewrite !eqb_str_refl, Z.eqb_refl. }
  destruct Hstarted as (r & -> & Hnum & Hnomsg & Hbyid & Hbykey).
  destruct (run_outcome_by_key (Payload.owner_login p) (Payload.name p) (Payload.number p)
              (Review._id r) (Payload.owner_login p) (Payload.name p) (Payload.number p)
              (snd (Controller.handlePullRequest E p w)) r Hbyid Hbykey)
    as (final & Hfinal & Hident & Hend).
  exists (Review._id r). eexists. split; [reflexivity|]. split.
  - unfold Endpoints.getReviewStatus.
    assert (Hm : Controller.missing (Some (Payload.owner_login p))
                 || Controller.missing (Some (Payload.name p)) = false).
    { destruct (Payload.owner_login p); [congruence|].
      destruct (Payload.name p); [congruence|]. reflexivity. }
    rewrite Hm. unfold bind, findByPR, gets.
    change (fun r1 : Review.t =>
              eqb_str (Review.owner r1) (Payload.owner_login p)
              && eqb_str (Review.repo r1) (Payload.name p)
              && (Review.pullRequestId r1 =? Payload.number p)%Z)
      with (has_key (Payload.owner_login p) (Payload.name p) (Payload.number p)).
    rewrite Hfinal. reflexivity.
  - cbn [StatusReport.reviewId StatusReport.pullRequest_id StatusReport.status
         StatusReport.errorMessage].
    unfold identity in Hident.
    split; [congruence|]. split; [congruence|].
    destruct (fst (Controller.processReviewAsync E (Payload.owner_login p) (Payload.name p)
                     (Payload.number p) (Review._id r)
                     (snd (Controller.handlePullRequest E p w))));
      [exact Hend|].
    destruct Hend as [Hfail | (Hst & Hmsg' & Hdoc)]; [left; exact Hfail|right].
    split; [exact Hst|]. split; [congruence|exact Hdoc].
Qed.

End Handlers.


(** ** The rate limit of the webhook endpoint *)

Section RateLimitProperties.

Import RateLimit.

Lemma eqb_str_neq (a b : jsstring) : a <> b -> eqb_str a b = false.
Proof.
  intros H. apply not_true_is_false. intros Heq. now apply eqb_str_eq in Heq.
Qed.

Lemma get_set_same (key : jsstring) (v : list Z) (t : Table) :
  get key (set key v t) = Some v.
Proof.
  induction t as [|[k v0] t IH]; cbn; [now rewrite eqb_str_refl|].
  destruct (eqb_str k key) eqn:Hk; cbn; now rewrite Hk.
Qed.

Lemma get_set_other (key key' : jsstring) (v : list Z) (t : Table) :
  key' <> key -> get key' (set key v t) = get key' t.
Proof.
  intros Hne. induction t as [|[k v0] t IH]; cbn.
  - now rewrite (eqb_str_neq key key') by congruence.
  - destruct (eqb_str k key) eqn:Hk; cbn.
    + apply eqb_str_eq in Hk. subst k. now rewrite (eqb_str_neq key key') by congruence.
    + now rewrite IH.
Qed.

Lemma in_keys_set (key k : jsstring) (v : list Z) (t : Table) :
  In k (map fst (set key v t)) -> k = key \/ In k (map fst t).
Proof.
  induction t as [|[k0 v0] t IH]; cbn.
  - intros [<-|[]]. now left.
  - destruct (eqb_str k0 key) eqn:Hk; cbn; intros [<-|H]; auto.
    apply IH in H. tauto.
Qed.

Lemma NoDup_keys_set (key : jsstring) (v : list Z) (t : Table) :
  NoDup (map fst t) -> NoDup (map fst (set key v t)).
Proof.
  induction t as [|[k0 v0] t IH]; cbn; intros Hnd.
  - constructor; [intros []|constructor].
  - inversion Hnd as [|? ? Hnotin Hnd']; subst.
    destruct (eqb_str k0 key) eqn:Hk; cbn; [now constructor|].
    constructor; [|now apply IH].
    intros Hin. apply in_keys_set in Hin as [->|Hin]; [|contradiction].
    now rewrite eqb_str_refl in Hk.
Qed.

Lemma get_notin (key : jsstring) (t : Table) :
  ~ In key (map fst t) -> get key t = None.
Proof.
  induction t as [|[k0 v0] t IH]; cbn; intros Hnotin; [reflexivity|].
  rewrite (eqb_str_neq k0 key) by tauto. apply IH. tauto.
Qed.

Lemma NoDup_keys_filter (p : jsstring * list Z -> bool) (t : Table) :
  NoDup (map fst t) -> NoDup (map fst (filter p t)).
Proof.
  induction t as [|kv t IH]; cbn; intros Hnd; [constructor|].
  inversion Hnd as [|? ? Hnotin Hnd']; subst.
  destruct (p kv); cbn; [|now apply IH].
  constructor; [|now apply IH].
  intros Hin. apply Hnotin. apply in_map_iff in Hin as (x & Hx & Hxin).
  apply filter_In in Hxin as [Hxin _]. rewrite <- Hx. now apply in_map.
Qed.

Lemma lookup_filter (p : list Z -> bool) (key : jsstring) (t : Table) :
  NoDup (map fst t) ->
  lookup key (filter (fun kv => p (snd kv)) t)
  = match get key t with
    | Some v => if p v then v else []
    | None => []
    end.
Proof.
  unfold lookup.
  induction t as [|[k0 v0] t IH]; cbn; intros Hnd; [reflexivity|].
  inversion Hnd as [|? ? Hnotin Hnd']; subst.
  destruct (eqb_str k0 key) eqn:Hk.
  - apply eqb_str_eq in Hk. subst k0.
    destruct (p v0); cbn; [now rewrite eqb_str_refl|].
    rewrite get_notin; [reflexivity|].
    intros Hin. apply Hnotin. apply in_map_iff in Hin as (x & Hx & Hxin).
    apply filter_In in Hxin as [Hxin _]. rewrite <- Hx. now apply in_map.
  - destruct (p v0); cbn; [rewrite Hk|]; now apply IH.
Qed.

Lemma recent_app (now : Z) (a b : list Z) :
  recent now (a ++ b) = recent now a ++ recent now b.
Proof. apply filter_app. Qed.

Lemma recent_recent (now now' : Z) (l : list Z) :
  (now <= now')%Z -> recent now' (recent now l) = recent now' l.
Proof.
  intros Hle. unfold recent. induction l as [|x l IH]; cbn [filter]; [reflexivity|].
  destruct (now - x <? windowMs)%Z eqn:Hx; cbn [filter]; rewrite IH; [reflexivity|].
  apply Z.ltb_ge in Hx.
  assert (H : (now' - x <? windowMs)%Z = false) by (apply Z.ltb_ge; lia).
  now rewrite H.
Qed.

Lemma recent_self (now' : Z) (l : list Z) :
  Forall (fun ts => (windowMs <= now' - ts)%Z) l -> recent now' l = [].
Proof.
  unfold recent. induction 1 as [|x l Hx _ IH]; cbn [filter]; [reflexivity|].
  assert (H : (now' - x <? windowMs)%Z = false) by (apply Z.ltb_ge; lia).
  now rewrite H.
Qed.

Lemma times_app (key : jsstring) (a b : list (jsstring * Z)) :
  times key (a ++ b) = times key a ++ times key b.
Proof. unfold times. now rewrite filter_app, map_app. Qed.

Lemma in_window_times (key : jsstring) (now : Z) (log : list (jsstring * Z)) :
  in_window key now log = length (recent now (times key log)).
Proof.
  unfold in_window, recent, times.
  induction log as [|[k t] log IH]; cbn [filter map fst snd andb length]; [reflexivity|].
  destruct (eqb_str k key); cbn [filter map fst snd andb length]; [|exact IH].
  destruct (now - t <? windowMs)%Z; cbn [length]; now rewrite IH.
Qed.

Lemma reflects_later (lastNow now : Z) (log : list (jsstring * Z)) (t : Table) :
  (lastNow <= now)%Z -> reflects lastNow log t -> reflects now log t.
Proof.
  intros Hle (H0 & H1 & H3 & H2). repeat split; auto.
  - intros key ts Hin. apply H1 in Hin. lia.
  - intros key now' Hnow'. apply H2. lia.
Qed.

Lemma reflects_cleanup (now : Z) (log : list (jsstring * Z)) (t : Table) :
  reflects now log t -> reflects now log (cleanup now t).
Proof.
  intros (H0 & H1 & H3 & H2). unfold cleanup.
  destruct (1000 <? length t); [|repeat split; auto].
  assert (Hl : forall key,
             lookup key (filter (fun kv => negb (expired now (snd kv))) t)
             = lookup key t
             \/ (lookup key (filter (fun kv => negb (expired now (snd kv))) t) = []
                 /\ expired now (lookup key t) = true)).
  { intros key. rewrite (lookup_filter (fun v => negb (expired now v)) key t H0).
    unfold lookup. destruct (get key t) as [v|]; [|now left].
    destruct (expired now v); cbn; auto. }
  split; [now apply NoDup_keys_filter|]. split; [|split].
  - intros key ts. destruct (Hl key) as [-> | [-> _]]; [apply H1|intros []].
  - intros key ts. destruct (Hl key) as [-> | [-> _]]; [apply H3|intros []].
  - intros key now' Hnow'. rewrite (H2 key now' Hnow').
    destruct (Hl key) as [-> | [-> Hexp]]; [reflexivity|].
    apply recent_self. apply Forall_forall. intros ts Hts.
    pose proof (H3 key ts Hts) as Hlast.
    unfold expired in Hexp. destruct (lookup key t) as [|x v]; [destruct Hts|].
    apply Z.ltb_lt in Hexp. unfold windowMs in *. lia.
Qed.

(** One request: the decision in terms of the log, and the table
    afterwards. *)
Lemma webhookRateLimit_step (lastNow : Z) (log : list (jsstring * Z)) (t : Table)
    (h : Hit) :
  reflects lastNow log t ->
  (lastNow <= at_ h)%Z ->
  reflects (at_ h)
    (log ++ counted [(h, fst (webhookRateLimit (delivery h) (ip h) (at_ h) t))])
    (snd (webhookRateLimit (delivery h) (ip h) (at_ h) t))
  /\ (Controller.missing (delivery h) = false ->
      (fst (webhookRateLimit (delivery h) (ip h) (at_ h) t) = Next
       <-> in_window (client (ip h)) (at_ h) log < maxRequests)).
Proof.
  intros Hinv Hle. pose proof (reflects_later _ _ _ _ Hle Hinv) as Hnow.
  unfold webhookRateLimit, counted. cbn [flat_map fst snd].
  destruct (Controller.missing (delivery h)) eqn:Hdel.
  { cbn [fst snd]. rewrite !app_nil_r. split; [exact Hnow|discriminate]. }
  cbv zeta. fold (lookup (client (ip h)) t). fold (recent (at_ h) (lookup (client (ip h)) t)).
  destruct Hnow as (H0 & H1 & H3 & H2).
  rewrite in_window_times, (H2 (client (ip h)) (at_ h) (Z.le_refl _)).
  destruct (maxRequests <=? length (recent (at_ h) (lookup (client (ip h)) t))) eqn:Hmax;
    cbn [fst snd].
  { rewrite !app_nil_r. split; [repeat split; auto|].
    intros _. apply Nat.leb_le in Hmax. split; [discriminate|lia]. }
  rewrite app_nil_r. apply Nat.leb_gt in Hmax.
  split; [|intros _; split; [intros _; exact Hmax|reflexivity]].
  apply reflects_cleanup.
  set (key := client (ip h)) in *. set (now := at_ h) in *.
  assert (Hl : forall key',
             lookup key' (set key (recent now (lookup key t) ++ [now]) t)
             = if eqb_str key key' then recent now (lookup key t) ++ [now]
               else lookup key' t).
  { intros key'. unfold lookup at 1. destruct (eqb_str key key') eqn:Hk.
    - apply eqb_str_eq in Hk. subst key'. now rewrite get_set_same.
    - rewrite get_set_other; [reflexivity|].
      intros ->. now rewrite eqb_str_refl in Hk. }
  assert (Hvalid : forall ts, In ts (recent now (lookup key t) ++ [now]) -> (ts <= now)%Z).
  { intros ts Hin. apply in_app_or in Hin as [Hin|[<-|[]]]; [|lia].
    apply filter_In in Hin as [Hin _]. now apply (H1 key). }
  split; [now apply NoDup_keys_set|]. split; [|split].
  - intros key' ts. rewrite Hl. destruct (eqb_str key key'); [apply Hvalid|apply H1].
  - intros key' ts. rewrite Hl. destruct (eqb_str key key'); [|apply H3].
    rewrite last_last. apply Hvalid.
  - intros key' now' Hnow'. rewrite Hl, times_app, recent_app.
    unfold times at 2. cbn [filter fst].
    destruct (eqb_str key key') eqn:Hk.
    + apply eqb_str_eq in Hk. subst key'. cbn [map snd].
      rewrite recent_app, (recent_recent now now') by exact Hnow'.
      now rewrite (H2 key now' Hnow').
    + cbn [map]. change (recent now' []) with (@nil Z). rewrite app_nil_r.
      apply H2. exact Hnow'.
Qed.

Lemma counted_cons (hd : Hit * Decision) (served : list (Hit * Decision)) :
  counted (hd :: served) = counted [hd] ++ counted served.
Proof. unfold counted. cbn [flat_map]. now rewrite app_nil_r. Qed.

Lemma serve_decisions (hits : list Hit) :
  forall (lastNow : Z) (log : list (jsstring * Z)) (t : Table)
         (pre post : list (Hit * Decision)) (h : Hit) (d : Decision),
    reflects lastNow log t ->
    nondecreasing lastNow (map at_ hits) ->
    serve hits t = pre ++ (h, d) :: post ->
    Controller.missing (delivery h) = false ->
    (d = Next <-> in_window (client (ip h)) (at_ h) (log ++ counted pre) < maxRequests).
Proof.
  induction hits as [|h0 hits IH]; intros lastNow log t pre post h d Hinv Hsorted Hserve Hdel.
  - destruct pre; discriminate.
  - cbn [map nondecreasing] in Hsorted. destruct Hsorted as [Hle Hsorted].
    destruct (webhookRateLimit_step lastNow log t h0 Hinv Hle) as [Hinv' Hdec].
    cbn [serve] in Hserve. destruct pre as [|hd pre].
    + cbn [app] in Hserve. injection Hserve as <- <- _.
      change (counted []) with (@nil (jsstring * Z)). rewrite app_nil_r. now apply Hdec.
    + cbn [app] in Hserve. injection Hserve as <- Hserve.
      rewrite counted_cons, app_assoc.
      exact (IH _ _ _ pre post h d Hinv' Hsorted Hserve Hdel).
Qed.

(** X16. The rate limit, in terms of the history.  On a process that
    starts with no table and whose clock never goes back, a request
    that carries a delivery id is let through if and only if fewer than
    100 requests of the same client (its IP address, or "unknown") were
    counted in the 60 seconds that end with it, a counted request being
    one that carried a delivery id and was let through; the clean-up of
    the table does not change this. *)
Theorem rate_limit_decides_by_window (from : Z) (hits : list Hit)
    (pre post : list (Hit * Decision)) (h : Hit) (d : Decision) :
  nondecreasing from (map at_ hits) ->
  serve hits [] = pre ++ (h, d) :: post ->
  Controller.missing (delivery h) = false ->
  (d = Next <-> in_window (client (ip h)) (at_ h) (counted pre) < maxRequests).
Proof.
  intros Hsorted Hserve Hdel.
  apply (serve_decisions hits from [] [] pre post h d); try assumption.
  repeat split; try constructor; intros ? ? [].
Qed.

End RateLimitProperties.


(** ** The validators of the webhook endpoint *)

Section ValidatorProperties.

Variable R : Runtime.t.

Lemma startsWith_skipn (s prefix : jsstring) :
  startsWith s prefix = true -> s = prefix ++ skipn (length prefix) s.
Proof.
  revert s. induction prefix as [|p prefix IH]; intros s H; [reflexivity|].
  destruct s as [|c s]; cbn in *; [discriminate|].
  apply andb_prop in H as [Hp H]. apply N.eqb_eq in Hp. subst c.
  f_equal. now apply IH.
Qed.

Lemma startsWith_prefix (prefix rest : jsstring) :
  startsWith (prefix ++ rest) prefix = true.
Proof.
  induction prefix as [|p prefix IH]; [now destruct rest|].
  cbn. now rewrite N.eqb_refl.
Qed.

Lemma skipn_prefix (prefix rest : jsstring) :
  skipn (length prefix) (prefix ++ rest) = rest.
Proof. induction prefix as [|p prefix IH]; [reflexivity|exact IH]. Qed.

(** When [verifySignature] accepts. *)
Lemma verifySignature_true (payload : Body) (signature secret : jsstring) :
  Validator.verifySignature R payload signature secret = true
  <-> exists hash expected,
        signature = Validator.sigHashPrefix ++ hash
        /\ Runtime.createHmac R secret payload = Ok expected
        /\ Validator.Buffer_from_hex hash = Validator.Buffer_from_hex expected.
Proof.
  unfold Validator.verifySignature. split.
  - destruct (startsWith signature Validator.sigHashPrefix) eqn:Hstart;
      cbn [negb]; [|discriminate].
    unfold and_then.
    destruct (Runtime.createHmac R secret payload) as [expected|e]; [|discriminate].
    cbv zeta.
    destruct (length _ =? length _) eqn:Hlen; cbn [negb]; [|discriminate].
    intros Heq. apply eqb_str_eq in Heq.
    exists (skipn (length Validator.sigHashPrefix) signature), expected.
    split; [now apply startsWith_skipn|]. now split.
  - intros (hash & expected & -> & Hmac & Heq).
    rewrite startsWith_prefix. cbn [negb]. unfold and_then. rewrite Hmac. cbv zeta.
    rewrite skipn_prefix, Heq, Nat.eqb_refl. cbn [negb]. apply eqb_str_refl.
Qed.

(** X17. With a webhook secret configured, [validateGitHubWebhook] lets
    a request through exactly when it carries the event and delivery
    headers and a signature header ["sha256=" ++ hash] such that the
    HMAC of the body under the secret can be computed and [hash]
    decodes, as hexadecimal, to the same bytes as its digest, the
    decoder reading of each character its low byte.  A request without
    signature, with another prefix, with a body that cannot be digested
    or with other bytes is answered without reaching the controller. *)
Theorem validateGitHubWebhook_admits (secret : jsstring) (req : Request.t) :
  secret <> [] ->
  ((exists info, Validator.validateGitHubWebhook R (Some secret) req = Continue info)
   <-> Controller.missing (Request.event req) = false
       /\ Controller.missing (Request.delivery req) = false
       /\ exists hash expected,
            Request.signature req = Some (Validator.sigHashPrefix ++ hash)
            /\ Runtime.createHmac R secret (Request.body req) = Ok expected
            /\ Validator.Buffer_from_hex hash = Validator.Buffer_from_hex expected).
Proof.
  intros Hsecret.
  assert (Hs : Controller.missing (Some secret) = false)
    by (destruct secret; [congruence|reflexivity]).
  unfold Validator.validateGitHubWebhook. cbv zeta. rewrite Hs. cbn [negb].
  split.
  - intros [info H].
    destruct (Controller.missing (Request.event req)); [discriminate|].
    destruct (Controller.missing (Request.delivery req)); [discriminate|].
    destruct (Request.signature req) as [sig|] eqn:Hsig; [|discriminate].
    destruct (Controller.missing (Some sig)); [discriminate|].
    cbn [Validator.text] in H.
    destruct (Validator.verifySignature R (Request.body req) sig secret) eqn:Hv;
      [|discriminate].
    apply verifySignature_true in Hv as (hash & expected & -> & Hmac & Heq).
    split; [reflexivity|]. split; [reflexivity|]. now exists hash, expected.
  - intros (-> & -> & hash & expected & -> & Hmac & Heq).
    cbn [Validator.text].
    assert (Hv : Validator.verifySignature R (Request.body req)
                   (Validator.sigHashPrefix ++ hash) secret = true)
      by (apply verifySignature_true; now exists hash, expected).
    rewrite Hv. cbn. eauto.
Qed.

(** A hexadecimal digit is a character below 256, which the decoder
    reads as it is. *)
Lemma unhex_digit (c v : N) : Validator.hex_digit c = Some v -> Validator.unhex c = Some v.
Proof.
  intros H. unfold Validator.unhex.
  assert (Hc : (c < 256)%N).
  { unfold Validator.hex_digit in H.
    destruct ((48 <=? c) && (c <=? 57))%N eqn:H1.
    - apply andb_prop in H1 as [_ H1]. apply N.leb_le in H1. lia.
    - destruct ((97 <=? c) && (c <=? 102))%N eqn:H2.
      + apply andb_prop in H2 as [_ H2]. apply N.leb_le in H2. lia.
      + destruct ((65 <=? c) && (c <=? 70))%N eqn:H3; [|discriminate].
        apply andb_prop in H3 as [_ H3]. apply N.leb_le in H3. lia. }
  now rewrite N.mod_small.
Qed.

Lemma Buffer_from_hex_trailing (junk : jsstring) :
  match junk with
  | [] => True
  | c :: rest => Validator.unhex c = None \/ rest = []
  end ->
  forall (n : nat) (h : jsstring),
    length h <= n ->
    Validator.hex_pairs h = true ->
    Validator.Buffer_from_hex (h ++ junk) = Validator.Buffer_from_hex h.
Proof.
  intros Hjunk. induction n as [|n IH]; intros h Hlen Hpairs.
  - destruct h; [|cbn in Hlen; lia]. cbn [app Validator.Buffer_from_hex].
    destruct junk as [|c [|d rest]]; try reflexivity.
    destruct Hjunk as [Hc|Hrest]; [|discriminate]. cbn. now rewrite Hc.
  - destruct h as [|a [|b h]]; [|discriminate|].
    + cbn [app Validator.Buffer_from_hex].
      destruct junk as [|c [|d rest]]; try reflexivity.
      destruct Hjunk as [Hc|Hrest]; [|discriminate]. cbn. now rewrite Hc.
    + cbn [app Validator.Buffer_from_hex Validator.hex_pairs] in *.
      destruct (Validator.hex_digit a) as [x|] eqn:Ha; [|discriminate].
      destruct (Validator.hex_digit b) as [y|] eqn:Hb; [|discriminate].
      rewrite (unhex_digit a x Ha), (unhex_digit b y Hb).
      f_equal. apply IH; [cbn in Hlen; lia|exact Hpairs].
Qed.

(** X18. The signature check reads the hexadecimal digits of the
    header only as far as they decode: when the digest of the body is
    made of pairs of hexadecimal digits, as a digest is, a signature
    header that holds the prefix, the digest and then any text that
    begins with a character in which the decoder reads no such digit,
    that is, whose low byte is none (or that is one single character),
    is accepted like the exact signature. *)
Theorem signature_with_trailing_text_is_accepted (secret : jsstring) (req : Request.t)
    (expected junk : jsstring) :
  secret <> [] ->
  Controller.missing (Request.event req) = false ->
  Controller.missing (Request.delivery req) = false ->
  Runtime.createHmac R secret (Request.body req) = Ok expected ->
  Validator.hex_pairs expected = true ->
  match junk with
  | [] => True
  | c :: rest => Validator.unhex c = None \/ rest = []
  end ->
  Request.signature req = Some (Validator.sigHashPrefix ++ expected ++ junk) ->
  Validator.validateGitHubWebhook R (Some secret) req
  = Continue (WebhookInfo.mk (Validator.text (Request.event req))
                (Validator.text (Request.delivery req))
                (Some (Validator.sigHashPrefix ++ expected ++ junk))).
Proof.
  intros Hsecret Hevent Hdelivery Hmac Hpairs Hjunk Hsig.
  assert (Hs : Controller.missing (Some secret) = false)
    by (destruct secret; [congruence|reflexivity]).
  unfold Validator.validateGitHubWebhook. cbv zeta.
  rewrite Hevent, Hdelivery, Hs, Hsig. cbn [negb Validator.text].
  assert (Hv : Validator.verifySignature R (Request.body req)
                 (Validator.sigHashPrefix ++ expected ++ junk) secret = true).
  { apply verifySignature_true. exists (expected ++ junk), expected.
    split; [reflexivity|]. split; [exact Hmac|].
    now apply (Buffer_from_hex_trailing junk Hjunk (length expected)). }
  rewrite Hv. reflexivity.
Qed.

(** What the checks let through. *)
Lemma check_payload_continue (info : WebhookInfo.t) (v payload : Value) :
  Validator.check_payload info v = Ok (Continue payload) ->
  v = payload
  /\ truthy payload = true
  /\ (WebhookInfo.event info = js "pull_request" ->
      exists pr repo,
        get_field payload (js "pull_request") = Ok pr /\ truthy pr = true
        /\ get_field payload (js "repository") = Ok repo /\ truthy repo = true)
  /\ (WebhookInfo.event info = js "pull_request_review" ->
      exists review pr repo,
        get_field payload (js "review") = Ok review /\ truthy review = true
        /\ get_field payload (js "pull_request") = Ok pr /\ truthy pr = true
        /\ get_field payload (js "repository") = Ok repo /\ truthy repo = true).
Proof.
  unfold Validator.check_payload. cbv zeta.
  destruct (truthy v) eqn:Htruthy; cbn [negb]; [|discriminate].
  unfold Validator.or_r, Validator.lacks, and_then.
  destruct (eqb_str (WebhookInfo.event info) (js "pull_request")) eqn:Hpr.
  - apply eqb_str_eq in Hpr.
    destruct (get_field v (js "pull_request")) as [pr|e] eqn:Hgpr; [|discriminate].
    destruct (truthy pr) eqn:Htpr; cbn [negb]; [|discriminate].
    destruct (get_field v (js "repository")) as [repo|e] eqn:Hgrepo; [|discriminate].
    destruct (truthy repo) eqn:Htrepo; cbn [negb]; [|discriminate].
    intros H. injection H as <-.
    split; [reflexivity|]. split; [exact Htruthy|]. split.
    + intros _. exists pr, repo. auto.
    + intros Hev. rewrite Hev in Hpr. vm_compute in Hpr. discriminate Hpr.
  - destruct (eqb_str (WebhookInfo.event info) (js "pull_request_review")) eqn:Hrev.
    + destruct (get_field v (js "review")) as [review|e] eqn:Hgrev; [|discriminate].
      destruct (truthy review) eqn:Htrev; cbn [negb]; [|discriminate].
      destruct (get_field v (js "pull_request")) as [pr|e] eqn:Hgpr; [|discriminate].
      destruct (truthy pr) eqn:Htpr; cbn [negb]; [|discriminate].
      destruct (get_field v (js "repository")) as [repo|e] eqn:Hgrepo; [|discriminate].
      destruct (truthy repo) eqn:Htrepo; cbn [negb]; [|discriminate].
      intros H. injection H as <-.
      split; [reflexivity|]. split; [exact Htruthy|]. split.
      * intros Hev. rewrite Hev, eqb_str_refl in Hpr. discriminate.
      * intros _. exists review, pr, repo. auto 10.
    + intros H. injection H as <-.
      split; [reflexivity|]. split; [exact Htruthy|]. split.
      * intros Hev. rewrite Hev, eqb_str_refl in Hpr. discriminate.
      * intros Hev. rewrite Hev, eqb_str_refl in Hrev. discriminate.
Qed.

Ltac answered := eexists; split; [reflexivity|first [exact I|reflexivity]].

(** The checks answer 400 when they answer, and they do not throw. *)
Lemma check_payload_reply (info : WebhookInfo.t) (v : Value) :
  exists outcome,
    Validator.check_payload info v = Ok outcome
    /\ match outcome with
       | Continue _ => True
       | Reply statusCode _ => statusCode = 400%Z
       end.
Proof.
  unfold Validator.check_payload. cbv zeta.
  destruct (truthy v) eqn:Htruthy; cbn [negb]; [|answered].
  assert (Hget : forall key, exists x, get_field v key = Ok x).
  { intros key. destruct v; cbn in *; try discriminate; eauto.
    destruct (find _ props); eauto. }
  unfold Validator.or_r, Validator.lacks, and_then.
  destruct (Hget (js "pull_request")) as [pr ->].
  destruct (Hget (js "repository")) as [repo ->].
  destruct (Hget (js "review")) as [review ->].
  destruct (eqb_str (WebhookInfo.event info) (js "pull_request")).
  - destruct (truthy pr); cbn [negb]; [|answered].
    destruct (truthy repo); cbn [negb]; answered.
  - destruct (eqb_str (WebhookInfo.event info) (js "pull_request_review")); [|answered].
    destruct (truthy review); cbn [negb]; [|answered].
    destruct (truthy pr); cbn [negb]; [|answered].
    destruct (truthy repo); cbn [negb]; answered.
Qed.

(** The three validators, one by one. *)

Lemma validateGitHubWebhook_cases (secret : option jsstring) (req : Request.t) :
  match Validator.validateGitHubWebhook R secret req with
  | Continue info =>
      info = WebhookInfo.mk (Validator.text (Request.event req))
               (Validator.text (Request.delivery req)) (Request.signature req)
      /\ WebhookInfo.event info <> []
      /\ WebhookInfo.delivery info <> []
      /\ Some (WebhookInfo.delivery info) = Request.delivery req
      /\ (Controller.missing secret = false ->
          Validator.verifySignature R (Request.body req)
            (Validator.text (Request.signature req)) (Validator.text secret) = true)
  | Reply statusCode _ => statusCode = 400%Z \/ statusCode = 401%Z
  end.
Proof.
  unfold Validator.validateGitHubWebhook. cbv zeta.
  destruct (Controller.missing (Request.event req)) eqn:Hevent; [now left|].
  destruct (Controller.missing (Request.delivery req)) eqn:Hdelivery; [now left|].
  assert (Hfacts : Validator.text (Request.event req) <> []
                   /\ Validator.text (Request.delivery req) <> []
                   /\ Some (Validator.text (Request.delivery req)) = Request.delivery req).
  { destruct (Request.event req) as [[|c s]|]; try discriminate.
    destruct (Request.delivery req) as [[|d s']|]; try discriminate.
    cbn. repeat split; discriminate. }
  destruct Hfacts as (Hev & Hdl & Hdel).
  destruct (Controller.missing secret) eqn:Hsecret; cbn [negb].
  - cbn [WebhookInfo.event WebhookInfo.delivery]. repeat split; auto. discriminate.
  - destruct (Controller.missing (Request.signature req)); [now right|].
    destruct (Validator.verifySignature R (Request.body req)
                (Validator.text (Request.signature req)) (Validator.text secret)) eqn:Hv;
      cbn [negb]; [|now right].
    cbn [WebhookInfo.event WebhookInfo.delivery]. repeat split; auto.
Qed.

Lemma validateWebhookPayload_cases (info : WebhookInfo.t) (body : Body) :
  match Validator.validateWebhookPayload R info body with
  | Continue payload =>
      truthy payload = true
      /\ match body with
         | BodyBuffer bytes =>
             Runtime.JSON_parse R (Runtime.toString R bytes) = Ok payload
         | BodyOther v => v = payload
         end
      /\ (WebhookInfo.event info = js "pull_request" ->
          exists pr repo,
            get_field payload (js "pull_request") = Ok pr /\ truthy pr = true
            /\ get_field payload (js "repository") = Ok repo /\ truthy repo = true)
      /\ (WebhookInfo.event info = js "pull_request_review" ->
          exists review pr repo,
            get_field payload (js "review") = Ok review /\ truthy review = true
            /\ get_field payload (js "pull_request") = Ok pr /\ truthy pr = true
            /\ get_field payload (js "repository") = Ok repo /\ truthy repo = true)
  | Reply statusCode _ => statusCode = 400%Z
  end.
Proof.
  assert (Hchecked : forall v,
             match match Validator.check_payload info v with
                   | Ok outcome => outcome
                   | Throw _ => Reply 500 (js "Internal server error")
                   end with
             | Continue payload =>
                 v = payload
                 /\ truthy payload = true
                 /\ (WebhookInfo.event info = js "pull_request" ->
                     exists pr repo,
                       get_field payload (js "pull_request") = Ok pr /\ truthy pr = true
                       /\ get_field payload (js "repository") = Ok repo
                       /\ truthy repo = true)
                 /\ (WebhookInfo.event info = js "pull_request_review" ->
                     exists review pr repo,
                       get_field payload (js "review") = Ok review /\ truthy review = true
                       /\ get_field payload (js "pull_request") = Ok pr /\ truthy pr = true
                       /\ get_field payload (js "repository") = Ok repo
                       /\ truthy repo = true)
             | Reply statusCode _ => statusCode = 400%Z
             end).
  { intros v. destruct (check_payload_reply info v) as (outcome & Hcheck & Hout).
    rewrite Hcheck. destruct outcome as [payload|code msg]; [|exact Hout].
    now apply check_payload_continue. }
  unfold Validator.validateWebhookPayload. destruct body as [bytes|v].
  - destruct (Runtime.JSON_parse R (Runtime.toString R bytes)) as [v|e]; [|reflexivity].
    specialize (Hchecked v).
    destruct (match Validator.check_payload info v with
              | Ok outcome => outcome
              | Throw _ => Reply 500 (js "Internal server error")
              end) as [payload|code msg]; [|exact Hchecked].
    destruct Hchecked as (-> & Htruthy & Hpr & Hrev). auto.
  - specialize (Hchecked v).
    destruct (match Validator.check_payload info v with
              | Ok outcome => outcome
              | Throw _ => Reply 500 (js "Internal server error")
              end) as [payload|code msg]; [|exact Hchecked].
    destruct Hchecked as (-> & Htruthy & Hpr & Hrev). auto.
Qed.

Lemma webhookRateLimit_rejects (delivery ip : option jsstring) (now : Z)
    (requests requests' : RateLimit.Table) :
  RateLimit.webhookRateLimit delivery ip now requests
  = (RateLimit.TooManyRequests, requests') ->
  requests' = requests.
Proof.
  unfold RateLimit.webhookRateLimit.
  destruct (Controller.missing delivery); [discriminate|]. cbv zeta.
  destruct (RateLimit.maxRequests <=? _); [|discriminate].
  intros H. now injection H.
Qed.

(** X19. What reaches the controller.  A request that the three
    validators of the webhook route let through has the event and
    delivery headers; its signature was verified when a secret is
    configured; the rate limit let it through; its payload, parsed from
    the raw body when there is one, is truthy and, for the events
    pull_request and pull_request_review, holds the objects that the
    handler of the event reads.  A request that is refused is answered
    400, 401 or 429, never 500, and when the answer is 401 or 429 the
    table of the rate limit is left as it was. *)
Theorem webhookValidator_outcomes (secret : option jsstring) (now : Z)
    (requests : RateLimit.Table) (req : Request.t) :
  match fst (Validator.webhookValidator R secret now requests req) with
  | Continue (info, payload) =>
      info = WebhookInfo.mk (Validator.text (Request.event req))
               (Validator.text (Request.delivery req)) (Request.signature req)
      /\ WebhookInfo.event info <> []
      /\ WebhookInfo.delivery info <> []
      /\ (Controller.missing secret = false ->
          Validator.verifySignature R (Request.body req)
            (Validator.text (Request.signature req)) (Validator.text secret) = true)
      /\ RateLimit.webhookRateLimit (Request.delivery req) (Request.ip req) now requests
         = (RateLimit.Next, snd (Validator.webhookValidator R secret now requests req))
      /\ truthy payload = true
      /\ match Request.body req with
         | BodyBuffer bytes =>
             Runtime.JSON_parse R (Runtime.toString R bytes) = Ok payload
         | BodyOther v => v = payload
         end
      /\ (WebhookInfo.event info = js "pull_request" ->
          exists pr repo,
            get_field payload (js "pull_request") = Ok pr /\ truthy pr = true
            /\ get_field payload (js "repository") = Ok repo /\ truthy repo = true)
      /\ (WebhookInfo.event info = js "pull_request_review" ->
          exists review pr repo,
            get_field payload (js "review") = Ok review /\ truthy review = true
            /\ get_field payload (js "pull_request") = Ok pr /\ truthy pr = true
            /\ get_field payload (js "repository") = Ok repo /\ truthy repo = true)
  | Reply statusCode _ =>
      (statusCode = 400 \/ statusCode = 401 \/ statusCode = 429)%Z
      /\ (statusCode = 401%Z \/ statusCode = 429%Z ->
          snd (Validator.webhookValidator R secret now requests req) = requests)
  end.
Proof.
  unfold Validator.webhookValidator.
  pose proof (validateGitHubWebhook_cases secret req) as Hfirst.
  destruct (Validator.validateGitHubWebhook R secret req) as [info|code msg].
  2:{ cbn [fst snd]. split; [tauto|reflexivity]. }
  destruct Hfirst as (Hinfo & Hevent & Hdelivery & Hdel & Hsig). rewrite Hdel.
  destruct (RateLimit.webhookRateLimit (Request.delivery req) (Request.ip req) now requests)
    as [[|] requests'] eqn:Hlimit; cbn [fst snd].
  2:{ split; [auto|]. intros _. now apply webhookRateLimit_rejects in Hlimit. }
  pose proof (validateWebhookPayload_cases info (Request.body req)) as Hlast.
  destruct (Validator.validateWebhookPayload R info (Request.body req))
    as [payload|code msg].
  - destruct Hlast as (Htruthy & Hbody & Hpr & Hrev). auto 10.
  - subst code. split; [auto|]. intros [H|H]; discriminate H.
Qed.

End ValidatorProperties.


(** ** The handlers and the validators on the sample environment *)

(** The store refuses a new record without repository name; the
    handler throws and nothing is written. *)
Lemma unnamed_repository_is_refused :
  Controller.handlePullRequest (Sample.env Sample.gemini_empty) Sample.unnamed Sample.world0
  = (Throw (AppError (js "Failed to process PR webhook: Review validation failed: repository: Path `repository` is required.") 500),
     mkWorld [] [] 1 0 None 2).
Proof. vm_compute. reflexivity. Qed.

(** The character U+0131 counts as the digit 1 that its low byte
    spells. *)
Lemma wide_character_reads_as_its_low_byte :
  Validator.Buffer_from_hex [305; 49]%N = [17]%N.
Proof. reflexivity. Qed.

Lemma retryReview_outcomes_sample :
  fst (Controller.retryReview (Sample.env Sample.gemini_empty) 7
         (Some (js "octo")) (Some (js "demo")) (Sample.world_with Sample.failed_record))
  = Ok (Response.mk 200 (js "Review retry initiated")
          (Some (Review._id Sample.failed_record))
          (Some (Review.retryCount Sample.failed_record + 1)%N)).
Proof.
  apply (proj2 (retryReview_outcomes (Sample.env Sample.gemini_empty) 7
                  (Some (js "octo")) (Some (js "demo"))
                  (Sample.world_with Sample.failed_record))
           (js "octo") (js "demo") Sample.failed_record).
  - reflexivity.
  - reflexivity.
  - discriminate.
  - discriminate.
  - reflexivity.
  - right. left. reflexivity.
Defined.

Lemma started_review_is_reported_sample :
  exists (i : nat) (report : StatusReport.t),
    Response.reviewId (Response.mk 200 (js "PR review started") (Some 1) None) = Some i
    /\ Endpoints.getReviewStatus 7 (Some (js "octo")) (Some (js "demo"))
         (snd (Controller.processReviewAsync (Sample.env Sample.gemini_bad_key)
                 (js "octo") (js "demo") 7 i
                 (snd (Controller.handlePullRequest (Sample.env Sample.gemini_bad_key)
                         Sample.opened Sample.world0))))
       = (Ok report,
          snd (Controller.processReviewAsync (Sample.env Sample.gemini_bad_key)
                 (js "octo") (js "demo") 7 i
                 (snd (Controller.handlePullRequest (Sample.env Sample.gemini_bad_key)
                         Sample.opened Sample.world0))))
    /\ StatusReport.reviewId report = i
    /\ StatusReport.pullRequest_id report = 7%Z
    /\ match fst (Controller.processReviewAsync (Sample.env Sample.gemini_bad_key)
                    (js "octo") (js "demo") 7 i
                    (snd (Controller.handlePullRequest (Sample.env Sample.gemini_bad_key)
                            Sample.opened Sample.world0))) with
       | Ok _ => StatusReport.status report = completed
       | Throw e =>
           (StatusReport.status report = failed
            /\ StatusReport.errorMessage report = Some (err_message e))
           \/ (StatusReport.status report = in_progress
               /\ StatusReport.errorMessage report = None
               /\ exists doc,
                    e = validation_error (Sample.env Sample.gemini_bad_key) doc
                    /\ comments_valid (Sample.env Sample.gemini_bad_key)
                         (Review.comments doc) = false)
       end.
Proof.
  apply (started_review_is_reported (Sample.env Sample.gemini_bad_key) Sample.opened
           Sample.world0 (Response.mk 200 (js "PR review started") (Some 1) None)).
  - discriminate.
  - discriminate.
  - reflexivity.
  - reflexivity.
Defined.

Lemma rate_limit_decides_by_window_sample :
  RateLimit.TooManyRequests = RateLimit.Next
  <-> RateLimit.in_window (js "203.0.113.7") 1000
        (RateLimit.counted (repeat (Sample4.hit, RateLimit.Next) 100))
      < RateLimit.maxRequests.
Proof.
  apply (rate_limit_decides_by_window 0 Sample4.burst
           (repeat (Sample4.hit, RateLimit.Next) 100) [] Sample4.hit
           RateLimit.TooManyRequests).
  - unfold Sample4.burst.
    cbn [repeat map RateLimit.nondecreasing RateLimit.at_ Sample4.hit].
    repeat split; lia.
  - vm_compute. reflexivity.
  - reflexivity.
Defined.

Lemma validateGitHubWebhook_admits_sample :
  (exists info,
      Validator.validateGitHubWebhook Sample4.runtime (Some (js "s3cret"))
        (Sample4.request (js "sha256=00C0FFEE")) = Continue info)
  <-> Controller.missing (Request.event (Sample4.request (js "sha256=00C0FFEE"))) = false
      /\ Controller.missing (Request.delivery (Sample4.request (js "sha256=00C0FFEE")))
         = false
      /\ exists hash expected,
           Request.signature (Sample4.request (js "sha256=00C0FFEE"))
           = Some (Validator.sigHashPrefix ++ hash)
           /\ Runtime.createHmac Sample4.runtime (js "s3cret")
                (Request.body (Sample4.request (js "sha256=00C0FFEE"))) = Ok expected
           /\ Validator.Buffer_from_hex hash = Validator.Buffer_from_hex expected.
Proof.
  apply (validateGitHubWebhook_admits Sample4.runtime (js "s3cret")
           (Sample4.request (js "sha256=00C0FFEE"))).
  discriminate.
Defined.

Lemma signature_with_trailing_text_is_accepted_sample :
  Validator.validateGitHubWebhook Sample4.runtime (Some (js "s3cret"))
    (Sample4.request (js "sha256=00c0ffee-and-more"))
  = Continue (WebhookInfo.mk (js "pull_request")
                (js "72d3162e-cc78-11e3-81ab-4c9367dc0958")
                (Some (js "sha256=00c0ffee-and-more"))).
Proof.
  apply (signature_with_trailing_text_is_accepted Sample4.runtime (js "s3cret")
           (Sample4.request (js "sha256=00c0ffee-and-more")) (js "00c0ffee")
           (js "-and-more")).
  - discriminate.
  - reflexivity.
  - reflexivity.
  - reflexivity.
  - reflexivity.
  - left. reflexivity.
  - reflexivity.
Defined.


(** ** The position of a line in a patch *)

Section PatchProperties.

Variable parseInt : jsstring -> float.

(** The line that [scan] answers with. *)
Lemma scan_position (lineNumber : float) (patchLines : list jsstring) :
  forall (position : nat) (currentLine : float) (inHunk : bool) (p : nat),
    Patch.scan parseInt patchLines lineNumber position currentLine inHunk = Some p ->
    exists (k : nat) (line : jsstring),
      p = position + k
      /\ nth_error patchLines k = Some line
      /\ startsWith line (js "+") = true
      /\ startsWith line (js "@@") = false
      /\ (inHunk = true
          \/ exists (i : nat) (header : jsstring),
               i < k
               /\ nth_error patchLines i = Some header
               /\ startsWith header (js "@@") = true
               /\ Patch.match_hunk header <> None).
Proof.
  induction patchLines as [|line rest IH]; intros position currentLine inHunk p Hscan;
    [discriminate|].
  cbn [Patch.scan] in Hscan.
  (* a line that is passed over *)
  assert (Hskip : forall cur hunk,
             Patch.scan parseInt rest lineNumber (S position) cur hunk = Some p ->
             (hunk = true ->
              inHunk = true
              \/ (startsWith line (js "@@") = true /\ Patch.match_hunk line <> None)) ->
             exists (k : nat) (line' : jsstring),
               p = position + k
               /\ nth_error (line :: rest) k = Some line'
               /\ startsWith line' (js "+") = true
               /\ startsWith line' (js "@@") = false
               /\ (inHunk = true
                   \/ exists (i : nat) (header : jsstring),
                        i < k
                        /\ nth_error (line :: rest) i = Some header
                        /\ startsWith header (js "@@") = true
                        /\ Patch.match_hunk header <> None)).
  { intros cur hunk Hrest Hhunk.
    destruct (IH _ _ _ _ Hrest) as (k & line' & -> & Hnth & Hplus & Hat & Hin).
    exists (S k), line'. split; [lia|]. split; [exact Hnth|]. split; [exact Hplus|].
    split; [exact Hat|].
    destruct Hin as [Hh | (i & header & Hi & Hnthi & Hstart & Hmatch)].
    - destruct (Hhunk Hh) as [Hyes | [Hstart Hmatch]]; [now left|].
      right. exists 0, line. split; [lia|]. now split.
    - right. exists (S i), header. split; [lia|]. now split. }
  destruct (startsWith line (js "@@")) eqn:Hat.
  - destruct (Patch.match_hunk line) as [m|] eqn:Hm.
    + apply (Hskip _ _ Hscan). intros _. right. split; [reflexivity|discriminate].
    + apply (Hskip _ _ Hscan). intros Hh. now left.
  - destruct inHunk; cbn [negb] in Hscan.
    2:{ apply (Hskip _ _ Hscan). intros Hh. discriminate Hh. }
    destruct (startsWith line (js "+")) eqn:Hplus.
    + cbv zeta in Hscan.
      destruct (PrimFloat.eqb (currentLine + 1) lineNumber).
      * injection Hscan as <-. exists 0, line. split; [lia|]. split; [reflexivity|].
        split; [exact Hplus|]. split; [exact Hat|]. now left.
      * apply (Hskip _ _ Hscan). intros _. now left.
    + destruct (startsWith line (js " "));
        apply (Hskip _ _ Hscan); intros _; now left.
Qed.

(** X20. When [getLinePosition] answers with a position, the listing
    of the files succeeded, the comment names, by a string, a file of
    the listing that has a patch, and the position is the index, among
    the lines of that patch, of a line that starts with "+", which is an
    added line and no hunk header, and that comes after a hunk header
    of the form that the code reads the line numbers from.  In every
    other case the answer is [null]: no position is made up. *)
Theorem getLinePosition_designates_added_line (listFiles : Result (list PullFile.t))
    (filePath : Value) (lineNumber : float) (position : nat) :
  Patch.getLinePosition parseInt listFiles filePath lineNumber = Some position ->
  exists (files : list PullFile.t) (file : PullFile.t) (patch line : jsstring),
    listFiles = Ok files
    /\ In file files
    /\ filePath = VStr (PullFile.filename file)
    /\ PullFile.patch file = Some patch
    /\ nth_error (Patch.split_lines patch) position = Some line
    /\ startsWith line (js "+") = true
    /\ startsWith line (js "@@") = false
    /\ exists (i : nat) (header : jsstring),
         i < position
         /\ nth_error (Patch.split_lines patch) i = Some header
         /\ startsWith header (js "@@") = true
         /\ Patch.match_hunk header <> None.
Proof.
  unfold Patch.getLinePosition.
  destruct listFiles as [files|e]; [|discriminate].
  destruct (find (Patch.is_file filePath) files) as [file|] eqn:Hfind; [|discriminate].
  destruct (PullFile.patch file) as [patch|] eqn:Hpatch; [|discriminate].
  destruct (Controller.missing (Some patch)); [discriminate|].
  intros Hscan. apply scan_position in Hscan
    as (k & line & -> & Hnth & Hplus & Hat & [Hh | Hheader]); [discriminate Hh|].
  apply find_some in Hfind as [Hin Hfile].
  exists files, file, patch, line. split; [reflexivity|]. split; [exact Hin|].
  split.
  { unfold Patch.is_file in Hfile. destruct filePath; try discriminate.
    apply eqb_str_eq in Hfile. now subst. }
  split; [exact Hpatch|]. cbn [Nat.add]. auto.
Qed.

End PatchProperties.

Lemma getLinePosition_designates_added_line_sample :
  exists (files : list PullFile.t) (file : PullFile.t) (patch line : jsstring),
    Ok Sample5.files = Ok files
    /\ In file files
    /\ VStr (js "src/app.js") = VStr (PullFile.filename file)
    /\ PullFile.patch file = Some patch
    /\ nth_error (Patch.split_lines patch) 6 = Some line
    /\ startsWith line (js "+") = true
    /\ startsWith line (js "@@") = false
    /\ exists (i : nat) (header : jsstring),
         i < 6
         /\ nth_error (Patch.split_lines patch) i = Some header
         /\ startsWith header (js "@@") = true
         /\ Patch.match_hunk header <> None.
Proof.
  apply (getLinePosition_designates_added_line Sample5.parseInt (Ok Sample5.files)
           (VStr (js "src/app.js")) 11%float 6).
  vm_compute. reflexivity.
Defined.


(** ** The database connection *)

Section DatabaseProperties.

Import Database.

Lemma connect_bounded (answer : Result unit) (db : t) :
  retryCount db <= maxRetries -> retryCount (snd (connect answer db)) <= maxRetries.
Proof.
  intros H. unfold connect.
  destruct (isConnected db); [exact H|].
  destruct answer; [cbn; lia|].
  destruct (retryCount db <? maxRetries) eqn:Hlt; cbn; [|exact H].
  apply Nat.ltb_lt in Hlt. lia.
Qed.

Lemma handleReconnect_bounded (db : t) :
  retryCount db <= maxRetries -> retryCount (handleReconnect db) <= maxRetries.
Proof.
  intros H. unfold handleReconnect.
  destruct (maxRetries <=? retryCount db) eqn:Hle; [exact H|].
  apply Nat.leb_gt in Hle. cbn. lia.
Qed.

Lemma iter_bounded (f : t -> t) (n : nat) (db : t) :
  (forall d, retryCount d <= maxRetries -> retryCount (f d) <= maxRetries) ->
  retryCount db <= maxRetries -> retryCount (Nat.iter n f db) <= maxRetries.
Proof.
  intros Hf H. induction n as [|n IH]; [exact H|]. cbn. now apply Hf.
Qed.

Lemma act_bounded (a : Action) (db : t) :
  retryCount db <= maxRetries -> retryCount (snd (act a db)) <= maxRetries.
Proof.
  intros H. destruct a; cbn [act snd].
  - now apply connect_bounded.
  - unfold fire. destruct (timers db) as [|[|] rest]; [exact H| |];
      cbn [snd]; now apply connect_bounded.
  - apply iter_bounded; [intros d Hd; exact Hd|exact H].
  - apply iter_bounded; [|exact H]. intros d Hd. now apply handleReconnect_bounded.
  - apply iter_bounded; [intros d Hd; cbn; lia|exact H].
Qed.

(** What an action throws, and when. *)
Lemma act_throws (a : Action) (db : t) (e : JsError) :
  fst (act a db) = Throw e ->
  e = gave_up
  /\ maxRetries <= retryCount db
  /\ isConnected db = false
  /\ isConnected (snd (act a db)) = false
  /\ retryCount (snd (act a db)) = retryCount db
  /\ exists error,
       a = CallConnect (Throw error)
       \/ (a = TimerFires (Throw error) /\ exists rest, timers db = RetryConnect :: rest).
Proof.
  assert (Hconnect : forall answer d,
             fst (connect answer d) = Throw e ->
             e = gave_up /\ maxRetries <= retryCount d /\ isConnected d = false
             /\ isConnected (snd (connect answer d)) = false
             /\ retryCount (snd (connect answer d)) = retryCount d
             /\ exists error, answer = Throw error).
  { intros answer d. unfold connect.
    destruct (isConnected d); [discriminate|].
    destruct answer as [|error]; [discriminate|].
    destruct (retryCount d <? maxRetries) eqn:Hlt; [discriminate|].
    apply Nat.ltb_ge in Hlt. cbn. intros H. injection H as <-. eauto 10. }
  destruct a; cbn [act fst snd]; try discriminate.
  - intros H. destruct (Hconnect _ _ H) as (-> & Hmax & Hoff & Hoff' & Hsame & error & ->).
    eauto 10.
  - unfold fire. destruct (timers db) as [|[|] rest] eqn:Ht; try discriminate.
    intros H. destruct (Hconnect _ _ H) as (-> & Hmax & Hoff & Hoff' & Hsame & error & ->).
    cbn in *. eauto 12.
Qed.

Lemma run_cons (a : Action) (actions : list Action) (db : t) :
  run (a :: actions) db
  = (fst (act a db) :: fst (run actions (snd (act a db))),
     snd (run actions (snd (act a db)))).
Proof. cbn [run]. now destruct (run actions (snd (act a db))). Qed.

Lemma run_bounded (actions : list Action) :
  forall db, retryCount db <= maxRetries ->
             retryCount (snd (run actions db)) <= maxRetries.
Proof.
  induction actions as [|a actions IH]; intros db H; [exact H|].
  rewrite run_cons. cbn [snd]. apply IH. now apply act_bounded.
Qed.

(** X21. Whatever has happened to the connection object since its
    construction (calls of [connect], timers that fired, events of the
    connection, with any answers of the database), [retryCount] does
    not exceed [maxRetries], and the next thing that happens throws
    only if it is an attempt to connect that fails while the object is
    not connected and has counted all five retries; what it throws is
    then "Database connection failed after maximum retries".  So a call
    of [connect] made before that, as at startup, returns even when the
    database is down. *)
Theorem database_retries_bounded (past : list Action) (a : Action) (e : JsError) :
  retryCount (snd (run past initial)) <= maxRetries
  /\ (fst (act a (snd (run past initial))) = Throw e ->
      e = gave_up
      /\ retryCount (snd (run past initial)) = maxRetries
      /\ isConnected (snd (run past initial)) = false
      /\ exists error, a = CallConnect (Throw error) \/ a = TimerFires (Throw error)).
Proof.
  assert (Hle : retryCount (snd (run past initial)) <= maxRetries)
    by (apply run_bounded; cbn; lia).
  split; [exact Hle|]. intros Hthrow.
  apply act_throws in Hthrow as (-> & Hmax & Hoff & _ & _ & error & Ha).
  split; [reflexivity|]. split; [lia|]. split; [exact Hoff|].
  exists error. destruct Ha as [Ha | [Ha _]]; auto.
Qed.

(** The timers of a database that stays down: with [k] retries counted
    and one retry pending, [6 - k] failed attempts end the series. *)
Lemma failing_timers (errors : list JsError) :
  forall (db : t),
    isConnected db = false ->
    timers db = [RetryConnect] ->
    retryCount db <= maxRetries ->
    retryCount db + length errors = S maxRetries ->
    run (failing errors) db
    = (repeat (Ok tt) (maxRetries - retryCount db) ++ [Throw gave_up],
       mk false maxRetries (listeners db) []).
Proof.
  induction errors as [|error errors IH]; intros db Hoff Htimers Hle Hcount.
  - cbn in Hcount. lia.
  - cbn [failing map] in *. rewrite run_cons.
    cbn [act]. unfold fire. rewrite Htimers. unfold connect.
    cbn [isConnected retryCount listeners timers]. rewrite Hoff.
    destruct (retryCount db <? maxRetries) eqn:Hlt.
    + apply Nat.ltb_lt in Hlt. cbn [fst snd app]. fold (failing errors).
      rewrite (IH (mk false (S (retryCount db)) (listeners db) [RetryConnect]));
        [|reflexivity|reflexivity|cbn; lia|cbn in *; lia].
      cbn [fst snd retryCount listeners].
      replace (maxRetries - retryCount db) with (S (maxRetries - S (retryCount db))) by lia.
      reflexivity.
    + apply Nat.ltb_ge in Hlt. cbn [fst snd length] in *.
      assert (Hrc : retryCount db = maxRetries) by lia.
      destruct errors; [|cbn in Hcount; lia].
      rewrite Hrc, Nat.sub_diag. reflexivity.
Qed.

Lemma iter_fixed {A : Type} (f : A -> A) (x : A) (n : nat) :
  f x = x -> Nat.iter n f x = x.
Proof.
  intros H. induction n as [|n IH]; [reflexivity|].
  change (f (Nat.iter n f x) = x). now rewrite IH.
Qed.

Lemma on_disconnected_gave_up (n : nat) (timers : list Timer) :
  on_disconnected (mk false maxRetries n timers) = mk false maxRetries n timers.
Proof. unfold on_disconnected. apply iter_fixed. reflexivity. Qed.

(** X22. A database that stays down.  From an object that is not
    connected, has no timer pending and has counted [k] retries, a call
    of [connect] and the timers that follow make [6 - k] attempts when
    every one of them fails.  All but the last return, the call of
    [connect] included when [k] is less than five; the last one throws
    "Database connection failed after maximum retries", from a timer
    callback, where nothing handles it.  After it no timer is pending,
    and a later 'disconnected' event sets none: the object does not try
    again by itself. *)
Theorem database_gives_up (e0 : JsError) (errors : list JsError) (db : t) :
  isConnected db = false ->
  timers db = [] ->
  retryCount db + length errors = maxRetries ->
  run (CallConnect (Throw e0) :: failing errors) db
  = (repeat (Ok tt) (maxRetries - retryCount db) ++ [Throw gave_up],
     mk false maxRetries (listeners db) [])
  /\ act DisconnectedEvent (mk false maxRetries (listeners db) [])
     = (Ok tt, mk false maxRetries (listeners db) []).
Proof.
  intros Hoff Htimers Hcount.
  split; [|cbn [act]; now rewrite on_disconnected_gave_up].
  rewrite run_cons. cbn [act]. unfold connect. rewrite Hoff, Htimers.
  destruct (retryCount db <? maxRetries) eqn:Hlt.
  - apply Nat.ltb_lt in Hlt. cbn [fst snd app].
    rewrite (failing_timers errors (mk false (S (retryCount db)) (listeners db)
                                      [RetryConnect]));
      [|reflexivity|reflexivity|cbn; lia|cbn; lia].
    cbn [fst snd retryCount listeners].
    replace (maxRetries - retryCount db) with (S (maxRetries - S (retryCount db))) by lia.
    reflexivity.
  - apply Nat.ltb_ge in Hlt.
    assert (Hrc : retryCount db = maxRetries) by lia.
    destruct errors; [|cbn in Hcount; lia].
    cbn [failing map run fst snd]. rewrite Hrc, Nat.sub_diag. reflexivity.
Qed.

End DatabaseProperties.

Lemma database_gives_up_sample :
  Database.run
    (Database.CallConnect (Throw (Error_ (js "connect ECONNREFUSED 127.0.0.1:27017")))
     :: Database.failing (repeat (Error_ (js "connect ECONNREFUSED 127.0.0.1:27017")) 5))
    Database.initial
  = (repeat (Ok tt) (Database.maxRetries - Database.retryCount Database.initial)
     ++ [Throw Database.gave_up],
     Database.mk false Database.maxRetries (Database.listeners Database.initial) [])
  /\ Database.act Database.DisconnectedEvent
       (Database.mk false Database.maxRetries (Database.listeners Database.initial) [])
     = (Ok tt, Database.mk false Database.maxRetries (Database.listeners Database.initial) []).
Proof.
  apply (database_gives_up (Error_ (js "connect ECONNREFUSED 127.0.0.1:27017"))
           (repeat (Error_ (js "connect ECONNREFUSED 127.0.0.1:27017")) 5)
           Database.initial).
  - reflexivity.
  - reflexivity.
  - reflexivity.
Defined.


Section SignatureRoundTrip.

Variable R : Runtime.t.

(** X23. What the test sender signs, the validator accepts: a request
    that has the event and delivery headers, whose body is the payload
    and whose signature header is what [generateSignature] computes for
    that payload under the configured secret, passes
    [validateGitHubWebhook]. *)
Theorem generated_signature_is_accepted (secret signature : jsstring) (payload : list N)
    (event delivery : jsstring) (ip : option jsstring) :
  secret <> [] ->
  event <> [] ->
  delivery <> [] ->
  TestWebhook.generateSignature R payload secret = Ok signature ->
  Validator.validateGitHubWebhook R (Some secret)
    (Request.mk (Some signature) (Some event) (Some delivery) ip (BodyBuffer payload))
  = Continue (WebhookInfo.mk event delivery (Some signature)).
Proof.
  intros Hsecret Hevent Hdelivery Hsign.
  unfold TestWebhook.generateSignature, and_then in Hsign.
  destruct (Runtime.createHmac R secret (BodyBuffer payload)) as [digest|e] eqn:Hmac;
    [|discriminate].
  assert (Hsig : signature = js "sha256=" ++ digest) by (injection Hsign; auto).
  subst signature.
  assert (Hv : Validator.verifySignature R (BodyBuffer payload) (js "sha256=" ++ digest)
                 secret = true).
  { apply verifySignature_true. exists digest, digest. now split. }
  assert (Hs : Controller.missing (Some secret) = false)
    by (destruct secret; [congruence|reflexivity]).
  assert (He : Controller.missing (Some event) = false)
    by (destruct event; [congruence|reflexivity]).
  assert (Hd : Controller.missing (Some delivery) = false)
    by (destruct delivery; [congruence|reflexivity]).
  assert (Hg : Controller.missing (@Some jsstring (js "sha256=" ++ digest)) = false)
    by reflexivity.
  unfold Validator.validateGitHubWebhook.
  lazy beta iota zeta delta [Request.signature Request.event Request.delivery Request.body].
  rewrite Hs, He, Hd, Hg.
  lazy beta iota zeta delta [negb Validator.text]. rewrite Hv. reflexivity.
Qed.

End SignatureRoundTrip.

Lemma generated_signature_is_accepted_sample :
  Validator.validateGitHubWebhook Sample4.runtime (Some (js "test-secret"))
    (Request.mk (Some (js "sha256=00c0ffee")) (Some (js "ping")) (Some (js "test-1700000000000"))
       None (BodyBuffer Sample3.one_comment_text))
  = Continue (WebhookInfo.mk (js "ping") (js "test-1700000000000")
                (Some (js "sha256=00c0ffee"))).
Proof.
  apply (generated_signature_is_accepted Sample4.runtime (js "test-secret")
           (js "sha256=00c0ffee") Sample3.one_comment_text (js "ping")
           (js "test-1700000000000") None).
  - discriminate.
  - discriminate.
  - discriminate.
  - reflexivity.
Defined.

Lemma database_retries_bounded_sample :
  Database.gave_up = Database.gave_up
  /\ Database.retryCount
       (snd (Database.run
               (Database.CallConnect (Throw (Error_ (js "connect ECONNREFUSED")))
                :: Database.failing (repeat (Error_ (js "connect ECONNREFUSED")) 4))
               Database.initial))
     = Database.maxRetries
  /\ Database.isConnected
       (snd (Database.run
               (Database.CallConnect (Throw (Error_ (js "connect ECONNREFUSED")))
                :: Database.failing (repeat (Error_ (js "connect ECONNREFUSED")) 4))
               Database.initial))
     = false
  /\ exists error,
       Database.TimerFires (Throw (Error_ (js "connect ECONNREFUSED")))
       = Database.CallConnect (Throw error)
       \/ Database.TimerFires (Throw (Error_ (js "connect ECONNREFUSED")))
          = Database.TimerFires (Throw error).
Proof.
  apply (database_retries_bounded
           (Database.CallConnect (Throw (Error_ (js "connect ECONNREFUSED")))
            :: Database.failing (repeat (Error_ (js "connect ECONNREFUSED")) 4))
           (Database.TimerFires (Throw (Error_ (js "connect ECONNREFUSED"))))
           Database.gave_up).
  reflexivity.
Defined.


(** ** The store over the life of the service *)

Section Service.

Variable E : Env.

Lemma continues_refl (r : Review.t) : continues r r.
Proof. unfold continues. repeat split. lia. Qed.

Lemma upsert_keeps (l : list Review.t) (d r : Review.t) :
  In r l ->
  In r (upsert d l) \/ (Review._id r = Review._id d /\ In d (upsert d l)).
Proof.
  intros Hin. unfold upsert.
  destruct (existsb (fun x => Review._id x =? Review._id d) l).
  - destruct (Review._id r =? Review._id d) eqn:Hid.
    + right. split; [now apply Nat.eqb_eq|].
      apply in_map_iff. exists r. now rewrite Hid.
    + left. apply in_map_iff. exists r. now rewrite Hid.
  - left. apply in_or_app. now left.
Qed.

(** Saving a document that continues the documents of its id keeps
    every record going. *)
Lemma upsert_continues (l : list Review.t) (d r : Review.t) :
  (forall x, In x l -> Review._id x = Review._id d -> continues x d) ->
  In r l ->
  exists r', In r' (upsert d l) /\ continues r r'.
Proof.
  intros Hd Hin. destruct (upsert_keeps l d r Hin) as [Hr | [Hid Hdin]].
  - exists r. split; [exact Hr|apply continues_refl].
  - exists d. split; [exact Hdin|]. now apply Hd.
Qed.

Lemma step_keeps_records (op : Op) (w : World) :
  unique_records w ->
  unique_records (step E op w)
  /\ forall r, In r (reviews w) ->
               exists r', In r' (reviews (step E op w)) /\ continues r r'.
Proof.
  intros Huniq.
  assert (Hsame : forall r, In r (reviews w) -> exists r', In r' (reviews w) /\ continues r r')
    by (intros r Hr; exists r; split; [exact Hr|apply continues_refl]).
  destruct op as [p|prId owner repo|owner repo pullNumber reviewId|prId owner repo];
    cbn [step].
  - split; [now apply handlePullRequest_unique|].
    rewrite handlePullRequest_run.
    destruct (negb (existsb (eqb_str (Payload.action p)) Controller.relevantActions));
      [exact Hsame|].
    destruct (find _ (reviews w)) as [r0|] eqn:Hfind.
    + destruct (Status_eqb (Review.status r0) completed
                && negb (eqb_str (Payload.action p) (js "synchronize"))); [exact Hsame|].
      destruct (Payload.draft p); [exact Hsame|].
      cbv zeta. cbn [snd reviews]. intros r Hr.
      apply upsert_continues; [|exact Hr].
      intros x Hx Hid. apply find_some in Hfind as [Hin0 _].
      assert (x = r0)
        by (apply (NoDup_map_eq Review._id (reviews w)); [apply Huniq|exact Hx|exact Hin0|
            exact Hid]).
      subst x. unfold continues. cbn. repeat split. lia.
    + destruct (Payload.draft p); [exact Hsame|].
      cbv zeta. destruct (refused E _ (reviews w)); [exact Hsame|].
      cbn [snd reviews]. intros r Hr.
      apply upsert_continues; [|exact Hr].
      intros x Hx Hid. exfalso. destruct Huniq as (_ & _ & Hlt).
      rewrite Forall_forall in Hlt. apply Hlt in Hx. cbn in Hid. lia.
  - split; [now apply retryReview_unique|].
    rewrite retryReview_run.
    destruct (Controller.missing owner || Controller.missing repo); [exact Hsame|].
    cbv zeta.
    destruct (find _ (reviews w)) as [r0|] eqn:Hfind; [|exact Hsame].
    destruct (Status_eqb (Review.status r0) completed); [exact Hsame|].
    destruct (Status_eqb (Review.status r0) in_progress); [exact Hsame|].
    cbn [snd reviews]. intros r Hr.
    apply upsert_continues; [|exact Hr].
    intros x Hx Hid. apply find_some in Hfind as [Hin0 _].
    assert (x = r0)
      by (apply (NoDup_map_eq Review._id (reviews w)); [apply Huniq|exact Hx|exact Hin0|
          exact Hid]).
    subst x. unfold continues. cbn. repeat split. lia.
  - destruct (run_identities E owner repo pullNumber reviewId w Huniq) as [Hmap Hnext].
    split; [now apply (unique_records_identity w)|].
    intros r Hr.
    assert (Hin : In (identity r) (map identity (reviews w))) by now apply in_map.
    rewrite <- Hmap in Hin. apply in_map_iff in Hin as (r' & Hid & Hr').
    exists r'. split; [exact Hr'|].
    unfold continues, key, identity in *. injection Hid as -> -> _ -> -> _ ->.
    repeat split. lia.
  - unfold Endpoints.getReviewStatus.
    destruct (Controller.missing owner || Controller.missing repo); [now split|].
    unfold bind, findByPR, gets. destruct (find _ (reviews w)); now split.
Qed.

(** X24. Over the life of the service, whatever events, retry
    requests, review runs and status requests follow one another, and
    whatever GitHub and Gemini answer, a store that starts with unique
    ids and keys keeps them unique, and no record is lost: every record
    is still there under its id and its key (owner, repo and
    pull-request number), with a retry counter that has not gone
    down. *)
Theorem service_keeps_records (ops : list Op) (w : World) :
  unique_records w ->
  unique_records (steps E ops w)
  /\ forall r, In r (reviews w) ->
               exists r', In r' (reviews (steps E ops w)) /\ continues r r'.
Proof.
  revert w. induction ops as [|op ops IH]; intros w Huniq.
  - split; [exact Huniq|]. intros r Hr. exists r. split; [exact Hr|apply continues_refl].
  - cbn [steps]. destruct (step_keeps_records op w Huniq) as [Huniq' Hkept].
    destruct (IH _ Huniq') as [Hfinal Hkept']. split; [exact Hfinal|].
    intros r Hr. destruct (Hkept r Hr) as (r1 & Hr1 & (Hid1 & Hkey1 & Hcount1)).
    destruct (Hkept' r1 Hr1) as (r2 & Hr2 & (Hid2 & Hkey2 & Hcount2)).
    exists r2. split; [exact Hr2|]. unfold continues. repeat split; try congruence. lia.
Qed.

End Service.

Lemma service_keeps_records_sample :
  unique_records
    (steps (Sample.env Sample.gemini_bad_key)
       [OpRetry 7 (Some (js "octo")) (Some (js "demo"));
        OpRun (js "octo") (js "demo") 7 1;
        OpEvent Sample.synchronize;
        OpStatus 7 (Some (js "octo")) (Some (js "demo"))]
       (Sample.world_with Sample.failed_record))
  /\ forall r, In r (reviews (Sample.world_with Sample.failed_record)) ->
               exists r',
                 In r' (reviews
                          (steps (Sample.env Sample.gemini_bad_key)
                             [OpRetry 7 (Some (js "octo")) (Some (js "demo"));
                              OpRun (js "octo") (js "demo") 7 1;
                              OpEvent Sample.synchronize;
                              OpStatus 7 (Some (js "octo")) (Some (js "demo"))]
                             (Sample.world_with Sample.failed_record)))
                 /\ continues r r'.
Proof.
  apply (service_keeps_records (Sample.env Sample.gemini_bad_key)).
  unfold unique_records. cbn [Sample.world_with reviews nextId map].
  split; [|split].
  - constructor; [intros []|constructor].
  - constructor; [intros []|constructor].
  - constructor; [cbn; lia|constructor].
Defined.
